(** * The CloudTik cluster scaler, embedded from
      [python/cloudtik/core/_private/cluster/cluster_scaler.py]

    The reconciler class [StandardClusterScaler] is a Python object whose
    methods mutate [self] and may raise.  It is embedded as functions over an
    explicit record [Scaler] of the attributes of [self], in a small state and
    exception monad: a state change made before an exception is raised stays
    made, as in Python.

    Conventions.
    - Python dictionaries that the code iterates over keep their insertion
      order ([odict]); dictionaries that are only looked up are [gmap]s.
    - [d[k]] on a missing key raises [KeyError]; [d.get(k, v)] does not.
    - Time stamps ([time.time()], floats in the source) are integers, in
      seconds.
    - A string is the sequence of its code points, each below 256; where
      the code prints one with [repr], the text is that of CPython.
    - Collaborators whose code is not part of
      [cluster_scaler.py] (hashing, validation, bin packing, the node updater
      thread) are the fields of the class [Collaborators]. *)

From Stdlib Require Import ZArith String List Qcanon.
From stdpp Require Import base decidable option list gmap strings numbers sorting.

Local Open Scope Z_scope.

(** ** Python values used by the scaler *)

Abbreviation NodeID := string.
Abbreviation NodeIP := string.
Abbreviation NodeType := string.
Abbreviation Hash := string.

(** An insertion-ordered dictionary with string keys. *)
Abbreviation odict V := (list (string * V)).

Module OD.
Section ODict.
Context {V : Type}.

Fixpoint get (k : string) (d : odict V) : option V :=
match d with
| [] => None
| (k', v) :: d' => if decide (k = k') then Some v else get k d'
end.

Definition mem (k : string) (d : odict V) : bool :=
match get k d with Some _ => true | None => false end.

(** [d[k] = v]: an existing key keeps its position. *)
Fixpoint set (k : string) (v : V) (d : odict V) : odict V :=
match d with
| [] => [(k, v)]
| (k', v') :: d' =>
    if decide (k = k') then (k, v) :: d' else (k', v') :: set k v d'
end.

(** [del d[k]] for a key that is present. *)
Fixpoint del (k : string) (d : odict V) : odict V :=
match d with
| [] => []
| (k', v') :: d' =>
    if decide (k = k') then d' else (k', v') :: del k d'
end.

Definition keys (d : odict V) : list string := d.*1.

Definition values (d : odict V) : list V := d.*2.
End ODict.
End OD.

(** Exceptions the embedded code can raise. *)
Inductive exn :=
| KeyError (key : string)
| AttributeError (attr : string)
| ValueError (msg : string)
| IndexError
| Exception (msg : string).

Inductive result (A : Type) :=
| Ok (a : A)
| Raise (e : exn).
Arguments Ok {A} a.
Arguments Raise {A} e.

(** ** The state and exception monad *)

Definition M (S A : Type) : Type := S -> S * result A.

Definition ret {S A} (a : A) : M S A := fun s => (s, Ok a).

Definition raise {S A} (e : exn) : M S A := fun s => (s, Raise e).

Definition bind {S A B} (m : M S A) (k : A -> M S B) : M S B :=
  fun s =>
    match m s with
    | (s', Ok a) => k a s'
    | (s', Raise e) => (s', Raise e)
    end.

Definition gets {S A} (f : S -> A) : M S A := fun s => (s, Ok (f s)).

Definition modify {S} (f : S -> S) : M S unit := fun s => (f s, Ok tt).

(** A computation that reads the state and may raise, but changes nothing. *)
Definition lift {S A} (f : S -> result A) : M S A := fun s => (s, f s).

(** [try: m except Exception as e: h e]. *)
Definition try_except {S A} (m : M S A) (h : exn -> M S A) : M S A :=
  fun s =>
    match m s with
    | (s', Ok a) => (s', Ok a)
    | (s', Raise e) => h e s'
    end.

Declare Scope py_scope.
Delimit Scope py_scope with py.
Notation "x <- m ;; k" := (bind m (fun x => k))
  (at level 100, m at next level, right associativity) : py_scope.
Notation "m ;;; k" := (bind m (fun _ => k))
  (at level 100, right associativity) : py_scope.

(** [for x in l: body x]. *)
Fixpoint for_each {S A} (l : list A) (body : A -> M S unit) : M S unit :=
  match l with
  | [] => ret tt
  | x :: l' => (body x ;;; for_each l' body)%py
  end.

(** Results of computations that do not touch the state. *)
Definition rbind {A B} (r : result A) (k : A -> result B) : result B :=
  match r with
  | Ok a => k a
  | Raise e => Raise e
  end.

(** [d[k]] on an optional field of a configuration document. *)
Definition subscript {A} (key : string) (o : option A) : result A :=
  match o with
  | Some a => Ok a
  | None => Raise (KeyError key)
  end.

(** [self.name] for an attribute that may not have been assigned yet. *)
Definition attribute {A} (name : string) (o : option A) : result A :=
  match o with
  | Some a => Ok a
  | None => Raise (AttributeError name)
  end.

(** ** Node tags

    Modelled from the spec: [cloudtik/core/tags.py] is not among the sources;
    the tag keys bear the attribute names of the specification's data model
    and the tag values its kind and status names. *)
Definition CLOUDTIK_TAG_NODE_KIND : string := "kind".
Definition CLOUDTIK_TAG_USER_NODE_TYPE : string := "user_node_type".
Definition CLOUDTIK_TAG_NODE_STATUS : string := "status".
Definition CLOUDTIK_TAG_LAUNCH_CONFIG : string := "launch_config_hash".
Definition CLOUDTIK_TAG_RUNTIME_CONFIG : string := "runtime_config_hash".
Definition CLOUDTIK_TAG_FILE_MOUNTS_CONTENTS : string :=
  "file_mounts_contents_hash".
Definition NODE_KIND_HEAD : string := "head".
Definition NODE_KIND_WORKER : string := "worker".
Definition NODE_KIND_UNMANAGED : string := "unmanaged".
Definition STATUS_UP_TO_DATE : string := "up-to-date".
Definition STATUS_UPDATE_FAILED : string := "update-failed".

Abbreviation Tags := (gmap string string).
Abbreviation ResourceDict := (gmap string Z).
Abbreviation Blob := (gmap string string).

(** ** The cluster configuration document

    One field per key that the scaler reads; [None] is a missing key. *)
Record ProviderConfig := {
  provider_type : option string;
  provider_disable_node_updaters : option bool;
  provider_disable_launch_config_check : option bool;
}.

Record NodeTypeConfig := {
  nt_node_config : option Blob;
  nt_resources : option ResourceDict;
  nt_min_workers : option Z;
  nt_max_workers : option Z;
  nt_worker_setup_commands : option (list string);
  nt_initialization_commands : option (list string);
  nt_docker : option Blob;
}.

Record Config := {
  cfg_cluster_name : option string;
  cfg_provider : option ProviderConfig;
  cfg_auth : option Blob;
  cfg_docker : option Blob;
  cfg_available_node_types : option (odict NodeTypeConfig);
  cfg_head_node_type : option string;
  cfg_max_workers : option Z;
  cfg_idle_timeout_minutes : option Z;
  cfg_upscaling_speed : option Qc;
  cfg_file_mounts : option (odict string);
  cfg_cluster_synced_files : option (list string);
  cfg_file_mounts_sync_continuously : option bool;
  cfg_worker_setup_commands : option (list string);
  cfg_worker_start_commands : option (list string);
  cfg_initialization_commands : option (list string);
  cfg_restart_only : option bool;
  cfg_no_restart : option bool;
}.

#[global] Instance ProviderConfig_eq_dec : EqDecision ProviderConfig.
Proof. solve_decision. Defined.

#[global] Instance NodeTypeConfig_eq_dec : EqDecision NodeTypeConfig.
Proof. solve_decision. Defined.

(** Python compares dictionaries without regard to the order of their keys:
    two ordered dictionaries are compared through their lookup tables. *)
Definition dict_view {V} (d : odict V) : gmap string V := list_to_map d.

Definition config_view (c : Config) :=
  (cfg_cluster_name c, cfg_provider c, cfg_auth c, cfg_docker c,
   dict_view <$> cfg_available_node_types c, cfg_head_node_type c,
   cfg_max_workers c, cfg_idle_timeout_minutes c, cfg_upscaling_speed c,
   dict_view <$> cfg_file_mounts c, cfg_cluster_synced_files c,
   cfg_file_mounts_sync_continuously c, cfg_worker_setup_commands c,
   cfg_worker_start_commands c, cfg_initialization_commands c,
   cfg_restart_only c, cfg_no_restart c).

(** [c1 == c2] on configuration documents. *)
Definition config_eqb (c1 c2 : Config) : bool :=
  bool_decide (config_view c1 = config_view c2).

(** ** The node provider, as far as the scaler observes it *)
Record Provider := {
  non_terminated_nodes : list NodeID;
  node_tags : NodeID -> Tags;
  internal_ip : NodeID -> NodeIP;
  is_local_node_provider : bool;
  local_head_state_recorded : bool;
  (** the arguments of the [terminate_nodes] calls so far, oldest first *)
  terminate_calls : list (list NodeID);
}.

Definition provider_terminate_nodes (ids : list NodeID) (p : Provider)
  : Provider :=
  {| non_terminated_nodes := non_terminated_nodes p;
     node_tags := node_tags p;
     internal_ip := internal_ip p;
     is_local_node_provider := is_local_node_provider p;
     local_head_state_recorded := local_head_state_recorded p;
     terminate_calls := terminate_calls p ++ [ids] |}.

Definition record_local_head_state (p : Provider) : Provider :=
  {| non_terminated_nodes := non_terminated_nodes p;
     node_tags := node_tags p;
     internal_ip := internal_ip p;
     is_local_node_provider := is_local_node_provider p;
     local_head_state_recorded := true;
     terminate_calls := terminate_calls p |}.

(** ** Load metrics

    Modelled from the spec: [cloudtik/core/_private/cluster/load_metrics.py]
    is not among the sources.  The specification's load-metrics view has the
    two time tables by ip, the explicit resource requests and the static
    capacities, and [mark_active(ip)], which bumps the last heartbeat and the
    last use of [ip] to the current time. *)
Record LoadMetrics := {
  last_used_time_by_ip : gmap NodeIP Z;
  last_heartbeat_time_by_ip : gmap NodeIP Z;
  resource_requests : list ResourceDict;
  static_node_resources_by_ip : gmap NodeIP ResourceDict;
}.

Definition mark_active (ip : NodeIP) (t : Z) (lm : LoadMetrics) : LoadMetrics :=
  {| last_used_time_by_ip := <[ip := t]> (last_used_time_by_ip lm);
     last_heartbeat_time_by_ip := <[ip := t]> (last_heartbeat_time_by_ip lm);
     resource_requests := resource_requests lm;
     static_node_resources_by_ip := static_node_resources_by_ip lm |}.

(** ** Node tracker

    Modelled from the spec: [cloudtik/core/_private/cluster/node_tracker.py]
    is not among the sources.  The specification describes a bounded map from
    node id to (ip, type), most recently tracked first, where [track] moves an
    id to the front and [untrack] removes it; the bound is [capacity]. *)
Record NodeTracker := {
  capacity : nat;
  tracked : list (NodeID * (NodeIP * NodeType));
}.

Definition track (node_id : NodeID) (ip : NodeIP) (node_type : NodeType)
    (t : NodeTracker) : NodeTracker :=
  {| capacity := capacity t;
     tracked := take (capacity t)
                  ((node_id, (ip, node_type)) :: OD.del node_id (tracked t)) |}.

Definition untrack (node_id : NodeID) (t : NodeTracker) : NodeTracker :=
  {| capacity := capacity t;
     tracked := filter (fun e => e.1 ≠ node_id) (tracked t) |}.

(** ** Updater threads

    [NodeUpdaterThread] ([cloudtik/core/_private/node/node_updater.py]) is not
    among the sources; the record keeps the constructor arguments the scaler
    chooses and the three attributes it reads back.  The thread runs on its
    own: [is_alive], [exitcode] and [update_time] change behind the scaler's
    back (see [thread_exit]). *)
Record NodeUpdaterThread := {
  u_node_id : NodeID;
  u_for_recovery : bool;
  u_file_mounts : odict string;
  u_initialization_commands : list string;
  u_setup_commands : list string;
  u_start_commands : list string;
  u_runtime_hash : Hash;
  u_file_mounts_contents_hash : option Hash;
  u_docker_config : option Blob;
  u_node_resources : ResourceDict;
  is_alive : bool;
  exitcode : Z;
  update_time : option Z;
}.

(** ** What the scaler reports *)
Record ClusterScalerSummary := {
  active_nodes : odict Z;
  pending_nodes : list (NodeIP * NodeType * string);
  summary_pending_launches : odict Z;
  failed_nodes : list (NodeIP * NodeType);
}.

Inductive level := DEBUG | INFO | WARNING | ERROR | CRITICAL.

Inductive LogMessage :=
| Terminating (node_id : NodeID) (node_ip : NodeIP) (reason : string)
| InconsistentConfig (wanted : Z) (safe : nat)
| ValidationFailed (e : exn)
| ErrorParsingConfig (e : exn)
| AlreadyTerminated (node_id : NodeID)
| NoRecentHeartbeat (node_id : NodeID)
| CreatingUpdater (node_id : NodeID)
| StartingThreadRunner (node_id : NodeID)
| CanUpdate (node_id : NodeID)
| RuntimeState (node_id : NodeID) (applied : option Hash * option Hash)
    (wanted : Hash * option Hash).

Abbreviation LogRecord := (level * LogMessage)%type.

(** The Prometheus counters and gauges the embedded methods touch. *)
Record Metrics := {
  config_validation_exceptions : Z;
  reset_exceptions : Z;
  update_loop_exceptions : Z;
  successful_updates : Z;
  failed_updates : Z;
  successful_recoveries : Z;
  failed_recoveries : Z;
  stopped_nodes : Z;
  running_workers : Z;
  worker_update_time : list Z;
}.

Definition inc_config_validation_exceptions (m : Metrics) : Metrics :=
  {| config_validation_exceptions := config_validation_exceptions m + 1;
     reset_exceptions := reset_exceptions m;
     update_loop_exceptions := update_loop_exceptions m;
     successful_updates := successful_updates m;
     failed_updates := failed_updates m;
     successful_recoveries := successful_recoveries m;
     failed_recoveries := failed_recoveries m;
     stopped_nodes := stopped_nodes m; running_workers := running_workers m;
     worker_update_time := worker_update_time m |}.

Definition inc_reset_exceptions (m : Metrics) : Metrics :=
  {| config_validation_exceptions := config_validation_exceptions m;
     reset_exceptions := reset_exceptions m + 1;
     update_loop_exceptions := update_loop_exceptions m;
     successful_updates := successful_updates m;
     failed_updates := failed_updates m;
     successful_recoveries := successful_recoveries m;
     failed_recoveries := failed_recoveries m;
     stopped_nodes := stopped_nodes m; running_workers := running_workers m;
     worker_update_time := worker_update_time m |}.

Definition inc_update_loop_exceptions (m : Metrics) : Metrics :=
  {| config_validation_exceptions := config_validation_exceptions m;
     reset_exceptions := reset_exceptions m;
     update_loop_exceptions := update_loop_exceptions m + 1;
     successful_updates := successful_updates m;
     failed_updates := failed_updates m;
     successful_recoveries := successful_recoveries m;
     failed_recoveries := failed_recoveries m;
     stopped_nodes := stopped_nodes m; running_workers := running_workers m;
     worker_update_time := worker_update_time m |}.

Definition inc_successful_updates (m : Metrics) : Metrics :=
  {| config_validation_exceptions := config_validation_exceptions m;
     reset_exceptions := reset_exceptions m;
     update_loop_exceptions := update_loop_exceptions m;
     successful_updates := successful_updates m + 1;
     failed_updates := failed_updates m;
     successful_recoveries := successful_recoveries m;
     failed_recoveries := failed_recoveries m;
     stopped_nodes := stopped_nodes m; running_workers := running_workers m;
     worker_update_time := worker_update_time m |}.

Definition inc_failed_updates (m : Metrics) : Metrics :=
  {| config_validation_exceptions := config_validation_exceptions m;
     reset_exceptions := reset_exceptions m;
     update_loop_exceptions := update_loop_exceptions m;
     successful_updates := successful_updates m;
     failed_updates := failed_updates m + 1;
     successful_recoveries := successful_recoveries m;
     failed_recoveries := failed_recoveries m;
     stopped_nodes := stopped_nodes m; running_workers := running_workers m;
     worker_update_time := worker_update_time m |}.

Definition inc_successful_recoveries (m : Metrics) : Metrics :=
  {| config_validation_exceptions := config_validation_exceptions m;
     reset_exceptions := reset_exceptions m;
     update_loop_exceptions := update_loop_exceptions m;
     successful_updates := successful_updates m;
     failed_updates := failed_updates m;
     successful_recoveries := successful_recoveries m + 1;
     failed_recoveries := failed_recoveries m;
     stopped_nodes := stopped_nodes m; running_workers := running_workers m;
     worker_update_time := worker_update_time m |}.

Definition inc_failed_recoveries (m : Metrics) : Metrics :=
  {| config_validation_exceptions := config_validation_exceptions m;
     reset_exceptions := reset_exceptions m;
     update_loop_exceptions := update_loop_exceptions m;
     successful_updates := successful_updates m;
     failed_updates := failed_updates m;
     successful_recoveries := successful_recoveries m;
     failed_recoveries := failed_recoveries m + 1;
     stopped_nodes := stopped_nodes m; running_workers := running_workers m;
     worker_update_time := worker_update_time m |}.

Definition inc_stopped_nodes (m : Metrics) : Metrics :=
  {| config_validation_exceptions := config_validation_exceptions m;
     reset_exceptions := reset_exceptions m;
     update_loop_exceptions := update_loop_exceptions m;
     successful_updates := successful_updates m;
     failed_updates := failed_updates m;
     successful_recoveries := successful_recoveries m;
     failed_recoveries := failed_recoveries m;
     stopped_nodes := stopped_nodes m + 1;
     running_workers := running_workers m;
     worker_update_time := worker_update_time m |}.

Definition set_running_workers (v : Z) (m : Metrics) : Metrics :=
  {| config_validation_exceptions := config_validation_exceptions m;
     reset_exceptions := reset_exceptions m;
     update_loop_exceptions := update_loop_exceptions m;
     successful_updates := successful_updates m;
     failed_updates := failed_updates m;
     successful_recoveries := successful_recoveries m;
     failed_recoveries := failed_recoveries m;
     stopped_nodes := stopped_nodes m; running_workers := v;
     worker_update_time := worker_update_time m |}.

Definition observe_worker_update_time (v : Z) (m : Metrics) : Metrics :=
  {| config_validation_exceptions := config_validation_exceptions m;
     reset_exceptions := reset_exceptions m;
     update_loop_exceptions := update_loop_exceptions m;
     successful_updates := successful_updates m;
     failed_updates := failed_updates m;
     successful_recoveries := successful_recoveries m;
     failed_recoveries := failed_recoveries m;
     stopped_nodes := stopped_nodes m; running_workers := running_workers m;
     worker_update_time := worker_update_time m ++ [v] |}.

(** ** Views the scaler keeps between calls *)
Record NonTerminatedNodes := {
  all_node_ids : list NodeID;
  worker_ids : list NodeID;
  head_id : option NodeID;
}.

(** [ResourceDemandScheduler] is not among the sources; what [reset] hands to
    its constructor and to [reset_config] is kept. *)
Record ResourceDemandScheduler := {
  rds_node_types : odict NodeTypeConfig;
  rds_max_workers : Z;
  rds_head_node_type : string;
  rds_upscaling_speed : Qc;
}.

(** ** The scaler object *)
Record Scaler := {
  (** [self.config]; unset before the first successful load *)
  config : option Config;
  runtime_hash : option Hash;
  (** unset, [None] or a hash *)
  file_mounts_contents_hash : option (option Hash);
  provider : option Provider;
  available_node_types : option (odict NodeTypeConfig);
  resource_demand_scheduler : option ResourceDemandScheduler;
  load_metrics : LoadMetrics;
  prometheus_metrics : Metrics;
  (** templates and quantities passed to [event_summarizer.add] *)
  event_summarizer : list (string * Z);
  (** the records logged so far, oldest first *)
  logger : list LogRecord;
  (** node id to updater thread object *)
  updaters : odict nat;
  num_failed_updates : gmap NodeID Z;
  num_successful_updates : gmap NodeID Z;
  num_failures : Z;
  max_failures : Z;
  last_update_time : Z;
  update_interval_s : Z;
  (** [self.non_terminated_nodes] *)
  non_terminated : option NonTerminatedNodes;
  nodes_to_terminate : list NodeID;
  disable_node_updaters : bool;
  disable_launch_config_check : bool;
  node_tracker : NodeTracker;
  (** [self.pending_launches.breakdown()]: launches requested, by node type *)
  pending_launches : odict Z;
  (** the updater thread objects created so far; an object is named by its position *)
  threads : list NodeUpdaterThread;
  (** what [time.time()] returns *)
  clock : Z;
}.

(** Assignments to the attributes of [self]. *)
Definition set_config (v : option Config) (s : Scaler) : Scaler :=
  {| config := v; runtime_hash := runtime_hash s;
     file_mounts_contents_hash := file_mounts_contents_hash s;
     provider := provider s; available_node_types := available_node_types s;
     resource_demand_scheduler := resource_demand_scheduler s;
     load_metrics := load_metrics s;
     prometheus_metrics := prometheus_metrics s;
     event_summarizer := event_summarizer s; logger := logger s;
     updaters := updaters s; num_failed_updates := num_failed_updates s;
     num_successful_updates := num_successful_updates s;
     num_failures := num_failures s; max_failures := max_failures s;
     last_update_time := last_update_time s;
     update_interval_s := update_interval_s s;
     non_terminated := non_terminated s;
     nodes_to_terminate := nodes_to_terminate s;
     disable_node_updaters := disable_node_updaters s;
     disable_launch_config_check := disable_launch_config_check s;
     node_tracker := node_tracker s; pending_launches := pending_launches s;
     threads := threads s; clock := clock s |}.

Definition set_runtime_hash (v : option Hash) (s : Scaler) : Scaler :=
  {| config := config s; runtime_hash := v;
     file_mounts_contents_hash := file_mounts_contents_hash s;
     provider := provider s; available_node_types := available_node_types s;
     resource_demand_scheduler := resource_demand_scheduler s;
     load_metrics := load_metrics s;
     prometheus_metrics := prometheus_metrics s;
     event_summarizer := event_summarizer s; logger := logger s;
     updaters := updaters s; num_failed_updates := num_failed_updates s;
     num_successful_updates := num_successful_updates s;
     num_failures := num_failures s; max_failures := max_failures s;
     last_update_time := last_update_time s;
     update_interval_s := update_interval_s s;
     non_terminated := non_terminated s;
     nodes_to_terminate := nodes_to_terminate s;
     disable_node_updaters := disable_node_updaters s;
     disable_launch_config_check := disable_launch_config_check s;
     node_tracker := node_tracker s; pending_launches := pending_launches s;
     threads := threads s; clock := clock s |}.

Definition set_file_mounts_contents_hash (v : option (option Hash)) (s : Scaler) : Scaler :=
  {| config := config s; runtime_hash := runtime_hash s;
     file_mounts_contents_hash := v; provider := provider s;
     available_node_types := available_node_types s;
     resource_demand_scheduler := resource_demand_scheduler s;
     load_metrics := load_metrics s;
     prometheus_metrics := prometheus_metrics s;
     event_summarizer := event_summarizer s; logger := logger s;
     updaters := updaters s; num_failed_updates := num_failed_updates s;
     num_successful_updates := num_successful_updates s;
     num_failures := num_failures s; max_failures := max_failures s;
     last_update_time := last_update_time s;
     update_interval_s := update_interval_s s;
     non_terminated := non_terminated s;
     nodes_to_terminate := nodes_to_terminate s;
     disable_node_updaters := disable_node_updaters s;
     disable_launch_config_check := disable_launch_config_check s;
     node_tracker := node_tracker s; pending_launches := pending_launches s;
     threads := threads s; clock := clock s |}.

Definition set_provider (v : option Provider) (s : Scaler) : Scaler :=
  {| config := config s; runtime_hash := runtime_hash s;
     file_mounts_contents_hash := file_mounts_contents_hash s; provider := v;
     available_node_types := available_node_types s;
     resource_demand_scheduler := resource_demand_scheduler s;
     load_metrics := load_metrics s;
     prometheus_metrics := prometheus_metrics s;
     event_summarizer := event_summarizer s; logger := logger s;
     updaters := updaters s; num_failed_updates := num_failed_updates s;
     num_successful_updates := num_successful_updates s;
     num_failures := num_failures s; max_failures := max_failures s;
     last_update_time := last_update_time s;
     update_interval_s := update_interval_s s;
     non_terminated := non_terminated s;
     nodes_to_terminate := nodes_to_terminate s;
     disable_node_updaters := disable_node_updaters s;
     disable_launch_config_check := disable_launch_config_check s;
     node_tracker := node_tracker s; pending_launches := pending_launches s;
     threads := threads s; clock := clock s |}.

Definition set_available_node_types (v : option (odict NodeTypeConfig)) (s : Scaler) : Scaler :=
  {| config := config s; runtime_hash := runtime_hash s;
     file_mounts_contents_hash := file_mounts_contents_hash s;
     provider := provider s; available_node_types := v;
     resource_demand_scheduler := resource_demand_scheduler s;
     load_metrics := load_metrics s;
     prometheus_metrics := prometheus_metrics s;
     event_summarizer := event_summarizer s; logger := logger s;
     updaters := updaters s; num_failed_updates := num_failed_updates s;
     num_successful_updates := num_successful_updates s;
     num_failures := num_failures s; max_failures := max_failures s;
     last_update_time := last_update_time s;
     update_interval_s := update_interval_s s;
     non_terminated := non_terminated s;
     nodes_to_terminate := nodes_to_terminate s;
     disable_node_updaters := disable_node_updaters s;
     disable_launch_config_check := disable_launch_config_check s;
     node_tracker := node_tracker s; pending_launches := pending_launches s;
     threads := threads s; clock := clock s |}.

Definition set_resource_demand_scheduler (v : option ResourceDemandScheduler) (s : Scaler) : Scaler :=
  {| config := config s; runtime_hash := runtime_hash s;
     file_mounts_contents_hash := file_mounts_contents_hash s;
     provider := provider s; available_node_types := available_node_types s;
     resource_demand_scheduler := v; load_metrics := load_metrics s;
     prometheus_metrics := prometheus_metrics s;
     event_summarizer := event_summarizer s; logger := logger s;
     updaters := updaters s; num_failed_updates := num_failed_updates s;
     num_successful_updates := num_successful_updates s;
     num_failures := num_failures s; max_failures := max_failures s;
     last_update_time := last_update_time s;
     update_interval_s := update_interval_s s;
     non_terminated := non_terminated s;
     nodes_to_terminate := nodes_to_terminate s;
     disable_node_updaters := disable_node_updaters s;
     disable_launch_config_check := disable_launch_config_check s;
     node_tracker := node_tracker s; pending_launches := pending_launches s;
     threads := threads s; clock := clock s |}.

Definition set_load_metrics (v : LoadMetrics) (s : Scaler) : Scaler :=
  {| config := config s; runtime_hash := runtime_hash s;
     file_mounts_contents_hash := file_mounts_contents_hash s;
     provider := provider s; available_node_types := available_node_types s;
     resource_demand_scheduler := resource_demand_scheduler s;
     load_metrics := v; prometheus_metrics := prometheus_metrics s;
     event_summarizer := event_summarizer s; logger := logger s;
     updaters := updaters s; num_failed_updates := num_failed_updates s;
     num_successful_updates := num_successful_updates s;
     num_failures := num_failures s; max_failures := max_failures s;
     last_update_time := last_update_time s;
     update_interval_s := update_interval_s s;
     non_terminated := non_terminated s;
     nodes_to_terminate := nodes_to_terminate s;
     disable_node_updaters := disable_node_updaters s;
     disable_launch_config_check := disable_launch_config_check s;
     node_tracker := node_tracker s; pending_launches := pending_launches s;
     threads := threads s; clock := clock s |}.

Definition set_prometheus_metrics (v : Metrics) (s : Scaler) : Scaler :=
  {| config := config s; runtime_hash := runtime_hash s;
     file_mounts_contents_hash := file_mounts_contents_hash s;
     provider := provider s; available_node_types := available_node_types s;
     resource_demand_scheduler := resource_demand_scheduler s;
     load_metrics := load_metrics s; prometheus_metrics := v;
     event_summarizer := event_summarizer s; logger := logger s;
     updaters := updaters s; num_failed_updates := num_failed_updates s;
     num_successful_updates := num_successful_updates s;
     num_failures := num_failures s; max_failures := max_failures s;
     last_update_time := last_update_time s;
     update_interval_s := update_interval_s s;
     non_terminated := non_terminated s;
     nodes_to_terminate := nodes_to_terminate s;
     disable_node_updaters := disable_node_updaters s;
     disable_launch_config_check := disable_launch_config_check s;
     node_tracker := node_tracker s; pending_launches := pending_launches s;
     threads := threads s; clock := clock s |}.

Definition set_event_summarizer (v : list (string * Z)) (s : Scaler) : Scaler :=
  {| config := config s; runtime_hash := runtime_hash s;
     file_mounts_contents_hash := file_mounts_contents_hash s;
     provider := provider s; available_node_types := available_node_types s;
     resource_demand_scheduler := resource_demand_scheduler s;
     load_metrics := load_metrics s;
     prometheus_metrics := prometheus_metrics s; event_summarizer := v;
     logger := logger s; updaters := updaters s;
     num_failed_updates := num_failed_updates s;
     num_successful_updates := num_successful_updates s;
     num_failures := num_failures s; max_failures := max_failures s;
     last_update_time := last_update_time s;
     update_interval_s := update_interval_s s;
     non_terminated := non_terminated s;
     nodes_to_terminate := nodes_to_terminate s;
     disable_node_updaters := disable_node_updaters s;
     disable_launch_config_check := disable_launch_config_check s;
     node_tracker := node_tracker s; pending_launches := pending_launches s;
     threads := threads s; clock := clock s |}.

Definition set_logger (v : list LogRecord) (s : Scaler) : Scaler :=
  {| config := config s; runtime_hash := runtime_hash s;
     file_mounts_contents_hash := file_mounts_contents_hash s;
     provider := provider s; available_node_types := available_node_types s;
     resource_demand_scheduler := resource_demand_scheduler s;
     load_metrics := load_metrics s;
     prometheus_metrics := prometheus_metrics s;
     event_summarizer := event_summarizer s; logger := v;
     updaters := updaters s; num_failed_updates := num_failed_updates s;
     num_successful_updates := num_successful_updates s;
     num_failures := num_failures s; max_failures := max_failures s;
     last_update_time := last_update_time s;
     update_interval_s := update_interval_s s;
     non_terminated := non_terminated s;
     nodes_to_terminate := nodes_to_terminate s;
     disable_node_updaters := disable_node_updaters s;
     disable_launch_config_check := disable_launch_config_check s;
     node_tracker := node_tracker s; pending_launches := pending_launches s;
     threads := threads s; clock := clock s |}.

Definition set_updaters (v : odict nat) (s : Scaler) : Scaler :=
  {| config := config s; runtime_hash := runtime_hash s;
     file_mounts_contents_hash := file_mounts_contents_hash s;
     provider := provider s; available_node_types := available_node_types s;
     resource_demand_scheduler := resource_demand_scheduler s;
     load_metrics := load_metrics s;
     prometheus_metrics := prometheus_metrics s;
     event_summarizer := event_summarizer s; logger := logger s;
     updaters := v; num_failed_updates := num_failed_updates s;
     num_successful_updates := num_successful_updates s;
     num_failures := num_failures s; max_failures := max_failures s;
     last_update_time := last_update_time s;
     update_interval_s := update_interval_s s;
     non_terminated := non_terminated s;
     nodes_to_terminate := nodes_to_terminate s;
     disable_node_updaters := disable_node_updaters s;
     disable_launch_config_check := disable_launch_config_check s;
     node_tracker := node_tracker s; pending_launches := pending_launches s;
     threads := threads s; clock := clock s |}.

Definition set_num_failed_updates (v : gmap NodeID Z) (s : Scaler) : Scaler :=
  {| config := config s; runtime_hash := runtime_hash s;
     file_mounts_contents_hash := file_mounts_contents_hash s;
     provider := provider s; available_node_types := available_node_types s;
     resource_demand_scheduler := resource_demand_scheduler s;
     load_metrics := load_metrics s;
     prometheus_metrics := prometheus_metrics s;
     event_summarizer := event_summarizer s; logger := logger s;
     updaters := updaters s; num_failed_updates := v;
     num_successful_updates := num_successful_updates s;
     num_failures := num_failures s; max_failures := max_failures s;
     last_update_time := last_update_time s;
     update_interval_s := update_interval_s s;
     non_terminated := non_terminated s;
     nodes_to_terminate := nodes_to_terminate s;
     disable_node_updaters := disable_node_updaters s;
     disable_launch_config_check := disable_launch_config_check s;
     node_tracker := node_tracker s; pending_launches := pending_launches s;
     threads := threads s; clock := clock s |}.

Definition set_num_successful_updates (v : gmap NodeID Z) (s : Scaler) : Scaler :=
  {| config := config s; runtime_hash := runtime_hash s;
     file_mounts_contents_hash := file_mounts_contents_hash s;
     provider := provider s; available_node_types := available_node_types s;
     resource_demand_scheduler := resource_demand_scheduler s;
     load_metrics := load_metrics s;
     prometheus_metrics := prometheus_metrics s;
     event_summarizer := event_summarizer s; logger := logger s;
     updaters := updaters s; num_failed_updates := num_failed_updates s;
     num_successful_updates := v; num_failures := num_failures s;
     max_failures := max_failures s; last_update_time := last_update_time s;
     update_interval_s := update_interval_s s;
     non_terminated := non_terminated s;
     nodes_to_terminate := nodes_to_terminate s;
     disable_node_updaters := disable_node_updaters s;
     disable_launch_config_check := disable_launch_config_check s;
     node_tracker := node_tracker s; pending_launches := pending_launches s;
     threads := threads s; clock := clock s |}.

Definition set_num_failures (v : Z) (s : Scaler) : Scaler :=
  {| config := config s; runtime_hash := runtime_hash s;
     file_mounts_contents_hash := file_mounts_contents_hash s;
     provider := provider s; available_node_types := available_node_types s;
     resource_demand_scheduler := resource_demand_scheduler s;
     load_metrics := load_metrics s;
     prometheus_metrics := prometheus_metrics s;
     event_summarizer := event_summarizer s; logger := logger s;
     updaters := updaters s; num_failed_updates := num_failed_updates s;
     num_successful_updates := num_successful_updates s; num_failures := v;
     max_failures := max_failures s; last_update_time := last_update_time s;
     update_interval_s := update_interval_s s;
     non_terminated := non_terminated s;
     nodes_to_terminate := nodes_to_terminate s;
     disable_node_updaters := disable_node_updaters s;
     disable_launch_config_check := disable_launch_config_check s;
     node_tracker := node_tracker s; pending_launches := pending_launches s;
     threads := threads s; clock := clock s |}.

Definition set_last_update_time (v : Z) (s : Scaler) : Scaler :=
  {| config := config s; runtime_hash := runtime_hash s;
     file_mounts_contents_hash := file_mounts_contents_hash s;
     provider := provider s; available_node_types := available_node_types s;
     resource_demand_scheduler := resource_demand_scheduler s;
     load_metrics := load_metrics s;
     prometheus_metrics := prometheus_metrics s;
     event_summarizer := event_summarizer s; logger := logger s;
     updaters := updaters s; num_failed_updates := num_failed_updates s;
     num_successful_updates := num_successful_updates s;
     num_failures := num_failures s; max_failures := max_failures s;
     last_update_time := v; update_interval_s := update_interval_s s;
     non_terminated := non_terminated s;
     nodes_to_terminate := nodes_to_terminate s;
     disable_node_updaters := disable_node_updaters s;
     disable_launch_config_check := disable_launch_config_check s;
     node_tracker := node_tracker s; pending_launches := pending_launches s;
     threads := threads s; clock := clock s |}.

Definition set_non_terminated (v : option NonTerminatedNodes) (s : Scaler) : Scaler :=
  {| config := config s; runtime_hash := runtime_hash s;
     file_mounts_contents_hash := file_mounts_contents_hash s;
     provider := provider s; available_node_types := available_node_types s;
     resource_demand_scheduler := resource_demand_scheduler s;
     load_metrics := load_metrics s;
     prometheus_metrics := prometheus_metrics s;
     event_summarizer := event_summarizer s; logger := logger s;
     updaters := updaters s; num_failed_updates := num_failed_updates s;
     num_successful_updates := num_successful_updates s;
     num_failures := num_failures s; max_failures := max_failures s;
     last_update_time := last_update_time s;
     update_interval_s := update_interval_s s; non_terminated := v;
     nodes_to_terminate := nodes_to_terminate s;
     disable_node_updaters := disable_node_updaters s;
     disable_launch_config_check := disable_launch_config_check s;
     node_tracker := node_tracker s; pending_launches := pending_launches s;
     threads := threads s; clock := clock s |}.

Definition set_nodes_to_terminate (v : list NodeID) (s : Scaler) : Scaler :=
  {| config := config s; runtime_hash := runtime_hash s;
     file_mounts_contents_hash := file_mounts_contents_hash s;
     provider := provider s; available_node_types := available_node_types s;
     resource_demand_scheduler := resource_demand_scheduler s;
     load_metrics := load_metrics s;
     prometheus_metrics := prometheus_metrics s;
     event_summarizer := event_summarizer s; logger := logger s;
     updaters := updaters s; num_failed_updates := num_failed_updates s;
     num_successful_updates := num_successful_updates s;
     num_failures := num_failures s; max_failures := max_failures s;
     last_update_time := last_update_time s;
     update_interval_s := update_interval_s s;
     non_terminated := non_terminated s; nodes_to_terminate := v;
     disable_node_updaters := disable_node_updaters s;
     disable_launch_config_check := disable_launch_config_check s;
     node_tracker := node_tracker s; pending_launches := pending_launches s;
     threads := threads s; clock := clock s |}.

Definition set_node_tracker (v : NodeTracker) (s : Scaler) : Scaler :=
  {| config := config s; runtime_hash := runtime_hash s;
     file_mounts_contents_hash := file_mounts_contents_hash s;
     provider := provider s; available_node_types := available_node_types s;
     resource_demand_scheduler := resource_demand_scheduler s;
     load_metrics := load_metrics s;
     prometheus_metrics := prometheus_metrics s;
     event_summarizer := event_summarizer s; logger := logger s;
     updaters := updaters s; num_failed_updates := num_failed_updates s;
     num_successful_updates := num_successful_updates s;
     num_failures := num_failures s; max_failures := max_failures s;
     last_update_time := last_update_time s;
     update_interval_s := update_interval_s s;
     non_terminated := non_terminated s;
     nodes_to_terminate := nodes_to_terminate s;
     disable_node_updaters := disable_node_updaters s;
     disable_launch_config_check := disable_launch_config_check s;
     node_tracker := v; pending_launches := pending_launches s;
     threads := threads s; clock := clock s |}.

Definition set_threads (v : list NodeUpdaterThread) (s : Scaler) : Scaler :=
  {| config := config s; runtime_hash := runtime_hash s;
     file_mounts_contents_hash := file_mounts_contents_hash s;
     provider := provider s; available_node_types := available_node_types s;
     resource_demand_scheduler := resource_demand_scheduler s;
     load_metrics := load_metrics s;
     prometheus_metrics := prometheus_metrics s;
     event_summarizer := event_summarizer s; logger := logger s;
     updaters := updaters s; num_failed_updates := num_failed_updates s;
     num_successful_updates := num_successful_updates s;
     num_failures := num_failures s; max_failures := max_failures s;
     last_update_time := last_update_time s;
     update_interval_s := update_interval_s s;
     non_terminated := non_terminated s;
     nodes_to_terminate := nodes_to_terminate s;
     disable_node_updaters := disable_node_updaters s;
     disable_launch_config_check := disable_launch_config_check s;
     node_tracker := node_tracker s; pending_launches := pending_launches s;
     threads := v; clock := clock s |}.

(** ** Collaborators

    Functions and constants that [cluster_scaler.py] imports from modules that
    are not among the sources. *)
Class Collaborators := {
  (** [validate_config(config)] returns or raises *)
  validate_config : Config -> result unit;
  (** [hash_runtime_conf(file_mounts, cluster_synced_files, extra_objs,
      generate_file_mounts_contents_hash)] *)
  hash_runtime_conf :
    odict string -> list string -> list (list string) -> bool ->
    result (Hash * option Hash);
  hash_launch_conf : Blob -> Blob -> Hash;
  _get_node_provider : ProviderConfig -> string -> result Provider;
  (** [get_bin_pack_residual(node_resources, resource_demands)] *)
  get_bin_pack_residual :
    list ResourceDict -> list ResourceDict ->
    list ResourceDict * list ResourceDict;
  with_head_node_ip : list string -> NodeIP -> list string;
  CLOUDTIK_HEARTBEAT_TIMEOUT_S : Z;
}.

Abbreviation Py := (M Scaler).

Declare Scope res_scope.
Delimit Scope res_scope with res.
Notation "x <- m ;; k" := (rbind m (fun x => k))
  (at level 100, m at next level, right associativity) : res_scope.

Definition the_provider (s : Scaler) : result Provider :=
  attribute "provider" (provider s).

Definition the_config (s : Scaler) : result Config :=
  attribute "config" (config s).

Definition the_available_node_types (s : Scaler)
  : result (odict NodeTypeConfig) :=
  attribute "available_node_types" (available_node_types s).

Definition the_non_terminated_nodes (s : Scaler) : result NonTerminatedNodes :=
  attribute "non_terminated_nodes" (non_terminated s).

Definition log (lvl : level) (msg : LogMessage) : Py unit :=
  modify (fun s => set_logger (logger s ++ [(lvl, msg)]) s).

(** [self.event_summarizer.add(template, quantity=q, aggregate=operator.add)] *)
Definition event_add (template : string) (q : Z) : Py unit :=
  modify (fun s => set_event_summarizer (event_summarizer s ++ [(template, q)]) s).

Definition metric (f : Metrics -> Metrics) : Py unit :=
  modify (fun s => set_prometheus_metrics (f (prometheus_metrics s)) s).

(** *** [repr] of a string and [str] of a list of strings

    A character of a string is a code point below 256 (ASCII and Latin-1),
    one character for each code point of the Python string.  [repr] is
    CPython's [unicode_repr]. *)

Definition py_squote : Ascii.ascii := Ascii.ascii_of_nat 39.
Definition py_dquote : Ascii.ascii := Ascii.ascii_of_nat 34.
Definition py_backslash : Ascii.ascii := Ascii.ascii_of_nat 92.

Definition str_has (c : Ascii.ascii) (s : string) : bool :=
  existsb (Ascii.eqb c) (String.list_ascii_of_string s).

(** The quote that [repr] puts around [s]: the double quote when [s] has a
    single quote and no double quote, the single quote otherwise. *)
Definition py_repr_quote (s : string) : Ascii.ascii :=
  if str_has py_squote s && negb (str_has py_dquote s)
  then py_dquote else py_squote.

(** [chr(code).isprintable()] for a code point below 256: not the control
    characters, the delete character, the no-break space (160) and the soft
    hyphen (173). *)
Definition py_isprintable (code : nat) : bool :=
  if (code <? 32)%nat then false
  else if (code <? 127)%nat then true
  else if (code <? 161)%nat then false
  else negb (code =? 173)%nat.

Definition py_hex_digit (n : nat) : Ascii.ascii :=
  default py_squote (String.get n "0123456789abcdef").

(** What [repr] writes for one character of a string quoted with [quote]. *)
Definition py_repr_char (quote c : Ascii.ascii) : string :=
  let code := Ascii.nat_of_ascii c in
  if Ascii.eqb c quote || Ascii.eqb c py_backslash then
    String py_backslash (String c EmptyString)
  else if (code =? 9)%nat then "\t"
  else if (code =? 10)%nat then "\n"
  else if (code =? 13)%nat then "\r"
  else if py_isprintable code then String c EmptyString
  else
    "\x" +:+ String (py_hex_digit (code / 16))
               (String (py_hex_digit (code mod 16)) EmptyString).

(** [repr(s)] *)
Definition py_repr_str (s : string) : string :=
  let quote := py_repr_quote s in
  String quote
    (String.concat EmptyString
       (map (py_repr_char quote) (String.list_ascii_of_string s)) +:+
     String quote EmptyString).

(** [str(l)] for a list of strings, as an f-string prints it. *)
Definition py_str_list (l : list string) : string :=
  "[" +:+ String.concat ", " (map py_repr_str l) +:+ "]".

(** Truth value of a string. *)
Definition truthy_str (s : string) : bool :=
  match s with EmptyString => false | _ => true end.

(** ** Methods of [StandardClusterScaler] *)

Inductive KeepOrTerminate := keep | terminate | decide_later.

#[global] Instance KeepOrTerminate_eq_dec : EqDecision KeepOrTerminate.
Proof. solve_decision. Defined.

Definition _get_node_type (s : Scaler) (node_id : NodeID) : result string :=
  (p <- the_provider s ;;
   let node_tags_ := node_tags p node_id in
   match node_tags_ !! CLOUDTIK_TAG_USER_NODE_TYPE with
   | Some node_type => Ok node_type
   | None => Ok "unknown_node_type"
   end)%res.

Definition schedule_node_termination (node_id : NodeID)
    (reason_opt : option string) (logger_method : level) : Py unit :=
  match reason_opt with
  | None => raise (Exception "reason should be not None.")
  | Some reason =>
      (p <- lift the_provider ;;
       let node_ip := internal_ip p node_id in
       log logger_method (Terminating node_id node_ip reason) ;;;
       node_type <- lift (fun s => _get_node_type s node_id) ;;
       event_add ("Removing {} nodes of type " +:+ node_type +:+
                  " (" +:+ reason +:+ ").") 1 ;;;
       modify (fun s =>
         set_nodes_to_terminate (nodes_to_terminate s ++ [node_id]) s))%py
  end.

(** [NonTerminatedNodes.remove_terminating_nodes] *)
Definition remove_terminating_nodes (terminating_nodes : list NodeID)
    (n : NonTerminatedNodes) : NonTerminatedNodes :=
  let not_terminating node := bool_decide (node ∉ terminating_nodes) in
  {| all_node_ids := List.filter not_terminating (all_node_ids n);
     worker_ids := List.filter not_terminating (worker_ids n);
     head_id := head_id n |}.

Definition terminate_scheduled_nodes : Py unit :=
  (nodes <- gets nodes_to_terminate ;;
   match nodes with
   | [] => ret tt
   | _ =>
       (* drain_nodes_gracefully does nothing *)
       p <- lift the_provider ;;
       modify (set_provider (Some (provider_terminate_nodes nodes p))) ;;;
       for_each nodes (fun node =>
         modify (fun s => set_node_tracker (untrack node (node_tracker s)) s) ;;;
         metric inc_stopped_nodes) ;;;
       ntn <- lift the_non_terminated_nodes ;;
       modify (set_non_terminated (Some (remove_terminating_nodes nodes ntn))) ;;;
       modify (set_nodes_to_terminate [])
   end)%py.

(** [sorted(nodes, key=key, reverse=True)]: a stable sort, largest key first;
    elements with equal keys keep the order they have in [nodes]. *)
Fixpoint insert_desc {A} (key : A -> Z) (x : A) (l : list A) : list A :=
  match l with
  | [] => [x]
  | y :: l' =>
      if key x <? key y then y :: insert_desc key x l' else x :: y :: l'
  end.

Fixpoint sorted_reverse {A} (key : A -> Z) (l : list A) : list A :=
  match l with
  | [] => []
  | x :: l' => insert_desc key x (sorted_reverse key l')
  end.

Definition last_time_used (p : Provider) (last_used_copy : gmap NodeIP Z)
    (node_id : NodeID) : Z :=
  let least_recently_used := -1 in
  let node_ip := internal_ip p node_id in
  match last_used_copy !! node_ip with
  | None => least_recently_used
  | Some t => t
  end.

Definition _sort_based_on_last_used (s : Scaler) (nodes : list NodeID)
    (last_used : gmap NodeIP Z) : result (list NodeID) :=
  (p <- the_provider s ;;
   Ok (sorted_reverse (last_time_used p last_used) nodes))%res.

Definition _keep_worker_of_node_type (s : Scaler) (node_id : NodeID)
    (node_type_counts : gmap NodeType Z)
  : result (KeepOrTerminate * option string) :=
  (p <- the_provider s ;;
   let tags := node_tags p node_id in
   match tags !! CLOUDTIK_TAG_USER_NODE_TYPE with
   | Some node_type =>
       ant <- the_available_node_types s ;;
       let min_workers := default 0 (OD.get node_type ant ≫= nt_min_workers) in
       let max_workers := default 0 (OD.get node_type ant ≫= nt_max_workers) in
       if negb (OD.mem node_type ant) then
         let available_node_types := OD.keys ant in
         Ok (terminate,
             Some ("not in available_node_types: " +:+
                   py_str_list available_node_types))
       else
         let new_count := default 0 (node_type_counts !! node_type) + 1 in
         if new_count <=? Z.min min_workers max_workers then Ok (keep, None)
         else if max_workers <? new_count then
           Ok (terminate, Some "max_workers_per_type")
         else Ok (decide_later, None)
   | None => Ok (decide_later, None)
   end)%res.

Definition launch_config_ok `{Collaborators} (s : Scaler) (node_id : NodeID)
  : result bool :=
  if disable_launch_config_check s then Ok true
  else
    (p <- the_provider s ;;
     let node_tags_ := node_tags p node_id in
     let tag_launch_conf := node_tags_ !! CLOUDTIK_TAG_LAUNCH_CONFIG in
     let node_type := node_tags_ !! CLOUDTIK_TAG_USER_NODE_TYPE in
     ant <- the_available_node_types s ;;
     match node_type with
     | None =>
         (* [None] is not a key of [available_node_types] *)
         Ok false
     | Some node_type =>
         if negb (OD.mem node_type ant) then Ok false
         else
           launch_config <-
             (if truthy_str node_type then
                cfg <- the_config s ;;
                types <- subscript "available_node_types"
                           (cfg_available_node_types cfg) ;;
                type_cfg <- subscript node_type (OD.get node_type types) ;;
                subscript "node_config" (nt_node_config type_cfg)
              else Ok ∅) ;;
           cfg <- the_config s ;;
           auth <- subscript "auth" (cfg_auth cfg) ;;
           let calculated_launch_hash := hash_launch_conf launch_config auth in
           if bool_decide (Some calculated_launch_hash ≠ tag_launch_conf)
           then Ok false
           else Ok true
     end)%res.

(** [for x in l] with local variables [acc] that the body updates. *)
Fixpoint for_fold {S A B} (l : list A) (acc : B) (body : B -> A -> M S B)
  : M S B :=
  match l with
  | [] => ret acc
  | x :: l' => (acc' <- body acc x ;; for_fold l' acc' body)%py
  end.

Fixpoint rfor_fold {A B} (l : list A) (acc : B) (body : B -> A -> result B)
  : result B :=
  match l with
  | [] => Ok acc
  | x :: l' => (acc' <- body acc x ;; rfor_fold l' acc' body)%res
  end.

(** [l.pop(0)], keeping what is left of [l]. *)
Definition pop0 {A} (l : list A) : result (list A) :=
  match l with
  | [] => Raise IndexError
  | _ :: l' => Ok l'
  end.

(** [l[i]] *)
Definition index {A} (l : list A) (i : nat) : result A :=
  match l !! i with
  | Some a => Ok a
  | None => Raise IndexError
  end.

(** [provider.internal_ip(head_id)]; the provider is asked about node ids
    only, and the call fails when there is no head node. *)
Definition head_internal_ip (p : Provider) (ntn : NonTerminatedNodes)
  : result NodeIP :=
  match head_id ntn with
  | Some h => Ok (internal_ip p h)
  | None => Raise (Exception "internal_ip(None)")
  end.

Definition _get_nodes_needed_for_request_resources `{Collaborators}
    (s : Scaler) (sorted_node_ids : list NodeID) : result (list NodeID) :=
  (cfg <- the_config s ;;
   head_node_type <- subscript "head_node_type" (cfg_head_node_type cfg) ;;
   ant <- the_available_node_types s ;;
   head_cfg <- subscript head_node_type (OD.get head_node_type ant) ;;
   head_node_resources <- subscript "resources" (nt_resources head_cfg) ;;
   head_node_resources <-
     (if bool_decide (head_node_resources = ∅) then
        let static_nodes := static_node_resources_by_ip (load_metrics s) in
        p <- the_provider s ;;
        ntn <- the_non_terminated_nodes s ;;
        head_node_ip <- head_internal_ip p ntn ;;
        Ok (default ∅ (static_nodes !! head_node_ip))
      else Ok head_node_resources) ;;
   acc <- rfor_fold sorted_node_ids ([head_node_resources], [])
     (fun acc node_id =>
        let '(max_node_resources, resource_demand_vector_worker_node_ids) :=
          acc in
        p <- the_provider s ;;
        let tags := node_tags p node_id in
        match tags !! CLOUDTIK_TAG_USER_NODE_TYPE with
        | Some node_type =>
            ant <- the_available_node_types s ;;
            type_cfg <- subscript node_type (OD.get node_type ant) ;;
            node_resources <- subscript "resources" (nt_resources type_cfg) ;;
            let node_resources :=
              if bool_decide (node_resources = ∅) then
                let static_nodes :=
                  static_node_resources_by_ip (load_metrics s) in
                let node_ip := internal_ip p node_id in
                default ∅ (static_nodes !! node_ip)
              else node_resources in
            Ok (max_node_resources ++ [node_resources],
                resource_demand_vector_worker_node_ids ++ [node_id])
        | None => Ok acc
        end) ;;
   let '(max_node_resources, resource_demand_vector_worker_node_ids) := acc in
   let used_resource_requests :=
     (get_bin_pack_residual max_node_resources
        (resource_requests (load_metrics s))).2 in
   max_node_resources <- pop0 max_node_resources ;;
   used_resource_requests <- pop0 used_resource_requests ;;
   rfor_fold (imap pair resource_demand_vector_worker_node_ids) []
     (fun nodes_not_allowed_to_terminate i_node =>
        let '(i, node_id) := i_node in
        used_i <- index used_resource_requests i ;;
        max_i <- index max_node_resources i ;;
        if bool_decide (used_i = max_i) && negb (bool_decide (max_i = ∅))
        then Ok nodes_not_allowed_to_terminate
        else Ok (nodes_not_allowed_to_terminate ++ [node_id])))%res.

(** The closure [keep_node] of
    [terminate_nodes_to_enforce_config_constraints]. *)
Definition keep_node (s : Scaler) (node_id : NodeID)
    (node_type_counts : gmap NodeType Z) : result (gmap NodeType Z) :=
  (p <- the_provider s ;;
   let tags := node_tags p node_id in
   match tags !! CLOUDTIK_TAG_USER_NODE_TYPE with
   | Some node_type =>
       Ok (<[node_type := default 0 (node_type_counts !! node_type) + 1]>
             node_type_counts)
   | None => Ok node_type_counts
   end)%res.

(** [node_ip in last_used and last_used[node_ip] < horizon] *)
Definition idle_before (last_used : gmap NodeIP Z) (horizon : Z) (ip : NodeIP)
  : bool :=
  match last_used !! ip with
  | Some t => t <? horizon
  | None => false
  end.

(** The local variables of the loop over the sorted workers:
    [node_type_counts] and [nodes_we_could_terminate]. *)
Abbreviation EnforceLocals := (gmap NodeType Z * list NodeID)%type.

(** One iteration of the loop of
    [terminate_nodes_to_enforce_config_constraints]. *)
Definition enforce_body `{Collaborators} (last_used : gmap NodeIP Z)
    (horizon : Z) (nodes_not_allowed_to_terminate : list NodeID)
    (locals : EnforceLocals) (node_id : NodeID) : Py EnforceLocals :=
  let '(node_type_counts, nodes_we_could_terminate) := locals in
  (kt <- lift (fun s => _keep_worker_of_node_type s node_id node_type_counts) ;;
   let '(should_keep_or_terminate, reason) := kt in
   if bool_decide (should_keep_or_terminate = terminate) then
     schedule_node_termination node_id reason INFO ;;;
     ret locals
   else
     protected <-
       (if bool_decide (should_keep_or_terminate = keep)
           || bool_decide (node_id ∈ nodes_not_allowed_to_terminate)
        then lift (fun s => launch_config_ok s node_id)
        else ret false) ;;
     if (protected : bool) then
       counts <- lift (fun s => keep_node s node_id node_type_counts) ;;
       ret (counts, nodes_we_could_terminate)
     else
       p <- lift the_provider ;;
       let node_ip := internal_ip p node_id in
       if idle_before last_used horizon node_ip
       then
         schedule_node_termination node_id (Some "idle") INFO ;;;
         ret locals
       else
         ok <- lift (fun s => launch_config_ok s node_id) ;;
         if negb ok then
           schedule_node_termination node_id (Some "outdated") INFO ;;;
           ret locals
         else
           counts <- lift (fun s => keep_node s node_id node_type_counts) ;;
           ret (counts, nodes_we_could_terminate ++ [node_id]))%py.

(** What [terminate_nodes_to_enforce_config_constraints] does before its
    loop: the horizon, the sorted workers and the protected nodes. *)
Definition enforce_prologue `{Collaborators} (now : Z) (s : Scaler)
  : result (gmap NodeIP Z * Z * list NodeID * list NodeID) :=
  (let last_used := last_used_time_by_ip (load_metrics s) in
   cfg <- the_config s ;;
   idle_timeout_minutes <-
     subscript "idle_timeout_minutes" (cfg_idle_timeout_minutes cfg) ;;
   let horizon := now - 60 * idle_timeout_minutes in
   ntn <- the_non_terminated_nodes s ;;
   sorted_node_ids <- _sort_based_on_last_used s (worker_ids ntn) last_used ;;
   nodes_not_allowed_to_terminate <-
     (match resource_requests (load_metrics s) with
      | [] => Ok []
      | _ => _get_nodes_needed_for_request_resources s sorted_node_ids
      end) ;;
   Ok (last_used, horizon, sorted_node_ids, nodes_not_allowed_to_terminate))%res.

(** [l[-n:]] for a positive [n]. *)
Definition last_n {A} (n : Z) (l : list A) : list A :=
  drop (length l - Z.to_nat n) l.

(** What [terminate_nodes_to_enforce_config_constraints] does after its
    loop, with the loop's [nodes_we_could_terminate]: workers beyond
    [max_workers] are scheduled. *)
Definition enforce_max_workers (nodes_we_could_terminate : list NodeID)
  : Py unit :=
  (ntn <- lift the_non_terminated_nodes ;;
   let num_workers := Z.of_nat (length (worker_ids ntn)) in
   to_terminate <- gets nodes_to_terminate ;;
   cfg <- lift the_config ;;
   max_workers <- lift (fun _ => subscript "max_workers" (cfg_max_workers cfg)) ;;
   let num_extra_nodes_to_terminate :=
     num_workers - Z.of_nat (length to_terminate) - max_workers in
   num_extra_nodes_to_terminate <-
     (if Z.of_nat (length nodes_we_could_terminate)
           <? num_extra_nodes_to_terminate
      then
        log WARNING (InconsistentConfig num_extra_nodes_to_terminate
                       (length nodes_we_could_terminate)) ;;;
        ret (Z.of_nat (length nodes_we_could_terminate))
      else ret num_extra_nodes_to_terminate) ;;
   if 0 <? num_extra_nodes_to_terminate then
     let extra_nodes_to_terminate :=
       last_n num_extra_nodes_to_terminate nodes_we_could_terminate in
     for_each extra_nodes_to_terminate (fun node_id =>
       schedule_node_termination node_id (Some "max workers") INFO)
   else ret tt)%py.

Definition terminate_nodes_to_enforce_config_constraints `{Collaborators}
    (now : Z) : Py unit :=
  (pro <- lift (enforce_prologue now) ;;
   let '(last_used, horizon, sorted_node_ids,
         nodes_not_allowed_to_terminate) := pro in
   locals <- for_fold sorted_node_ids (∅, [])
     (enforce_body last_used horizon nodes_not_allowed_to_terminate) ;;
   enforce_max_workers locals.2 ;;;
   terminate_scheduled_nodes)%py.

(** The call of [hash_runtime_conf] in [reset], with its arguments read from
    the new configuration. *)
Definition runtime_hashes `{Collaborators} (new_config : Config)
    (sync_continuously : bool) : result (Hash * option Hash) :=
  (file_mounts <- subscript "file_mounts" (cfg_file_mounts new_config) ;;
   synced <- subscript "cluster_synced_files"
               (cfg_cluster_synced_files new_config) ;;
   setup <- subscript "worker_setup_commands"
              (cfg_worker_setup_commands new_config) ;;
   start <- subscript "worker_start_commands"
              (cfg_worker_start_commands new_config) ;;
   hash_runtime_conf file_mounts synced [setup; start] sync_continuously)%res.

(** [reset], lines 754 to 766: the hashes of the new configuration are
    computed, then the configuration and the hashes are assigned. *)
Definition reset_assign `{Collaborators} (new_config : Config)
    (sync_continuously : bool) : Py unit :=
  (hashes <- lift (fun _ => runtime_hashes new_config sync_continuously) ;;
   let '(new_runtime_hash, new_file_mounts_contents_hash) := hashes in
   modify (set_config (Some new_config)) ;;;
   modify (set_runtime_hash (Some new_runtime_hash)) ;;;
   modify (set_file_mounts_contents_hash
             (Some new_file_mounts_contents_hash)))%py.

(** [reset], lines 767 to 795: the provider is created once, the node types
    are taken from [self.config], which is [new_config] by now, and the
    resource demand scheduler is created or reconfigured. *)
Definition reset_apply `{Collaborators} (new_config : Config) : Py unit :=
  (prov <- gets provider ;;
   match prov with
   | Some _ => ret tt
   | None =>
       p <- lift (fun _ =>
         (provider_config <- subscript "provider" (cfg_provider new_config) ;;
          cluster_name <- subscript "cluster_name"
                            (cfg_cluster_name new_config) ;;
          _get_node_provider provider_config cluster_name)%res) ;;
       modify (set_provider (Some p))
   end ;;;
   p <- lift the_provider ;;
   (if is_local_node_provider p
    then modify (set_provider (Some (record_local_head_state p)))
    else ret tt) ;;;
   types <- lift (fun _ =>
     subscript "available_node_types" (cfg_available_node_types new_config)) ;;
   modify (set_available_node_types (Some types)) ;;;
   let upscaling_speed :=
     match cfg_upscaling_speed new_config with
     | Some v => if bool_decide (v = 0%Qc) then 1%Qc else v
     | None => 1%Qc
     end in
   max_workers <- lift (fun _ =>
     subscript "max_workers" (cfg_max_workers new_config)) ;;
   head_node_type <- lift (fun _ =>
     subscript "head_node_type" (cfg_head_node_type new_config)) ;;
   (* an existing scheduler is reconfigured, else one is created *)
   modify (set_resource_demand_scheduler
             (Some {| rds_node_types := types;
                      rds_max_workers := max_workers;
                      rds_head_node_type := head_node_type;
                      rds_upscaling_speed := upscaling_speed |})))%py.

(** [self.reset(errors_fatal)]; [config_reader] is what the call
    [self.config_reader()] returns or raises this time. *)
Definition reset `{Collaborators} (config_reader : result Config)
    (errors_fatal : bool) : Py unit :=
  (old <- gets config ;;
   let sync_continuously :=
     match old with
     | Some c => default false (cfg_file_mounts_sync_continuously c)
     | None => false
     end in
   try_except
     (new_config <- lift (fun _ => config_reader) ;;
      (if negb (match old with
                | Some c => config_eqb new_config c
                | None => false
                end)
       then
         try_except (lift (fun _ => validate_config new_config))
           (fun e =>
              metric inc_config_validation_exceptions ;;;
              log DEBUG (ValidationFailed e))
       else ret tt) ;;;
      reset_assign new_config sync_continuously ;;;
      reset_apply new_config)
     (fun e =>
        metric inc_reset_exceptions ;;;
        if errors_fatal then raise e
        else log ERROR (ErrorParsingConfig e)))%py.

Definition heartbeat_on_time `{Collaborators} (s : Scaler) (node_id : NodeID)
    (now : Z) : result bool :=
  (p <- the_provider s ;;
   let key := internal_ip p node_id in
   match last_heartbeat_time_by_ip (load_metrics s) !! key with
   | Some last_heartbeat_time =>
       let delta := now - last_heartbeat_time in
       if delta <? CLOUDTIK_HEARTBEAT_TIMEOUT_S then Ok true else Ok false
   | None => Ok false
   end)%res.

(** [self.load_metrics.mark_active(ip)], at the current time. *)
Definition load_metrics_mark_active (ip : NodeIP) : Py unit :=
  modify (fun s => set_load_metrics (mark_active ip (clock s) (load_metrics s)) s).

(** One iteration of the loop of [terminate_unhealthy_nodes]. *)
Definition unhealthy_body `{Collaborators} (now : Z) (node_id : NodeID)
  : Py unit :=
  (p <- lift the_provider ;;
   node_status <- lift (fun _ =>
     subscript CLOUDTIK_TAG_NODE_STATUS
       (node_tags p node_id !! CLOUDTIK_TAG_NODE_STATUS)) ;;
   if negb (bool_decide (node_status = STATUS_UP_TO_DATE)) then ret tt
   else
     let ip := internal_ip p node_id in
     known <- gets (fun s => last_heartbeat_time_by_ip (load_metrics s) !! ip) ;;
     (match known with
      | None => load_metrics_mark_active ip
      | Some _ => ret tt
      end) ;;;
     on_time <- lift (fun s => heartbeat_on_time s node_id now) ;;
     if (on_time : bool) then ret tt
     else
       schedule_node_termination node_id (Some "lost contact with node")
         WARNING)%py.

Definition terminate_unhealthy_nodes `{Collaborators} (now : Z) : Py unit :=
  (ntn <- lift the_non_terminated_nodes ;;
   for_each (worker_ids ntn) (unhealthy_body now) ;;;
   terminate_scheduled_nodes)%py.

Definition can_update `{Collaborators} (node_id : NodeID) : Py bool :=
  (disabled <- gets disable_node_updaters ;;
   if (disabled : bool) then ret false
   else
     running <- gets (fun s => OD.mem node_id (updaters s)) ;;
     if (running : bool) then ret false
     else
       ok <- lift (fun s => launch_config_ok s node_id) ;;
       if negb ok then ret false
       else
         failed <- gets (fun s => default 0 (num_failed_updates s !! node_id)) ;;
         if 0 <? failed then ret false
         else
           log DEBUG (CanUpdate node_id) ;;;
           ret true)%py.

Definition files_up_to_date (node_id : NodeID) : Py bool :=
  (p <- lift the_provider ;;
   let node_tags_ := node_tags p node_id in
   let applied_config_hash := node_tags_ !! CLOUDTIK_TAG_RUNTIME_CONFIG in
   let applied_file_mounts_contents_hash :=
     node_tags_ !! CLOUDTIK_TAG_FILE_MOUNTS_CONTENTS in
   runtime <- lift (fun s => attribute "runtime_hash" (runtime_hash s)) ;;
   outdated <-
     (if bool_decide (applied_config_hash ≠ Some runtime) then ret true
      else
        contents <- lift (fun s =>
          attribute "file_mounts_contents_hash" (file_mounts_contents_hash s)) ;;
        ret (match contents with
             | Some h => bool_decide (Some h ≠ applied_file_mounts_contents_hash)
             | None => false
             end)) ;;
   if (outdated : bool) then
     contents <- lift (fun s =>
       attribute "file_mounts_contents_hash" (file_mounts_contents_hash s)) ;;
     log INFO (RuntimeState node_id
                 (applied_config_hash, applied_file_mounts_contents_hash)
                 (runtime, contents)) ;;;
     ret false
   else ret true)%py.

(** [self._get_node_type_specific_fields(node_id, fields_key)], for a key
    read by [of_config] in the document and by [of_type] in a node type. *)
Definition _get_node_type_specific_fields {A} (s : Scaler) (node_id : NodeID)
    (fields_key : string) (of_config : Config -> option A)
    (of_type : NodeTypeConfig -> option A) : result A :=
  (cfg <- the_config s ;;
   fields <- subscript fields_key (of_config cfg) ;;
   p <- the_provider s ;;
   let node_tags_ := node_tags p node_id in
   match node_tags_ !! CLOUDTIK_TAG_USER_NODE_TYPE with
   | Some node_type =>
       ant <- the_available_node_types s ;;
       match OD.get node_type ant with
       | None => Raise (ValueError ("Unknown node type tag: " +:+ node_type +:+ "."))
       | Some node_specific_config =>
           match of_type node_specific_config with
           | Some specific => Ok specific
           | None => Ok fields
           end
       end
   | None => Ok fields
   end)%res.

Definition _get_node_specific_docker_config (s : Scaler) (node_id : NodeID)
  : result Blob :=
  (cfg <- the_config s ;;
   match cfg_docker cfg with
   | None => Ok ∅
   | Some docker_config =>
       node_specific_docker <-
         _get_node_type_specific_fields s node_id "docker" cfg_docker nt_docker ;;
       (* [docker_config.update(node_specific_docker)] *)
       Ok (node_specific_docker ∪ docker_config)
   end)%res.

Definition _node_resources (s : Scaler) (node_id : NodeID)
  : result ResourceDict :=
  (p <- the_provider s ;;
   let node_type := node_tags p node_id !! CLOUDTIK_TAG_USER_NODE_TYPE in
   ant <- the_available_node_types s ;;
   match ant with
   | [] => Ok ∅
   | _ =>
       Ok (default ∅ (node_type ≫= (fun t => OD.get t ant ≫= nt_resources)))
   end)%res.

(** The named tuple [UpdateInstructions]; [None] stands for the tuple of four
    [None]s, "no update". *)
Record UpdateInstructions := {
  ui_node_id : NodeID;
  ui_setup_commands : list string;
  ui_start_commands : list string;
  ui_docker_config : Blob;
}.

Definition should_update `{Collaborators} (node_id : NodeID)
  : Py (option UpdateInstructions) :=
  (able <- can_update node_id ;;
   if negb able then ret None
   else
     p <- lift the_provider ;;
     let status := node_tags p node_id !! CLOUDTIK_TAG_NODE_STATUS in
     current <-
       (if bool_decide (status = Some STATUS_UP_TO_DATE)
        then files_up_to_date node_id else ret false) ;;
     if (current : bool) then ret None
     else
       cfg <- lift the_config ;;
       successful_updated <- gets (fun s =>
         0 <? default 0 (num_successful_updates s !! node_id)) ;;
       commands <- lift (fun s =>
         (if successful_updated && default false (cfg_restart_only cfg) then
            start <- subscript "worker_start_commands"
                       (cfg_worker_start_commands cfg) ;;
            Ok ([], start)
          else if successful_updated && default false (cfg_no_restart cfg) then
            setup <- _get_node_type_specific_fields s node_id
                       "worker_setup_commands" cfg_worker_setup_commands
                       nt_worker_setup_commands ;;
            Ok (setup, [])
          else
            setup <- _get_node_type_specific_fields s node_id
                       "worker_setup_commands" cfg_worker_setup_commands
                       nt_worker_setup_commands ;;
            start <- subscript "worker_start_commands"
                       (cfg_worker_start_commands cfg) ;;
            Ok (setup, start))%res) ;;
       docker_config <- lift (fun s =>
         _get_node_specific_docker_config s node_id) ;;
       ret (Some {| ui_node_id := node_id;
                    ui_setup_commands := commands.1;
                    ui_start_commands := commands.2;
                    ui_docker_config := docker_config |}))%py.

(** [updater.start(); self.updaters[node_id] = updater]: the new thread
    object is alive; the values of [exitcode] and [update_time] before it
    ends are not read. *)
Definition start_updater (node_id : NodeID) (updater : NodeUpdaterThread)
  : Py unit :=
  modify (fun s =>
    set_updaters (OD.set node_id (length (threads s)) (updaters s))
      (set_threads (threads s ++ [updater]) s)).

Definition spawn_updater `{Collaborators} (node_id : NodeID)
    (setup_commands start_commands : list string)
    (node_resources : ResourceDict) (docker_config : Blob) : Py unit :=
  (log INFO (CreatingUpdater node_id) ;;;
   p <- lift the_provider ;;
   let ip := internal_ip p node_id in
   node_type <- lift (fun s => _get_node_type s node_id) ;;
   modify (fun s => set_node_tracker (track node_id ip node_type (node_tracker s)) s) ;;;
   ntn <- lift the_non_terminated_nodes ;;
   head_node_ip <- lift (fun _ => head_internal_ip p ntn) ;;
   cfg <- lift the_config ;;
   updater <- lift (fun s =>
     (_ <- subscript "provider" (cfg_provider cfg) ;;
      _ <- subscript "auth" (cfg_auth cfg) ;;
      _ <- subscript "cluster_name" (cfg_cluster_name cfg) ;;
      file_mounts <- subscript "file_mounts" (cfg_file_mounts cfg) ;;
      initialization_commands <-
        _get_node_type_specific_fields s node_id "initialization_commands"
          cfg_initialization_commands nt_initialization_commands ;;
      runtime <- attribute "runtime_hash" (runtime_hash s) ;;
      contents <- attribute "file_mounts_contents_hash"
                    (file_mounts_contents_hash s) ;;
      _ <- subscript "cluster_synced_files" (cfg_cluster_synced_files cfg) ;;
      Ok {| u_node_id := node_id;
            u_for_recovery := false;
            u_file_mounts := file_mounts;
            u_initialization_commands :=
              with_head_node_ip initialization_commands head_node_ip;
            u_setup_commands := with_head_node_ip setup_commands head_node_ip;
            u_start_commands := with_head_node_ip start_commands head_node_ip;
            u_runtime_hash := runtime;
            u_file_mounts_contents_hash := contents;
            u_docker_config := Some docker_config;
            u_node_resources := node_resources;
            is_alive := true;
            exitcode := -1;
            update_time := None |})%res) ;;
   start_updater node_id updater)%py.

(** The first loop of [update_nodes]: the list [T] of the threads to run,
    each given by the arguments [spawn_updater] is to be called with. *)
Definition update_threads `{Collaborators}
  : Py (list (UpdateInstructions * ResourceDict)) :=
  (ntn <- lift the_non_terminated_nodes ;;
   for_fold (worker_ids ntn) []
     (fun T worker =>
        instructions <- should_update worker ;;
        match instructions with
        | None => ret T
        | Some ui =>
            resources <- lift (fun s => _node_resources s (ui_node_id ui)) ;;
            log DEBUG (StartingThreadRunner (ui_node_id ui)) ;;;
            ret (T ++ [(ui, resources)])
        end))%py.

(** What one thread of [update_nodes] runs; an exception ends the thread
    and nothing else. *)
Definition run_update_thread `{Collaborators}
    (t : UpdateInstructions * ResourceDict) : Py unit :=
  try_except
    (spawn_updater (ui_node_id t.1) (ui_setup_commands t.1)
       (ui_start_commands t.1) t.2 (ui_docker_config t.1))
    (fun _ => ret tt).

(** [update_nodes]: the threads of the list [T] are started and joined
    after the loop.  They run here one after the other, in the order of the
    list. *)
Definition update_nodes `{Collaborators} : Py unit :=
  (T <- update_threads ;;
   for_each T run_update_thread)%py.

Definition recover_if_needed `{Collaborators} (node_id : NodeID) (now : Z)
  : Py unit :=
  (able <- can_update node_id ;;
   if negb able then ret tt
   else
     on_time <- lift (fun s => heartbeat_on_time s node_id now) ;;
     if (on_time : bool) then ret tt
     else
       log WARNING (NoRecentHeartbeat node_id) ;;;
       node_type <- lift (fun s => _get_node_type s node_id) ;;
       event_add ("Restarting {} nodes of type " +:+ node_type +:+
                  " (lost contact with node).") 1 ;;;
       p <- lift the_provider ;;
       ntn <- lift the_non_terminated_nodes ;;
       head_node_ip <- lift (fun _ => head_internal_ip p ntn) ;;
       cfg <- lift the_config ;;
       updater <- lift (fun s =>
         (_ <- subscript "provider" (cfg_provider cfg) ;;
          _ <- subscript "auth" (cfg_auth cfg) ;;
          _ <- subscript "cluster_name" (cfg_cluster_name cfg) ;;
          start <- subscript "worker_start_commands"
                     (cfg_worker_start_commands cfg) ;;
          runtime <- attribute "runtime_hash" (runtime_hash s) ;;
          contents <- attribute "file_mounts_contents_hash"
                        (file_mounts_contents_hash s) ;;
          resources <- _node_resources s node_id ;;
          Ok {| u_node_id := node_id;
                u_for_recovery := true;
                u_file_mounts := [];
                u_initialization_commands := [];
                u_setup_commands := [];
                u_start_commands := with_head_node_ip start head_node_ip;
                u_runtime_hash := runtime;
                u_file_mounts_contents_hash := contents;
                u_docker_config := cfg_docker cfg;
                u_node_resources := resources;
                is_alive := true;
                exitcode := -1;
                update_time := None |})%res) ;;
       start_updater node_id updater)%py.

Definition attempt_to_recover_unhealthy_nodes `{Collaborators} (now : Z)
  : Py unit :=
  (ntn <- lift the_non_terminated_nodes ;;
   for_each (worker_ids ntn) (fun node_id => recover_if_needed node_id now))%py.

(** The thread object that a reference held in [self.updaters] names. *)
Definition thread_object (s : Scaler) (ref : nat) : result NodeUpdaterThread :=
  index (threads s) ref.

(** The first loop of [process_completed_updates]. *)
Definition completed_updaters (s : Scaler) : result (list NodeID) :=
  rfor_fold (updaters s) []
    (fun completed_nodes entry =>
       let '(node_id, ref) := entry in
       (updater <- thread_object s ref ;;
        if negb (is_alive updater)
        then Ok (completed_nodes ++ [node_id])
        else Ok completed_nodes)%res).

(** [d[k] += 1] on a [defaultdict(int)]. *)
Definition increment (k : string) (d : gmap string Z) : gmap string Z :=
  <[k := default 0 (d !! k) + 1]> d.

(** The loop of [process_completed_updates] over the completed nodes;
    the local variable is [failed_nodes]. *)
Definition completed_body (failed_nodes : list NodeID) (node_id : NodeID)
  : Py (list NodeID) :=
  (ref <- lift (fun s => subscript node_id (OD.get node_id (updaters s))) ;;
   updater <- lift (fun s => thread_object s ref) ;;
   failed_nodes <-
     (if bool_decide (exitcode updater = 0) then
        modify (fun s =>
          set_num_successful_updates
            (increment node_id (num_successful_updates s)) s) ;;;
        metric inc_successful_updates ;;;
        (if u_for_recovery updater
         then metric inc_successful_recoveries else ret tt) ;;;
        (match update_time updater with
         | Some t =>
             if bool_decide (t = 0) then ret tt
             else metric (observe_worker_update_time t)
         | None => ret tt
         end) ;;;
        p <- lift the_provider ;;
        load_metrics_mark_active (internal_ip p node_id) ;;;
        ret failed_nodes
      else
        modify (fun s =>
          set_num_failed_updates (increment node_id (num_failed_updates s)) s) ;;;
        metric inc_failed_updates ;;;
        (if u_for_recovery updater
         then metric inc_failed_recoveries else ret tt) ;;;
        modify (fun s => set_node_tracker (untrack node_id (node_tracker s)) s) ;;;
        ret (failed_nodes ++ [node_id])) ;;
   modify (fun s => set_updaters (OD.del node_id (updaters s)) s) ;;;
   ret failed_nodes)%py.

Definition process_completed_updates : Py unit :=
  (completed_nodes <- lift completed_updaters ;;
   match completed_nodes with
   | [] => ret tt
   | _ =>
       failed_nodes <- for_fold completed_nodes [] completed_body ;;
       match failed_nodes with
       | [] => ret tt
       | _ =>
           for_each failed_nodes (fun node_id =>
             ntn <- lift the_non_terminated_nodes ;;
             if bool_decide (node_id ∈ worker_ids ntn) then
               schedule_node_termination node_id (Some "launch failed") ERROR
             else log WARNING (AlreadyTerminated node_id)) ;;;
           terminate_scheduled_nodes
       end
   end)%py.

(** An updater thread ends, with an exit code and a duration: what the
    scaler later reads from the thread object. *)
Definition thread_exit (ref : nat) (code : Z) (duration : option Z)
    (s : Scaler) : Scaler :=
  set_threads
    (alter (fun u =>
       {| u_node_id := u_node_id u;
          u_for_recovery := u_for_recovery u;
          u_file_mounts := u_file_mounts u;
          u_initialization_commands := u_initialization_commands u;
          u_setup_commands := u_setup_commands u;
          u_start_commands := u_start_commands u;
          u_runtime_hash := u_runtime_hash u;
          u_file_mounts_contents_hash := u_file_mounts_contents_hash u;
          u_docker_config := u_docker_config u;
          u_node_resources := u_node_resources u;
          is_alive := false;
          exitcode := code;
          update_time := duration |}) ref (threads s)) s.

(** [NonTerminatedNodes.__init__(provider)] *)
Definition NonTerminatedNodes_init (p : Provider) : result NonTerminatedNodes :=
  let all := non_terminated_nodes p in
  rfor_fold all {| all_node_ids := all; worker_ids := []; head_id := None |}
    (fun self node =>
       (node_kind <- subscript CLOUDTIK_TAG_NODE_KIND
                       (node_tags p node !! CLOUDTIK_TAG_NODE_KIND) ;;
        if bool_decide (node_kind = NODE_KIND_WORKER) then
          Ok {| all_node_ids := all_node_ids self;
                worker_ids := worker_ids self ++ [node];
                head_id := head_id self |}
        else if bool_decide (node_kind = NODE_KIND_HEAD) then
          Ok {| all_node_ids := all_node_ids self;
                worker_ids := worker_ids self;
                head_id := Some node |}
        else Ok self)%res).

(** [self.load_metrics.is_active(ip)].

    Modelled from the spec: [load_metrics.py] is not among the sources; an ip
    is active once it has been marked active or has sent a heartbeat, that is
    when its last heartbeat is recorded. *)
Definition is_active (lm : LoadMetrics) (ip : NodeIP) : bool :=
  bool_decide (is_Some (last_heartbeat_time_by_ip lm !! ip)).

(** [self.node_tracker.get_all_failed_node_info(non_failed)].

    Modelled from the spec: the (ip, type) pairs of the tracked ids that are
    not in [non_failed]. *)
Definition get_all_failed_node_info (t : NodeTracker) (non_failed : list NodeID)
  : list (NodeIP * NodeType) :=
  (filter (fun e => e.1 ∉ non_failed) (tracked t)).*2.

(** The local variables of the loop of [summary]:
    [active_nodes], [pending_nodes] and [non_failed]. *)
Definition summary_body (s : Scaler) (p : Provider)
    (locals : odict Z * list (NodeIP * NodeType * string) * list NodeID)
    (node_id : NodeID)
  : odict Z * list (NodeIP * NodeType * string) * list NodeID :=
  let '(active_nodes, pending_nodes, non_failed) := locals in
  let ip := internal_ip p node_id in
  let node_tags_ := node_tags p node_id in
  match node_tags_ !! CLOUDTIK_TAG_NODE_KIND,
        node_tags_ !! CLOUDTIK_TAG_USER_NODE_TYPE,
        node_tags_ !! CLOUDTIK_TAG_NODE_STATUS with
  | Some kind, Some node_type, Some status =>
      if bool_decide (kind = NODE_KIND_UNMANAGED) then locals
      else if is_active (load_metrics s) ip then
        (OD.set node_type (default 0 (OD.get node_type active_nodes) + 1)
           active_nodes,
         pending_nodes, non_failed ++ [node_id])
      else
        let completed_states := [STATUS_UP_TO_DATE; STATUS_UPDATE_FAILED] in
        let is_pending := bool_decide (status ∉ completed_states) in
        if is_pending then
          (active_nodes, pending_nodes ++ [(ip, node_type, status)],
           non_failed ++ [node_id])
        else locals
  | _, _, _ =>
      (* creation of a node and its tags is not atomic: skip the node *)
      locals
  end.

Definition summary (s : Scaler) : result ClusterScalerSummary :=
  (ntn <- the_non_terminated_nodes s ;;
   p <- the_provider s ;;
   let '(active, pending, non_failed) :=
     fold_left (summary_body s p) (all_node_ids ntn) ([], [], []) in
   Ok {| active_nodes := active;
         pending_nodes := pending;
         summary_pending_launches :=
           filter (fun e => e.2 ≠ 0) (pending_launches s);
         failed_nodes := get_all_failed_node_info (node_tracker s) non_failed |})%res.

(** The two switches that [__init__] reads from the provider section of the
    configuration, once, when the scaler is constructed:
    [(disable_node_updaters, disable_launch_config_check)]. *)
Definition init_switches (cfg : Config) : result (bool * bool) :=
  (provider_config <- subscript "provider" (cfg_provider cfg) ;;
   Ok (default false (provider_disable_node_updaters provider_config),
       default false (provider_disable_launch_config_check provider_config)))%res.

(** ** Reading the log *)

(** The calls of [schedule_node_termination] that a log records:
    node id and reason, oldest first. *)
Definition scheduled (records : list LogRecord) : list (NodeID * string) :=
  omap (fun r => match r.2 with
                 | Terminating node_id _ reason => Some (node_id, reason)
                 | _ => None
                 end) records.

(** What a run from [s] to [s'] added to the log. *)
Definition logged_since (s s' : Scaler) : list LogRecord :=
  drop (length (logger s)) (logger s').

(** ** Relating the states before and after a computation *)

(** [always R m]: whatever state [m] starts from, the state it ends in is
    related to it by [R]; also when [m] raises. *)
Definition always {A} (R : relation Scaler) (m : Py A) : Prop :=
  forall s, R s (m s).1.

(** [unchanged f]: the attribute (or tuple of attributes) [f] has the same
    value before and after. *)
Definition unchanged {A} (f : Scaler -> A) : relation Scaler :=
  fun s s' => f s' = f s.

(** The log only grows. *)
Definition log_grows : relation Scaler :=
  fun s s' => logger s `prefix_of` logger s'.

(** The state after [schedule_node_termination node_id reason], for the
    provider [p]. *)
Definition scheduled_state (p : Provider) (node_id : NodeID) (reason : string)
    (lvl : level) (s : Scaler) : Scaler :=
  set_nodes_to_terminate (nodes_to_terminate s ++ [node_id])
    (set_event_summarizer
       (event_summarizer s ++
        [("Removing {} nodes of type " +:+
          default "unknown_node_type"
            (node_tags p node_id !! CLOUDTIK_TAG_USER_NODE_TYPE) +:+
          " (" +:+ reason +:+ ").", 1)])
       (set_logger
          (logger s ++ [(lvl, Terminating node_id (internal_ip p node_id) reason)])
          s)).

(** The state after scheduling the nodes of [l], in order, for one reason. *)
Definition schedule_all (p : Provider) (reason : string) (lvl : level)
    (l : list NodeID) (s : Scaler) : Scaler :=
  fold_left (fun s node_id => scheduled_state p node_id reason lvl s) l s.

(** [s'] differs from [s] at most in what [schedule_node_termination]
    writes: the log, the events and the list of nodes to terminate. *)
Definition same_but_scheduling (s s' : Scaler) : Prop :=
  set_logger (logger s)
    (set_event_summarizer (event_summarizer s)
       (set_nodes_to_terminate (nodes_to_terminate s) s')) = s.

(** What [terminate_nodes_to_enforce_config_constraints], started in [s]
    with the given table and horizon, may log about a node and a reason:
    "idle" for a node whose ip is idle, "outdated" only if launch
    configurations are checked. *)
Definition enforce_entry_ok (s : Scaler) (last_used : gmap NodeIP Z)
    (horizon : Z) (entry : NodeID * string) : Prop :=
  (entry.2 = "idle" ->
   exists p, provider s = Some p /\
     idle_before last_used horizon (internal_ip p entry.1) = true) /\
  (entry.2 = "outdated" -> disable_launch_config_check s = false).

(** The state after the loop of [terminate_scheduled_nodes] over [nodes]:
    each node is untracked and counted as stopped. *)
Definition stopped_all (nodes : list NodeID) (s : Scaler) : Scaler :=
  fold_left (fun s node =>
    set_prometheus_metrics (inc_stopped_nodes (prometheus_metrics s))
      (set_node_tracker (untrack node (node_tracker s)) s)) nodes s.

(** The state after [terminate_scheduled_nodes], for the provider [p] and
    the node views [ntn] of the state before. *)
Definition terminated_state (p : Provider) (ntn : NonTerminatedNodes)
    (s : Scaler) : Scaler :=
  match nodes_to_terminate s with
  | [] => s
  | nodes =>
      set_nodes_to_terminate []
        (set_non_terminated (Some (remove_terminating_nodes nodes ntn))
           (stopped_all nodes
              (set_provider (Some (provider_terminate_nodes nodes p)) s)))
  end.

(** The state after one iteration of the loop of
    [terminate_unhealthy_nodes] for an up-to-date worker: a node that never
    sent a heartbeat is marked active. *)
Definition first_heartbeat_faked (p : Provider) (node_id : NodeID)
    (s : Scaler) : Scaler :=
  let ip := internal_ip p node_id in
  match last_heartbeat_time_by_ip (load_metrics s) !! ip with
  | None => set_load_metrics (mark_active ip (clock s) (load_metrics s)) s
  | Some _ => s
  end.

(** The heartbeat recorded for the ip of a node is [CLOUDTIK_HEARTBEAT_TIMEOUT_S]
    or more in the past at time [now]. *)
Definition heartbeat_stale `{Collaborators} (s : Scaler) (p : Provider)
    (now : Z) (node_id : NodeID) : Prop :=
  exists t,
    last_heartbeat_time_by_ip (load_metrics s) !! internal_ip p node_id
      = Some t /\
    CLOUDTIK_HEARTBEAT_TIMEOUT_S <= now - t.

(** The updater thread object that [self.updaters] holds for a node. *)
Definition updater_of (s : Scaler) (node_id : NodeID)
  : option NodeUpdaterThread :=
  OD.get node_id (updaters s) ≫= (fun ref => threads s !! ref).

(** The updater of the node has ended with exit code zero. *)
Definition update_succeeded (s : Scaler) (node_id : NodeID) : bool :=
  match updater_of s node_id with
  | Some u => negb (is_alive u) && bool_decide (exitcode u = 0)
  | None => false
  end.

(** The updater of the node has ended with another exit code. *)
Definition update_failed (s : Scaler) (node_id : NodeID) : bool :=
  match updater_of s node_id with
  | Some u => negb (is_alive u) && negb (bool_decide (exitcode u = 0))
  | None => false
  end.

(** What [process_completed_updates] records in the counters for a
    successful updater [u]. *)
Definition success_metrics (u : NodeUpdaterThread) (m : Metrics) : Metrics :=
  let m := inc_successful_updates m in
  let m := if u_for_recovery u then inc_successful_recoveries m else m in
  match update_time u with
  | Some t => if bool_decide (t = 0) then m else observe_worker_update_time t m
  | None => m
  end.

(** What [process_completed_updates] records in the counters for a failed
    updater [u]. *)
Definition failure_metrics (u : NodeUpdaterThread) (m : Metrics) : Metrics :=
  let m := inc_failed_updates m in
  if u_for_recovery u then inc_failed_recoveries m else m.

(** The state after the iteration of the loop of
    [process_completed_updates] for a node and its ended updater [u]. *)
Definition completed_state (p : Provider) (node_id : NodeID)
    (u : NodeUpdaterThread) (s : Scaler) : Scaler :=
  if bool_decide (exitcode u = 0) then
    set_updaters (OD.del node_id (updaters s))
      (set_load_metrics
         (mark_active (internal_ip p node_id) (clock s) (load_metrics s))
         (set_prometheus_metrics (success_metrics u (prometheus_metrics s))
            (set_num_successful_updates
               (increment node_id (num_successful_updates s)) s)))
  else
    set_updaters (OD.del node_id (updaters s))
      (set_node_tracker (untrack node_id (node_tracker s))
         (set_prometheus_metrics (failure_metrics u (prometheus_metrics s))
            (set_num_failed_updates
               (increment node_id (num_failed_updates s)) s))).

(** The state after the loop of [process_completed_updates] over the
    nodes of [l], each with its ended updater. *)
Definition completed_all (p : Provider)
    (l : list (NodeID * NodeUpdaterThread)) (s : Scaler) : Scaler :=
  fold_left (fun s e => completed_state p e.1 e.2 s) l s.

(** The entries of [self.updaters] whose thread has ended, in the order of
    the dictionary, each with its thread object. *)
Definition completed_list (s : Scaler) : list (NodeID * NodeUpdaterThread) :=
  omap (fun e : NodeID * nat =>
          match threads s !! e.2 with
          | Some u => if is_alive u then None else Some (e.1, u)
          | None => None
          end) (updaters s).

(** The failed updates among [l]. *)
Definition failed_among (l : list (NodeID * NodeUpdaterThread))
  : list NodeID :=
  (filter (fun e => exitcode e.2 ≠ 0) l).*1.

(** The state after the loop of [process_completed_updates] over the failed
    nodes: those still among the workers are scheduled, the others are
    reported as terminated already. *)
Definition failed_state (p : Provider) (workers : list NodeID)
    (failed_nodes : list NodeID) (s : Scaler) : Scaler :=
  fold_left (fun s node_id =>
    if bool_decide (node_id ∈ workers)
    then scheduled_state p node_id "launch failed" ERROR s
    else set_logger (logger s ++ [(WARNING, AlreadyTerminated node_id)]) s)
    failed_nodes s.

(** The state after [process_completed_updates], for the provider [p] and
    the node views [ntn] of the state before. *)
Definition processed_state (p : Provider) (ntn : NonTerminatedNodes)
    (s : Scaler) : Scaler :=
  match completed_list s with
  | [] => s
  | completed =>
      let s1 := completed_all p completed s in
      match failed_among completed with
      | [] => s1
      | failed =>
          terminated_state p ntn (failed_state p (worker_ids ntn) failed s1)
      end
  end.

(** ** The updater threads of a node *)

(** What ties [self.updaters] to the thread objects: one entry per node id;
    an entry names a thread object made for that node; and a living thread
    is the one its node's entry names. *)
Record updaters_consistent (s : Scaler) : Prop := {
  updaters_keys_NoDup : NoDup (OD.keys (updaters s));
  updaters_entry_thread :
    forall n ref, OD.get n (updaters s) = Some ref ->
      exists u, threads s !! ref = Some u /\ u_node_id u = n;
  updaters_living_thread :
    forall ref u, threads s !! ref = Some u -> is_alive u = true ->
      OD.get (u_node_id u) (updaters s) = Some ref;
}.

(** What can happen to a constructed scaler between two looks at its updater
    threads: a thread ends; the tick processes the completed updaters, starts
    the updaters of [update_nodes] for the workers it has observed (the
    provider lists a node id once), or attempts recoveries; anything else
    leaves the updater map and the thread objects alone. *)
Inductive scaler_step `{Collaborators} : Scaler -> Scaler -> Prop :=
| step_thread_exit s ref code duration :
    scaler_step s (thread_exit ref code duration s)
| step_process_completed_updates s p ntn :
    provider s = Some p ->
    non_terminated s = Some ntn ->
    scaler_step s (process_completed_updates s).1
| step_update_nodes s ntn :
    non_terminated s = Some ntn ->
    NoDup (worker_ids ntn) ->
    scaler_step s (update_nodes s).1
| step_attempt_to_recover s now :
    scaler_step s (attempt_to_recover_unhealthy_nodes now s).1
| step_other s s' :
    updaters s' = updaters s ->
    threads s' = threads s ->
    scaler_step s s'.

(** The updater map and the thread objects, which only [start_updater],
    [process_completed_updates] and the threads themselves change. *)
Definition updater_view (s : Scaler) : odict nat * list NodeUpdaterThread :=
  (updaters s, threads s).

(** Between the views [v] and [v'] one living thread was started for
    [node_id] and put in the map under that id. *)
Definition started (v v' : odict nat * list NodeUpdaterThread)
    (node_id : NodeID) : Prop :=
  exists u,
    u_node_id u = node_id /\ is_alive u = true /\
    v'.2 = v.2 ++ [u] /\
    v'.1 = OD.set node_id (length v.2) v.1.

(** The computation [m] leaves the updater map and the threads alone or
    starts one thread, for [node_id]. *)
Definition starts_at_most {A} (node_id : NodeID) (m : Py A) : Prop :=
  forall s,
    updater_view (m s).1 = updater_view s \/
    started (updater_view s) (updater_view (m s).1) node_id.

(** At most one living updater thread per node id. *)
Definition one_updater_per_node (s : Scaler) : Prop :=
  forall ref1 ref2 u1 u2,
    threads s !! ref1 = Some u1 -> threads s !! ref2 = Some u2 ->
    is_alive u1 = true -> is_alive u2 = true ->
    u_node_id u1 = u_node_id u2 ->
    ref1 = ref2.

(** ** Reading [reset] *)

(** The value of [sync_continuously] that [reset] takes from the
    configuration in force. *)
Definition sync_continuously_of (s : Scaler) : bool :=
  match config s with
  | Some c => default false (cfg_file_mounts_sync_continuously c)
  | None => false
  end.

(** The state in which a failed validation leaves the scaler. *)
Definition validation_failed (e : exn) (s : Scaler) : Scaler :=
  (log DEBUG (ValidationFailed e)
     ((metric inc_config_validation_exceptions s).1)).1.

(** The state in which the handler of a non-fatal [reset] leaves the
    scaler. *)
Definition reset_failed (e : exn) (s : Scaler) : Scaler :=
  (log ERROR (ErrorParsingConfig e) ((metric inc_reset_exceptions s).1)).1.

(** ** A sample cluster

    One head node and workers of one type, with stand-ins for the
    collaborators; the examples below run the embedded methods on it. *)
Module Sample.

Definition collaborators : Collaborators :=
  {| validate_config c :=
       match cfg_auth c with
       | Some _ => Ok tt
       | None => Raise (ValueError "auth is a required property")
       end;
     hash_runtime_conf _ _ _ sync :=
       Ok ("runtime-1", if sync then Some "contents-1" else None);
     hash_launch_conf _ _ := "launch-1";
     _get_node_provider _ _ := Raise (Exception "no provider");
     get_bin_pack_residual nodes demands := (demands, nodes);
     with_head_node_ip commands _ := commands;
     CLOUDTIK_HEARTBEAT_TIMEOUT_S := 30 |}.

Definition worker_type : NodeTypeConfig :=
  {| nt_node_config := Some ∅;
     nt_resources := Some {[ "CPU" := 4 ]};
     nt_min_workers := Some 1;
     nt_max_workers := Some 2;
     nt_worker_setup_commands := None;
     nt_initialization_commands := None;
     nt_docker := None |}.

Definition head_type : NodeTypeConfig :=
  {| nt_node_config := Some ∅;
     nt_resources := Some {[ "CPU" := 4 ]};
     nt_min_workers := None;
     nt_max_workers := None;
     nt_worker_setup_commands := None;
     nt_initialization_commands := None;
     nt_docker := None |}.

Definition cluster_config (idle_timeout_minutes : Z) (auth : option Blob)
  : Config :=
  {| cfg_cluster_name := Some "sample";
     cfg_provider :=
       Some {| provider_type := Some "aws";
               provider_disable_node_updaters := None;
               provider_disable_launch_config_check := None |};
     cfg_auth := auth;
     cfg_docker := None;
     cfg_available_node_types :=
       Some [("head", head_type); ("w", worker_type)];
     cfg_head_node_type := Some "head";
     cfg_max_workers := Some 2;
     cfg_idle_timeout_minutes := Some idle_timeout_minutes;
     cfg_upscaling_speed := None;
     cfg_file_mounts := Some [];
     cfg_cluster_synced_files := Some [];
     cfg_file_mounts_sync_continuously := None;
     cfg_worker_setup_commands := Some ["setup"];
     cfg_worker_start_commands := Some ["start"];
     cfg_initialization_commands := Some [];
     cfg_restart_only := None;
     cfg_no_restart := None |}.

Definition valid_config : Config := cluster_config 5 (Some ∅).

(** The same document without its [auth] section. *)
Definition invalid_config : Config := cluster_config 5 None.

Definition worker_tags (status : string) : Tags :=
  {[ CLOUDTIK_TAG_NODE_KIND := NODE_KIND_WORKER;
     CLOUDTIK_TAG_USER_NODE_TYPE := "w";
     CLOUDTIK_TAG_NODE_STATUS := status;
     CLOUDTIK_TAG_LAUNCH_CONFIG := "launch-1";
     CLOUDTIK_TAG_RUNTIME_CONFIG := "runtime-1" ]}.

Definition head_tags : Tags :=
  {[ CLOUDTIK_TAG_NODE_KIND := NODE_KIND_HEAD;
     CLOUDTIK_TAG_USER_NODE_TYPE := "head";
     CLOUDTIK_TAG_NODE_STATUS := STATUS_UP_TO_DATE ]}.

(** A provider that lists [nodes] with the given tags; the ip of a node is
    its id prefixed with "ip-". *)
Definition cloud (nodes : list (NodeID * Tags)) : Provider :=
  {| non_terminated_nodes := nodes.*1;
     node_tags node := default ∅ (OD.get node nodes);
     internal_ip node := "ip-" +:+ node;
     is_local_node_provider := false;
     local_head_state_recorded := false;
     terminate_calls := [] |}.

Definition no_metrics : Metrics :=
  {| config_validation_exceptions := 0; reset_exceptions := 0;
     update_loop_exceptions := 0; successful_updates := 0;
     failed_updates := 0; successful_recoveries := 0;
     failed_recoveries := 0; stopped_nodes := 0; running_workers := 0;
     worker_update_time := [] |}.

(** A constructed scaler that has observed [workers], at time [now]. *)
Definition scaler (cfg : Config) (p : Provider) (workers : list NodeID)
    (lm : LoadMetrics) (now : Z) : Scaler :=
  {| config := Some cfg;
     runtime_hash := Some "runtime-1";
     file_mounts_contents_hash := Some None;
     provider := Some p;
     available_node_types := cfg_available_node_types cfg;
     resource_demand_scheduler := None;
     load_metrics := lm;
     prometheus_metrics := no_metrics;
     event_summarizer := [];
     logger := [];
     updaters := [];
     num_failed_updates := ∅;
     num_successful_updates := ∅;
     num_failures := 0;
     max_failures := 5;
     last_update_time := 0;
     update_interval_s := 5;
     non_terminated :=
       Some {| all_node_ids := "head" :: workers;
               worker_ids := workers;
               head_id := Some "head" |};
     nodes_to_terminate := [];
     disable_node_updaters := false;
     disable_launch_config_check := false;
     node_tracker := {| capacity := 100; tracked := [] |};
     pending_launches := [];
     threads := [];
     clock := now |}.

Definition idle_metrics (last_used : list (NodeIP * Z)) : LoadMetrics :=
  {| last_used_time_by_ip := list_to_map last_used;
     last_heartbeat_time_by_ip := list_to_map last_used;
     resource_requests := [];
     static_node_resources_by_ip := ∅ |}.

(** Two workers of type "w"; "w1" was used at time 990, "w2" at 400. *)
Definition two_workers : Provider :=
  cloud [("head", head_tags);
         ("w1", worker_tags STATUS_UP_TO_DATE);
         ("w2", worker_tags STATUS_UP_TO_DATE)].

Definition two_workers_scaler (cfg : Config) : Scaler :=
  scaler cfg two_workers ["w1"; "w2"]
    (idle_metrics [("ip-w1", 990); ("ip-w2", 400)]) 1000.
End Sample.

(** ** Reading [reset], continued *)

(** The upscaling speed that [reset] hands to the resource demand
    scheduler: the configured one, or 1.0 if none, or zero, is configured. *)
Definition upscaling_speed_of (new_config : Config) : Qc :=
  match cfg_upscaling_speed new_config with
  | Some v => if bool_decide (v = 0%Qc) then 1%Qc else v
  | None => 1%Qc
  end.

(** The attributes that [reset] does not assign. *)
Definition reset_frame_view (s : Scaler) :=
  (load_metrics s, updaters s, threads s, num_failed_updates s,
   num_successful_updates s, num_failures s, last_update_time s,
   non_terminated s, nodes_to_terminate s, node_tracker s,
   pending_launches s, disable_node_updaters s,
   disable_launch_config_check s, event_summarizer s).

(** ** Reading the node views *)

(** The nodes of [l] whose kind tag is [kind], in the order of [l]. *)
Definition nodes_of_kind (p : Provider) (kind : string) (l : list NodeID)
  : list NodeID :=
  filter (fun node => node_tags p node !! CLOUDTIK_TAG_NODE_KIND = Some kind) l.

(** ** Reading the counts of updates *)

(** How often the update of a node has failed: [num_failed_updates.get(n, 0)]. *)
Definition failed_updates_of (s : Scaler) (node_id : NodeID) : Z :=
  default 0 (num_failed_updates s !! node_id).

(** No count of failed updates is lower in [s'] than in [s]. *)
Definition failed_updates_grow : relation Scaler :=
  fun s s' => forall node_id,
    failed_updates_of s node_id <= failed_updates_of s' node_id.

(** * The rest of [StandardClusterScaler]

    [update], [_update] and the methods that only they call. *)

(** ** More collaborators

    What these methods call in modules that are not among the sources:
    the [ConcurrentCounter] of the pending launches, the load metrics, the
    resource demand scheduler, [format_info_string], and the class
    [MaxRetryError] of [urllib3]. *)
Class LoopCollaborators := {
  (** [counter.inc(key, count)], on the breakdown of the counter *)
  counter_inc : NodeType -> Z -> odict Z -> odict Z;
  (** [counter.value], of the breakdown *)
  counter_value : odict Z -> Z;
  (** [load_metrics.prune_active_ips(active_ips)] *)
  prune_active_ips : list NodeIP -> LoadMetrics -> LoadMetrics;
  (** the type of what [load_metrics.summary()] returns *)
  LoadMetricsSummary : Type;
  load_metrics_summary : LoadMetrics -> LoadMetricsSummary;
  format_info_string : LoadMetricsSummary -> ClusterScalerSummary -> string;
  (** [scheduler.get_nodes_to_launch(nodes, launching_nodes,
      resource_demands, unused_resources_by_ip, static_node_resources_by_ip,
      ensure_min_cluster_size)] *)
  get_nodes_to_launch :
    ResourceDemandScheduler -> list NodeID -> odict Z -> list ResourceDict ->
    gmap NodeIP ResourceDict -> gmap NodeIP ResourceDict ->
    list ResourceDict -> result (odict Z * list ResourceDict);
  (** [scheduler.is_feasible(bundle)] *)
  is_feasible : ResourceDemandScheduler -> ResourceDict -> bool;
  (** [isinstance(e, MaxRetryError)] *)
  is_MaxRetryError : exn -> bool;
}.

(** ** The whole object *)

(** What the methods of this part write to the log. *)
Inductive LoopMessage :=
| InfoString (text : string)
| QueueNewNodes (count : Z)
| ErrorDuringAutoscaling (e : exn)
| TooManyErrors.

(** The calls of [event_summarizer.add_once_per_interval], each with
    [interval_s=30] and a key made of the kind of the message and the
    request. *)
Inductive IntervalEvent :=
| PendingRequest (request : ResourceDict)
| InfeasibleRequest (request : ResourceDict).

(** The attributes of [self], of [self.load_metrics] and of
    [self.prometheus_metrics] that only the methods of this part read or
    assign, beside those of [Scaler]. *)
Record StandardClusterScaler := {
  self_scaler : Scaler;
  max_launch_batch : Z;
  (** the requests put on [self.launch_queue], oldest first *)
  launch_queue : list (Config * Z * NodeType);
  (** the records that these methods logged, oldest first *)
  loop_logger : list (level * LoopMessage);
  interval_events : list IntervalEvent;
  (** the gauges [pending_nodes], [updating_nodes], [recovering_nodes] and
      the observations of [update_time] *)
  gauge_pending_nodes : Z;
  gauge_updating_nodes : Z;
  gauge_recovering_nodes : Z;
  observed_update_time : list Z;
  (** [load_metrics.cluster_full_of_actors_detected],
      [load_metrics.get_resource_demands()] and
      [load_metrics.get_resource_utilization()] *)
  cluster_full_of_actors_detected : bool;
  resource_demands : list ResourceDict;
  resource_utilization : gmap NodeIP ResourceDict;
}.

Definition with_scaler (v : Scaler) (x : StandardClusterScaler)
  : StandardClusterScaler :=
  {| self_scaler := v; max_launch_batch := max_launch_batch x;
     launch_queue := launch_queue x; loop_logger := loop_logger x;
     interval_events := interval_events x;
     gauge_pending_nodes := gauge_pending_nodes x;
     gauge_updating_nodes := gauge_updating_nodes x;
     gauge_recovering_nodes := gauge_recovering_nodes x;
     observed_update_time := observed_update_time x;
     cluster_full_of_actors_detected := cluster_full_of_actors_detected x;
     resource_demands := resource_demands x;
     resource_utilization := resource_utilization x |}.

Definition with_launch_queue (v : list (Config * Z * NodeType))
    (x : StandardClusterScaler) : StandardClusterScaler :=
  {| self_scaler := self_scaler x; max_launch_batch := max_launch_batch x;
     launch_queue := v; loop_logger := loop_logger x;
     interval_events := interval_events x;
     gauge_pending_nodes := gauge_pending_nodes x;
     gauge_updating_nodes := gauge_updating_nodes x;
     gauge_recovering_nodes := gauge_recovering_nodes x;
     observed_update_time := observed_update_time x;
     cluster_full_of_actors_detected := cluster_full_of_actors_detected x;
     resource_demands := resource_demands x;
     resource_utilization := resource_utilization x |}.

Definition with_loop_logger (v : list (level * LoopMessage))
    (x : StandardClusterScaler) : StandardClusterScaler :=
  {| self_scaler := self_scaler x; max_launch_batch := max_launch_batch x;
     launch_queue := launch_queue x; loop_logger := v;
     interval_events := interval_events x;
     gauge_pending_nodes := gauge_pending_nodes x;
     gauge_updating_nodes := gauge_updating_nodes x;
     gauge_recovering_nodes := gauge_recovering_nodes x;
     observed_update_time := observed_update_time x;
     cluster_full_of_actors_detected := cluster_full_of_actors_detected x;
     resource_demands := resource_demands x;
     resource_utilization := resource_utilization x |}.

Definition with_interval_events (v : list IntervalEvent)
    (x : StandardClusterScaler) : StandardClusterScaler :=
  {| self_scaler := self_scaler x; max_launch_batch := max_launch_batch x;
     launch_queue := launch_queue x; loop_logger := loop_logger x;
     interval_events := v;
     gauge_pending_nodes := gauge_pending_nodes x;
     gauge_updating_nodes := gauge_updating_nodes x;
     gauge_recovering_nodes := gauge_recovering_nodes x;
     observed_update_time := observed_update_time x;
     cluster_full_of_actors_detected := cluster_full_of_actors_detected x;
     resource_demands := resource_demands x;
     resource_utilization := resource_utilization x |}.

Definition with_gauge_pending_nodes (v : Z) (x : StandardClusterScaler)
  : StandardClusterScaler :=
  {| self_scaler := self_scaler x; max_launch_batch := max_launch_batch x;
     launch_queue := launch_queue x; loop_logger := loop_logger x;
     interval_events := interval_events x;
     gauge_pending_nodes := v;
     gauge_updating_nodes := gauge_updating_nodes x;
     gauge_recovering_nodes := gauge_recovering_nodes x;
     observed_update_time := observed_update_time x;
     cluster_full_of_actors_detected := cluster_full_of_actors_detected x;
     resource_demands := resource_demands x;
     resource_utilization := resource_utilization x |}.

Definition with_gauge_updating_nodes (v : Z) (x : StandardClusterScaler)
  : StandardClusterScaler :=
  {| self_scaler := self_scaler x; max_launch_batch := max_launch_batch x;
     launch_queue := launch_queue x; loop_logger := loop_logger x;
     interval_events := interval_events x;
     gauge_pending_nodes := gauge_pending_nodes x;
     gauge_updating_nodes := v;
     gauge_recovering_nodes := gauge_recovering_nodes x;
     observed_update_time := observed_update_time x;
     cluster_full_of_actors_detected := cluster_full_of_actors_detected x;
     resource_demands := resource_demands x;
     resource_utilization := resource_utilization x |}.

Definition with_gauge_recovering_nodes (v : Z) (x : StandardClusterScaler)
  : StandardClusterScaler :=
  {| self_scaler := self_scaler x; max_launch_batch := max_launch_batch x;
     launch_queue := launch_queue x; loop_logger := loop_logger x;
     interval_events := interval_events x;
     gauge_pending_nodes := gauge_pending_nodes x;
     gauge_updating_nodes := gauge_updating_nodes x;
     gauge_recovering_nodes := v;
     observed_update_time := observed_update_time x;
     cluster_full_of_actors_detected := cluster_full_of_actors_detected x;
     resource_demands := resource_demands x;
     resource_utilization := resource_utilization x |}.

Definition with_observed_update_time (v : list Z) (x : StandardClusterScaler)
  : StandardClusterScaler :=
  {| self_scaler := self_scaler x; max_launch_batch := max_launch_batch x;
     launch_queue := launch_queue x; loop_logger := loop_logger x;
     interval_events := interval_events x;
     gauge_pending_nodes := gauge_pending_nodes x;
     gauge_updating_nodes := gauge_updating_nodes x;
     gauge_recovering_nodes := gauge_recovering_nodes x;
     observed_update_time := v;
     cluster_full_of_actors_detected := cluster_full_of_actors_detected x;
     resource_demands := resource_demands x;
     resource_utilization := resource_utilization x |}.

(** The assignment to [self.pending_launches], which the methods of the
    first part only read. *)
Definition set_pending_launches (v : odict Z) (s : Scaler) : Scaler :=
  {| config := config s; runtime_hash := runtime_hash s;
     file_mounts_contents_hash := file_mounts_contents_hash s;
     provider := provider s; available_node_types := available_node_types s;
     resource_demand_scheduler := resource_demand_scheduler s;
     load_metrics := load_metrics s;
     prometheus_metrics := prometheus_metrics s;
     event_summarizer := event_summarizer s; logger := logger s;
     updaters := updaters s; num_failed_updates := num_failed_updates s;
     num_successful_updates := num_successful_updates s;
     num_failures := num_failures s; max_failures := max_failures s;
     last_update_time := last_update_time s;
     update_interval_s := update_interval_s s;
     non_terminated := non_terminated s;
     nodes_to_terminate := nodes_to_terminate s;
     disable_node_updaters := disable_node_updaters s;
     disable_launch_config_check := disable_launch_config_check s;
     node_tracker := node_tracker s; pending_launches := v;
     threads := threads s; clock := clock s |}.

(** ** Computations that may not end

    [launch_new_node] has a [while] loop that does not end for every input.
    A computation of this part is run with a bound on the iterations of each
    such loop and has no outcome, [None], when the bound does not suffice. *)
Definition Run (A : Type) : Type :=
  StandardClusterScaler -> option (StandardClusterScaler * result A).

Definition run_ret {A} (a : A) : Run A := fun x => Some (x, Ok a).

Definition run_raise {A} (e : exn) : Run A := fun x => Some (x, Raise e).

Definition run_bind {A B} (m : Run A) (k : A -> Run B) : Run B :=
  fun x =>
    match m x with
    | Some (x', Ok a) => k a x'
    | Some (x', Raise e) => Some (x', Raise e)
    | None => None
    end.

(** The bound did not suffice. *)
Definition out_of_fuel {A} : Run A := fun _ => None.

(** A method of the first part, run on [self]. *)
Definition on_scaler {A} (m : Py A) : Run A :=
  fun x => let '(s', r) := m (self_scaler x) in Some (with_scaler s' x, r).

Definition run_gets {A} (f : StandardClusterScaler -> A) : Run A :=
  fun x => Some (x, Ok (f x)).

Definition run_modify (f : StandardClusterScaler -> StandardClusterScaler)
  : Run unit :=
  fun x => Some (f x, Ok tt).

(** [try: m except Exception as e: h e] *)
Definition run_try_except {A} (m : Run A) (h : exn -> Run A) : Run A :=
  fun x =>
    match m x with
    | Some (x', Ok a) => Some (x', Ok a)
    | Some (x', Raise e) => h e x'
    | None => None
    end.

Declare Scope run_scope.
Delimit Scope run_scope with run.
Notation "x <- m ;; k" := (run_bind m (fun x => k))
  (at level 100, m at next level, right associativity) : run_scope.
Notation "m ;;; k" := (run_bind m (fun _ => k))
  (at level 100, right associativity) : run_scope.

Fixpoint run_for_each {A} (l : list A) (body : A -> Run unit) : Run unit :=
  match l with
  | [] => run_ret tt
  | a :: l' => (body a ;;; run_for_each l' body)%run
  end.

Definition loop_log (lvl : level) (msg : LoopMessage) : Run unit :=
  run_modify (fun x => with_loop_logger (loop_logger x ++ [(lvl, msg)]) x).

(** ** [launch_new_node] and [launch_required_nodes] *)

(** The [while] loop of [launch_new_node], for at most [fuel] iterations. *)
Fixpoint launch_batches (fuel : nat) (config : Config) (node_type : NodeType)
    (count : Z) : Run unit :=
  if 0 <? count then
    match fuel with
    | O => out_of_fuel
    | S fuel' =>
        (batch <- run_gets max_launch_batch ;;
         run_modify (fun x =>
           with_launch_queue
             (launch_queue x ++ [(config, Z.min count batch, node_type)]) x) ;;;
         launch_batches fuel' config node_type (count - batch))%run
    end
  else run_ret tt.

(** [self.launch_new_node(count, node_type)], for a node type that is a
    string, as the keys of the dictionary are that [launch_required_nodes]
    takes the types from. *)
Definition launch_new_node `{LoopCollaborators} (fuel : nat) (count : Z)
    (node_type : NodeType) : Run unit :=
  (loop_log INFO (QueueNewNodes count) ;;;
   on_scaler (event_add ("Adding {} nodes of type " +:+ node_type +:+ ".")
                count) ;;;
   on_scaler (modify (fun s =>
     set_pending_launches (counter_inc node_type count (pending_launches s))
       s)) ;;;
   value <- run_gets (fun x =>
     counter_value (pending_launches (self_scaler x))) ;;
   run_modify (with_gauge_pending_nodes value) ;;;
   config <- on_scaler (lift the_config) ;;
   launch_batches fuel config node_type count)%run.

Definition launch_required_nodes `{LoopCollaborators} (fuel : nat)
    (to_launch : odict Z) : Run unit :=
  match to_launch with
  | [] => run_ret tt
  | _ =>
      run_for_each to_launch (fun item =>
        let '(node_type, count) := item in
        launch_new_node fuel count node_type)
  end.

(** ** [set_prometheus_updater_data] *)
Definition set_prometheus_updater_data : Run unit :=
  (entries <- run_gets (fun x => updaters (self_scaler x)) ;;
   run_modify (with_gauge_updating_nodes (Z.of_nat (length entries))) ;;;
   num_recovering <- on_scaler (lift (fun s =>
     rfor_fold (OD.values entries) 0
       (fun num_recovering ref =>
          (updater <- thread_object s ref ;;
           if u_for_recovery updater
           then Ok (num_recovering + 1)
           else Ok num_recovering)%res))) ;;
   run_modify (with_gauge_recovering_nodes num_recovering))%run.

(** ** [_report_pending_infeasible] *)

(** [needle in hay], for strings. *)
Fixpoint str_contains (needle hay : string) : bool :=
  String.prefix needle hay ||
  match hay with
  | EmptyString => false
  | String _ hay' => str_contains needle hay'
  end.

(** [any("_group_" in k or k == "bundle" for k in bundle)] *)
Definition placement_group (bundle : ResourceDict) : bool :=
  existsb (fun k => str_contains "_group_" k || bool_decide (k = "bundle"))
    (map_to_list bundle).*1.

(** The first loop of [_report_pending_infeasible]; the local variables
    are [pending] and [infeasible]. *)
Definition sort_unfulfilled `{LoopCollaborators} (s : Scaler)
    (unfulfilled : list ResourceDict)
  : result (list ResourceDict * list ResourceDict) :=
  rfor_fold unfulfilled ([], [])
    (fun locals bundle =>
       let '(pending, infeasible) := locals in
       if placement_group bundle then Ok locals
       else
         (scheduler <- attribute "resource_demand_scheduler"
                         (resource_demand_scheduler s) ;;
          if is_feasible scheduler bundle
          then Ok (pending ++ [bundle], infeasible)
          else Ok (pending, infeasible ++ [bundle]))%res).

Definition add_once_per_interval (event : IntervalEvent) : Run unit :=
  run_modify (fun x => with_interval_events (interval_events x ++ [event]) x).

Definition _report_pending_infeasible `{LoopCollaborators}
    (unfulfilled : list ResourceDict) : Run unit :=
  (sorted <- on_scaler (lift (fun s => sort_unfulfilled s unfulfilled)) ;;
   let '(pending, infeasible) := sorted in
   (match pending with
    | [] => run_ret tt
    | _ =>
        full <- run_gets cluster_full_of_actors_detected ;;
        if (full : bool) then
          run_for_each pending (fun request =>
            add_once_per_interval (PendingRequest request))
        else run_ret tt
    end) ;;;
   match infeasible with
   | [] => run_ret tt
   | _ =>
       run_for_each infeasible (fun request =>
         add_once_per_interval (InfeasibleRequest request))
   end)%run.

(** ** [info_string] *)
Definition info_string `{LoopCollaborators} (s : Scaler) : result string :=
  (let lm_summary := load_metrics_summary (load_metrics s) in
   scaler_summary <- summary s ;;
   Ok (String (Ascii.ascii_of_nat 10) EmptyString +:+
       format_info_string lm_summary scaler_summary))%res.

(** ** [_update] and [update] *)

(** [self._update()]; [now] and [later] are what the two calls of
    [time.time()] return. *)
Definition _update `{Collaborators} `{LoopCollaborators} (fuel : nat)
    (now later : Z) : Run unit :=
  (last <- run_gets (fun x => last_update_time (self_scaler x)) ;;
   interval <- run_gets (fun x => update_interval_s (self_scaler x)) ;;
   if now - last <? interval then run_ret tt
   else
     on_scaler (modify (set_last_update_time now)) ;;;
     p <- on_scaler (lift the_provider) ;;
     ntn <- on_scaler (lift (fun _ => NonTerminatedNodes_init p)) ;;
     on_scaler (modify (set_non_terminated (Some ntn))) ;;;
     let num_workers := Z.of_nat (length (worker_ids ntn)) in
     on_scaler (metric (set_running_workers num_workers)) ;;;
     on_scaler
       (p <- lift the_provider ;;
        ntn <- lift the_non_terminated_nodes ;;
        modify (fun s =>
          set_load_metrics
            (prune_active_ips (map (internal_ip p) (all_node_ids ntn))
               (load_metrics s)) s))%py ;;;
     text <- on_scaler (lift info_string) ;;
     loop_log INFO (InfoString text) ;;;
     on_scaler (terminate_nodes_to_enforce_config_constraints now) ;;;
     disabled <- run_gets (fun x => disable_node_updaters (self_scaler x)) ;;
     (if (disabled : bool) then on_scaler (terminate_unhealthy_nodes now)
      else
        on_scaler process_completed_updates ;;;
        on_scaler update_nodes ;;;
        on_scaler (attempt_to_recover_unhealthy_nodes now) ;;;
        set_prometheus_updater_data) ;;;
     scheduler <- on_scaler (lift (fun s =>
       attribute "resource_demand_scheduler" (resource_demand_scheduler s))) ;;
     ntn <- on_scaler (lift the_non_terminated_nodes) ;;
     demands <- run_gets resource_demands ;;
     utilization <- run_gets resource_utilization ;;
     launch <- on_scaler (lift (fun s =>
       get_nodes_to_launch scheduler (all_node_ids ntn) (pending_launches s)
         demands utilization
         (static_node_resources_by_ip (load_metrics s))
         (resource_requests (load_metrics s)))) ;;
     let '(to_launch, unfulfilled) := launch in
     _report_pending_infeasible unfulfilled ;;;
     launch_required_nodes fuel to_launch ;;;
     last <- run_gets (fun x => last_update_time (self_scaler x)) ;;
     let update_time := later - last in
     run_modify (fun x =>
       with_observed_update_time (observed_update_time x ++ [update_time]) x))%run.

(** [self.update()]; [config_reader] is what [self.config_reader()] returns
    or raises in this call. *)
Definition update `{Collaborators} `{LoopCollaborators} (fuel : nat)
    (config_reader : result Config) (now later : Z) : Run unit :=
  run_try_except
    (on_scaler (reset config_reader false) ;;;
     _update fuel now later)%run
    (fun e =>
       (on_scaler (metric inc_update_loop_exceptions) ;;;
        loop_log ERROR (ErrorDuringAutoscaling e) ;;;
        provider_type <- on_scaler (lift (fun s =>
          (cfg <- the_config s ;;
           provider_config <- subscript "provider" (cfg_provider cfg) ;;
           subscript "type" (provider_type provider_config))%res)) ;;
        let is_k8s_connection_error :=
          bool_decide (provider_type = "kubernetes") && is_MaxRetryError e in
        (if negb is_k8s_connection_error
         then on_scaler (modify (fun s =>
                set_num_failures (num_failures s + 1) s))
         else run_ret tt) ;;;
        failures <- run_gets (fun x => num_failures (self_scaler x)) ;;
        limit <- run_gets (fun x => max_failures (self_scaler x)) ;;
        if limit <? failures then
          loop_log CRITICAL TooManyErrors ;;;
          run_raise e
        else run_ret tt)%run).

(** ** Reading [launch_new_node] *)

(** The object when [launch_new_node] enters its loop: the request is
    logged, announced as an event and counted as pending. *)
Definition launch_announced `{LoopCollaborators} (count : Z)
    (node_type : NodeType) (x : StandardClusterScaler)
  : StandardClusterScaler :=
  let s := self_scaler x in
  let pending := counter_inc node_type count (pending_launches s) in
  with_gauge_pending_nodes (counter_value pending)
    (with_scaler
       (set_pending_launches pending
          (set_event_summarizer
             (event_summarizer s ++
              [("Adding {} nodes of type " +:+ node_type +:+ ".", count)]) s))
       (with_loop_logger (loop_logger x ++ [(INFO, QueueNewNodes count)]) x)).

(** The launch requests for [sizes] nodes of one type, in this order. *)
Definition launch_requests (config : Config) (node_type : NodeType)
    (sizes : list Z) : list (Config * Z * NodeType) :=
  map (fun n => (config, n, node_type)) sizes.

(** The number of nodes that launch requests of the sizes [sizes] ask for. *)
Definition total (sizes : list Z) : Z := foldr Z.add 0 sizes.

(** ** Reading [_report_pending_infeasible] *)

(** The bundles of [unfulfilled] that are not of a placement group and that
    the scheduler finds feasible ([feasible = true]), or not. *)
Definition reportable `{LoopCollaborators} (scheduler : ResourceDemandScheduler)
    (feasible : bool) (unfulfilled : list ResourceDict) : list ResourceDict :=
  filter (fun bundle => is_feasible scheduler bundle = feasible)
    (filter (fun bundle => placement_group bundle = false) unfulfilled).

(** ** Relating the objects before and after a computation *)

(** [run_always R m]: whenever [m] has an outcome, the object it ends in is
    related by [R] to the one it started from. *)
Definition run_always {A} (R : relation StandardClusterScaler) (m : Run A)
  : Prop :=
  forall x x' r, m x = Some (x', r) -> R x x'.

(** [f] has the same value before and after. *)
Definition run_unchanged {A} (f : StandardClusterScaler -> A)
  : relation StandardClusterScaler :=
  fun x x' => f x' = f x.

(** [m] has an outcome from every object. *)
Definition run_total {A} (m : Run A) : Prop :=
  forall x, is_Some (m x).

(** ** Reading [set_prometheus_updater_data] *)

(** The entries of [self.updaters] whose thread was started for a
    recovery. *)
Definition recovery_updaters (s : Scaler) : odict nat :=
  filter (fun entry => (u_for_recovery <$> threads s !! entry.2) = Some true)
    (updaters s).

(** ** Reading [update] *)

(** What [update] keeps of the failures of the ticks: the count of the
    failures, its limit, and the counter of the exceptions of the loop. *)
Definition failure_view (s : Scaler) : Z * Z * Z :=
  (num_failures s, max_failures s,
   update_loop_exceptions (prometheus_metrics s)).

(** The type of the provider in the configuration in force, if it can be
    read: [self.config["provider"]["type"]]. *)
Definition provider_type_of (s : Scaler) : option string :=
  (config s ≫= cfg_provider) ≫= provider_type.

(** What throttles the ticks. *)
Definition throttle_view (s : Scaler) : Z * Z :=
  (last_update_time s, update_interval_s s).

(** [m], a computation for each bound, has an outcome from every object
    with a positive [max_launch_batch] once the bound is large enough. *)
Definition returns_eventually {A} (m : nat -> Run A) : Prop :=
  forall x, 0 < max_launch_batch x ->
    exists fuel0, forall fuel, (fuel0 <= fuel)%nat -> is_Some (m fuel x).

(** With the node updaters disabled, the updater map, the thread objects
    and the switch itself are in [x'] as they are in [x]. *)
Definition updaters_stay_disabled : relation StandardClusterScaler :=
  fun x x' =>
    disable_node_updaters (self_scaler x) = true ->
    disable_node_updaters (self_scaler x') = true /\
    updater_view (self_scaler x') = updater_view (self_scaler x).

(** ** More sample clusters, and samples of the whole object *)
(** What the commands of an update are computed from. *)
Definition commands_view (s : Scaler)
  : option Config * option Provider * option (odict NodeTypeConfig) *
    gmap NodeID Z :=
  (config s, provider s, available_node_types s, num_successful_updates s).

(** The number of nodes that a counter of node types has counted. *)
Definition counted (counter : odict Z) : Z :=
  foldr Z.add 0 (OD.values counter).

(** An entry of [pending_nodes] that stands for a listed node with its
    three tags, managed and with a status that is not a completed one. *)
Definition pending_entry (p : Provider) (ntn : NonTerminatedNodes)
    (entry : NodeIP * NodeType * string) : Prop :=
  exists node_id,
    node_id ∈ all_node_ids ntn /\
    entry.1.1 = internal_ip p node_id /\
    node_tags p node_id !! CLOUDTIK_TAG_USER_NODE_TYPE = Some (entry.1.2) /\
    node_tags p node_id !! CLOUDTIK_TAG_NODE_STATUS = Some (entry.2) /\
    node_tags p node_id !! CLOUDTIK_TAG_NODE_KIND ≠ Some NODE_KIND_UNMANAGED /\
    entry.2 ≠ STATUS_UP_TO_DATE /\ entry.2 ≠ STATUS_UPDATE_FAILED.

(** * The registry of node providers ([providers.py]) *)

Module Providers.
Import Stdlib.Strings.Ascii.

(** The exceptions raised here: those of the scaler and
    [NotImplementedError]. *)
Inductive error :=
| Builtin (e : exn)
| NotImplementedError (msg : string).

Inductive outcome (A : Type) :=
| Return (a : A)
| Throw (e : error).
Arguments Return {A} a.
Arguments Throw {A} e.

Definition obind {A B} (r : outcome A) (k : A -> outcome B) : outcome B :=
  match r with
  | Return a => k a
  | Throw e => Throw e
  end.

Declare Scope outcome_scope.
Delimit Scope outcome_scope with out.
Notation "x <- m ;; k" := (obind m (fun x => k))
  (at level 100, m at next level, right associativity) : outcome_scope.

(** The provider section of a configuration, [Dict[str, Any]]: of its
    values this module reads "type" and "module", both strings. *)
Definition ProviderSection : Type := gmap string string.

(** [d[key]] *)
Definition item (key : string) (d : ProviderSection) : outcome string :=
  match d !! key with
  | Some v => Return v
  | None => Throw (Builtin (KeyError key))
  end.

(** What this module takes from elsewhere: the import machinery
    ([importlib.import_module], [getattr] on a module, and the statement
    [from module import name]), [json.dumps(_, sort_keys=True)], and the
    constructors of the provider classes, [cls(provider_config,
    cluster_name)]. *)
Class Imports := {
  PyModule : Type;
  NodeProviderClass : Type;
  NodeProviderObject : Type;
  import_module : string -> outcome PyModule;
  getattr : PyModule -> string -> outcome NodeProviderClass;
  from_import : string -> string -> outcome NodeProviderClass;
  json_dumps : ProviderSection -> string;
  construct : NodeProviderClass -> ProviderSection -> string ->
              outcome NodeProviderObject;
}.

(** [s.split(sep)] for a separator of one character. *)
Fixpoint split (sep : ascii) (s : string) : list string :=
  match s with
  | EmptyString => [EmptyString]
  | String c rest =>
      if Ascii.eqb c sep then EmptyString :: split sep rest
      else
        match split sep rest with
        | part :: parts => String c part :: parts
        | [] => [String c EmptyString]
        end
  end.

(** [sep.join(parts)] *)
Fixpoint join (sep : string) (parts : list string) : string :=
  match parts with
  | [] => EmptyString
  | part :: rest =>
      match rest with
      | [] => part
      | _ :: _ => part +:+ sep +:+ join sep rest
      end
  end.

Definition _load_class `{Imports} (path : string)
  : outcome NodeProviderClass :=
  let class_data := split "."%char path in
  if (length class_data <? 2)%nat then
    Throw (Builtin (ValueError
      "You need to pass a valid path like mymodule.provider_class"))
  else
    let module_path :=
      join "." (take (length class_data - 1) class_data) in
    match last class_data with
    | None => Throw (Builtin IndexError)
    | Some class_str =>
        (module <- import_module module_path ;;
         getattr module class_str)%out
    end.

(** The functions that [_NODE_PROVIDERS] holds. *)
Inductive importer :=
| _import_local
| _import_aws
| _import_gcp
| _import_azure
| _import_kubernetes
| _import_external.

(** [importer(provider_config)] *)
Definition import_with `{Imports} (f : importer)
    (provider_config : ProviderSection) : outcome NodeProviderClass :=
  match f with
  | _import_aws =>
      from_import "cloudtik.providers._private.aws.node_provider"
        "AWSNodeProvider"
  | _import_gcp =>
      from_import "cloudtik.providers._private.gcp.node_provider"
        "GCPNodeProvider"
  | _import_azure =>
      from_import "cloudtik.providers._private._azure.node_provider"
        "AzureNodeProvider"
  | _import_local =>
      from_import "cloudtik.providers._private.local.node_provider"
        "LocalNodeProvider"
  | _import_kubernetes =>
      from_import "cloudtik.providers._private._kubernetes.node_provider"
        "KubernetesNodeProvider"
  | _import_external =>
      (path <- item "module" provider_config ;;
       _load_class path)%out
  end.

Definition _NODE_PROVIDERS : list (string * importer) :=
  [("local", _import_local);
   ("aws", _import_aws);
   ("gcp", _import_gcp);
   ("azure", _import_azure);
   ("kubernetes", _import_kubernetes);
   ("external", _import_external)].

Definition _get_node_provider_cls `{Imports}
    (provider_config : ProviderSection) : outcome NodeProviderClass :=
  (type <- item "type" provider_config ;;
   match OD.get type _NODE_PROVIDERS with
   | None =>
       Throw (NotImplementedError ("Unsupported node provider: " +:+ type))
   | Some f => import_with f provider_config
   end)%out.

(** The state of the module: the global [_provider_instances], whose
    values are references to provider objects, and the objects
    constructed so far, a reference being a position among them. *)
Record Registry `{Imports} := {
  _provider_instances : gmap (string * string) nat;
  objects : list NodeProviderObject;
}.

Definition _get_node_provider `{Imports}
    (provider_config : ProviderSection) (cluster_name : string)
    (use_cache : bool) (st : Registry) : Registry * outcome nat :=
  let provider_key := (json_dumps provider_config, cluster_name) in
  match (if use_cache then _provider_instances st !! provider_key
         else None) with
  | Some cached => (st, Return cached)
  | None =>
      match _get_node_provider_cls provider_config with
      | Throw e => (st, Throw e)
      | Return provider_cls =>
          match construct provider_cls provider_config cluster_name with
          | Throw e => (st, Throw e)
          | Return object =>
              let new_provider := length (objects st) in
              ({| _provider_instances :=
                    if use_cache
                    then <[provider_key := new_provider]>
                           (_provider_instances st)
                    else _provider_instances st;
                  objects := objects st ++ [object] |},
               Return new_provider)
          end
      end
  end.

Definition _clear_provider_cache `{Imports} (st : Registry) : Registry :=
  {| _provider_instances := ∅; objects := objects st |}.

(** One call of [_get_node_provider], with any arguments. *)
Inductive registry_step `{Imports} : relation Registry :=
| step_get_node_provider (provider_config : ProviderSection)
    (cluster_name : string) (use_cache : bool) (st : Registry) :
    registry_step st
      (_get_node_provider provider_config cluster_name use_cache st).1.

(** Every cached reference names an object that exists. *)
Definition registry_ok `{Imports} (st : Registry) : Prop :=
  forall key ref,
    _provider_instances st !! key = Some ref ->
    (ref < length (objects st))%nat.

(** The string has no dot. *)
Definition dotless (s : string) : Prop :=
  "."%char ∉ String.list_ascii_of_string s.

End Providers.

Module Samples.

(** Three workers of the sample type, all used lately, where the
    configuration allows two workers. *)
Definition three_workers : Provider :=
  Sample.cloud [("head", Sample.head_tags);
                ("w1", Sample.worker_tags STATUS_UP_TO_DATE);
                ("w2", Sample.worker_tags STATUS_UP_TO_DATE);
                ("w3", Sample.worker_tags STATUS_UP_TO_DATE)].

Definition three_workers_views : NonTerminatedNodes :=
  {| all_node_ids := ["head"; "w1"; "w2"; "w3"];
     worker_ids := ["w1"; "w2"; "w3"];
     head_id := Some "head" |}.

Definition three_workers_scaler : Scaler :=
  Sample.scaler Sample.valid_config three_workers ["w1"; "w2"; "w3"]
    (Sample.idle_metrics [("ip-w1", 990); ("ip-w2", 980); ("ip-w3", 970)])
    1000.

(** Stand-ins: a counter that adds up by key, a scheduler that asks for
    seven workers of the sample type and leaves nothing unfulfilled. *)
Definition loop_collaborators : LoopCollaborators :=
  {| counter_inc t n d := OD.set t (default 0 (OD.get t d) + n) d;
     counter_value d := foldr Z.add 0 (OD.values d);
     prune_active_ips _ lm := lm;
     LoadMetricsSummary := unit;
     load_metrics_summary _ := tt;
     format_info_string _ _ := "info";
     get_nodes_to_launch _ _ _ _ _ _ _ := Ok ([("w", 7)], []);
     is_feasible _ bundle := bool_decide (bundle = {[ "CPU" := 1 ]});
     is_MaxRetryError _ := false |}.

(** The object around the scaler [s], with the given [max_launch_batch]. *)
Definition object (s : Scaler) (batch : Z) : StandardClusterScaler :=
  {| self_scaler := s;
     max_launch_batch := batch;
     launch_queue := [];
     loop_logger := [];
     interval_events := [];
     gauge_pending_nodes := 0;
     gauge_updating_nodes := 0;
     gauge_recovering_nodes := 0;
     observed_update_time := [];
     cluster_full_of_actors_detected := false;
     resource_demands := [];
     resource_utilization := ∅ |}.

Definition scheduler : ResourceDemandScheduler :=
  {| rds_node_types := [("head", Sample.head_type); ("w", Sample.worker_type)];
     rds_max_workers := 2;
     rds_head_node_type := "head";
     rds_upscaling_speed := 1%Qc |}.

(** A living updater thread for node [node_id]. *)
Definition thread (node_id : NodeID) (for_recovery : bool)
  : NodeUpdaterThread :=
  {| u_node_id := node_id;
     u_for_recovery := for_recovery;
     u_file_mounts := [];
     u_initialization_commands := [];
     u_setup_commands := [];
     u_start_commands := ["start"];
     u_runtime_hash := "runtime-1";
     u_file_mounts_contents_hash := None;
     u_docker_config := None;
     u_node_resources := ∅;
     is_alive := true;
     exitcode := -1;
     update_time := None |}.

(** A cloud where the node "new" exists and its tags are not written
    yet, and the scaler that observed "w1" before. *)
Definition untagged_cloud : Provider :=
  Sample.cloud [("head", Sample.head_tags);
                ("w1", Sample.worker_tags STATUS_UP_TO_DATE);
                ("new", ∅)].

Definition untagged_scaler : Scaler :=
  Sample.scaler Sample.valid_config untagged_cloud ["w1"]
    (Sample.idle_metrics [("ip-w1", 990)]) 1000.

(** A scaler whose configuration disables the node updaters, before its
    first tick. *)
Definition disabled_scaler : Scaler :=
  {| config := Some Sample.valid_config;
     runtime_hash := Some "runtime-1";
     file_mounts_contents_hash := Some None;
     provider := Some Sample.two_workers;
     available_node_types := cfg_available_node_types Sample.valid_config;
     resource_demand_scheduler := Some scheduler;
     load_metrics := Sample.idle_metrics [("ip-w1", 990)];
     prometheus_metrics := Sample.no_metrics;
     event_summarizer := [];
     logger := [];
     updaters := [];
     num_failed_updates := ∅;
     num_successful_updates := ∅;
     num_failures := 0;
     max_failures := 5;
     last_update_time := 0;
     update_interval_s := 5;
     non_terminated := None;
     nodes_to_terminate := [];
     disable_node_updaters := true;
     disable_launch_config_check := false;
     node_tracker := {| capacity := 100; tracked := [] |};
     pending_launches := [];
     threads := [];
     clock := 1000 |}.

(** The sample scaler with two workers, after its first [reset]. *)
Definition two_workers_scaler : Scaler :=
  set_resource_demand_scheduler (Some scheduler)
    (Sample.two_workers_scaler Sample.valid_config).

(** A worker of a node type that the configuration no longer has, while
    resources are requested. *)
Definition deleted_type_cloud : Provider :=
  Sample.cloud [("head", Sample.head_tags);
                ("w1", Sample.worker_tags STATUS_UP_TO_DATE);
                ("old", <[ CLOUDTIK_TAG_USER_NODE_TYPE := "gone" ]>
                          (Sample.worker_tags STATUS_UP_TO_DATE))].

Definition deleted_type_views : NonTerminatedNodes :=
  {| all_node_ids := ["head"; "w1"; "old"];
     worker_ids := ["w1"; "old"];
     head_id := Some "head" |}.

Definition deleted_type_scaler : Scaler :=
  Sample.scaler Sample.valid_config deleted_type_cloud ["w1"; "old"]
    {| last_used_time_by_ip := ∅;
       last_heartbeat_time_by_ip := ∅;
       resource_requests := [ {[ "CPU" := 1 ]} ];
       static_node_resources_by_ip := ∅ |}
    1000.


(** The sample document with both [restart_only] and [no_restart] set. *)
Definition restart_only_config : Config :=
  let c := Sample.valid_config in
  {| cfg_cluster_name := cfg_cluster_name c;
     cfg_provider := cfg_provider c;
     cfg_auth := cfg_auth c;
     cfg_docker := cfg_docker c;
     cfg_available_node_types := cfg_available_node_types c;
     cfg_head_node_type := cfg_head_node_type c;
     cfg_max_workers := cfg_max_workers c;
     cfg_idle_timeout_minutes := cfg_idle_timeout_minutes c;
     cfg_upscaling_speed := cfg_upscaling_speed c;
     cfg_file_mounts := cfg_file_mounts c;
     cfg_cluster_synced_files := cfg_cluster_synced_files c;
     cfg_file_mounts_sync_continuously :=
       cfg_file_mounts_sync_continuously c;
     cfg_worker_setup_commands := cfg_worker_setup_commands c;
     cfg_worker_start_commands := cfg_worker_start_commands c;
     cfg_initialization_commands := cfg_initialization_commands c;
     cfg_restart_only := Some true;
     cfg_no_restart := Some true |}.

(** Two workers whose setup is not done. *)
Definition setting_up_cloud : Provider :=
  Sample.cloud [("head", Sample.head_tags);
                ("w1", Sample.worker_tags "setting-up");
                ("w2", Sample.worker_tags "setting-up")].

Definition setting_up_views : NonTerminatedNodes :=
  {| all_node_ids := ["head"; "w1"; "w2"];
     worker_ids := ["w1"; "w2"];
     head_id := Some "head" |}.

(** "w1" has been updated with success once, "w2" never; no node has
    sent a heartbeat. *)
Definition restart_only_scaler : Scaler :=
  set_num_successful_updates {[ "w1" := 1 ]}
    (Sample.scaler restart_only_config setting_up_cloud
       ["w1"; "w2"] (Sample.idle_metrics []) 1000).

(** Imports that succeed: a module is its path, a class the path of its
    module and its name, an object the arguments it is constructed
    from. *)
Definition imports : Providers.Imports :=
  {| Providers.PyModule := string;
     Providers.NodeProviderClass := string * string;
     Providers.NodeProviderObject :=
       string * string * Providers.ProviderSection * string;
     Providers.import_module path := Providers.Return path;
     Providers.getattr module name := Providers.Return (module, name);
     Providers.from_import module name := Providers.Return (module, name);
     Providers.json_dumps d :=
       foldr (fun kv text => kv.1 +:+ "=" +:+ kv.2 +:+ ";" +:+ text)
         EmptyString (map_to_list d);
     Providers.construct cls provider_config cluster_name :=
       Providers.Return (cls, provider_config, cluster_name) |}.

Definition aws_section : Providers.ProviderSection :=
  {[ "type" := "aws"; "region" := "us-west-2" ]}.

Definition external_section : Providers.ProviderSection :=
  {[ "type" := "external"; "module" := "mypkg.mysubpkg.myclass" ]}.

Definition unsupported_section : Providers.ProviderSection :=
  {[ "type" := "openstack" ]}.

Definition empty_registry : @Providers.Registry imports :=
  {| Providers._provider_instances := ∅; Providers.objects := [] |}.
End Samples.

(** * Properties *)

(** ** Reasoning about the monad *)

Lemma bind_ok {S A B} (m : M S A) (k : A -> M S B) s s' a :
  m s = (s', Ok a) -> bind m k s = k a s'.
Proof. unfold bind. by intros ->. Qed.

Lemma bind_raise {S A B} (m : M S A) (k : A -> M S B) s s' e :
  m s = (s', Raise e) -> bind m k s = (s', Raise e).
Proof. unfold bind. by intros ->. Qed.

Lemma for_fold_app {S A B} (l1 l2 : list A) (acc : B) (body : B -> A -> M S B) s :
  for_fold (l1 ++ l2) acc body s =
  bind (for_fold l1 acc body) (fun acc' => for_fold l2 acc' body) s.
Proof.
  revert acc s. induction l1 as [|x l1 IH]; intros acc s; simpl.
  - reflexivity.
  - unfold bind. destruct (body acc x s) as [s1 [acc1|e]]; simpl.
    + rewrite IH. reflexivity.
    + reflexivity.
Qed.

Lemma OD_mem_get {V} (k : string) (d : odict V) :
  OD.mem k d = false <-> OD.get k d = None.
Proof. unfold OD.mem. destruct (OD.get k d); split; congruence. Qed.

(** ** [_keep_worker_of_node_type] *)

(** C2. For a worker whose tags carry [user_node_type], the verdict is
    [terminate] exactly when the type is not in [available_node_types] or the
    incremented count exceeds the type's [max_workers]; the reason then names
    [available_node_types], followed by the list of its keys as [str]
    prints it, respectively is "max_workers_per_type".  The
    verdict is [keep] exactly when the incremented count is at most
    the minimum of the type's [min_workers] and [max_workers], and
    [decide_later] in all other cases. *)
Theorem keep_worker_of_node_type_verdict
    (s : Scaler) (p : Provider) (ant : odict NodeTypeConfig)
    (node_id : NodeID) (node_type : NodeType) (counts : gmap NodeType Z) :
  provider s = Some p ->
  available_node_types s = Some ant ->
  node_tags p node_id !! CLOUDTIK_TAG_USER_NODE_TYPE = Some node_type ->
  0 <= default 0 (counts !! node_type) ->
  let min_workers := default 0 (OD.get node_type ant ≫= nt_min_workers) in
  let max_workers := default 0 (OD.get node_type ant ≫= nt_max_workers) in
  let new_count := default 0 (counts !! node_type) + 1 in
  exists verdict reason,
    _keep_worker_of_node_type s node_id counts = Ok (verdict, reason) /\
    (verdict = terminate <->
       OD.get node_type ant = None \/ max_workers < new_count) /\
    (verdict = terminate ->
       if OD.mem node_type ant
       then reason = Some "max_workers_per_type"
       else reason = Some ("not in available_node_types: " +:+
                           py_str_list (OD.keys ant))) /\
    (verdict = keep <-> new_count <= Z.min min_workers max_workers) /\
    (verdict = decide_later <->
       OD.get node_type ant <> None /\
       Z.min min_workers max_workers < new_count <= max_workers) /\
    (verdict <> terminate -> reason = None).
Proof.
  intros Hp Hant Htag Hcount min_workers max_workers new_count.
  unfold _keep_worker_of_node_type, the_provider, the_available_node_types.
  rewrite Hp, Hant. cbn [attribute rbind]. rewrite Htag. cbn [rbind].
  fold min_workers max_workers new_count.
  destruct (OD.mem node_type ant) eqn:Hmem; simpl.
  - assert (Hget : OD.get node_type ant <> None).
    { intros Hn. apply OD_mem_get in Hn. congruence. }
    destruct (Z.leb_spec new_count (Z.min min_workers max_workers)).
    + eexists _, _. split; [reflexivity|].
      repeat split; try done; try lia; intros; try done.
      * destruct H0 as [?|?]; [done | lia].
    + destruct (Z.ltb_spec max_workers new_count).
      * eexists _, _. split; [reflexivity|].
        repeat split; try done; try lia; intros; try done; auto.
        all: try (destruct H1 as [? ?]; lia).
      * eexists _, _. split; [reflexivity|].
        repeat split; try done; try lia; intros; try done.
        all: try (destruct H1 as [?|?]; [done | lia]).
  - apply OD_mem_get in Hmem.
    eexists _, _. split; [reflexivity|].
    assert (min_workers = 0) as Hmin by (unfold min_workers; by rewrite Hmem).
    assert (max_workers = 0) as Hmax by (unfold max_workers; by rewrite Hmem).
    repeat split; try done; intros; auto; try lia.
    all: try (destruct H as [? ?]; done).
Qed.

(** Unfolds the assignments to the attributes of [self]. *)
Ltac unfold_setters :=
  unfold
    set_config, set_runtime_hash, set_file_mounts_contents_hash,
    set_provider, set_available_node_types,
    set_resource_demand_scheduler, set_load_metrics,
    set_prometheus_metrics, set_event_summarizer, set_logger,
    set_updaters, set_num_failed_updates, set_num_successful_updates,
    set_num_failures, set_last_update_time, set_non_terminated,
    set_nodes_to_terminate, set_node_tracker, set_threads in *.

(** ** What a computation leaves in place *)

Section Always.
Context (R : relation Scaler) `{!PreOrder R}.

Lemma always_ret {A} (a : A) : always R (ret a).
Proof. intros s. reflexivity. Qed.

Lemma always_raise {A} (e : exn) : always R (@raise _ A e).
Proof. intros s. reflexivity. Qed.

Lemma always_lift {A} (f : Scaler -> result A) : always R (lift f).
Proof. intros s. reflexivity. Qed.

Lemma always_gets {A} (f : Scaler -> A) : always R (gets f).
Proof. intros s. reflexivity. Qed.

Lemma always_modify (f : Scaler -> Scaler) :
  (forall s, R s (f s)) -> always R (modify f).
Proof. intros Hf s. apply Hf. Qed.

Lemma always_bind {A B} (m : Py A) (k : A -> Py B) :
  always R m -> (forall a, always R (k a)) -> always R (bind m k).
Proof.
  intros Hm Hk s. unfold bind. specialize (Hm s).
  destruct (m s) as [s1 [a|e]]; simpl in *.
  - etrans; [exact Hm | apply Hk].
  - exact Hm.
Qed.

Lemma always_try_except {A} (m : Py A) (h : exn -> Py A) :
  always R m -> (forall e, always R (h e)) -> always R (try_except m h).
Proof.
  intros Hm Hh s. unfold try_except. specialize (Hm s).
  destruct (m s) as [s1 [a|e]]; simpl in *.
  - exact Hm.
  - etrans; [exact Hm | apply Hh].
Qed.

Lemma always_for_each {A} (l : list A) (body : A -> Py unit) :
  (forall x, always R (body x)) -> always R (for_each l body).
Proof.
  intros Hb. induction l as [|x l IH]; simpl.
  - apply always_ret.
  - apply always_bind; auto.
Qed.

Lemma always_for_fold {A B} (l : list A) (acc : B) (body : B -> A -> Py B) :
  (forall acc x, always R (body acc x)) -> always R (for_fold l acc body).
Proof.
  intros Hb. revert acc. induction l as [|x l IH]; intros acc; simpl.
  - apply always_ret.
  - apply always_bind; auto.
Qed.
End Always.

(** Splits a computation along its binds and branches, leaving the
    assignments to be checked. *)
Ltac always_step :=
  match goal with
  | |- always _ (bind _ _) => apply always_bind; [apply _ | | intros ?]
  | |- always _ (try_except _ _) =>
      apply always_try_except; [apply _ | | intros ?]
  | |- always _ (ret _) => apply always_ret; apply _
  | |- always _ (raise _) => apply always_raise; apply _
  | |- always _ (lift _) => apply always_lift; apply _
  | |- always _ (gets _) => apply always_gets; apply _
  | |- always _ (for_each _ _) => apply always_for_each; [apply _ | intros ?]
  | |- always _ (for_fold _ _ _) =>
      apply always_for_fold; [apply _ | intros ? ?]
  | |- always _ (modify _) => apply always_modify; intros ?
  | |- always _ (log _ _) => apply always_modify; intros ?
  | |- always _ (event_add _ _) => apply always_modify; intros ?
  | |- always _ (metric _) => apply always_modify; intros ?
  | |- always _ (if ?b then _ else _) => destruct b
  | |- always _ (match ?x with _ => _ end) => destruct x
  end.


#[global] Instance unchanged_preorder {A} (f : Scaler -> A) :
  PreOrder (unchanged f).
Proof.
  split.
  - intros s. reflexivity.
  - intros s1 s2 s3 H12 H23. unfold unchanged in *. congruence.
Qed.


#[global] Instance log_grows_preorder : PreOrder log_grows.
Proof.
  split.
  - intros s. unfold log_grows. reflexivity.
  - intros s1 s2 s3 H12 H23. unfold log_grows in *. by etrans.
Qed.

Lemma logged_since_app (s s' : Scaler) (l : list LogRecord) :
  logger s' = logger s ++ l -> logged_since s s' = l.
Proof. unfold logged_since. intros ->. by rewrite drop_app_length. Qed.
Section Reset.
Context `{Collaborators}.

(** [reset_apply] touches neither the configuration and its hashes, nor the
    log, nor the counters. *)
Lemma reset_apply_frame (new_config : Config) :
  always (unchanged (fun s =>
            (config s, runtime_hash s, file_mounts_contents_hash s,
             logger s, prometheus_metrics s)))
    (reset_apply new_config).
Proof.
  unfold reset_apply. repeat always_step; reflexivity.
Qed.

Lemma reset_validation_failure_eval
    (s : Scaler) (old new_config : Config) (e : exn) :
  config s = Some old ->
  config_eqb new_config old = false ->
  validate_config new_config = Raise e ->
  reset (Ok new_config) false s =
  match runtime_hashes new_config (sync_continuously_of s) with
  | Ok (runtime, contents) =>
      let s3 :=
        set_file_mounts_contents_hash (Some contents)
          (set_runtime_hash (Some runtime)
             (set_config (Some new_config) (validation_failed e s))) in
      match reset_apply new_config s3 with
      | (s4, Ok _) => (s4, Ok tt)
      | (s4, Raise e') => (reset_failed e' s4, Ok tt)
      end
  | Raise e' => (reset_failed e' (validation_failed e s), Ok tt)
  end.
Proof.
  intros Hold Hneq Hval.
  unfold sync_continuously_of, reset.
  unfold bind at 1. unfold gets at 1.
  rewrite Hold.
  unfold try_except at 1. unfold bind at 1. unfold lift at 1.
  rewrite Hneq. cbn [negb].
  unfold bind at 1. unfold try_except at 1. unfold lift at 1.
  rewrite Hval.
  unfold bind at 1, metric at 1, modify at 1, log at 1, modify at 1.
  unfold bind at 1, reset_assign at 1, bind at 1, lift at 1.
  destruct (runtime_hashes new_config _) as [[runtime contents]|e'].
  - cbn [bind modify].
    destruct (reset_apply _ _) as [s4 [[]|e']]; reflexivity.
  - reflexivity.
Qed.

(** C1, as the code has it.  When the configuration read by a non-fatal
    [reset] differs from the one in force and fails validation, the failure
    is counted and logged at debug level and the reload goes on: if the
    runtime hash of the new configuration can be computed, [self.config]
    becomes the new configuration, with its hashes; if it cannot,
    [self.config] is left as it was and the error is logged.  [reset]
    returns normally in both cases. *)
Theorem reset_validation_failure_keeps_loading
    (s : Scaler) (old new_config : Config) (e : exn) :
  config s = Some old ->
  config_eqb new_config old = false ->
  validate_config new_config = Raise e ->
  let s' := (reset (Ok new_config) false s).1 in
  (reset (Ok new_config) false s).2 = Ok tt /\
  config_validation_exceptions (prometheus_metrics s') =
    config_validation_exceptions (prometheus_metrics s) + 1 /\
  (DEBUG, ValidationFailed e) ∈ logged_since s s' /\
  match runtime_hashes new_config (sync_continuously_of s) with
  | Ok (runtime, contents) =>
      config s' = Some new_config /\
      runtime_hash s' = Some runtime /\
      file_mounts_contents_hash s' = Some contents
  | Raise e' =>
      config s' = Some old /\
      (ERROR, ErrorParsingConfig e') ∈ logged_since s s'
  end.
Proof.
  intros Hold Hneq Hval s'. subst s'.
  rewrite (reset_validation_failure_eval s old new_config e Hold Hneq Hval).
  destruct (runtime_hashes new_config _) as [[runtime contents]|e'].
  - cbv zeta.
    match goal with |- context [reset_apply new_config ?s3] =>
      pose proof (reset_apply_frame new_config s3) as Hframe;
      destruct (reset_apply new_config s3) as [s4 [[]|e']]
    end; unfold unchanged in Hframe; simpl in Hframe;
      injection Hframe as Hc Hr Hf Hl Hm.
    + simpl. rewrite Hc, Hr, Hf, Hm.
      split_and!; try done.
      erewrite logged_since_app by exact Hl. set_solver.
    + simpl. rewrite Hc, Hr, Hf, Hm.
      split_and!; try done.
      erewrite logged_since_app;
        [|simpl; rewrite Hl, <-app_assoc; reflexivity].
      set_solver.
  - simpl. split_and!; try done.
    + erewrite logged_since_app; [|simpl; rewrite <-app_assoc; reflexivity].
      set_solver.
    + erewrite logged_since_app; [|simpl; rewrite <-app_assoc; reflexivity].
      set_solver.
Qed.
End Reset.

(** C1 fails as stated: after a reload whose validation failed,
    [self.config] is the new, invalid document. *)
Lemma reset_takes_invalid_config :
  @validate_config Sample.collaborators Sample.invalid_config
    = Raise (ValueError "auth is a required property") /\
  config (Sample.two_workers_scaler Sample.valid_config)
    = Some Sample.valid_config /\
  config (@reset Sample.collaborators (Ok Sample.invalid_config) false
            (Sample.two_workers_scaler Sample.valid_config)).1
    = Some Sample.invalid_config /\
  Sample.invalid_config <> Sample.valid_config.
Proof.
  split_and!;
    [reflexivity | reflexivity | vm_compute; reflexivity | discriminate].
Qed.
(** ** Scheduling a termination *)

Lemma schedule_node_termination_eval (s : Scaler) (p : Provider)
    (node_id : NodeID) (reason : string) (lvl : level) :
  provider s = Some p ->
  schedule_node_termination node_id (Some reason) lvl s =
  (scheduled_state p node_id reason lvl s, Ok tt).
Proof.
  intros Hp. unfold scheduled_state, schedule_node_termination, bind, lift, the_provider.
  rewrite Hp. cbn [attribute].
  unfold log, event_add, modify, _get_node_type, the_provider.
  cbn [set_logger provider].
  rewrite Hp. cbn [attribute rbind].
  destruct (node_tags p node_id !! CLOUDTIK_TAG_USER_NODE_TYPE); reflexivity.
Qed.

Lemma schedule_all_fields (p : Provider) (reason : string) (lvl : level)
    (l : list NodeID) (s : Scaler) :
  provider (schedule_all p reason lvl l s) = provider s /\
  non_terminated (schedule_all p reason lvl l s) = non_terminated s /\
  config (schedule_all p reason lvl l s) = config s /\
  nodes_to_terminate (schedule_all p reason lvl l s) =
    nodes_to_terminate s ++ l /\
  logger (schedule_all p reason lvl l s) =
    logger s ++
    map (fun n => (lvl, Terminating n (internal_ip p n) reason)) l.
Proof.
  revert s. induction l as [|n l IH]; intros s; simpl.
  - by rewrite !app_nil_r.
  - destruct (IH (scheduled_state p n reason lvl s)) as (-> & -> & -> & -> & ->).
    simpl. by rewrite <-!app_assoc.
Qed.

Lemma for_each_schedule_eval (p : Provider) (reason : string) (lvl : level)
    (l : list NodeID) (s : Scaler) :
  provider s = Some p ->
  for_each l (fun node_id =>
    schedule_node_termination node_id (Some reason) lvl) s =
  (schedule_all p reason lvl l s, Ok tt).
Proof.
  revert s. induction l as [|n l IH]; intros s Hp; cbn [for_each].
  - reflexivity.
  - erewrite bind_ok by (by apply schedule_node_termination_eval).
    by apply IH.
Qed.

Lemma scheduled_app (l1 l2 : list LogRecord) :
  scheduled (l1 ++ l2) = scheduled l1 ++ scheduled l2.
Proof. unfold scheduled. apply omap_app. Qed.

Lemma scheduled_terminating (lvl : level) (ip : NodeID -> NodeIP)
    (reason : string) (l : list NodeID) :
  scheduled (map (fun n => (lvl, Terminating n (ip n) reason)) l) =
  map (fun n => (n, reason)) l.
Proof. induction l as [|n l IH]; simpl; [done | by rewrite <-IH]. Qed.

Section Enforce.
Context `{Collaborators}.



Lemma enforce_max_workers_eval
    (s1 : Scaler) (p : Provider) (ntn : NonTerminatedNodes) (cfg : Config)
    (max_workers : Z) (eligible : list NodeID) :
  provider s1 = Some p ->
  non_terminated s1 = Some ntn ->
  config s1 = Some cfg ->
  cfg_max_workers cfg = Some max_workers ->
  let surplus :=
    Z.of_nat (length (worker_ids ntn))
    - Z.of_nat (length (nodes_to_terminate s1)) - max_workers in
  let warned := Z.of_nat (length eligible) <? surplus in
  let s1' :=
    if warned
    then set_logger
           (logger s1 ++
            [(WARNING, InconsistentConfig surplus (length eligible))]) s1
    else s1 in
  let n := if warned then Z.of_nat (length eligible) else surplus in
  enforce_max_workers eligible s1 =
  (if 0 <? n
   then schedule_all p "max workers" INFO (last_n n eligible) s1'
   else s1', Ok tt).
Proof.
  intros Hp Hntn Hcfg Hmax surplus warned s1' n.
  unfold enforce_max_workers.
  unfold bind at 1. unfold lift at 1, the_non_terminated_nodes at 1.
  rewrite Hntn. cbn [attribute].
  unfold bind at 1. unfold gets at 1.
  unfold bind at 1. unfold lift at 1, the_config at 1.
  rewrite Hcfg. cbn [attribute].
  unfold bind at 1. unfold lift at 1. rewrite Hmax. cbn [subscript].
  fold surplus. fold warned. subst s1' n.
  destruct warned.
  - unfold bind at 1. unfold bind at 1. unfold log, modify, ret.
    destruct (0 <? Z.of_nat (length eligible)); [|reflexivity].
    by apply for_each_schedule_eval.
  - unfold bind at 1. unfold ret at 1.
    destruct (0 <? surplus); [|reflexivity].
    by apply for_each_schedule_eval.
Qed.

End Enforce.
(** ** The reasons that [terminate_nodes_to_enforce_config_constraints] logs *)

#[global] Instance same_but_scheduling_preorder : PreOrder same_but_scheduling.
Proof.
  split.
  - intros s. unfold same_but_scheduling. by destruct s.
  - intros s1 s2 s3 H12 H23. unfold same_but_scheduling in *.
    destruct s1, s2, s3; unfold_setters; simpl in *.
    injection H12; injection H23; intros; subst; reflexivity.
Qed.

Lemma same_but_scheduling_scheduled_state (p : Provider) (n : NodeID)
    (reason : string) (lvl : level) (s : Scaler) :
  same_but_scheduling s (scheduled_state p n reason lvl s).
Proof. unfold same_but_scheduling. by destruct s. Qed.

Lemma same_but_scheduling_fields (s s' : Scaler) :
  same_but_scheduling s s' ->
  provider s' = provider s /\ config s' = config s /\
  available_node_types s' = available_node_types s /\
  non_terminated s' = non_terminated s /\
  load_metrics s' = load_metrics s /\
  disable_launch_config_check s' = disable_launch_config_check s.
Proof.
  unfold same_but_scheduling. intros <-. by destruct s'.
Qed.

Lemma keep_worker_terminate_reason (s : Scaler) (n : NodeID)
    (counts : gmap NodeType Z) (r : string) :
  _keep_worker_of_node_type s n counts = Ok (terminate, Some r) ->
  r <> "idle" /\ r <> "outdated".
Proof.
  unfold _keep_worker_of_node_type.
  destruct (the_provider s) as [p|]; [|discriminate]. cbn [rbind].
  destruct (node_tags p n !! _) as [t|]; [|discriminate].
  destruct (the_available_node_types s) as [ant|]; [|discriminate].
  cbn [rbind].
  destruct (negb _).
  - intros [= <-]. split; discriminate.
  - destruct (_ <=? _); [discriminate|].
    destruct (_ <? _); [|discriminate].
    intros [= <-]. split; discriminate.
Qed.

Section EnforceReasons.
Context `{Collaborators}.

Lemma launch_config_ok_false (s : Scaler) (n : NodeID) :
  launch_config_ok s n = Ok false -> disable_launch_config_check s = false.
Proof.
  unfold launch_config_ok. by destruct (disable_launch_config_check s).
Qed.

Lemma enforce_body_log (last_used : gmap NodeIP Z) (horizon : Z)
    (protected : list NodeID) (locals : EnforceLocals) (n : NodeID)
    (s s' : Scaler) (r : result EnforceLocals) :
  enforce_body last_used horizon protected locals n s = (s', r) ->
  same_but_scheduling s s' /\
  exists l, logger s' = logger s ++ l /\
    Forall (enforce_entry_ok s last_used horizon) (scheduled l).
Proof.
  assert (Hnone : same_but_scheduling s s /\
    exists l, logger s = logger s ++ l /\
      Forall (enforce_entry_ok s last_used horizon) (scheduled l)).
  { split; [reflexivity|].
    exists []. split; [by rewrite app_nil_r | constructor]. }
  assert (Hone : forall p reason,
    (reason = "idle" ->
     idle_before last_used horizon (internal_ip p n) = true) ->
    (reason = "outdated" -> disable_launch_config_check s = false) ->
    provider s = Some p ->
    same_but_scheduling s (scheduled_state p n reason INFO s) /\
    exists l, logger (scheduled_state p n reason INFO s) = logger s ++ l /\
      Forall (enforce_entry_ok s last_used horizon) (scheduled l)).
  { intros p reason Hidle Hout Hp.
    split; [apply same_but_scheduling_scheduled_state|].
    eexists. split; [reflexivity|].
    repeat constructor; cbn [fst snd]; eauto. }
  destruct locals as [counts eligible]. unfold enforce_body.
  unfold bind at 1. unfold lift at 1.
  destruct (_keep_worker_of_node_type s n counts) as [[verdict reason]|e]
    eqn:Hk; [|by intros [= <- <-]].
  assert (Hp : exists p, provider s = Some p).
  { unfold _keep_worker_of_node_type, the_provider in Hk.
    destruct (provider s); [eauto | discriminate]. }
  destruct Hp as [p Hp].
  case_bool_decide as Hv.
  { subst verdict. destruct reason as [reason|].
    - erewrite bind_ok by (by apply schedule_node_termination_eval).
      intros [= <- <-].
      apply keep_worker_terminate_reason in Hk as [? ?].
      apply Hone; done.
    - by intros [= <- <-]. }
  unfold bind at 1.
  destruct (bool_decide (verdict = keep) || bool_decide (n ∈ protected)).
  { unfold lift at 1.
    destruct (launch_config_ok s n) as [[]|e0] eqn:Hok.
    - unfold bind, lift, ret. destruct (keep_node s n counts);
        by intros [= <- <-].
    - unfold bind at 1. unfold lift at 1, the_provider at 1. rewrite Hp.
      cbn [attribute].
      destruct (idle_before last_used horizon (internal_ip p n)) eqn:Hidle.
      + erewrite bind_ok by (by apply schedule_node_termination_eval).
        intros [= <- <-]. apply Hone; done.
      + unfold bind at 1. unfold lift at 1. rewrite Hok. cbn [negb].
        erewrite bind_ok by (by apply schedule_node_termination_eval).
        intros [= <- <-]. apply Hone; try done.
        intros _. by eapply launch_config_ok_false.
    - by intros [= <- <-]. }
  unfold ret at 1.
  unfold bind at 1. unfold lift at 1, the_provider at 1. rewrite Hp.
  cbn [attribute].
  destruct (idle_before last_used horizon (internal_ip p n)) eqn:Hidle.
  { erewrite bind_ok by (by apply schedule_node_termination_eval).
    intros [= <- <-]. apply Hone; done. }
  unfold bind at 1. unfold lift at 1.
  destruct (launch_config_ok s n) as [[]|e1] eqn:Hok; cbn [negb].
  - unfold bind, lift, ret. destruct (keep_node s n counts);
      by intros [= <- <-].
  - erewrite bind_ok by (by apply schedule_node_termination_eval).
    intros [= <- <-]. apply Hone; try done.
    intros _. by eapply launch_config_ok_false.
  - by intros [= <- <-].
Qed.

Lemma enforce_entry_ok_mono (s s1 : Scaler) (last_used : gmap NodeIP Z)
    (horizon : Z) (entry : NodeID * string) :
  same_but_scheduling s s1 ->
  enforce_entry_ok s1 last_used horizon entry ->
  enforce_entry_ok s last_used horizon entry.
Proof.
  intros Hsame [Hidle Hout].
  apply same_but_scheduling_fields in Hsame as (Hp & _ & _ & _ & _ & Hflag).
  split.
  - intros Hr. destruct (Hidle Hr) as (p & Hp1 & Hi).
    exists p. split; [congruence | done].
  - intros Hr. rewrite <-Hflag. by apply Hout.
Qed.

Lemma enforce_loop_log (last_used : gmap NodeIP Z) (horizon : Z)
    (protected : list NodeID) (l : list NodeID) (locals : EnforceLocals)
    (s s' : Scaler) (r : result EnforceLocals) :
  for_fold l locals (enforce_body last_used horizon protected) s = (s', r) ->
  same_but_scheduling s s' /\
  exists lg, logger s' = logger s ++ lg /\
    Forall (enforce_entry_ok s last_used horizon) (scheduled lg).
Proof.
  revert locals s. induction l as [|n l IH]; intros locals s; cbn [for_fold].
  - intros [= <- <-]. split; [reflexivity|].
    exists []. split; [by rewrite app_nil_r | constructor].
  - unfold bind.
    destruct (enforce_body _ _ _ locals n s) as [s1 [locals1|e]] eqn:Hbody;
      apply enforce_body_log in Hbody as (Hsame1 & lg1 & Hlg1 & Hall1).
    + intros Hrest. apply IH in Hrest as (Hsame2 & lg2 & Hlg2 & Hall2).
      split; [by etrans|].
      exists (lg1 ++ lg2). split; [by rewrite Hlg2, Hlg1, app_assoc|].
      rewrite scheduled_app. apply Forall_app. split; [done|].
      eapply Forall_impl; [exact Hall2|].
      intros entry. by apply enforce_entry_ok_mono.
    + intros [= <- <-]. eauto.
Qed.

Lemma for_each_schedule_log (reason : string) (lvl : level)
    (l : list NodeID) (s s' : Scaler) (r : result unit) :
  for_each l (fun node_id =>
    schedule_node_termination node_id (Some reason) lvl) s = (s', r) ->
  same_but_scheduling s s' /\
  exists lg, logger s' = logger s ++ lg /\
    Forall (fun entry => entry.2 = reason) (scheduled lg).
Proof.
  destruct (provider s) as [p|] eqn:Hp.
  - rewrite (for_each_schedule_eval p) by done. intros [= <- <-].
    destruct (schedule_all_fields p reason lvl l s) as (_ & _ & _ & _ & Hl).
    split.
    + clear Hl. revert s Hp. induction l as [|n l IH]; intros s Hp.
      * reflexivity.
      * cbn [schedule_all fold_left]. etrans.
        -- apply (same_but_scheduling_scheduled_state p n reason lvl).
        -- by apply IH.
    + eexists. split; [exact Hl|].
      rewrite scheduled_terminating. apply Forall_fmap.
      by apply Forall_true.
  - destruct l as [|n l]; cbn [for_each].
    + intros [= <- <-]. split; [reflexivity|].
      exists []. split; [by rewrite app_nil_r | constructor].
    + unfold bind at 1. unfold schedule_node_termination.
      unfold bind at 1. unfold lift at 1, the_provider at 1.
      rewrite Hp. cbn [attribute]. intros [= <- <-].
      split; [reflexivity|].
      exists []. split; [by rewrite app_nil_r | constructor].
Qed.

Lemma enforce_max_workers_log (eligible : list NodeID) (s s' : Scaler)
    (r : result unit) :
  enforce_max_workers eligible s = (s', r) ->
  same_but_scheduling s s' /\
  exists lg, logger s' = logger s ++ lg /\
    Forall (fun entry => entry.2 = "max workers") (scheduled lg).
Proof.
  assert (Hnone : same_but_scheduling s s /\
    exists lg, logger s = logger s ++ lg /\
      Forall (fun entry : NodeID * string => entry.2 = "max workers")
        (scheduled lg)).
  { split; [reflexivity|].
    exists []. split; [by rewrite app_nil_r | constructor]. }
  unfold enforce_max_workers.
  unfold bind at 1. unfold lift at 1.
  destruct (the_non_terminated_nodes s) as [ntn|]; [|by intros [= <- <-]].
  unfold bind at 1. unfold gets at 1.
  unfold bind at 1. unfold lift at 1.
  destruct (the_config s) as [cfg|]; [|by intros [= <- <-]].
  unfold bind at 1. unfold lift at 1.
  destruct (subscript _ _) as [max_workers|]; [|by intros [= <- <-]].
  unfold bind at 1.
  destruct (_ <? _).
  - unfold bind at 1. unfold log at 1, modify at 1, ret at 1.
    destruct (0 <? _).
    + intros Hfor. apply for_each_schedule_log in Hfor
        as (Hsame & lg & Hlg & Hall).
      split.
      * etrans; [|exact Hsame]. unfold same_but_scheduling. by destruct s.
      * eexists. split.
        -- rewrite Hlg. cbn [logger set_logger]. rewrite <-app_assoc.
           reflexivity.
        -- rewrite scheduled_app. apply Forall_app. split; [constructor|done].
    + intros [= <- <-]. split.
      * unfold same_but_scheduling. by destruct s.
      * eexists. split; [reflexivity | constructor].
  - unfold ret at 1. destruct (0 <? _).
    + by apply for_each_schedule_log.
    + by intros [= <- <-].
Qed.

Lemma terminate_scheduled_nodes_log :
  always (unchanged (fun s => (logger s, disable_launch_config_check s)))
    terminate_scheduled_nodes.
Proof.
  unfold terminate_scheduled_nodes. repeat always_step; reflexivity.
Qed.
End EnforceReasons.
Section EnforceTick.
Context `{Collaborators}.

Lemma enforce_prologue_horizon (now : Z) (s : Scaler)
    (last_used : gmap NodeIP Z) (horizon : Z)
    (sorted_node_ids protected : list NodeID) :
  enforce_prologue now s =
    Ok (last_used, horizon, sorted_node_ids, protected) ->
  exists cfg idle_timeout_minutes,
    config s = Some cfg /\
    cfg_idle_timeout_minutes cfg = Some idle_timeout_minutes /\
    horizon = now - 60 * idle_timeout_minutes /\
    last_used = last_used_time_by_ip (load_metrics s).
Proof.
  intros Hpro. unfold enforce_prologue in Hpro.
  unfold the_config in Hpro.
  destruct (config s) as [cfg|]; [|discriminate].
  cbn [attribute rbind] in Hpro.
  destruct (cfg_idle_timeout_minutes cfg) as [idle|] eqn:Hidle;
    [|discriminate].
  cbn [subscript rbind] in Hpro.
  destruct (the_non_terminated_nodes s); [|discriminate].
  cbn [rbind] in Hpro.
  destruct (_sort_based_on_last_used _ _ _); [|discriminate].
  cbn [rbind] in Hpro.
  destruct (match resource_requests (load_metrics s) with
            | [] => _ | _ => _ end); [|discriminate].
  cbn [rbind] in Hpro. simplify_eq. by exists cfg, idle.
Qed.

(** Every "idle" entry that [terminate_nodes_to_enforce_config_constraints]
    logs is for a node whose ip was last used before the horizon, and an
    "outdated" entry is logged only if launch configurations are checked. *)
Lemma enforce_reasons (now : Z) (s s' : Scaler) (r : result unit) :
  terminate_nodes_to_enforce_config_constraints now s = (s', r) ->
  exists lg, logger s' = logger s ++ lg /\
    forall entry, entry ∈ scheduled lg ->
      (entry.2 = "idle" ->
       exists p cfg idle_timeout_minutes t,
         provider s = Some p /\
         config s = Some cfg /\
         cfg_idle_timeout_minutes cfg = Some idle_timeout_minutes /\
         last_used_time_by_ip (load_metrics s) !! internal_ip p entry.1
           = Some t /\
         t < now - 60 * idle_timeout_minutes) /\
      (entry.2 = "outdated" -> disable_launch_config_check s = false).
Proof.
  unfold terminate_nodes_to_enforce_config_constraints.
  unfold bind at 1. unfold lift at 1.
  destruct (enforce_prologue now s)
    as [[[[last_used horizon] sorted_node_ids] protected]|e] eqn:Hpro.
  2:{ intros [= <- <-]. exists []. split; [by rewrite app_nil_r|].
      intros entry Hin. by apply elem_of_nil in Hin. }
  apply enforce_prologue_horizon in Hpro
    as (cfg & idle & Hcfg & Hidle & -> & ->).
  unfold bind at 1.
  destruct (for_fold _ _ _ s) as [s1 [locals|e]] eqn:Hloop;
    apply enforce_loop_log in Hloop as (Hsame1 & lg1 & Hlg1 & Hall1).
  - unfold bind at 1.
    destruct (enforce_max_workers _ s1) as [s2 [[]|e]] eqn:Hmax;
      apply enforce_max_workers_log in Hmax as (Hsame2 & lg2 & Hlg2 & Hall2).
    + intros Hterm.
      pose proof (terminate_scheduled_nodes_log s2) as Hlog.
      rewrite Hterm in Hlog. unfold unchanged in Hlog. cbn [fst] in Hlog.
      injection Hlog as Hlog _.
      exists (lg1 ++ lg2). split; [by rewrite Hlog, Hlg2, Hlg1, app_assoc|].
      intros entry Hin. rewrite scheduled_app in Hin.
      apply elem_of_app in Hin as [Hin|Hin].
      * rewrite Forall_forall in Hall1. destruct (Hall1 _ Hin) as [Hi Ho].
        split; [|done]. intros Hr. destruct (Hi Hr) as (p & Hp & Hbefore).
        unfold idle_before in Hbefore.
        destruct (_ !! internal_ip p entry.1) as [t|] eqn:Ht; [|done].
        exists p, cfg, idle, t. split_and!; try done. lia.
      * rewrite Forall_forall in Hall2. specialize (Hall2 _ Hin).
        split; intros Hr; rewrite Hr in Hall2; discriminate.
    + intros [= <- <-].
      exists (lg1 ++ lg2). split; [by rewrite Hlg2, Hlg1, app_assoc|].
      intros entry Hin. rewrite scheduled_app in Hin.
      apply elem_of_app in Hin as [Hin|Hin].
      * rewrite Forall_forall in Hall1. destruct (Hall1 _ Hin) as [Hi Ho].
        split; [|done]. intros Hr. destruct (Hi Hr) as (p & Hp & Hbefore).
        unfold idle_before in Hbefore.
        destruct (_ !! internal_ip p entry.1) as [t|] eqn:Ht; [|done].
        exists p, cfg, idle, t. split_and!; try done. lia.
      * rewrite Forall_forall in Hall2. specialize (Hall2 _ Hin).
        split; intros Hr; rewrite Hr in Hall2; discriminate.
  - intros [= <- <-]. exists lg1. split; [done|].
    intros entry Hin.
    rewrite Forall_forall in Hall1. destruct (Hall1 _ Hin) as [Hi Ho].
    split; [|done]. intros Hr. destruct (Hi Hr) as (p & Hp & Hbefore).
    unfold idle_before in Hbefore.
    destruct (_ !! internal_ip p entry.1) as [t|] eqn:Ht; [|done].
    exists p, cfg, idle, t. split_and!; try done. lia.
Qed.

(** C9, as the code has it.  With [idle_timeout_minutes = 0] the horizon is
    the time of the tick: a worker is scheduled with reason "idle" only if
    the last use recorded for its ip lies before [now]; a worker whose ip
    has no recorded use, or was used at [now] or later, is not. *)
Theorem idle_timeout_zero_terminates_past_use_only
    (s : Scaler) (cfg : Config) (now : Z) (node_id : NodeID) :
  config s = Some cfg ->
  cfg_idle_timeout_minutes cfg = Some 0 ->
  let s' := (terminate_nodes_to_enforce_config_constraints now s).1 in
  (node_id, "idle") ∈ scheduled (logged_since s s') ->
  exists p t,
    provider s = Some p /\
    last_used_time_by_ip (load_metrics s) !! internal_ip p node_id = Some t /\
    t < now.
Proof.
  intros Hcfg Hzero s' Hin. subst s'.
  destruct (terminate_nodes_to_enforce_config_constraints now s)
    as [s' r] eqn:Hrun.
  apply enforce_reasons in Hrun as (lg & Hlg & Hall).
  cbn [fst] in Hin. rewrite (logged_since_app _ _ _ Hlg) in Hin.
  destruct (Hall _ Hin) as [Hidle _].
  destruct (Hidle eq_refl) as (p & cfg' & idle & t & Hp & Hc & Hi & Ht & Hlt).
  cbn [fst] in Ht. simplify_eq. exists p, t. split_and!; [done..|lia].
Qed.
End EnforceTick.

(** C9 fails as stated: with [idle_timeout_minutes = 0] the worker "w2",
    last used at time 400, is scheduled as idle in the tick of time 1000. *)
Lemma idle_timeout_zero_terminates_idle_worker :
  let s := Sample.two_workers_scaler (Sample.cluster_config 0 (Some ∅)) in
  let s' :=
    (@terminate_nodes_to_enforce_config_constraints Sample.collaborators
       1000 s).1 in
  (config s ≫= cfg_idle_timeout_minutes) = Some 0 /\
  ("w2", "idle") ∈ scheduled (logged_since s s').
Proof.
  split; [reflexivity|].
  assert (scheduled (logged_since
            (Sample.two_workers_scaler (Sample.cluster_config 0 (Some ∅)))
            (@terminate_nodes_to_enforce_config_constraints
               Sample.collaborators 1000
               (Sample.two_workers_scaler
                  (Sample.cluster_config 0 (Some ∅)))).1)
          = [("w2", "idle")]) as ->.
  { vm_compute. reflexivity. }
  set_solver.
Qed.
Section LaunchConfigCheck.
Context `{Collaborators}.

(** C10. In a scaler whose switches are the ones [__init__] reads from a
    provider section that sets [disable_launch_config_check],
    [launch_config_ok] returns [True] for every node id, whatever the
    node's tags and the node types of the configuration; no run of
    [terminate_nodes_to_enforce_config_constraints] schedules a node with
    reason "outdated"; and [can_update] returns what its three other
    checks decide. *)
Theorem launch_config_check_disabled
    (cfg : Config) (provider_config : ProviderConfig) (s : Scaler) :
  cfg_provider cfg = Some provider_config ->
  provider_disable_launch_config_check provider_config = Some true ->
  init_switches cfg =
    Ok (disable_node_updaters s, disable_launch_config_check s) ->
  (forall node_id, launch_config_ok s node_id = Ok true) /\
  (forall now node_id,
     let s' := (terminate_nodes_to_enforce_config_constraints now s).1 in
     (node_id, "outdated") ∉ scheduled (logged_since s s')) /\
  (forall node_id,
     (can_update node_id s).2 =
     Ok (negb (disable_node_updaters s)
         && negb (OD.mem node_id (updaters s))
         && negb (0 <? default 0 (num_failed_updates s !! node_id)))).
Proof.
  intros Hpc Hflag Hinit.
  assert (Hon : disable_launch_config_check s = true).
  { unfold init_switches in Hinit. rewrite Hpc in Hinit.
    cbn [subscript rbind] in Hinit. rewrite Hflag in Hinit.
    by injection Hinit as _ <-. }
  assert (Hok : forall node_id, launch_config_ok s node_id = Ok true).
  { intros node_id. unfold launch_config_ok. by rewrite Hon. }
  split_and!.
  - exact Hok.
  - intros now node_id s' Hin. subst s'.
    destruct (terminate_nodes_to_enforce_config_constraints now s)
      as [s' r] eqn:Hrun.
    apply enforce_reasons in Hrun as (lg & Hlg & Hall).
    cbn [fst] in Hin. rewrite (logged_since_app _ _ _ Hlg) in Hin.
    destruct (Hall _ Hin) as [_ Hout].
    specialize (Hout eq_refl). congruence.
  - intros node_id. unfold can_update.
    unfold bind at 1. unfold gets at 1.
    destruct (disable_node_updaters s); [reflexivity|].
    unfold bind at 1. unfold gets at 1.
    destruct (OD.mem node_id (updaters s)); [reflexivity|].
    unfold bind at 1. unfold lift at 1. rewrite Hok. cbn [negb].
    unfold bind at 1. unfold gets at 1.
    destruct (0 <? _); reflexivity.
Qed.
End LaunchConfigCheck.

(** The switch is read when the scaler is constructed and [reset] does not
    assign it: reloading the configuration does not change it. *)
Lemma reset_keeps_switches `{Collaborators} (config_reader : result Config)
    (errors_fatal : bool) :
  always (unchanged (fun s =>
            (disable_node_updaters s, disable_launch_config_check s)))
    (reset config_reader errors_fatal).
Proof.
  unfold reset, reset_assign, reset_apply. repeat always_step; reflexivity.
Qed.
(** ** [_sort_based_on_last_used] *)

Section SortedReverse.
Context {A : Type} (key : A -> Z).

Lemma insert_desc_perm (x : A) (l : list A) :
  insert_desc key x l ≡ₚ x :: l.
Proof.
  induction l as [|y l IH]; cbn [insert_desc]; [done|].
  destruct (key x <? key y); [|done].
  rewrite IH. apply Permutation_swap.
Qed.

Lemma sorted_reverse_perm (l : list A) : sorted_reverse key l ≡ₚ l.
Proof.
  induction l as [|x l IH]; cbn [sorted_reverse]; [done|].
  by rewrite insert_desc_perm, IH.
Qed.

Lemma insert_desc_sorted (x : A) (l : list A) :
  StronglySorted (fun a b => key b <= key a) l ->
  StronglySorted (fun a b => key b <= key a) (insert_desc key x l).
Proof.
  induction l as [|y l IH]; cbn [insert_desc]; intros Hl.
  - repeat constructor.
  - apply StronglySorted_cons in Hl as [Hy Hl].
    destruct (Z.ltb_spec (key x) (key y)) as [Hlt|Hge].
    + apply StronglySorted_cons. split; [|by apply IH].
      rewrite insert_desc_perm. constructor; [lia | done].
    + apply StronglySorted_cons. split.
      * constructor; [done|].
        eapply Forall_impl; [exact Hy|]. intros z Hz. simpl in Hz. lia.
      * by apply StronglySorted_cons.
Qed.

Lemma sorted_reverse_sorted (l : list A) :
  StronglySorted (fun a b => key b <= key a) (sorted_reverse key l).
Proof.
  induction l as [|x l IH]; cbn [sorted_reverse]; [constructor|].
  by apply insert_desc_sorted.
Qed.

(** Stability: the elements with one key come out in the order they went
    in. *)
Lemma insert_desc_stable (t : Z) (x : A) (l : list A) :
  filter (fun a => key a = t) (insert_desc key x l) =
  filter (fun a => key a = t) (x :: l).
Proof.
  induction l as [|y l IH]; cbn [insert_desc]; [done|].
  destruct (Z.ltb_spec (key x) (key y)) as [Hlt|Hge]; [|done].
  rewrite filter_cons, IH, !filter_cons.
  repeat case_decide; try done; lia.
Qed.

Lemma sorted_reverse_stable (t : Z) (l : list A) :
  filter (fun a => key a = t) (sorted_reverse key l) =
  filter (fun a => key a = t) l.
Proof.
  induction l as [|x l IH]; cbn [sorted_reverse]; [done|].
  by rewrite insert_desc_stable, !filter_cons, IH.
Qed.

(** A list sorted by falling keys splits at any bound. *)
Lemma sorted_desc_split (c : Z) (l : list A) :
  StronglySorted (fun a b => key b <= key a) l ->
  exists l1 l2,
    l = l1 ++ l2 /\
    Forall (fun a => c < key a) l1 /\ Forall (fun a => key a <= c) l2.
Proof.
  induction l as [|x l IH]; intros Hl.
  - exists [], []. by repeat constructor.
  - apply StronglySorted_cons in Hl as [Hx Hl].
    destruct (Z.lt_ge_cases c (key x)) as [Hlt|Hge].
    + destruct (IH Hl) as (l1 & l2 & -> & H1 & H2).
      exists (x :: l1), l2. by repeat constructor.
    + exists [], (x :: l). split_and!; [done | constructor |].
      constructor; [done|].
      eapply Forall_impl; [exact Hx|]. intros z Hz. simpl in Hz. lia.
Qed.
End SortedReverse.

(** C7, as the code has it.  The workers come out as a rearrangement of
    the input, by falling last-used time, so the most recently used worker
    is first; if recorded times are later than the stand-in time -1 of an
    unrecorded ip, every worker without recorded use comes after all workers
    with recorded use; workers with equal last-used times keep the order
    they have in the input. *)
Theorem sort_based_on_last_used_stable
    (s : Scaler) (p : Provider) (nodes : list NodeID)
    (last_used : gmap NodeIP Z) :
  provider s = Some p ->
  let used node := is_Some (last_used !! internal_ip p node) in
  exists sorted,
    _sort_based_on_last_used s nodes last_used = Ok sorted /\
    sorted ≡ₚ nodes /\
    StronglySorted
      (fun a b => last_time_used p last_used b <= last_time_used p last_used a)
      sorted /\
    ((forall ip t, last_used !! ip = Some t -> -1 < t) ->
     exists recent unused,
       sorted = recent ++ unused /\
       Forall used recent /\ Forall (fun node => ~ used node) unused) /\
    (forall t,
       filter (fun node => last_time_used p last_used node = t) sorted =
       filter (fun node => last_time_used p last_used node = t) nodes).
Proof.
  intros Hp used. unfold _sort_based_on_last_used, the_provider.
  rewrite Hp. cbn [attribute rbind]. eexists. split; [reflexivity|].
  split_and!.
  - apply sorted_reverse_perm.
  - apply sorted_reverse_sorted.
  - intros Hpos.
    destruct (sorted_desc_split (last_time_used p last_used) (-1)
                (sorted_reverse (last_time_used p last_used) nodes)
                (sorted_reverse_sorted _ _)) as (l1 & l2 & Heq & H1 & H2).
    exists l1, l2. split; [done|]. split.
    + eapply Forall_impl; [exact H1|]. intros node Hk. unfold used.
      unfold last_time_used in Hk.
      destruct (last_used !! internal_ip p node); [eauto | lia].
    + eapply Forall_impl; [exact H2|]. intros node Hk [t Ht].
      unfold last_time_used in Hk. rewrite Ht in Hk.
      specialize (Hpos _ _ Ht). lia.
  - intros t. apply sorted_reverse_stable.
Qed.

(** C7 fails as stated: two workers without recorded use come out in the
    order of the input, whichever it is; node ids do not break the tie. *)
Lemma sort_based_on_last_used_ignores_ids :
  let s := Sample.two_workers_scaler Sample.valid_config in
  _sort_based_on_last_used s ["w2"; "w1"] ∅ = Ok ["w2"; "w1"] /\
  _sort_based_on_last_used s ["w1"; "w2"] ∅ = Ok ["w1"; "w2"].
Proof. split; reflexivity. Qed.
(** ** Batch termination *)

Lemma stopped_all_fields (nodes : list NodeID) (s : Scaler) :
  provider (stopped_all nodes s) = provider s /\
  non_terminated (stopped_all nodes s) = non_terminated s /\
  nodes_to_terminate (stopped_all nodes s) = nodes_to_terminate s /\
  logger (stopped_all nodes s) = logger s /\
  load_metrics (stopped_all nodes s) = load_metrics s /\
  updaters (stopped_all nodes s) = updaters s /\
  threads (stopped_all nodes s) = threads s /\
  num_failed_updates (stopped_all nodes s) = num_failed_updates s /\
  num_successful_updates (stopped_all nodes s) = num_successful_updates s /\
  tracked (node_tracker (stopped_all nodes s)) =
    filter (fun e => e.1 ∉ nodes) (tracked (node_tracker s)).
Proof.
  revert s. induction nodes as [|n nodes IH]; intros s.
  - split_and!; try done. cbn.
    induction (tracked (node_tracker s)) as [|e l IHl]; [done|].
    rewrite filter_cons_True by apply not_elem_of_nil. by rewrite <-IHl.
  - change (stopped_all (n :: nodes) s) with
      (stopped_all nodes
         (set_prometheus_metrics (inc_stopped_nodes (prometheus_metrics s))
            (set_node_tracker (untrack n (node_tracker s)) s))).
    destruct (IH (set_prometheus_metrics (inc_stopped_nodes (prometheus_metrics s))
                    (set_node_tracker (untrack n (node_tracker s)) s)))
      as (-> & -> & -> & -> & -> & -> & -> & -> & -> & ->).
    split_and!; try done. cbn.
    rewrite list_filter_filter. apply list_filter_iff.
    intros e. rewrite not_elem_of_cons. tauto.
Qed.

Lemma for_each_stop_eval (nodes : list NodeID) (s : Scaler) :
  for_each nodes (fun node =>
    (modify (fun s => set_node_tracker (untrack node (node_tracker s)) s) ;;;
     metric inc_stopped_nodes)%py) s =
  (stopped_all nodes s, Ok tt).
Proof.
  revert s. induction nodes as [|n nodes IH]; intros s; [reflexivity|].
  cbn [for_each]. unfold bind at 1. unfold bind at 1.
  unfold modify at 1, metric at 1, modify at 1. apply IH.
Qed.

Lemma terminate_scheduled_nodes_eval (s : Scaler) (p : Provider)
    (ntn : NonTerminatedNodes) :
  provider s = Some p ->
  non_terminated s = Some ntn ->
  terminate_scheduled_nodes s = (terminated_state p ntn s, Ok tt).
Proof.
  intros Hp Hntn. unfold terminate_scheduled_nodes, terminated_state.
  unfold bind at 1. unfold gets at 1.
  destruct (nodes_to_terminate s) as [|n nodes] eqn:Hnodes; [reflexivity|].
  unfold bind at 1. unfold lift at 1, the_provider at 1. rewrite Hp.
  cbn [attribute]. unfold bind at 1. unfold modify at 1.
  erewrite bind_ok by apply for_each_stop_eval.
  destruct (stopped_all_fields (n :: nodes)
              (set_provider (Some (provider_terminate_nodes (n :: nodes) p)) s))
    as (_ & Hnt & _).
  unfold bind at 1. unfold lift at 1, the_non_terminated_nodes at 1.
  rewrite Hnt. cbn [non_terminated set_provider]. rewrite Hntn.
  reflexivity.
Qed.
(** ** [terminate_unhealthy_nodes] *)

Section Unhealthy.
Context `{Collaborators}.

Lemma heartbeat_on_time_eval (s : Scaler) (p : Provider) (node_id : NodeID)
    (now : Z) :
  provider s = Some p ->
  heartbeat_on_time s node_id now =
  Ok (match last_heartbeat_time_by_ip (load_metrics s)
              !! internal_ip p node_id with
      | Some t => now - t <? CLOUDTIK_HEARTBEAT_TIMEOUT_S
      | None => false
      end).
Proof.
  intros Hp. unfold heartbeat_on_time, the_provider. rewrite Hp.
  cbn [attribute rbind].
  destruct (_ !! _); [|done]. by destruct (_ <? _).
Qed.

Lemma unhealthy_body_eval (s : Scaler) (p : Provider) (now : Z)
    (node_id : NodeID) :
  provider s = Some p ->
  unhealthy_body now node_id s =
  match node_tags p node_id !! CLOUDTIK_TAG_NODE_STATUS with
  | None => (s, Raise (KeyError CLOUDTIK_TAG_NODE_STATUS))
  | Some status =>
      if bool_decide (status = STATUS_UP_TO_DATE) then
        let s1 := first_heartbeat_faked p node_id s in
        match last_heartbeat_time_by_ip (load_metrics s1)
                !! internal_ip p node_id with
        | Some t =>
            if now - t <? CLOUDTIK_HEARTBEAT_TIMEOUT_S then (s1, Ok tt)
            else (scheduled_state p node_id "lost contact with node"
                    WARNING s1, Ok tt)
        | None =>
            (scheduled_state p node_id "lost contact with node" WARNING s1,
             Ok tt)
        end
      else (s, Ok tt)
  end.
Proof.
  intros Hp. unfold unhealthy_body.
  unfold bind at 1. unfold lift at 1, the_provider at 1. rewrite Hp.
  cbn [attribute]. unfold bind at 1. unfold lift at 1.
  destruct (node_tags p node_id !! CLOUDTIK_TAG_NODE_STATUS) as [status|];
    [|reflexivity].
  cbn [subscript]. case_bool_decide; cbn [negb]; [|reflexivity].
  unfold bind at 1. unfold gets at 1.
  assert (Hp1 : provider (first_heartbeat_faked p node_id s) = Some p).
  { unfold first_heartbeat_faked. by destruct (_ !! _). }
  assert (Hstep :
    (match last_heartbeat_time_by_ip (load_metrics s)
             !! internal_ip p node_id with
     | None => load_metrics_mark_active (internal_ip p node_id)
     | Some _ => ret tt
     end) s = (first_heartbeat_faked p node_id s, Ok tt)).
  { unfold first_heartbeat_faked. by destruct (_ !! _). }
  erewrite bind_ok by exact Hstep.
  unfold bind at 1. unfold lift at 1.
  rewrite (heartbeat_on_time_eval _ p) by done.
  cbv zeta.
  destruct (last_heartbeat_time_by_ip
              (load_metrics (first_heartbeat_faked p node_id s)) !! _)
    as [t|].
  - destruct (_ <? _); [reflexivity|].
    by apply schedule_node_termination_eval.
  - by apply schedule_node_termination_eval.
Qed.

(** The loop of [terminate_unhealthy_nodes] over workers that carry a
    status tag: it schedules the up-to-date workers whose recorded
    heartbeat is stale, for lost contact, and no other node; it marks
    active the ips of the up-to-date workers without a recorded
    heartbeat. *)
Lemma unhealthy_loop (p : Provider) (now : Z) (l : list NodeID) :
  0 < CLOUDTIK_HEARTBEAT_TIMEOUT_S ->
  forall s,
  provider s = Some p ->
  now <= clock s ->
  Forall (fun w => is_Some (node_tags p w !! CLOUDTIK_TAG_NODE_STATUS)) l ->
  exists s' lg,
    for_each l (unhealthy_body now) s = (s', Ok tt) /\
    provider s' = Some p /\
    non_terminated s' = non_terminated s /\
    clock s' = clock s /\
    logger s' = logger s ++ lg /\
    nodes_to_terminate s' = nodes_to_terminate s ++ (scheduled lg).*1 /\
    (forall ip,
       match last_heartbeat_time_by_ip (load_metrics s) !! ip with
       | Some t => last_heartbeat_time_by_ip (load_metrics s') !! ip = Some t
       | None =>
           last_heartbeat_time_by_ip (load_metrics s') !! ip = None \/
           last_heartbeat_time_by_ip (load_metrics s') !! ip
             = Some (clock s)
       end) /\
    (forall w,
       w ∈ l ->
       node_tags p w !! CLOUDTIK_TAG_NODE_STATUS = Some STATUS_UP_TO_DATE ->
       last_heartbeat_time_by_ip (load_metrics s) !! internal_ip p w = None ->
       last_heartbeat_time_by_ip (load_metrics s') !! internal_ip p w
         = Some (clock s)) /\
    (forall w r,
       (w, r) ∈ scheduled lg <->
       w ∈ l /\ r = "lost contact with node" /\
       node_tags p w !! CLOUDTIK_TAG_NODE_STATUS = Some STATUS_UP_TO_DATE /\
       heartbeat_stale s p now w).
Proof.
  intros Htimeout. induction l as [|w l IH]; intros s Hp Hclock Htags.
  - exists s, []. split_and!; try done.
    + by rewrite app_nil_r.
    + by rewrite app_nil_r.
    + intros ip. destruct (_ !! ip); auto.
    + intros w Hin. by apply elem_of_nil in Hin.
    + intros w r. split.
      * intros Hin. by apply elem_of_nil in Hin.
      * intros [Hin _]. by apply elem_of_nil in Hin.
  - apply Forall_cons in Htags as [[status Hstatus] Htags].
    cbn [for_each]. unfold bind.
    rewrite (unhealthy_body_eval s p) by done. rewrite Hstatus.
    case_bool_decide as Hup.
    2:{ (* the worker is not up to date *)
      destruct (IH s Hp Hclock Htags)
        as (s' & lg & -> & Hp' & Hnt & Hck & Hlg & Hntt & Hhb & Hmark & Hsched).
      exists s', lg. split_and!; try done.
      - intros w' Hin Hst Hnone. apply elem_of_cons in Hin as [->|Hin].
        + congruence.
        + by apply Hmark.
      - intros w' r. rewrite Hsched, elem_of_cons. split.
        + intros (? & ? & ? & ?). auto.
        + intros ([->|?] & ? & ? & ?); [congruence | auto]. }
    subst status. cbv zeta. unfold first_heartbeat_faked.
    destruct (last_heartbeat_time_by_ip (load_metrics s) !! internal_ip p w)
      as [t|] eqn:Hbeat.
    + (* a heartbeat is recorded *)
      rewrite Hbeat.
      destruct (Z.ltb_spec (now - t) CLOUDTIK_HEARTBEAT_TIMEOUT_S)
        as [Hfresh|Hstale].
      * destruct (IH s Hp Hclock Htags)
          as (s' & lg & -> & Hp' & Hnt & Hck & Hlg & Hntt & Hhb & Hmark & Hsched).
        exists s', lg. split_and!; try done.
        -- intros w' Hin Hst Hnone. apply elem_of_cons in Hin as [->|Hin].
           ++ congruence.
           ++ by apply Hmark.
        -- intros w' r. rewrite Hsched, elem_of_cons. split.
           ++ intros (? & ? & ? & ?). auto.
           ++ intros ([->|?] & ? & ? & Hst); [|auto].
              destruct Hst as (t' & Ht' & Hlate).
              rewrite Hbeat in Ht'. injection Ht' as <-. lia.
      * destruct (IH (scheduled_state p w "lost contact with node" WARNING s)
                    Hp Hclock Htags)
          as (s' & lg & -> & Hp' & Hnt & Hck & Hlg & Hntt & Hhb & Hmark & Hsched).
        eexists s', _. split_and!; try done.
        -- rewrite Hlg. cbn [logger scheduled_state set_logger
             set_event_summarizer set_nodes_to_terminate].
           rewrite <-app_assoc. reflexivity.
        -- rewrite Hntt. cbn [nodes_to_terminate scheduled_state
             set_nodes_to_terminate].
           rewrite scheduled_app, fmap_app, <-app_assoc. reflexivity.
        -- intros w' Hin Hst Hnone. apply elem_of_cons in Hin as [->|Hin].
           ++ congruence.
           ++ by apply Hmark.
        -- intros w' r. rewrite scheduled_app, elem_of_app, Hsched.
           change (scheduled [(WARNING, Terminating w (internal_ip p w)
                                 "lost contact with node")])
             with [(w, "lost contact with node")].
           rewrite list_elem_of_singleton.
           rewrite elem_of_cons. split.
           ++ intros [[= -> ->]|(? & ? & ? & ?)]; [|auto].
              split_and!; auto. by exists t.
           ++ intros ([->|?] & -> & ? & ?); auto.
    + (* no heartbeat yet: the ip is marked active *)
      cbn [load_metrics set_load_metrics mark_active
           last_heartbeat_time_by_ip].
      rewrite lookup_insert_eq.
      rewrite (proj2 (Z.ltb_lt _ _)) by lia.
      destruct (IH (set_load_metrics
                      (mark_active (internal_ip p w) (clock s)
                         (load_metrics s)) s) Hp Hclock Htags)
        as (s' & lg & -> & Hp' & Hnt & Hck & Hlg & Hntt & Hhb & Hmark & Hsched).
      cbn [load_metrics set_load_metrics mark_active
           last_heartbeat_time_by_ip clock] in Hhb, Hmark, Hck.
      exists s', lg. split_and!; try done.
      * intros ip. specialize (Hhb ip).
        destruct (decide (ip = internal_ip p w)) as [->|Hne].
        -- rewrite lookup_insert_eq in Hhb. rewrite Hbeat. auto.
        -- by rewrite lookup_insert_ne in Hhb.
      * intros w' Hin Hst Hnone.
        destruct (decide (internal_ip p w' = internal_ip p w)) as [Heq|Hne].
        -- specialize (Hhb (internal_ip p w)).
           rewrite lookup_insert_eq in Hhb. by rewrite Heq.
        -- apply elem_of_cons in Hin as [->|Hin]; [done|].
           apply Hmark; [done..|]. by rewrite lookup_insert_ne.
      * intros w' r. rewrite Hsched, elem_of_cons.
        assert (Hsame :
          heartbeat_stale (set_load_metrics
            (mark_active (internal_ip p w) (clock s) (load_metrics s)) s)
            p now w' <-> heartbeat_stale s p now w').
        { unfold heartbeat_stale.
          cbn [load_metrics set_load_metrics mark_active
               last_heartbeat_time_by_ip].
          destruct (decide (internal_ip p w' = internal_ip p w)) as [Heq|Hne].
          - rewrite Heq, lookup_insert_eq, Hbeat. split.
            + intros (t' & [= <-] & ?). lia.
            + intros (t' & [=] & ?).
          - by rewrite lookup_insert_ne. }
        rewrite Hsame. split.
        -- intros (? & ? & ? & ?). auto.
        -- intros ([->|?] & ? & ? & Hst); [|auto].
           destruct Hst as (t' & Ht' & _). congruence.
Qed.

(** C5. In [terminate_unhealthy_nodes], when every worker carries a status
    tag, the heartbeat timeout is positive and the clock has not gone back
    since the tick began: an up-to-date worker whose ip has no recorded
    heartbeat is marked active and not scheduled; an up-to-date worker whose
    last heartbeat is the timeout or more in the past is scheduled for
    "lost contact with node" and is in the batch handed to the provider;
    a worker that is not up-to-date is not scheduled. *)
Theorem terminate_unhealthy_nodes_by_heartbeat
    (s : Scaler) (p : Provider) (ntn : NonTerminatedNodes) (now : Z) :
  provider s = Some p ->
  non_terminated s = Some ntn ->
  0 < CLOUDTIK_HEARTBEAT_TIMEOUT_S ->
  now <= clock s ->
  Forall (fun w => is_Some (node_tags p w !! CLOUDTIK_TAG_NODE_STATUS))
    (worker_ids ntn) ->
  let s' := (terminate_unhealthy_nodes now s).1 in
  (terminate_unhealthy_nodes now s).2 = Ok tt /\
  forall w,
    w ∈ worker_ids ntn ->
    let status := node_tags p w !! CLOUDTIK_TAG_NODE_STATUS in
    let ip := internal_ip p w in
    (status = Some STATUS_UP_TO_DATE ->
     last_heartbeat_time_by_ip (load_metrics s) !! ip = None ->
     last_heartbeat_time_by_ip (load_metrics s') !! ip = Some (clock s) /\
     forall r, (w, r) ∉ scheduled (logged_since s s')) /\
    (status = Some STATUS_UP_TO_DATE ->
     heartbeat_stale s p now w ->
     (w, "lost contact with node") ∈ scheduled (logged_since s s') /\
     exists p' batch,
       provider s' = Some p' /\
       terminate_calls p' = terminate_calls p ++ [batch] /\
       w ∈ batch) /\
    (status <> Some STATUS_UP_TO_DATE ->
     forall r, (w, r) ∉ scheduled (logged_since s s')).
Proof.
  intros Hp Hntn Htimeout Hclock Htags s'. subst s'.
  destruct (unhealthy_loop p now (worker_ids ntn) Htimeout s Hp Hclock Htags)
    as (s1 & lg & Hrun & Hp1 & Hnt1 & Hck & Hlg & Hntt & Hhb & Hmark & Hsched).
  assert (Heval : terminate_unhealthy_nodes now s =
                  (terminated_state p ntn s1, Ok tt)).
  { unfold terminate_unhealthy_nodes.
    unfold bind at 1. unfold lift at 1, the_non_terminated_nodes at 1.
    rewrite Hntn. cbn [attribute].
    erewrite bind_ok by exact Hrun.
    apply terminate_scheduled_nodes_eval; congruence. }
  rewrite Heval. cbn [fst snd]. split; [done|].
  assert (Hlog : logged_since s (terminated_state p ntn s1) = lg).
  { apply logged_since_app. rewrite <-Hlg. unfold terminated_state.
    destruct (nodes_to_terminate s1); [done|].
    cbn [logger set_nodes_to_terminate set_non_terminated].
    by destruct (stopped_all_fields (s0 :: l)
      (set_provider (Some (provider_terminate_nodes (s0 :: l) p)) s1))
      as (_ & _ & _ & -> & _). }
  assert (Hbeats : load_metrics (terminated_state p ntn s1) = load_metrics s1).
  { unfold terminated_state. destruct (nodes_to_terminate s1); [done|].
    cbn [load_metrics set_nodes_to_terminate set_non_terminated].
    by destruct (stopped_all_fields (s0 :: l)
      (set_provider (Some (provider_terminate_nodes (s0 :: l) p)) s1))
      as (_ & _ & _ & _ & -> & _). }
  rewrite Hlog, Hbeats.
  intros w Hin. cbv zeta. split_and!.
  - intros Hup Hnone. split; [by apply Hmark|].
    intros r Hr. apply Hsched in Hr as (_ & _ & _ & t & Ht & _). congruence.
  - intros Hup Hstale.
    assert (Hw : (w, "lost contact with node") ∈ scheduled lg)
      by (by apply Hsched).
    split; [done|].
    assert (Hbatch : w ∈ nodes_to_terminate s1).
    { rewrite Hntt. apply elem_of_app. right.
      by apply (list_elem_of_fmap_2 fst) in Hw. }
    unfold terminated_state.
    destruct (nodes_to_terminate s1) as [|n0 rest] eqn:Hnodes.
    { by apply elem_of_nil in Hbatch. }
    cbn [provider set_nodes_to_terminate set_non_terminated].
    destruct (stopped_all_fields (n0 :: rest)
      (set_provider (Some (provider_terminate_nodes (n0 :: rest) p)) s1))
      as (-> & _).
    cbn [provider set_provider]. eexists _, _. split; [reflexivity|].
    split; [reflexivity | done].
  - intros Hnot r Hr. apply Hsched in Hr as (_ & _ & Hup & _). congruence.
Qed.
End Unhealthy.
(** ** [process_completed_updates] *)

Lemma completed_body_eval (s : Scaler) (p : Provider) (node_id : NodeID)
    (ref : nat) (u : NodeUpdaterThread) (failed_nodes : list NodeID) :
  provider s = Some p ->
  OD.get node_id (updaters s) = Some ref ->
  threads s !! ref = Some u ->
  completed_body failed_nodes node_id s =
  (completed_state p node_id u s,
   Ok (if bool_decide (exitcode u = 0) then failed_nodes
       else failed_nodes ++ [node_id])).
Proof.
  intros Hp Hget Hthread. unfold completed_body, completed_state.
  unfold bind at 1. unfold lift at 1. rewrite Hget. cbn [subscript].
  unfold bind at 1. unfold lift at 1, thread_object at 1, index at 1.
  rewrite Hthread.
  case_bool_decide as Hexit.
  - unfold bind at 1. unfold bind at 1. unfold modify at 1.
    unfold bind at 1. unfold metric at 1, modify at 1.
    unfold success_metrics.
    destruct (u_for_recovery u); destruct (update_time u) as [t|];
      try case_bool_decide;
      unfold bind, metric, modify, ret, lift, the_provider,
        load_metrics_mark_active;
      cbn [provider set_prometheus_metrics set_num_successful_updates];
      rewrite Hp; reflexivity.
  - unfold bind at 1. unfold bind at 1. unfold modify at 1.
    unfold bind at 1. unfold metric at 1, modify at 1.
    unfold failure_metrics.
    destruct (u_for_recovery u);
      unfold bind, metric, modify, ret; reflexivity.
Qed.

Section OrderedDict.
Context {V : Type}.
Implicit Types (d : odict V) (k : string) (v : V).

Lemma OD_get_del_ne k k' d :
  k ≠ k' -> OD.get k' (OD.del k d) = OD.get k' d.
Proof.
  intros Hne. induction d as [|[k0 v0] d IH]; cbn; [done|].
  destruct (decide (k = k0)) as [->|Hk].
  - by rewrite decide_False by congruence.
  - cbn. by rewrite IH.
Qed.

Lemma OD_get_None k d : OD.get k d = None <-> k ∉ OD.keys d.
Proof.
  unfold OD.keys. induction d as [|[k0 v0] d IH]; cbn.
  - split; [intros _; apply not_elem_of_nil | done].
  - rewrite not_elem_of_cons. destruct (decide (k = k0)) as [->|Hk].
    + split; [done | tauto].
    + rewrite IH. tauto.
Qed.

Lemma OD_get_del_eq k d :
  NoDup (OD.keys d) -> OD.get k (OD.del k d) = None.
Proof.
  unfold OD.keys. induction d as [|[k0 v0] d IH]; cbn; [done|].
  intros [Hk0 Hd]%NoDup_cons.
  destruct (decide (k = k0)) as [->|Hk].
  - by apply OD_get_None.
  - cbn. rewrite decide_False by done. by apply IH.
Qed.

Lemma OD_keys_del_subseteq k d : OD.keys (OD.del k d) ⊆ OD.keys d.
Proof.
  unfold OD.keys. induction d as [|[k0 v0] d IH]; cbn; [done|].
  destruct (decide (k = k0)); cbn.
  - intros x Hin. apply elem_of_cons. by right.
  - intros x [->|Hin]%elem_of_cons; apply elem_of_cons; [by left|].
    right. by apply IH.
Qed.

Lemma OD_keys_del_NoDup k d : NoDup (OD.keys d) -> NoDup (OD.keys (OD.del k d)).
Proof.
  unfold OD.keys. induction d as [|[k0 v0] d IH]; cbn; [done|].
  intros [Hk0 Hd]%NoDup_cons.
  destruct (decide (k = k0)); [done|]. cbn. apply NoDup_cons. split.
  - intros Hin. apply Hk0. by apply (OD_keys_del_subseteq k d).
  - by apply IH.
Qed.

Lemma OD_get_elem_of k v d : OD.get k d = Some v -> (k, v) ∈ d.
Proof.
  induction d as [|[k0 v0] d IH]; cbn; [done|].
  destruct (decide (k = k0)) as [->|Hk].
  - intros [= ->]. apply elem_of_cons. by left.
  - intros Hget. apply elem_of_cons. right. by apply IH.
Qed.

Lemma OD_elem_of_get k v d :
  NoDup (OD.keys d) -> (k, v) ∈ d -> OD.get k d = Some v.
Proof.
  unfold OD.keys. induction d as [|[k0 v0] d IH]; cbn.
  - intros _ Hin. by apply elem_of_nil in Hin.
  - intros [Hk0 Hd]%NoDup_cons [[= -> ->]|Hin]%elem_of_cons.
    + by rewrite decide_True.
    + rewrite decide_False; [by apply IH|].
      intros ->. apply Hk0. by apply (list_elem_of_fmap_2 fst) in Hin.
Qed.

Lemma OD_mem_true k d : OD.mem k d = true <-> k ∈ OD.keys d.
Proof.
  unfold OD.mem. destruct (OD.get k d) eqn:Hget.
  - split; [|done]. intros _. apply OD_get_elem_of in Hget.
    by apply (list_elem_of_fmap_2 fst) in Hget.
  - apply OD_get_None in Hget. split; [done | tauto].
Qed.

Lemma OD_get_set k k' v d :
  OD.get k' (OD.set k v d) = if decide (k' = k) then Some v else OD.get k' d.
Proof.
  induction d as [|[k0 v0] d IH]; cbn.
  - by destruct (decide (k' = k)).
  - destruct (decide (k = k0)) as [->|Hk]; cbn.
    + by destruct (decide (k' = k0)).
    + rewrite IH. destruct (decide (k' = k0)) as [->|?]; [|done].
      by rewrite decide_False by congruence.
Qed.

Lemma OD_keys_set k v d :
  OD.keys (OD.set k v d) =
  if decide (k ∈ OD.keys d) then OD.keys d else OD.keys d ++ [k].
Proof.
  unfold OD.keys. induction d as [|[k0 v0] d IH]; cbn.
  - rewrite decide_False by apply not_elem_of_nil. done.
  - destruct (decide (k = k0)) as [->|Hk]; cbn.
    + rewrite decide_True by (apply elem_of_cons; by left). done.
    + rewrite IH. destruct (decide (k ∈ d.*1)) as [Hin|Hnin].
      * rewrite decide_True by (apply elem_of_cons; by right). done.
      * rewrite decide_False; [done|]. rewrite not_elem_of_cons. done.
Qed.
End OrderedDict.

(** *** The loop over the completed updaters *)

Lemma completed_all_cons (p : Provider) (e : NodeID * NodeUpdaterThread)
    (l : list (NodeID * NodeUpdaterThread)) (s : Scaler) :
  completed_all p (e :: l) s = completed_all p l (completed_state p e.1 e.2 s).
Proof. reflexivity. Qed.

Lemma completed_state_frame (p : Provider) (n : NodeID)
    (u : NodeUpdaterThread) (s : Scaler) :
  let s' := completed_state p n u s in
  provider s' = provider s /\ non_terminated s' = non_terminated s /\
  threads s' = threads s /\ clock s' = clock s /\ logger s' = logger s /\
  nodes_to_terminate s' = nodes_to_terminate s /\
  updaters s' = OD.del n (updaters s).
Proof. unfold completed_state. by case_bool_decide. Qed.

Lemma completed_all_frame (p : Provider)
    (l : list (NodeID * NodeUpdaterThread)) (s : Scaler) :
  let s' := completed_all p l s in
  provider s' = provider s /\ non_terminated s' = non_terminated s /\
  threads s' = threads s /\ clock s' = clock s /\ logger s' = logger s /\
  nodes_to_terminate s' = nodes_to_terminate s.
Proof.
  revert s. induction l as [|[n u] l IH]; intros s; [done|].
  rewrite completed_all_cons. cbn [fst snd].
  destruct (IH (completed_state p n u s)) as (-> & -> & -> & -> & -> & ->).
  destruct (completed_state_frame p n u s) as (-> & -> & -> & -> & -> & -> & _).
  done.
Qed.

Lemma completed_all_updaters (p : Provider)
    (l : list (NodeID * NodeUpdaterThread)) (s : Scaler) (n : NodeID) :
  NoDup (OD.keys (updaters s)) ->
  NoDup (OD.keys (updaters (completed_all p l s))) /\
  OD.get n (updaters (completed_all p l s)) =
    if decide (n ∈ l.*1) then None else OD.get n (updaters s).
Proof.
  revert s. induction l as [|[n0 u0] l IH]; intros s Hnd.
  - split; [done|]. rewrite decide_False by apply not_elem_of_nil. done.
  - rewrite completed_all_cons. cbn [fst snd].
    destruct (completed_state_frame p n0 u0 s) as (_ & _ & _ & _ & _ & _ & Hup).
    destruct (IH (completed_state p n0 u0 s)) as [Hnd' Hget].
    { rewrite Hup. by apply OD_keys_del_NoDup. }
    split; [done|]. rewrite Hget, Hup. cbn [fmap list_fmap fst].
    destruct (decide (n ∈ l.*1)) as [Hin|Hnin].
    + rewrite decide_True by (apply elem_of_cons; by right). done.
    + destruct (decide (n = n0)) as [->|Hne].
      * rewrite decide_True by (apply elem_of_cons; by left).
        by apply OD_get_del_eq.
      * rewrite decide_False by (rewrite not_elem_of_cons; done).
        by apply OD_get_del_ne.
Qed.

Lemma completed_all_counts (p : Provider)
    (l : list (NodeID * NodeUpdaterThread)) (s : Scaler) (n : NodeID) :
  NoDup l.*1 ->
  let s' := completed_all p l s in
  (forall u, (n, u) ∈ l -> exitcode u = 0 ->
     num_successful_updates s' !! n
       = Some (default 0 (num_successful_updates s !! n) + 1)) /\
  (forall u, (n, u) ∈ l -> exitcode u ≠ 0 ->
     num_failed_updates s' !! n
       = Some (default 0 (num_failed_updates s !! n) + 1)) /\
  (n ∉ l.*1 ->
     num_successful_updates s' !! n = num_successful_updates s !! n /\
     num_failed_updates s' !! n = num_failed_updates s !! n).
Proof.
  revert s. induction l as [|[n0 u0] l IH]; intros s Hnd.
  - split_and!; [intros u Hin; by apply elem_of_nil in Hin.. | done].
  - apply NoDup_cons in Hnd as [Hn0 Hnd]. cbv zeta.
    rewrite completed_all_cons. cbn [fst snd].
    destruct (IH (completed_state p n0 u0 s) Hnd) as (Hs & Hf & Hframe).
    assert (Hstep :
      num_successful_updates (completed_state p n0 u0 s) !! n =
        (if decide (n = n0 /\ exitcode u0 = 0)
         then Some (default 0 (num_successful_updates s !! n) + 1)
         else num_successful_updates s !! n) /\
      num_failed_updates (completed_state p n0 u0 s) !! n =
        (if decide (n = n0 /\ exitcode u0 ≠ 0)
         then Some (default 0 (num_failed_updates s !! n) + 1)
         else num_failed_updates s !! n)).
    { unfold completed_state. case_bool_decide as Hexit;
        cbn [num_successful_updates num_failed_updates set_updaters
             set_load_metrics set_prometheus_metrics set_node_tracker
             set_num_successful_updates set_num_failed_updates];
        unfold increment.
      - rewrite (decide_False (P := n = n0 /\ exitcode u0 ≠ 0)) by tauto.
        split; [|done]. destruct (decide (n = n0)) as [->|Hne].
        + rewrite decide_True by done. by rewrite lookup_insert_eq.
        + rewrite decide_False by tauto. by rewrite lookup_insert_ne.
      - rewrite (decide_False (P := n = n0 /\ exitcode u0 = 0)) by tauto.
        split; [done|]. destruct (decide (n = n0)) as [->|Hne].
        + rewrite decide_True by done. by rewrite lookup_insert_eq.
        + rewrite decide_False by tauto. by rewrite lookup_insert_ne. }
    destruct Hstep as [Hstep_s Hstep_f].
    assert (Hin_keys : forall u, (n, u) ∈ l -> n ≠ n0).
    { intros u Hin ->. apply Hn0. by apply (list_elem_of_fmap_2 fst) in Hin. }
    split_and!.
    + intros u [[= -> ->]|Hin]%elem_of_cons Hexit.
      * destruct (Hframe Hn0) as [-> _]. rewrite Hstep_s.
        by rewrite decide_True.
      * rewrite (Hs u Hin Hexit), Hstep_s.
        rewrite decide_False; [done|]. intros [? _]. by eapply Hin_keys.
    + intros u [[= -> ->]|Hin]%elem_of_cons Hexit.
      * destruct (Hframe Hn0) as [_ ->]. rewrite Hstep_f.
        by rewrite decide_True.
      * rewrite (Hf u Hin Hexit), Hstep_f.
        rewrite decide_False; [done|]. intros [? _]. by eapply Hin_keys.
    + cbn [fmap list_fmap fst]. intros [Hne Hnin]%not_elem_of_cons.
      destruct (Hframe Hnin) as [-> ->]. rewrite Hstep_s, Hstep_f.
      rewrite !decide_False by tauto. done.
Qed.

Lemma completed_all_marked (p : Provider)
    (l : list (NodeID * NodeUpdaterThread)) (s : Scaler) (ip : NodeIP) :
  last_heartbeat_time_by_ip (load_metrics s) !! ip = Some (clock s) \/
  (exists n u, (n, u) ∈ l /\ exitcode u = 0 /\ ip = internal_ip p n) ->
  last_heartbeat_time_by_ip (load_metrics (completed_all p l s)) !! ip
    = Some (clock s).
Proof.
  revert s. induction l as [|[n0 u0] l IH]; intros s.
  - intros [?|(n & u & Hin & _)]; [done | by apply elem_of_nil in Hin].
  - intros Hcase. rewrite completed_all_cons. cbn [fst snd].
    destruct (completed_state_frame p n0 u0 s) as (_ & _ & _ & Hck & _).
    rewrite <-Hck. apply IH. rewrite Hck.
    unfold completed_state. case_bool_decide as Hexit;
      cbn [load_metrics set_updaters set_load_metrics set_node_tracker
           set_prometheus_metrics set_num_failed_updates mark_active
           last_heartbeat_time_by_ip].
    + destruct (decide (ip = internal_ip p n0)) as [->|Hne].
      * left. by rewrite lookup_insert_eq.
      * rewrite lookup_insert_ne by done.
        destruct Hcase as [?|(n & u & [[= -> ->]|Hin]%elem_of_cons & ? & ?)];
          [by left | done | right; eauto].
    + destruct Hcase as [?|(n & u & [[= -> ->]|Hin]%elem_of_cons & ? & ?)];
        [by left | done | right; eauto].
Qed.

Lemma completed_all_untracked (p : Provider)
    (l : list (NodeID * NodeUpdaterThread)) (s : Scaler) (n : NodeID) :
  n ∉ (tracked (node_tracker s)).*1 \/
  (exists u, (n, u) ∈ l /\ exitcode u ≠ 0) ->
  n ∉ (tracked (node_tracker (completed_all p l s))).*1.
Proof.
  revert s. induction l as [|[n0 u0] l IH]; intros s.
  - intros [?|(u & Hin & _)]; [done | by apply elem_of_nil in Hin].
  - intros Hcase. rewrite completed_all_cons. cbn [fst snd]. apply IH.
    unfold completed_state. case_bool_decide as Hexit;
      cbn [node_tracker set_updaters set_load_metrics set_node_tracker
           set_prometheus_metrics set_num_failed_updates
           set_num_successful_updates].
    + destruct Hcase as [?|(u & [[= -> ->]|Hin]%elem_of_cons & ?)];
        [by left | done | right; eauto].
    + cbn [untrack tracked].
      assert (Hfilter : forall m,
        m ∉ (tracked (node_tracker s)).*1 \/ m = n0 ->
        m ∉ (filter (fun e => e.1 ≠ n0) (tracked (node_tracker s))).*1).
      { intros m Hm Hin. apply list_elem_of_fmap in Hin as ([m' v] & -> & Hin).
        apply list_elem_of_filter in Hin as [Hne Hin]. cbn in *.
        destruct Hm as [Hm|Hm]; [|done].
        apply Hm. by apply (list_elem_of_fmap_2 fst) in Hin. }
      destruct Hcase as [?|(u & [[= -> ->]|Hin]%elem_of_cons & ?)].
      * left. apply Hfilter. by left.
      * left. apply Hfilter. by right.
      * right. eauto.
Qed.

Lemma completed_all_recoveries (p : Provider)
    (l : list (NodeID * NodeUpdaterThread)) (s : Scaler) :
  successful_recoveries (prometheus_metrics (completed_all p l s)) =
  successful_recoveries (prometheus_metrics s) +
  Z.of_nat (length (filter (fun e => exitcode e.2 = 0 /\ u_for_recovery e.2 = true) l)).
Proof.
  revert s. induction l as [|[n0 u0] l IH]; intros s.
  - cbn. lia.
  - rewrite completed_all_cons. cbn [fst snd]. rewrite IH.
    rewrite filter_cons. cbn [snd].
    unfold completed_state, success_metrics, failure_metrics.
    case_bool_decide as Hexit.
    + destruct (u_for_recovery u0) eqn:Hrec.
      * rewrite decide_True by done. cbn [length].
        destruct (update_time u0) as [t|]; [case_bool_decide|]; cbn; lia.
      * rewrite decide_False by (intros [_ ?]; done).
        destruct (update_time u0) as [t|]; [case_bool_decide|]; cbn; lia.
    + rewrite decide_False by tauto.
      destruct (u_for_recovery u0); cbn; lia.
Qed.

Lemma completed_loop_eval (p : Provider)
    (l : list (NodeID * NodeUpdaterThread)) (s : Scaler)
    (failed_nodes : list NodeID) :
  provider s = Some p ->
  NoDup l.*1 ->
  (forall n u, (n, u) ∈ l -> updater_of s n = Some u) ->
  for_fold l.*1 failed_nodes completed_body s =
  (completed_all p l s, Ok (failed_nodes ++ failed_among l)).
Proof.
  revert s failed_nodes.
  induction l as [|[n u] l IH]; intros s failed_nodes Hp Hnd Hall.
  - cbn. by rewrite app_nil_r.
  - apply NoDup_cons in Hnd as [Hn Hnd].
    cbn [fmap list_fmap fst for_fold].
    assert (Hu : updater_of s n = Some u).
    { apply Hall. apply elem_of_cons. by left. }
    unfold updater_of in Hu.
    destruct (OD.get n (updaters s)) as [ref|] eqn:Hget; [|done].
    cbn in Hu.
    erewrite bind_ok by (by eapply completed_body_eval).
    rewrite completed_all_cons. cbn [fst snd].
    destruct (completed_state_frame p n u s)
      as (Hp1 & _ & Hth & _ & _ & _ & Hup).
    rewrite IH.
    + f_equal. f_equal. unfold failed_among. rewrite filter_cons. cbn [snd].
      case_bool_decide as Hexit.
      * rewrite decide_False by tauto. done.
      * rewrite decide_True by done. cbn. by rewrite <-app_assoc.
    + congruence.
    + done.
    + intros n' u' Hin. unfold updater_of. rewrite Hup, Hth.
      rewrite OD_get_del_ne.
      * apply Hall. apply elem_of_cons. by right.
      * intros ->. apply Hn. by apply (list_elem_of_fmap_2 fst) in Hin.
Qed.

Lemma completed_updaters_eval (s : Scaler) :
  (forall n ref, (n, ref) ∈ updaters s -> is_Some (threads s !! ref)) ->
  completed_updaters s = Ok (completed_list s).*1.
Proof.
  unfold completed_updaters, completed_list.
  assert (Hgen : forall d acc,
    (forall n ref, (n, ref) ∈ d -> is_Some (threads s !! ref)) ->
    rfor_fold d acc
      (fun completed_nodes entry =>
         let '(node_id, ref) := entry in
         (updater <- thread_object s ref ;;
          if negb (is_alive updater)
          then Ok (completed_nodes ++ [node_id])
          else Ok completed_nodes)%res)
    = Ok (acc ++ (omap (fun e : NodeID * nat =>
                    match threads s !! e.2 with
                    | Some u => if is_alive u then None else Some (e.1, u)
                    | None => None
                    end) d).*1)).
  { induction d as [|[n ref] d IH]; intros acc Hvalid.
    - cbn. by rewrite app_nil_r.
    - cbn [rfor_fold omap list_omap fst snd].
      destruct (Hvalid n ref) as [u Hu]; [apply elem_of_cons; by left|].
      unfold thread_object, index. rewrite Hu. cbn [rbind].
      destruct (is_alive u); cbn [negb rbind].
      + apply IH. intros n' ref' Hin. apply (Hvalid n').
        apply elem_of_cons. by right.
      + rewrite IH.
        * cbn [fmap list_fmap fst]. by rewrite <-app_assoc.
        * intros n' ref' Hin. apply (Hvalid n').
          apply elem_of_cons. by right. }
  intros Hvalid. by rewrite Hgen.
Qed.

Lemma completed_list_spec (s : Scaler) :
  NoDup (OD.keys (updaters s)) ->
  NoDup (completed_list s).*1 /\
  forall n u,
    (n, u) ∈ completed_list s <->
    updater_of s n = Some u /\ is_alive u = false.
Proof.
  unfold completed_list, updater_of, OD.keys.
  generalize (threads s) as ths. intros ths.
  induction (updaters s) as [|[n0 ref0] d IH]; intros Hnd.
  - split; [constructor|]. intros n u. split.
    + intros Hin. by apply elem_of_nil in Hin.
    + intros [Hget _]. done.
  - apply NoDup_cons in Hnd as [Hn0 Hnd]. destruct (IH Hnd) as [IHnd IHin].
    assert (Hkeys : forall n u,
      (n, u) ∈ omap (fun e : NodeID * nat =>
                 match ths !! e.2 with
                 | Some u => if is_alive u then None else Some (e.1, u)
                 | None => None
                 end) d -> n ∈ d.*1).
    { intros n u Hin. apply IHin in Hin as [Hget _].
      destruct (OD.get n d) as [ref|] eqn:Hg; [|done].
      apply OD_get_elem_of in Hg. by apply (list_elem_of_fmap_2 fst) in Hg. }
    cbn [omap list_omap fst snd OD.get].
    split.
    + destruct (ths !! ref0) as [u0|]; [|done].
      destruct (is_alive u0); [done|].
      cbn [fmap list_fmap fst]. apply NoDup_cons. split; [|done].
      intros Hin. apply list_elem_of_fmap in Hin as ([n u] & -> & Hin).
      apply Hn0. by eapply Hkeys.
    + intros n u. destruct (decide (n = n0)) as [->|Hne].
      * split.
        -- intros Hin. destruct (ths !! ref0) as [u0|] eqn:Hu0.
           ++ destruct (is_alive u0) eqn:Halive.
              ** exfalso. apply Hn0. by eapply Hkeys.
              ** apply elem_of_cons in Hin as [[= ->]|Hin]; [done|].
                 exfalso. apply Hn0. by eapply Hkeys.
           ++ exfalso. apply Hn0. by eapply Hkeys.
        -- cbn. intros [-> ->]. apply elem_of_cons. by left.
      * rewrite <-IHin. destruct (ths !! ref0) as [u0|]; [|done].
        destruct (is_alive u0); [done|].
        rewrite elem_of_cons. split; [|auto].
        intros [[= -> ->]|?]; done.
Qed.

(** *** The loop over the failed nodes *)

Lemma failed_state_cons (p : Provider) (workers : list NodeID) (n : NodeID)
    (l : list NodeID) (s : Scaler) :
  failed_state p workers (n :: l) s =
  failed_state p workers l
    (if bool_decide (n ∈ workers)
     then scheduled_state p n "launch failed" ERROR s
     else set_logger (logger s ++ [(WARNING, AlreadyTerminated n)]) s).
Proof. reflexivity. Qed.

Lemma failed_state_fields (p : Provider) (workers failed : list NodeID)
    (s : Scaler) :
  let s' := failed_state p workers failed s in
  provider s' = provider s /\ non_terminated s' = non_terminated s /\
  load_metrics s' = load_metrics s /\ updaters s' = updaters s /\
  num_failed_updates s' = num_failed_updates s /\
  num_successful_updates s' = num_successful_updates s /\
  node_tracker s' = node_tracker s /\
  prometheus_metrics s' = prometheus_metrics s /\
  nodes_to_terminate s' =
    nodes_to_terminate s ++ filter (fun n => n ∈ workers) failed /\
  exists lg,
    logger s' = logger s ++ lg /\
    scheduled lg =
      map (fun n => (n, "launch failed")) (filter (fun n => n ∈ workers) failed).
Proof.
  revert s. induction failed as [|n l IH]; intros s.
  - cbn. rewrite app_nil_r. split_and!; try done.
    exists []. by rewrite app_nil_r.
  - cbv zeta. rewrite failed_state_cons. rewrite filter_cons.
    case_bool_decide as Hin.
    + rewrite decide_True by done.
      destruct (IH (scheduled_state p n "launch failed" ERROR s))
        as (-> & -> & -> & -> & -> & -> & -> & -> & -> & lg & -> & Hlg).
      split_and!; try done.
      * cbn. by rewrite <-app_assoc.
      * eexists. split; [cbn; rewrite <-app_assoc; reflexivity|].
        rewrite scheduled_app, Hlg. done.
    + rewrite decide_False by done.
      destruct (IH (set_logger (logger s ++ [(WARNING, AlreadyTerminated n)]) s))
        as (-> & -> & -> & -> & -> & -> & -> & -> & -> & lg & -> & Hlg).
      split_and!; try done.
      eexists. split; [cbn; rewrite <-app_assoc; reflexivity|].
      rewrite scheduled_app, Hlg. done.
Qed.

Lemma failed_loop_eval (p : Provider) (ntn : NonTerminatedNodes)
    (failed : list NodeID) (s : Scaler) :
  provider s = Some p ->
  non_terminated s = Some ntn ->
  for_each failed (fun node_id =>
    (ntn <- lift the_non_terminated_nodes ;;
     if bool_decide (node_id ∈ worker_ids ntn) then
       schedule_node_termination node_id (Some "launch failed") ERROR
     else log WARNING (AlreadyTerminated node_id))%py) s =
  (failed_state p (worker_ids ntn) failed s, Ok tt).
Proof.
  revert s. induction failed as [|n l IH]; intros s Hp Hntn; [reflexivity|].
  cbn [for_each]. rewrite failed_state_cons.
  unfold bind at 1. unfold bind at 1.
  unfold lift at 1, the_non_terminated_nodes at 1. rewrite Hntn.
  cbn [attribute]. case_bool_decide.
  - rewrite (schedule_node_termination_eval s p) by done. by apply IH.
  - unfold log at 1, modify at 1. by apply IH.
Qed.

Lemma terminated_state_fields (p : Provider) (ntn : NonTerminatedNodes)
    (s : Scaler) :
  let s' := terminated_state p ntn s in
  load_metrics s' = load_metrics s /\ updaters s' = updaters s /\
  num_failed_updates s' = num_failed_updates s /\
  num_successful_updates s' = num_successful_updates s /\
  logger s' = logger s /\
  tracked (node_tracker s') =
    filter (fun e => e.1 ∉ nodes_to_terminate s) (tracked (node_tracker s)).
Proof.
  unfold terminated_state.
  destruct (nodes_to_terminate s) as [|n0 rest] eqn:Hnodes.
  - split_and!; try done.
    induction (tracked (node_tracker s)) as [|e l IHl]; [done|].
    rewrite filter_cons_True by apply not_elem_of_nil. by rewrite <-IHl.
  - cbn [load_metrics updaters num_failed_updates num_successful_updates
         logger node_tracker set_nodes_to_terminate set_non_terminated].
    by destruct (stopped_all_fields (n0 :: rest)
      (set_provider (Some (provider_terminate_nodes (n0 :: rest) p)) s))
      as (_ & _ & _ & -> & -> & -> & _ & -> & -> & ->).
Qed.

Lemma stopped_all_recoveries (nodes : list NodeID) (s : Scaler) :
  successful_recoveries (prometheus_metrics (stopped_all nodes s)) =
  successful_recoveries (prometheus_metrics s).
Proof.
  revert s. induction nodes as [|n nodes IH]; intros s; [done|].
  change (stopped_all (n :: nodes) s) with
    (stopped_all nodes
       (set_prometheus_metrics (inc_stopped_nodes (prometheus_metrics s))
          (set_node_tracker (untrack n (node_tracker s)) s))).
  by rewrite IH.
Qed.

Lemma process_completed_updates_eval (s : Scaler) (p : Provider)
    (ntn : NonTerminatedNodes) :
  provider s = Some p ->
  non_terminated s = Some ntn ->
  NoDup (OD.keys (updaters s)) ->
  (forall n ref, (n, ref) ∈ updaters s -> is_Some (threads s !! ref)) ->
  process_completed_updates s = (processed_state p ntn s, Ok tt).
Proof.
  intros Hp Hntn Hnd Hvalid. unfold process_completed_updates, processed_state.
  unfold bind at 1. unfold lift at 1.
  rewrite completed_updaters_eval by done.
  destruct (completed_list_spec s Hnd) as [Hcnd Hcin].
  destruct (completed_list s) as [|e cl] eqn:Hcl; [reflexivity|].
  cbn [fmap list_fmap]. change (e.1 :: cl.*1) with ((e :: cl).*1).
  erewrite bind_ok.
  2:{ apply (completed_loop_eval p (e :: cl) s []); [done..|].
      intros n u Hin. by apply Hcin in Hin as [? _]. }
  rewrite app_nil_l. cbv zeta.
  destruct (completed_all_frame p (e :: cl) s) as (Hp1 & Hnt1 & _).
  destruct (failed_among (e :: cl)) as [|f fl] eqn:Hfailed; [reflexivity|].
  erewrite bind_ok.
  2:{ apply (failed_loop_eval p ntn); congruence. }
  destruct (failed_state_fields p (worker_ids ntn) (f :: fl)
              (completed_all p (e :: cl) s)) as (Hp2 & Hnt2 & _).
  apply terminate_scheduled_nodes_eval; congruence.
Qed.
Lemma elem_of_failed_among (l : list (NodeID * NodeUpdaterThread)) (n : NodeID) :
  n ∈ failed_among l <-> exists u, (n, u) ∈ l /\ exitcode u ≠ 0.
Proof.
  unfold failed_among. rewrite list_elem_of_fmap. split.
  - intros ([n' u] & -> & [Hexit Hin]%list_elem_of_filter). eauto.
  - intros (u & Hin & Hexit). exists (n, u). split; [done|].
    by apply list_elem_of_filter.
Qed.

Lemma processed_state_alt (p : Provider) (ntn : NonTerminatedNodes)
    (s : Scaler) :
  processed_state p ntn s =
  match failed_among (completed_list s) with
  | [] => completed_all p (completed_list s) s
  | failed =>
      terminated_state p ntn
        (failed_state p (worker_ids ntn) failed
           (completed_all p (completed_list s) s))
  end.
Proof. unfold processed_state. by destruct (completed_list s). Qed.

(** C6. [process_completed_updates], run on a scaler whose updater map has
    one entry per node id, each naming a thread object: for every updater
    that is no longer alive, the entry is deleted; on exit code zero the
    node's successful updates are counted up and its ip is marked active;
    otherwise the node's failed updates are counted up, the node is
    untracked, and it is scheduled for "launch failed" exactly if it is among
    the workers.  A recovery is counted for each successful updater that was
    started for recovery.  Entries of living updaters stay.  The provider is
    asked to terminate nodes at most once, with a batch that holds every
    scheduled node. *)
Theorem process_completed_updates_outcome
    (s : Scaler) (p : Provider) (ntn : NonTerminatedNodes) :
  provider s = Some p ->
  non_terminated s = Some ntn ->
  NoDup (OD.keys (updaters s)) ->
  (forall n ref, (n, ref) ∈ updaters s -> is_Some (threads s !! ref)) ->
  let s' := (process_completed_updates s).1 in
  (process_completed_updates s).2 = Ok tt /\
  (forall n u,
     updater_of s n = Some u -> is_alive u = false ->
     OD.get n (updaters s') = None /\
     (exitcode u = 0 ->
      num_successful_updates s' !! n
        = Some (default 0 (num_successful_updates s !! n) + 1) /\
      last_heartbeat_time_by_ip (load_metrics s') !! internal_ip p n
        = Some (clock s)) /\
     (exitcode u ≠ 0 ->
      num_failed_updates s' !! n
        = Some (default 0 (num_failed_updates s !! n) + 1) /\
      (n ∉ (tracked (node_tracker s')).*1) /\
      ((n, "launch failed") ∈ scheduled (logged_since s s') <->
       n ∈ worker_ids ntn))) /\
  successful_recoveries (prometheus_metrics s') =
    successful_recoveries (prometheus_metrics s) +
    Z.of_nat (length (filter (fun e => exitcode e.2 = 0 /\
                                       u_for_recovery e.2 = true)
                        (completed_list s))) /\
  (forall n u,
     updater_of s n = Some u -> is_alive u = true ->
     OD.get n (updaters s') = OD.get n (updaters s)) /\
  (exists p',
     provider s' = Some p' /\
     (terminate_calls p' = terminate_calls p /\
      scheduled (logged_since s s') = [] \/
      exists batch,
        terminate_calls p' = terminate_calls p ++ [batch] /\
        forall n r, (n, r) ∈ scheduled (logged_since s s') -> n ∈ batch)).
Proof.
  intros Hp Hntn Hnd Hvalid s'. subst s'.
  rewrite (process_completed_updates_eval s p ntn) by done. cbn [fst snd].
  split; [done|].
  destruct (completed_list_spec s Hnd) as [Hcnd Hcin].
  set (cl := completed_list s) in *.
  set (s1 := completed_all p cl s).
  destruct (completed_all_frame p cl s)
    as (Hp1 & Hnt1 & Hth1 & Hck1 & Hlog1 & Hntt1).
  fold s1 in Hp1, Hnt1, Hth1, Hck1, Hlog1, Hntt1.
  assert (Hup1 : forall n,
    OD.get n (updaters s1) = if decide (n ∈ cl.*1) then None
                             else OD.get n (updaters s)).
  { intros n. by apply completed_all_updaters. }
  assert (Hdead : forall n u,
    updater_of s n = Some u -> is_alive u = false -> n ∈ cl.*1).
  { intros n u Hu Ha. apply (list_elem_of_fmap_2' fst _ (n, u)); [|done].
    by apply Hcin. }
  assert (Halive : forall n u,
    updater_of s n = Some u -> is_alive u = true -> n ∉ cl.*1).
  { intros n u Hu Ha Hin. apply list_elem_of_fmap in Hin as ([n' u'] & -> & Hin).
    apply Hcin in Hin as [Hu' Ha']. cbn in Hu. congruence. }
  (* the state is [s1], to which the loop over the failed nodes and the
     termination add nothing that the conclusion reads differently *)
  assert (Hfinal : exists lg,
    updaters (processed_state p ntn s) = updaters s1 /\
    num_successful_updates (processed_state p ntn s)
      = num_successful_updates s1 /\
    num_failed_updates (processed_state p ntn s) = num_failed_updates s1 /\
    load_metrics (processed_state p ntn s) = load_metrics s1 /\
    successful_recoveries (prometheus_metrics (processed_state p ntn s))
      = successful_recoveries (prometheus_metrics s1) /\
    (forall n, n ∉ (tracked (node_tracker s1)).*1 ->
               n ∉ (tracked (node_tracker (processed_state p ntn s))).*1) /\
    logged_since s (processed_state p ntn s) = lg /\
    scheduled lg = map (fun n => (n, "launch failed"))
                     (filter (fun n => n ∈ worker_ids ntn) (failed_among cl)) /\
    exists p',
      provider (processed_state p ntn s) = Some p' /\
      (terminate_calls p' = terminate_calls p /\ scheduled lg = [] \/
       exists batch,
         terminate_calls p' = terminate_calls p ++ [batch] /\
         forall n r, (n, r) ∈ scheduled lg -> n ∈ batch)).
  { rewrite processed_state_alt. fold cl. fold s1.
    assert (Hnone : failed_among cl = [] ->
      exists lg,
        updaters s1 = updaters s1 /\
        num_successful_updates s1 = num_successful_updates s1 /\
        num_failed_updates s1 = num_failed_updates s1 /\
        load_metrics s1 = load_metrics s1 /\
        successful_recoveries (prometheus_metrics s1)
          = successful_recoveries (prometheus_metrics s1) /\
        (forall n, n ∉ (tracked (node_tracker s1)).*1 ->
                   n ∉ (tracked (node_tracker s1)).*1) /\
        logged_since s s1 = lg /\
        scheduled lg = map (fun n => (n, "launch failed"))
                     (filter (fun n => n ∈ worker_ids ntn) (failed_among cl)) /\
        exists p',
          provider s1 = Some p' /\
          (terminate_calls p' = terminate_calls p /\ scheduled lg = [] \/
           exists batch,
             terminate_calls p' = terminate_calls p ++ [batch] /\
             forall n r, (n, r) ∈ scheduled lg -> n ∈ batch)).
    { intros Hf. exists []. rewrite Hf. split_and!; try done.
      - apply logged_since_app. by rewrite app_nil_r.
      - exists p. split; [congruence|]. by left. }
    destruct (failed_among cl) as [|f fl] eqn:Hfailed.
    { by apply Hnone. }
    clear Hnone.
    set (s2 := failed_state p (worker_ids ntn) (f :: fl) s1).
    destruct (failed_state_fields p (worker_ids ntn) (f :: fl) s1)
      as (Hp2 & Hnt2 & Hlm2 & Hup2 & Hnf2 & Hns2 & Htr2 & Hpm2 & Hntt2
          & lg & Hlg2 & Hsched).
    fold s2 in Hp2, Hnt2, Hlm2, Hup2, Hnf2, Hns2, Htr2, Hpm2, Hntt2, Hlg2.
    destruct (terminated_state_fields p ntn s2)
      as (Hlm3 & Hup3 & Hnf3 & Hns3 & Hlog3 & Htr3).
    exists lg. split_and!.
    - congruence.
    - congruence.
    - congruence.
    - congruence.
    - rewrite <-Hpm2. unfold terminated_state.
      destruct (nodes_to_terminate s2); [done|].
      cbn [prometheus_metrics set_nodes_to_terminate set_non_terminated].
      by rewrite stopped_all_recoveries.
    - intros n Hn. rewrite Htr3, Htr2. intros Hin. apply Hn.
      apply list_elem_of_fmap in Hin as (e0 & -> & Hin).
      apply list_elem_of_filter in Hin as [_ Hin].
      by apply list_elem_of_fmap_2.
    - apply logged_since_app. rewrite Hlog3, Hlg2. congruence.
    - done.
    - unfold terminated_state.
      destruct (nodes_to_terminate s2) as [|n0 rest] eqn:Hnodes.
      + exists p. split; [congruence|]. left. split; [done|].
        rewrite Hsched. rewrite Hntt1 in Hntt2.
        symmetry in Hntt2. apply app_eq_nil in Hntt2 as [_ ->]. done.
      + cbn [provider set_nodes_to_terminate set_non_terminated].
        destruct (stopped_all_fields (n0 :: rest)
          (set_provider (Some (provider_terminate_nodes (n0 :: rest) p)) s2))
          as (-> & _).
        cbn [provider set_provider]. eexists. split; [reflexivity|].
        right. eexists. split; [reflexivity|].
        intros n r. rewrite Hsched, Hntt2.
        intros Hin. apply list_elem_of_fmap in Hin as (n' & [= -> ->] & Hin).
        apply elem_of_app. by right. }
  destruct Hfinal as (lg & Hup & Hns & Hnf & Hlm & Hrec & Htr & Hlg & Hsched
                      & Hprov).
  rewrite Hup, Hns, Hnf, Hlm, Hrec, Hlg.
  split_and!.
  - intros n u Hu Ha.
    assert (Hin : (n, u) ∈ cl) by (by apply Hcin).
    destruct (completed_all_counts p cl s n Hcnd) as (Hcs & Hcf & _).
    fold s1 in Hcs, Hcf.
    split_and!.
    + rewrite Hup1. rewrite decide_True; [done|]. by eapply Hdead.
    + intros Hexit. split; [by eapply Hcs|].
      unfold s1. apply completed_all_marked. right. eauto.
    + intros Hexit. split_and!; [by eapply Hcf | |].
      * apply Htr. unfold s1. apply completed_all_untracked. right. eauto.
      * rewrite Hsched, list_elem_of_fmap. split.
        -- intros (n' & [= ->] & [Hw _]%list_elem_of_filter). done.
        -- intros Hw. exists n. split; [done|].
           apply list_elem_of_filter. split; [done|].
           apply elem_of_failed_among. eauto.
  - unfold s1. apply completed_all_recoveries.
  - intros n u Hu Ha. rewrite Hup1. rewrite decide_False; [done|].
    by eapply Halive.
  - exact Hprov.
Qed.
(** ** Updater threads *)

Section Updaters.
Context `{Collaborators}.

Lemma can_update_frame (node_id : NodeID) :
  always (unchanged updater_view) (can_update node_id).
Proof. unfold can_update. repeat always_step; reflexivity. Qed.

Lemma can_update_true (node_id : NodeID) (s : Scaler) :
  (can_update node_id s).2 = Ok true ->
  OD.mem node_id (updaters s) = false.
Proof.
  unfold can_update. unfold bind at 1. unfold gets at 1.
  destruct (disable_node_updaters s); [done|].
  unfold bind at 1. unfold gets at 1.
  by destruct (OD.mem node_id (updaters s)).
Qed.

Lemma can_update_running (node_id : NodeID) (s : Scaler) :
  OD.mem node_id (updaters s) = true ->
  can_update node_id s = (s, Ok false).
Proof.
  intros Hmem. unfold can_update. unfold bind at 1. unfold gets at 1.
  destruct (disable_node_updaters s); [done|].
  unfold bind at 1. unfold gets at 1. by rewrite Hmem.
Qed.

Lemma files_up_to_date_frame (node_id : NodeID) :
  always (unchanged updater_view) (files_up_to_date node_id).
Proof. unfold files_up_to_date. repeat always_step; reflexivity. Qed.

Lemma should_update_frame (node_id : NodeID) :
  always (unchanged updater_view) (should_update node_id).
Proof.
  unfold should_update.
  apply always_bind; [apply _ | apply can_update_frame | intros able].
  destruct (negb able); [always_step|].
  apply always_bind; [apply _ | always_step | intros p].
  apply always_bind; [apply _ | | intros current].
  { destruct (bool_decide _); [apply files_up_to_date_frame | always_step]. }
  repeat always_step; reflexivity.
Qed.

Lemma should_update_some (node_id : NodeID) (s : Scaler)
    (ui : UpdateInstructions) :
  (should_update node_id s).2 = Ok (Some ui) ->
  ui_node_id ui = node_id /\ OD.mem node_id (updaters s) = false.
Proof.
  unfold should_update. unfold bind at 1.
  pose proof (can_update_true node_id s) as Htrue.
  destruct (can_update node_id s) as [s1 [[]|e]]; cbn [negb]; try done.
  specialize (Htrue eq_refl).
  unfold bind at 1. unfold lift at 1.
  destruct (the_provider s1) as [p|]; [|done].
  unfold bind at 1.
  destruct ((if bool_decide _ then files_up_to_date node_id else ret false) s1)
    as [s2 [[]|e]]; try done.
  unfold bind at 1. unfold lift at 1.
  destruct (the_config s2) as [cfg|]; [|done].
  unfold bind at 1. unfold gets at 1.
  unfold bind at 1. unfold lift at 1.
  destruct (if _ && _ then _ else _) as [commands|]; [|done].
  unfold bind at 1. unfold lift at 1.
  destruct (_get_node_specific_docker_config s2 node_id); [|done].
  cbn. intros [= <-]. done.
Qed.

Lemma starts_frame {A} (node_id : NodeID) (m : Py A) :
  always (unchanged updater_view) m -> starts_at_most node_id m.
Proof. intros Hm s. left. apply Hm. Qed.

Lemma starts_bind {A B} (node_id : NodeID) (Q : A -> Prop) (m : Py A)
    (k : A -> Py B) :
  always (unchanged updater_view) m ->
  (forall s a, (m s).2 = Ok a -> Q a) ->
  (forall a, Q a -> starts_at_most node_id (k a)) ->
  starts_at_most node_id (bind m k).
Proof.
  intros Hm Hq Hk s. unfold bind.
  specialize (Hm s). specialize (Hq s).
  destruct (m s) as [s1 [a|e]]; cbn [fst snd] in *.
  - unfold unchanged in Hm. rewrite <-Hm. apply Hk. by apply Hq.
  - by left.
Qed.

Lemma starts_bind_any {A B} (node_id : NodeID) (m : Py A) (k : A -> Py B) :
  always (unchanged updater_view) m ->
  (forall a, starts_at_most node_id (k a)) ->
  starts_at_most node_id (bind m k).
Proof.
  intros Hm Hk. apply (starts_bind node_id (fun _ => True)); auto.
Qed.

Lemma starts_start_updater (node_id : NodeID) (u : NodeUpdaterThread) :
  u_node_id u = node_id -> is_alive u = true ->
  starts_at_most node_id (start_updater node_id u).
Proof. intros Hn Ha s. right. by exists u. Qed.

Lemma starts_try_except {A} (node_id : NodeID) (m : Py A) (h : exn -> Py A) :
  starts_at_most node_id m ->
  (forall e, always (unchanged updater_view) (h e)) ->
  starts_at_most node_id (try_except m h).
Proof.
  intros Hm Hh s. unfold try_except. specialize (Hm s).
  destruct (m s) as [s1 [a|e]]; cbn [fst] in *; [done|].
  specialize (Hh e s1). unfold unchanged in Hh. by rewrite Hh.
Qed.

(** Takes a chain of fallible reads apart. *)
Ltac rbind_cases :=
  repeat match goal with
  | |- context [rbind ?x _] => destruct x; cbn [rbind]; try discriminate
  end.

Lemma spawn_updater_starts (node_id : NodeID)
    (setup_commands start_commands : list string)
    (node_resources : ResourceDict) (docker_config : Blob) :
  starts_at_most node_id
    (spawn_updater node_id setup_commands start_commands node_resources
       docker_config).
Proof.
  unfold spawn_updater.
  do 7 (apply starts_bind_any; [repeat always_step; reflexivity | intros ?]).
  eapply (starts_bind node_id
            (fun u => u_node_id u = node_id /\ is_alive u = true)).
  - repeat always_step; reflexivity.
  - intros s u. unfold lift. cbn [snd]. rbind_cases.
    by intros [= <-].
  - intros u [Hn Ha]. by apply starts_start_updater.
Qed.

Lemma run_update_thread_starts (t : UpdateInstructions * ResourceDict) :
  starts_at_most (ui_node_id t.1) (run_update_thread t).
Proof.
  unfold run_update_thread. apply starts_try_except.
  - apply spawn_updater_starts.
  - intros e. always_step.
Qed.

Lemma recover_if_needed_starts (node_id : NodeID) (now : Z) (s s' : Scaler)
    (r : result unit) :
  recover_if_needed node_id now s = (s', r) ->
  updater_view s' = updater_view s \/
  OD.mem node_id (updaters s) = false /\
  started (updater_view s) (updater_view s') node_id.
Proof.
  unfold recover_if_needed. unfold bind at 1.
  pose proof (can_update_true node_id s) as Htrue.
  pose proof (can_update_frame node_id s) as Hframe.
  destruct (can_update node_id s) as [s1 [[]|e]]; cbn [negb fst snd] in *;
    [|intros [= <- <-]; by left..].
  specialize (Htrue eq_refl). unfold unchanged in Hframe. rewrite <-Hframe.
  match goal with |- ?m s1 = _ -> _ =>
    assert (Hrest : starts_at_most node_id m)
  end.
  { apply starts_bind_any; [repeat always_step; reflexivity | intros on_time].
    destruct on_time; [apply starts_frame; always_step|].
    do 7 (apply starts_bind_any; [repeat always_step; reflexivity | intros ?]).
    eapply (starts_bind node_id
              (fun u => u_node_id u = node_id /\ is_alive u = true)).
    - repeat always_step; reflexivity.
    - intros s0 u. unfold lift. cbn [snd]. rbind_cases.
      by intros [= <-].
    - intros u [Hn Ha]. by apply starts_start_updater. }
  intros Hrun. specialize (Hrest s1). rewrite Hrun in Hrest. cbn [fst] in Hrest.
  destruct Hrest as [?|?]; [by left | by right].
Qed.

Lemma consistent_same_view (s s' : Scaler) :
  updater_view s' = updater_view s ->
  updaters_consistent s -> updaters_consistent s'.
Proof.
  unfold updater_view. intros [= Hu Ht] [Hnd Hentry Hliving].
  split; rewrite ?Hu, ?Ht; done.
Qed.

Lemma consistent_started (s s' : Scaler) (node_id : NodeID) :
  OD.mem node_id (updaters s) = false ->
  started (updater_view s) (updater_view s') node_id ->
  updaters_consistent s -> updaters_consistent s'.
Proof.
  intros Hfree (u & Hn & Ha & Ht & Hu) [Hnd Hentry Hliving].
  cbn [updater_view fst snd] in Ht, Hu.
  apply OD_mem_get in Hfree.
  assert (Hnin : node_id ∉ OD.keys (updaters s)) by (by apply OD_get_None).
  split; rewrite ?Hu, ?Ht.
  - rewrite OD_keys_set, decide_False by done.
    apply NoDup_app. split_and!; [done | | apply NoDup_singleton].
    intros x Hx ->%list_elem_of_singleton. done.
  - intros n ref. rewrite OD_get_set. destruct (decide (n = node_id)) as [->|Hne].
    + intros [= <-]. exists u. split; [|done].
      by rewrite lookup_app_r, Nat.sub_diag by lia.
    + intros Hget. destruct (Hentry n ref Hget) as (u' & Hu' & Hn').
      exists u'. split; [|done]. by apply lookup_app_l_Some.
  - intros ref u' Hlook Halive. rewrite OD_get_set.
    apply lookup_app_Some in Hlook as [Hold|[Hge Hnew]].
    + specialize (Hliving ref u' Hold Halive).
      rewrite decide_False; [done|]. intros Heq. rewrite Heq in Hliving.
      congruence.
    + apply list_lookup_singleton_Some in Hnew as [Hz <-].
      rewrite Hn, decide_True by done. f_equal. lia.
Qed.

Lemma consistent_starts_at_most {A} (node_id : NodeID) (m : Py A)
    (s : Scaler) :
  starts_at_most node_id m ->
  OD.mem node_id (updaters s) = false ->
  updaters_consistent s -> updaters_consistent (m s).1.
Proof.
  intros Hm Hfree Hinv. destruct (Hm s) as [Hsame|Hstart].
  - by eapply consistent_same_view.
  - by eapply consistent_started.
Qed.

Lemma consistent_thread_exit (s : Scaler) (ref : nat) (code : Z)
    (duration : option Z) :
  updaters_consistent s ->
  updaters_consistent (thread_exit ref code duration s).
Proof.
  intros [Hnd Hentry Hliving]. unfold thread_exit.
  split; cbn [updaters threads set_threads].
  - done.
  - intros n r Hget. destruct (Hentry n r Hget) as (u & Hu & Hn).
    destruct (decide (r = ref)) as [->|Hne].
    + eexists. split; [by rewrite list_lookup_alter_eq, Hu|]. done.
    + exists u. split; [|done]. by rewrite list_lookup_alter_ne.
  - intros r u Hlook Halive. destruct (decide (r = ref)) as [->|Hne].
    + rewrite list_lookup_alter_eq in Hlook.
      destruct (threads s !! ref); [|done].
      injection Hlook as <-. done.
    + rewrite list_lookup_alter_ne in Hlook by done. by apply Hliving.
Qed.

Lemma consistent_attempt_to_recover (now : Z) (s : Scaler) :
  updaters_consistent s ->
  updaters_consistent (attempt_to_recover_unhealthy_nodes now s).1.
Proof.
  unfold attempt_to_recover_unhealthy_nodes. unfold bind, lift.
  destruct (the_non_terminated_nodes s) as [ntn|]; [|done].
  generalize (worker_ids ntn) as workers. intros workers. revert s.
  induction workers as [|w workers IH]; intros s Hinv; [done|].
  cbn [for_each]. unfold bind.
  destruct (recover_if_needed w now s) as [s1 [[]|e]] eqn:Hrun;
    apply recover_if_needed_starts in Hrun as [Hsame|[Hfree Hstart]];
    cbn [fst].
  - apply IH. by eapply consistent_same_view.
  - apply IH. by eapply consistent_started.
  - by eapply consistent_same_view.
  - by eapply consistent_started.
Qed.

Lemma update_threads_body (T : list (UpdateInstructions * ResourceDict))
    (worker : NodeID) (s s1 : Scaler)
    (r : result (list (UpdateInstructions * ResourceDict))) :
  (instructions <- should_update worker ;;
   match instructions with
   | None => ret T
   | Some ui =>
       resources <- lift (fun s => _node_resources s (ui_node_id ui)) ;;
       log DEBUG (StartingThreadRunner (ui_node_id ui)) ;;;
       ret (T ++ [(ui, resources)])
   end)%py s = (s1, r) ->
  updater_view s1 = updater_view s /\
  forall T', r = Ok T' ->
    T' = T \/
    exists t, T' = T ++ [t] /\ ui_node_id t.1 = worker /\
              OD.mem worker (updaters s) = false.
Proof.
  intros Hrun. split.
  - match type of Hrun with ?m s = _ =>
      assert (Hframe : always (unchanged updater_view) m)
    end.
    { apply always_bind; [apply _ | apply should_update_frame | intros ?].
      repeat always_step; reflexivity. }
    specialize (Hframe s). by rewrite Hrun in Hframe.
  - revert Hrun. unfold bind at 1.
    pose proof (should_update_some worker s) as Hsome.
    destruct (should_update worker s) as [s0 [[ui|]|e]]; cbn [snd] in Hsome.
    + destruct (Hsome ui eq_refl) as [Hn Hfree].
      unfold bind at 1. unfold lift at 1.
      destruct (_node_resources s0 (ui_node_id ui)) as [res|];
        [|intros [= <- <-]; done].
      cbn. intros [= <- <-] T' [= <-]. right. by exists (ui, res).
    + intros [= <- <-] T' [= <-]. by left.
    + intros [= <- <-]. done.
Qed.

Lemma update_threads_loop (workers : list NodeID)
    (T : list (UpdateInstructions * ResourceDict)) (s s1 : Scaler)
    (r : result (list (UpdateInstructions * ResourceDict))) :
  for_fold workers T
    (fun T worker =>
       instructions <- should_update worker ;;
       match instructions with
       | None => ret T
       | Some ui =>
           resources <- lift (fun s => _node_resources s (ui_node_id ui)) ;;
           log DEBUG (StartingThreadRunner (ui_node_id ui)) ;;;
           ret (T ++ [(ui, resources)])
       end)%py s = (s1, r) ->
  updater_view s1 = updater_view s /\
  forall T', r = Ok T' ->
    exists new,
      T' = T ++ new /\
      (fun t => ui_node_id t.1) <$> new `sublist_of` workers /\
      Forall (fun t => OD.mem (ui_node_id t.1) (updaters s) = false) new.
Proof.
  revert T s. induction workers as [|w workers IH]; intros T s.
  - cbn. intros [= <- <-]. split; [done|]. intros T' [= <-].
    exists []. by rewrite app_nil_r.
  - cbn [for_fold]. unfold bind at 1.
    match goal with |- context [?body s] =>
      destruct (body s) as [s0 [T0|e]] eqn:Hbody
    end; apply update_threads_body in Hbody as [Hview0 Hval0].
    + intros Hrest. apply IH in Hrest as [Hview1 Hval1].
      split; [congruence|]. intros T' ->.
      destruct (Hval1 T' eq_refl) as (new & -> & Hsub & Hfree).
      assert (Hfree' : Forall (fun t => OD.mem (ui_node_id t.1) (updaters s)
                                        = false) new).
      { eapply Forall_impl; [exact Hfree|]. intros t Ht. cbn in Ht.
        injection Hview0 as Hu _. by rewrite <-Hu. }
      destruct (Hval0 T0 eq_refl) as [->|(t & -> & Hn & Hf)].
      * exists new. split_and!; [done | by apply sublist_cons | done].
      * exists (t :: new). split_and!.
        -- by rewrite <-app_assoc.
        -- cbn [fmap list_fmap]. rewrite Hn. by apply sublist_skip.
        -- constructor; [by rewrite Hn | done].
    + intros [= <- <-]. split; [done|]. intros T' [=].
Qed.

Lemma consistent_update_threads_run
    (T : list (UpdateInstructions * ResourceDict)) (s : Scaler) :
  NoDup ((fun t => ui_node_id t.1) <$> T) ->
  Forall (fun t => OD.mem (ui_node_id t.1) (updaters s) = false) T ->
  updaters_consistent s ->
  updaters_consistent (for_each T run_update_thread s).1.
Proof.
  revert s. induction T as [|t T IH]; intros s Hnd Hfree Hinv; [done|].
  cbn [fmap list_fmap] in Hnd. apply NoDup_cons in Hnd as [Ht Hnd].
  apply Forall_cons in Hfree as [Hfree_t Hfree].
  cbn [for_each]. unfold bind.
  pose proof (run_update_thread_starts t s) as Hstart.
  pose proof (consistent_starts_at_most _ _ s (run_update_thread_starts t)
                Hfree_t Hinv) as Hinv1.
  destruct (run_update_thread t s) as [s1 [[]|e]]; cbn [fst] in *; [|done].
  apply IH; [done| |done].
  destruct Hstart as [Hsame|(u & _ & _ & _ & Hu)].
  - injection Hsame as Hu _. by rewrite Hu.
  - cbn [updater_view fst snd] in Hu. rewrite Hu.
    eapply Forall_impl.
    { apply Forall_and. split; [exact Hfree|].
      apply Forall_forall. intros t' Hin. exact Hin. }
    intros t' [Hmem Hin]. cbn in Hmem, Hin.
    apply OD_mem_get. rewrite OD_get_set. rewrite decide_False.
    + by apply OD_mem_get.
    + intros Heq. apply Ht. rewrite <-Heq.
      by apply (list_elem_of_fmap_2 (fun t => ui_node_id t.1)).
Qed.

Lemma consistent_update_nodes (s : Scaler) (ntn : NonTerminatedNodes) :
  non_terminated s = Some ntn ->
  NoDup (worker_ids ntn) ->
  updaters_consistent s ->
  updaters_consistent (update_nodes s).1.
Proof.
  intros Hntn Hnd Hinv. unfold update_nodes. unfold bind at 1.
  unfold update_threads. unfold bind at 1.
  unfold lift at 1, the_non_terminated_nodes at 1. rewrite Hntn.
  cbn [attribute].
  destruct (for_fold _ _ _ s) as [s1 [T|e]] eqn:Hloop;
    apply update_threads_loop in Hloop as [Hview Hval]; cbn [fst].
  - destruct (Hval T eq_refl) as (new & -> & Hsub & Hfree).
    rewrite app_nil_l.
    apply consistent_update_threads_run.
    + by eapply sublist_NoDup.
    + eapply Forall_impl; [exact Hfree|]. intros t Ht. cbn in Ht.
      injection Hview as Hu _. by rewrite Hu.
    + by eapply consistent_same_view.
  - by eapply consistent_same_view.
Qed.

Lemma failed_state_threads (p : Provider) (workers failed : list NodeID)
    (s : Scaler) :
  threads (failed_state p workers failed s) = threads s.
Proof.
  revert s. induction failed as [|n l IH]; intros s; [done|].
  rewrite failed_state_cons, IH. by case_bool_decide.
Qed.

Lemma terminated_state_threads (p : Provider) (ntn : NonTerminatedNodes)
    (s : Scaler) :
  threads (terminated_state p ntn s) = threads s.
Proof.
  unfold terminated_state. destruct (nodes_to_terminate s) as [|n0 rest]; [done|].
  cbn [threads set_nodes_to_terminate set_non_terminated].
  by destruct (stopped_all_fields (n0 :: rest)
    (set_provider (Some (provider_terminate_nodes (n0 :: rest) p)) s))
    as (_ & _ & _ & _ & _ & _ & -> & _).
Qed.

Lemma processed_state_view (p : Provider) (ntn : NonTerminatedNodes)
    (s : Scaler) :
  updater_view (processed_state p ntn s) =
  (updaters (completed_all p (completed_list s) s), threads s).
Proof.
  rewrite processed_state_alt. unfold updater_view.
  destruct (completed_all_frame p (completed_list s) s)
    as (_ & _ & Hth & _).
  destruct (failed_among (completed_list s)) as [|f fl]; [by rewrite Hth|].
  rewrite terminated_state_threads, failed_state_threads, Hth.
  f_equal.
  destruct (terminated_state_fields p ntn
              (failed_state p (worker_ids ntn) (f :: fl)
                 (completed_all p (completed_list s) s)))
    as (_ & -> & _).
  by destruct (failed_state_fields p (worker_ids ntn) (f :: fl)
                 (completed_all p (completed_list s) s))
    as (_ & _ & _ & -> & _).
Qed.

Lemma consistent_valid_refs (s : Scaler) :
  updaters_consistent s ->
  forall n ref, (n, ref) ∈ updaters s -> is_Some (threads s !! ref).
Proof.
  intros [Hnd Hentry _] n ref Hin.
  apply OD_elem_of_get in Hin; [|done].
  destruct (Hentry n ref Hin) as (u & -> & _). eauto.
Qed.

(** [process_completed_updates] removes the entries whose thread has ended
    and no other. *)
Lemma process_completed_updates_removes (s : Scaler) (p : Provider)
    (ntn : NonTerminatedNodes) :
  provider s = Some p ->
  non_terminated s = Some ntn ->
  updaters_consistent s ->
  let s' := (process_completed_updates s).1 in
  threads s' = threads s /\
  NoDup (OD.keys (updaters s')) /\
  forall n,
    OD.get n (updaters s') =
    match updater_of s n with
    | Some u => if is_alive u then OD.get n (updaters s) else None
    | None => OD.get n (updaters s)
    end.
Proof.
  intros Hp Hntn Hinv s'. subst s'.
  pose proof (consistent_valid_refs s Hinv) as Hvalid.
  destruct Hinv as [Hnd Hentry Hliving].
  rewrite (process_completed_updates_eval s p ntn) by done. cbn [fst].
  pose proof (processed_state_view p ntn s) as Hview.
  injection Hview as Hu Ht. rewrite Hu, Ht.
  destruct (completed_list_spec s Hnd) as [Hcnd Hcin].
  split; [done|]. split.
  { by apply (completed_all_updaters p (completed_list s) s EmptyString). }
  intros n.
  destruct (completed_all_updaters p (completed_list s) s n Hnd) as [_ ->].
  destruct (updater_of s n) as [u|] eqn:Hupd.
  - destruct (is_alive u) eqn:Halive.
    + rewrite decide_False; [done|]. intros Hin.
      apply list_elem_of_fmap in Hin as ([n' u'] & -> & Hin).
      apply Hcin in Hin as [Hu' Ha']. cbn in Hupd. congruence.
    + rewrite decide_True; [done|].
      apply (list_elem_of_fmap_2' fst _ (n, u)); [|done]. by apply Hcin.
  - rewrite decide_False; [done|]. intros Hin.
    apply list_elem_of_fmap in Hin as ([n' u'] & -> & Hin).
    apply Hcin in Hin as [Hu' _]. cbn in Hupd. congruence.
Qed.

Lemma consistent_process_completed_updates (s : Scaler) (p : Provider)
    (ntn : NonTerminatedNodes) :
  provider s = Some p ->
  non_terminated s = Some ntn ->
  updaters_consistent s ->
  updaters_consistent (process_completed_updates s).1.
Proof.
  intros Hp Hntn Hinv.
  destruct (process_completed_updates_removes s p ntn Hp Hntn Hinv)
    as (Ht & Hnd' & Hget).
  destruct Hinv as [Hnd Hentry Hliving].
  split; [done| |].
  - intros n ref. rewrite Hget, Ht. intros Hsome. apply Hentry.
    destruct (updater_of s n) as [u|]; [|done].
    by destruct (is_alive u).
  - intros ref u. rewrite Ht. intros Hlook Halive.
    specialize (Hliving ref u Hlook Halive).
    rewrite Hget. unfold updater_of. rewrite Hliving. cbn.
    by rewrite Hlook, Halive.
Qed.

Lemma consistent_step (s s' : Scaler) :
  scaler_step s s' -> updaters_consistent s -> updaters_consistent s'.
Proof.
  intros Hstep Hinv. destruct Hstep.
  - by apply consistent_thread_exit.
  - by eapply consistent_process_completed_updates.
  - by eapply consistent_update_nodes.
  - by apply consistent_attempt_to_recover.
  - eapply consistent_same_view; [|done]. unfold updater_view. congruence.
Qed.

Lemma consistent_one_updater (s : Scaler) :
  updaters_consistent s -> one_updater_per_node s.
Proof.
  intros [_ _ Hliving] ref1 ref2 u1 u2 H1 H2 Ha1 Ha2 Hn.
  pose proof (Hliving ref1 u1 H1 Ha1) as Hg1.
  pose proof (Hliving ref2 u2 H2 Ha2) as Hg2.
  rewrite Hn in Hg1. congruence.
Qed.

Lemma consistent_steps (s0 s : Scaler) :
  rtc scaler_step s0 s -> updaters_consistent s0 -> updaters_consistent s.
Proof.
  induction 1 as [|s0 s1 s2 Hstep _ IH]; [done|].
  intros Hinv. apply IH. by eapply consistent_step.
Qed.

(** C4. Started with no updaters, a scaler has at most one living updater
    thread per node id whatever steps it has taken.  The parts: [can_update]
    returns [False] for a node that has an entry in [self.updaters];
    [recover_if_needed] and each thread of [update_nodes] leave the map and
    the threads alone or start one thread for their node and store it under
    the node's id, and [recover_if_needed] starts one only for a node
    without an entry, as [update_nodes] selects only such nodes;
    [process_completed_updates] removes an entry exactly if its thread is
    no longer alive. *)
Theorem at_most_one_updater_per_node (s0 s : Scaler) :
  updaters s0 = [] ->
  threads s0 = [] ->
  rtc scaler_step s0 s ->
  one_updater_per_node s /\
  (forall node_id,
     OD.mem node_id (updaters s) = true ->
     can_update node_id s = (s, Ok false)) /\
  (forall node_id now,
     let s' := (recover_if_needed node_id now s).1 in
     updater_view s' = updater_view s \/
     OD.mem node_id (updaters s) = false /\
     started (updater_view s) (updater_view s') node_id) /\
  (forall t,
     starts_at_most (ui_node_id t.1) (run_update_thread t) /\
     forall T, (update_threads s).2 = Ok T -> t ∈ T ->
               OD.mem (ui_node_id t.1) (updaters s) = false) /\
  (forall p ntn node_id,
     provider s = Some p -> non_terminated s = Some ntn ->
     let s' := (process_completed_updates s).1 in
     OD.get node_id (updaters s') =
     match updater_of s node_id with
     | Some u => if is_alive u then OD.get node_id (updaters s) else None
     | None => OD.get node_id (updaters s)
     end).
Proof.
  intros Hu0 Ht0 Hsteps.
  assert (Hinv : updaters_consistent s).
  { apply (consistent_steps s0); [done|].
    split; rewrite ?Hu0, ?Ht0.
    - constructor.
    - intros n ref [=].
    - intros ref u [=]. }
  split_and!.
  - by apply consistent_one_updater.
  - intros node_id. apply can_update_running.
  - intros node_id now s'. subst s'.
    destruct (recover_if_needed node_id now s) as [s' r] eqn:Hrun.
    by eapply recover_if_needed_starts.
  - intros t. split; [apply run_update_thread_starts|].
    intros T HT Hin. unfold update_threads in HT. revert HT.
    unfold bind, lift. destruct (the_non_terminated_nodes s) as [ntn|];
      [|done].
    destruct (for_fold _ _ _ s) as [s1 r] eqn:Hloop.
    apply update_threads_loop in Hloop as [_ Hval]. cbn [snd].
    intros ->. destruct (Hval T eq_refl) as (new & -> & _ & Hfree).
    rewrite app_nil_l in Hin. rewrite Forall_forall in Hfree.
    by apply Hfree.
  - intros p ntn node_id Hp Hntn s'. subst s'.
    by destruct (process_completed_updates_removes s p ntn Hp Hntn Hinv)
      as (_ & _ & ->).
Qed.
End Updaters.
(** ** [NonTerminatedNodes] *)

(** C8, where the code departs from it.  If the provider lists a node whose
    tags lack the kind tag, constructing [NonTerminatedNodes] raises
    [KeyError] for that tag: the node is not skipped and no other node is
    classified. *)
Theorem non_terminated_nodes_requires_kind_tag (p : Provider) (node : NodeID) :
  node ∈ non_terminated_nodes p ->
  node_tags p node !! CLOUDTIK_TAG_NODE_KIND = None ->
  NonTerminatedNodes_init p = Raise (KeyError CLOUDTIK_TAG_NODE_KIND).
Proof.
  unfold NonTerminatedNodes_init.
  generalize {| all_node_ids := non_terminated_nodes p;
                worker_ids := []; head_id := None |} as self.
  induction (non_terminated_nodes p) as [|x l IH]; intros self Hin Hkind.
  - by apply elem_of_nil in Hin.
  - cbn [rfor_fold].
    destruct (node_tags p x !! CLOUDTIK_TAG_NODE_KIND) as [kind|] eqn:Hx;
      [|reflexivity].
    cbn [subscript rbind].
    apply elem_of_cons in Hin as [->|Hin]; [congruence|].
    repeat case_bool_decide; cbn [rbind]; by apply IH.
Qed.

(** The node that breaks the construction is one that [summary] passes
    over. *)
Lemma summary_skips_untagged_node :
  let p := Sample.cloud [("head", Sample.head_tags);
                         ("w1", Sample.worker_tags STATUS_UP_TO_DATE);
                         ("new", ∅)] in
  let s := set_non_terminated
             (Some {| all_node_ids := ["head"; "w1"; "new"];
                      worker_ids := ["w1"];
                      head_id := Some "head" |})
             (Sample.scaler Sample.valid_config p ["w1"]
                (Sample.idle_metrics [("ip-w1", 990)]) 1000) in
  NonTerminatedNodes_init p = Raise (KeyError CLOUDTIK_TAG_NODE_KIND) /\
  summary s = Ok {| active_nodes := [("w", 1)];
                    pending_nodes := [];
                    summary_pending_launches := [];
                    failed_nodes := [] |}.
Proof. split; vm_compute; reflexivity. Qed.

(** A worker that has its kind tag but not yet its node type is not passed
    over either: it is scheduled as outdated. *)
Lemma worker_without_node_type_is_outdated :
  let p := Sample.cloud [("head", Sample.head_tags);
                         ("w1", Sample.worker_tags STATUS_UP_TO_DATE);
                         ("new", {[ CLOUDTIK_TAG_NODE_KIND := NODE_KIND_WORKER ]})] in
  let s := Sample.scaler Sample.valid_config p ["w1"; "new"]
             (Sample.idle_metrics [("ip-w1", 990)]) 1000 in
  rbind (NonTerminatedNodes_init p) (fun ntn => Ok (worker_ids ntn))
    = Ok ["w1"; "new"] /\
  scheduled (logger (@terminate_nodes_to_enforce_config_constraints
                       Sample.collaborators 1000 s).1)
    = [("new", "outdated")].
Proof. split; vm_compute; reflexivity. Qed.
(** * The theorems at work on the sample cluster *)

Lemma reset_validation_failure_keeps_loading_witness :
  let s := Sample.two_workers_scaler Sample.valid_config in
  config s = Some Sample.valid_config /\
  config_eqb Sample.invalid_config Sample.valid_config = false /\
  @validate_config Sample.collaborators Sample.invalid_config
    = Raise (ValueError "auth is a required property") /\
  config (@reset Sample.collaborators (Ok Sample.invalid_config) false s).1
    = Some Sample.invalid_config.
Proof.
  cbv zeta.
  assert (Heqb : config_eqb Sample.invalid_config Sample.valid_config = false)
    by (vm_compute; reflexivity).
  split_and!; [reflexivity | exact Heqb | reflexivity |].
  pose proof (@reset_validation_failure_keeps_loading Sample.collaborators
                (Sample.two_workers_scaler Sample.valid_config)
                Sample.valid_config Sample.invalid_config
                (ValueError "auth is a required property")
                eq_refl Heqb eq_refl) as (_ & _ & _ & Hconfig).
  exact (proj1 Hconfig).
Defined.

Lemma keep_worker_of_node_type_verdict_witness :
  let s := Sample.two_workers_scaler Sample.valid_config in
  let renamed :=
    set_available_node_types
      (Some [("head", Sample.head_type); ("a\b", Sample.worker_type)]) s in
  provider s = Some Sample.two_workers /\
  node_tags Sample.two_workers "w1" !! CLOUDTIK_TAG_USER_NODE_TYPE = Some "w" /\
  0 <= default 0 ((∅ : gmap NodeType Z) !! "w") /\
  (exists verdict reason,
     _keep_worker_of_node_type s "w1" ∅ = Ok (verdict, reason) /\
     (verdict = keep <-> 0 + 1 <= Z.min 1 2)) /\
  _keep_worker_of_node_type renamed "w1" ∅
  = Ok (terminate, Some "not in available_node_types: ['head', 'a\\b']").
Proof.
  cbv zeta. split_and!; [reflexivity | reflexivity | done | |].
  - destruct (keep_worker_of_node_type_verdict
                (Sample.two_workers_scaler Sample.valid_config)
                Sample.two_workers
                [("head", Sample.head_type); ("w", Sample.worker_type)]
                "w1" "w" ∅ eq_refl eq_refl eq_refl)
      as (verdict & reason & Hrun & _ & _ & Hkeep & _); [done|].
    exists verdict, reason. split; [exact Hrun | exact Hkeep].
  - destruct (keep_worker_of_node_type_verdict
                (set_available_node_types
                   (Some [("head", Sample.head_type);
                          ("a\b", Sample.worker_type)])
                   (Sample.two_workers_scaler Sample.valid_config))
                Sample.two_workers
                [("head", Sample.head_type); ("a\b", Sample.worker_type)]
                "w1" "w" ∅ eq_refl eq_refl eq_refl)
      as (verdict & reason & Hrun & Hterminate & Hreason & _); [done|].
    assert (Hverdict : verdict = terminate)
      by (apply Hterminate; left; reflexivity).
    specialize (Hreason Hverdict).
    assert (Habsent : OD.mem "w" [("head", Sample.head_type);
                                  ("a\b", Sample.worker_type)] = false)
      by reflexivity.
    rewrite Habsent in Hreason.
    assert (Htext : "not in available_node_types: " +:+
                    py_str_list (OD.keys [("head", Sample.head_type);
                                          ("a\b", Sample.worker_type)])
                    = "not in available_node_types: ['head', 'a\\b']")
      by (vm_compute; reflexivity).
    rewrite Htext in Hreason. rewrite Hrun, Hverdict, Hreason. reflexivity.
Defined.


Lemma terminate_unhealthy_nodes_by_heartbeat_witness :
  let s := Sample.two_workers_scaler Sample.valid_config in
  provider s = Some Sample.two_workers /\
  0 < @CLOUDTIK_HEARTBEAT_TIMEOUT_S Sample.collaborators /\
  1000 <= clock s /\
  @heartbeat_stale Sample.collaborators s Sample.two_workers 1000 "w2" /\
  ("w2", "lost contact with node")
    ∈ scheduled (logged_since s
        (@terminate_unhealthy_nodes Sample.collaborators 1000 s).1).
Proof.
  cbv zeta.
  assert (Hstale : @heartbeat_stale Sample.collaborators
                     (Sample.two_workers_scaler Sample.valid_config)
                     Sample.two_workers 1000 "w2").
  { exists 400. split; [vm_compute; reflexivity | cbn; lia]. }
  split_and!; [reflexivity | cbn; lia | cbn; lia | exact Hstale |].
  destruct (@terminate_unhealthy_nodes_by_heartbeat Sample.collaborators
              (Sample.two_workers_scaler Sample.valid_config)
              Sample.two_workers
              {| all_node_ids := ["head"; "w1"; "w2"];
                 worker_ids := ["w1"; "w2"];
                 head_id := Some "head" |}
              1000 eq_refl eq_refl) as [_ Hworkers].
  - cbn. lia.
  - cbn. lia.
  - repeat constructor; vm_compute; eauto.
  - destruct (Hworkers "w2") as (_ & Hlost & _).
    + cbn. apply elem_of_cons. right. apply elem_of_cons. by left.
    + apply Hlost; [vm_compute; reflexivity | exact Hstale].
Defined.

Lemma at_most_one_updater_per_node_witness :
  let s0 := Sample.two_workers_scaler Sample.valid_config in
  let s1 := (@attempt_to_recover_unhealthy_nodes Sample.collaborators
               1000 s0).1 in
  updaters s0 = [] /\ threads s0 = [] /\
  rtc (@scaler_step Sample.collaborators) s0 s1 /\
  OD.mem "w2" (updaters s1) = true /\
  one_updater_per_node s1 /\
  @can_update Sample.collaborators "w2" s1 = (s1, Ok false).
Proof.
  cbv zeta.
  assert (Hsteps : rtc (@scaler_step Sample.collaborators)
                     (Sample.two_workers_scaler Sample.valid_config)
                     (@attempt_to_recover_unhealthy_nodes Sample.collaborators
                        1000 (Sample.two_workers_scaler Sample.valid_config)).1).
  { eapply rtc_l; [apply step_attempt_to_recover | apply rtc_refl]. }
  assert (Hmem : OD.mem "w2"
                   (updaters (@attempt_to_recover_unhealthy_nodes
                      Sample.collaborators 1000
                      (Sample.two_workers_scaler Sample.valid_config)).1)
                 = true) by (vm_compute; reflexivity).
  destruct (@at_most_one_updater_per_node Sample.collaborators
              (Sample.two_workers_scaler Sample.valid_config)
              (@attempt_to_recover_unhealthy_nodes Sample.collaborators
                 1000 (Sample.two_workers_scaler Sample.valid_config)).1
              eq_refl eq_refl Hsteps) as (Hone & Hcan & _).
  split_and!; [reflexivity | reflexivity | exact Hsteps | exact Hmem
              | exact Hone | exact (Hcan "w2" Hmem)].
Defined.

Lemma process_completed_updates_outcome_witness :
  let s := thread_exit 0 1 None
             (@attempt_to_recover_unhealthy_nodes Sample.collaborators 1000
                (Sample.two_workers_scaler Sample.valid_config)).1 in
  let s' := (process_completed_updates s).1 in
  provider s = Some Sample.two_workers /\
  NoDup (OD.keys (updaters s)) /\
  (exists u, updater_of s "w2" = Some u /\ is_alive u = false /\
             exitcode u ≠ 0) /\
  OD.get "w2" (updaters s') = None /\
  num_failed_updates s' !! "w2"
    = Some (default 0 (num_failed_updates s !! "w2") + 1) /\
  ("w2", "launch failed") ∈ scheduled (logged_since s s').
Proof.
  cbv zeta.
  set (s := thread_exit 0 1 None
              (@attempt_to_recover_unhealthy_nodes Sample.collaborators 1000
                 (Sample.two_workers_scaler Sample.valid_config)).1).
  assert (Hp : provider s = Some Sample.two_workers)
    by (vm_compute; reflexivity).
  assert (Hntn : non_terminated s =
                 Some {| all_node_ids := ["head"; "w1"; "w2"];
                         worker_ids := ["w1"; "w2"];
                         head_id := Some "head" |})
    by (vm_compute; reflexivity).
  assert (Hkeys : updaters s = [("w2", 0%nat)]) by (vm_compute; reflexivity).
  assert (Hnd : NoDup (OD.keys (updaters s))).
  { rewrite Hkeys. apply NoDup_singleton. }
  assert (Hu : exists u, updater_of s "w2" = Some u /\ is_alive u = false /\
                         exitcode u ≠ 0).
  { eexists. split_and!; [vm_compute; reflexivity | reflexivity | done]. }
  destruct (process_completed_updates_outcome s Sample.two_workers _
              Hp Hntn Hnd) as (_ & Hdead & _).
  { rewrite Hkeys. intros n ref [= -> ->]%list_elem_of_singleton.
    vm_compute. eauto. }
  destruct Hu as (u & Hupd & Halive & Hexit).
  destruct (Hdead "w2" u Hupd Halive) as (Hgone & _ & Hfailed).
  destruct (Hfailed Hexit) as (Hcount & _ & Hsched).
  split_and!; [exact Hp | exact Hnd | by exists u | exact Hgone
              | exact Hcount |].
  apply Hsched. cbn. apply elem_of_cons. right. apply elem_of_cons. by left.
Defined.

Lemma sort_based_on_last_used_stable_witness :
  let s := Sample.two_workers_scaler Sample.valid_config in
  provider s = Some Sample.two_workers /\
  (forall ip t, ({[ "ip-w2" := 400 ]} : gmap NodeIP Z) !! ip = Some t ->
                -1 < t) /\
  exists sorted,
    _sort_based_on_last_used s ["w1"; "w2"] {[ "ip-w2" := 400 ]} = Ok sorted /\
    sorted ≡ₚ ["w1"; "w2"] /\
    exists recent unused,
      sorted = recent ++ unused /\
      Forall (fun node => is_Some (({[ "ip-w2" := 400 ]} : gmap NodeIP Z)
                                     !! internal_ip Sample.two_workers node))
        recent.
Proof.
  cbv zeta.
  assert (Hpos : forall ip t,
            ({[ "ip-w2" := 400 ]} : gmap NodeIP Z) !! ip = Some t -> -1 < t).
  { intros ip t [_ <-]%lookup_singleton_Some. lia. }
  split_and!; [reflexivity | exact Hpos |].
  destruct (sort_based_on_last_used_stable
              (Sample.two_workers_scaler Sample.valid_config)
              Sample.two_workers ["w1"; "w2"] {[ "ip-w2" := 400 ]} eq_refl)
    as (sorted & Hrun & Hperm & _ & Hsplit & _).
  destruct (Hsplit Hpos) as (recent & unused & Heq & Hrecent & _).
  exists sorted. split_and!; [exact Hrun | exact Hperm |].
  exists recent, unused. split; [exact Heq | exact Hrecent].
Defined.

Lemma non_terminated_nodes_requires_kind_tag_witness :
  let p := Sample.cloud [("head", Sample.head_tags);
                         ("w1", Sample.worker_tags STATUS_UP_TO_DATE);
                         ("new", ∅)] in
  "new" ∈ non_terminated_nodes p /\
  node_tags p "new" !! CLOUDTIK_TAG_NODE_KIND = None /\
  NonTerminatedNodes_init p = Raise (KeyError CLOUDTIK_TAG_NODE_KIND).
Proof.
  cbv zeta.
  assert (Hin : "new" ∈ non_terminated_nodes
            (Sample.cloud [("head", Sample.head_tags);
                           ("w1", Sample.worker_tags STATUS_UP_TO_DATE);
                           ("new", ∅)])).
  { cbn. do 2 (apply elem_of_cons; right). apply elem_of_cons. by left. }
  split_and!; [exact Hin | reflexivity |].
  exact (non_terminated_nodes_requires_kind_tag _ "new" Hin eq_refl).
Defined.

Lemma idle_timeout_zero_terminates_past_use_only_witness :
  let s := Sample.two_workers_scaler (Sample.cluster_config 0 (Some ∅)) in
  let s' := (@terminate_nodes_to_enforce_config_constraints
               Sample.collaborators 1000 s).1 in
  config s = Some (Sample.cluster_config 0 (Some ∅)) /\
  ("w2", "idle") ∈ scheduled (logged_since s s') /\
  exists p t,
    provider s = Some p /\
    last_used_time_by_ip (load_metrics s) !! internal_ip p "w2" = Some t /\
    t < 1000.
Proof.
  cbv zeta.
  assert (Hin : ("w2", "idle") ∈ scheduled (logged_since
            (Sample.two_workers_scaler (Sample.cluster_config 0 (Some ∅)))
            (@terminate_nodes_to_enforce_config_constraints
               Sample.collaborators 1000
               (Sample.two_workers_scaler
                  (Sample.cluster_config 0 (Some ∅)))).1)).
  { assert (scheduled (logged_since
              (Sample.two_workers_scaler (Sample.cluster_config 0 (Some ∅)))
              (@terminate_nodes_to_enforce_config_constraints
                 Sample.collaborators 1000
                 (Sample.two_workers_scaler
                    (Sample.cluster_config 0 (Some ∅)))).1)
            = [("w2", "idle")]) as -> by (vm_compute; reflexivity).
    apply elem_of_cons. by left. }
  split_and!; [reflexivity | exact Hin |].
  exact (@idle_timeout_zero_terminates_past_use_only Sample.collaborators
           (Sample.two_workers_scaler (Sample.cluster_config 0 (Some ∅)))
           (Sample.cluster_config 0 (Some ∅)) 1000 "w2" eq_refl eq_refl Hin).
Defined.

Lemma launch_config_check_disabled_witness :
  let provider_config :=
    {| provider_type := Some "fake_multinode";
       provider_disable_node_updaters := None;
       provider_disable_launch_config_check := Some true |} in
  let cfg :=
    {| cfg_cluster_name := Some "sample";
       cfg_provider := Some provider_config;
       cfg_auth := Some ∅;
       cfg_docker := None;
       cfg_available_node_types := Some [("head", Sample.head_type)];
       cfg_head_node_type := Some "head";
       cfg_max_workers := Some 2;
       cfg_idle_timeout_minutes := Some 5;
       cfg_upscaling_speed := None;
       cfg_file_mounts := Some [];
       cfg_cluster_synced_files := Some [];
       cfg_file_mounts_sync_continuously := None;
       cfg_worker_setup_commands := Some [];
       cfg_worker_start_commands := Some [];
       cfg_initialization_commands := Some [];
       cfg_restart_only := None;
       cfg_no_restart := None |} in
  let s := Sample.scaler cfg Sample.two_workers ["w1"; "w2"]
             (Sample.idle_metrics []) 1000 in
  let s := {| config := config s;
              runtime_hash := runtime_hash s;
              file_mounts_contents_hash := file_mounts_contents_hash s;
              provider := provider s;
              available_node_types := available_node_types s;
              resource_demand_scheduler := resource_demand_scheduler s;
              load_metrics := load_metrics s;
              prometheus_metrics := prometheus_metrics s;
              event_summarizer := event_summarizer s;
              logger := logger s;
              updaters := updaters s;
              num_failed_updates := num_failed_updates s;
              num_successful_updates := num_successful_updates s;
              num_failures := num_failures s;
              max_failures := max_failures s;
              last_update_time := last_update_time s;
              update_interval_s := update_interval_s s;
              non_terminated := non_terminated s;
              nodes_to_terminate := nodes_to_terminate s;
              disable_node_updaters := false;
              disable_launch_config_check := true;
              node_tracker := node_tracker s;
              pending_launches := pending_launches s;
              threads := threads s;
              clock := clock s |} in
  init_switches cfg
    = Ok (disable_node_updaters s, disable_launch_config_check s) /\
  @launch_config_ok Sample.collaborators s "w1" = Ok true /\
  ("w1", "outdated") ∉ scheduled (logged_since s
      (@terminate_nodes_to_enforce_config_constraints Sample.collaborators
         1000 s).1).
Proof.
  intros provider_config cfg s0 s.
  destruct (@launch_config_check_disabled Sample.collaborators cfg
              provider_config s eq_refl eq_refl eq_refl) as (Hok & Hout & _).
  split_and!; [reflexivity | exact (Hok "w1") | exact (Hout 1000 "w1")].
Defined.

(** * Further properties of the scaler *)

Lemma subscript_Ok {A} (key : string) (o : option A) (a : A) :
  subscript key o = Ok a <-> o = Some a.
Proof. destruct o; cbn; split; congruence. Qed.

Lemma attribute_Ok {A} (name : string) (o : option A) (a : A) :
  attribute name o = Ok a <-> o = Some a.
Proof. destruct o; cbn; split; congruence. Qed.

(** Turns successful lookups among the hypotheses into equations. *)
Ltac lookups :=
  repeat match goal with
  | H : subscript _ _ = Ok _ |- _ => apply subscript_Ok in H
  | H : attribute _ _ = Ok _ |- _ => apply attribute_Ok in H
  end.

(** ** [reset]: errors and what a reload leaves behind *)

Section ResetErrors.
Context `{Collaborators}.

(** The part of [reset] inside its [try]. *)
Lemma reset_unfold (config_reader : result Config) (errors_fatal : bool)
    (s : Scaler) :
  reset config_reader errors_fatal s =
  try_except
    (bind (lift (fun _ => config_reader)) (fun new_config =>
       bind (if negb (match config s with
                      | Some c => config_eqb new_config c
                      | None => false
                      end)
             then try_except (lift (fun _ => validate_config new_config))
                    (fun e => bind (metric inc_config_validation_exceptions)
                                (fun _ => log DEBUG (ValidationFailed e)))
             else ret tt)
         (fun _ => bind (reset_assign new_config (sync_continuously_of s))
                     (fun _ => reset_apply new_config))))
    (fun e => bind (metric inc_reset_exceptions) (fun _ =>
       if errors_fatal then raise e else log ERROR (ErrorParsingConfig e)))
    s.
Proof. reflexivity. Qed.

Lemma reset_body_exceptions (new_config : Config) (old : option Config)
    (sync : bool) :
  always (unchanged (fun s => reset_exceptions (prometheus_metrics s)))
    (bind (if negb (match old with
                    | Some c => config_eqb new_config c
                    | None => false
                    end)
           then try_except (lift (fun _ => validate_config new_config))
                  (fun e => bind (metric inc_config_validation_exceptions)
                              (fun _ => log DEBUG (ValidationFailed e)))
           else ret tt)
       (fun _ => bind (reset_assign new_config sync)
                   (fun _ => reset_apply new_config))).
Proof.
  unfold reset_assign, reset_apply. repeat always_step; reflexivity.
Qed.

End ResetErrors.
Section ResetLoaded.
Context `{Collaborators}.

Lemma reset_apply_ok (new_config : Config) (s s' : Scaler) :
  reset_apply new_config s = (s', Ok tt) ->
  exists types max_workers head_node_type,
    cfg_available_node_types new_config = Some types /\
    cfg_max_workers new_config = Some max_workers /\
    cfg_head_node_type new_config = Some head_node_type /\
    available_node_types s' = Some types /\
    resource_demand_scheduler s' =
      Some {| rds_node_types := types;
              rds_max_workers := max_workers;
              rds_head_node_type := head_node_type;
              rds_upscaling_speed := upscaling_speed_of new_config |} /\
    is_Some (provider s').
Proof.
  unfold reset_apply, upscaling_speed_of.
  unfold bind, gets, lift, modify, ret, the_provider.
  intros Hrun.
  repeat (case_match; simplify_eq; cbn in * ); lookups; eauto 10.
Qed.

Lemma reset_assign_ok (new_config : Config) (sync : bool) (s s' : Scaler) :
  reset_assign new_config sync s = (s', Ok tt) ->
  exists runtime contents,
    runtime_hashes new_config sync = Ok (runtime, contents) /\
    s' = set_file_mounts_contents_hash (Some contents)
           (set_runtime_hash (Some runtime)
              (set_config (Some new_config) s)).
Proof.
  unfold reset_assign, bind, lift, modify. intros Hrun.
  destruct (runtime_hashes new_config sync) as [[runtime contents]|e];
    simplify_eq. eauto.
Qed.

(** A reload that got through (no reset exception was counted) leaves the
    scaler on the configuration it read: [self.config] is that document,
    [available_node_types] is its section, the resource demand scheduler
    has its node types, [max_workers], head node type and upscaling speed
    (1.0 if none or zero is configured), and a provider exists.  The
    runtime hashes are those of the new document, but whether the hash of
    the file mount contents is generated is decided by
    [file_mounts_sync_continuously] of the configuration that was in force
    before the reload. *)
Theorem reset_loaded_state (new_config : Config) (errors_fatal : bool)
    (s : Scaler) :
  let s' := (reset (Ok new_config) errors_fatal s).1 in
  reset_exceptions (prometheus_metrics s') =
    reset_exceptions (prometheus_metrics s) ->
  (reset (Ok new_config) errors_fatal s).2 = Ok tt /\
  config s' = Some new_config /\
  (exists runtime contents,
     runtime_hashes new_config (sync_continuously_of s)
       = Ok (runtime, contents) /\
     runtime_hash s' = Some runtime /\
     file_mounts_contents_hash s' = Some contents) /\
  (exists types max_workers head_node_type,
     cfg_available_node_types new_config = Some types /\
     cfg_max_workers new_config = Some max_workers /\
     cfg_head_node_type new_config = Some head_node_type /\
     available_node_types s' = Some types /\
     resource_demand_scheduler s' =
       Some {| rds_node_types := types;
               rds_max_workers := max_workers;
               rds_head_node_type := head_node_type;
               rds_upscaling_speed := upscaling_speed_of new_config |}) /\
  is_Some (provider s').
Proof.
  cbv zeta. rewrite reset_unfold.
  match goal with |- context [try_except ?m _ s] => set (body := m) end.
  assert (Hframe : always (unchanged (fun s =>
            reset_exceptions (prometheus_metrics s))) body).
  { subst body. apply always_bind; [apply _ | by always_step | intros c].
    apply reset_body_exceptions. }
  specialize (Hframe s). unfold unchanged in Hframe.
  unfold try_except. destruct (body s) as [s1 [[]|e]] eqn:Hbody;
    cbn [fst snd] in *.
  - intros _. split; [done|].
    subst body. unfold bind at 1 in Hbody. unfold lift at 1 in Hbody.
    unfold bind at 1 in Hbody.
    match type of Hbody with
    | context [match ?v s with _ => _ end] =>
        destruct (v s) as [s0 [[]|e]] eqn:Hval; [|done]
    end.
    unfold bind at 1 in Hbody.
    destruct (reset_assign _ _ s0) as [s2 [[]|e]] eqn:Hassign; [|done].
    apply reset_assign_ok in Hassign as (runtime & contents & Hh & ->).
    match type of Hbody with reset_apply _ ?s3 = _ =>
      pose proof (reset_apply_frame new_config s3) as Hap end.
    rewrite Hbody in Hap. unfold unchanged in Hap. cbn in Hap.
    injection Hap as Hc Hr Hf _ _.
    apply reset_apply_ok in Hbody
      as (types & mw & hd & ? & ? & ? & ? & ? & ?).
    split_and!; eauto 10.
  - intros Hcount. exfalso. destruct errors_fatal; cbn in Hcount; lia.
Qed.
End ResetLoaded.

Lemma reset_loaded_state_witness :
  let s := Sample.two_workers_scaler Sample.valid_config in
  let new_config := Sample.cluster_config 7 (Some ∅) in
  let s' := (@reset Sample.collaborators (Ok new_config) false s).1 in
  reset_exceptions (prometheus_metrics s') =
    reset_exceptions (prometheus_metrics s) /\
  config s' = Some new_config /\
  is_Some (provider s').
Proof.
  cbv zeta.
  assert (Hcount :
    reset_exceptions (prometheus_metrics
      (@reset Sample.collaborators (Ok (Sample.cluster_config 7 (Some ∅)))
         false (Sample.two_workers_scaler Sample.valid_config)).1) =
    reset_exceptions (prometheus_metrics
      (Sample.two_workers_scaler Sample.valid_config)))
    by (vm_compute; reflexivity).
  split; [exact Hcount|].
  destruct (@reset_loaded_state Sample.collaborators
              (Sample.cluster_config 7 (Some ∅)) false
              (Sample.two_workers_scaler Sample.valid_config) Hcount)
    as (_ & Hconfig & _ & _ & Hprovider).
  split; [exact Hconfig | exact Hprovider].
Defined.

Section ResetProvider.
Context `{Collaborators}.

Lemma reset_apply_provider (new_config : Config) (s : Scaler) (p : Provider) :
  provider s = Some p ->
  provider (reset_apply new_config s).1 =
    Some (if is_local_node_provider p then record_local_head_state p else p).
Proof.
  intros Hp. unfold reset_apply.
  unfold bind, gets, lift, modify, ret, the_provider. rewrite Hp. cbn.
  rewrite Hp. cbn.
  destruct (is_local_node_provider p); cbn;
    repeat (case_match; simplify_eq; cbn in * ); try done.
Qed.

(** The provider is created once.  A [reset] of a scaler that has a
    provider never asks for another one, whatever the new configuration
    says about providers: the scaler keeps the provider object it has (for
    a local provider, with the state of the head node recorded).  Nor does
    [reset] assign the load metrics, the updaters, the counts of updates,
    the node views, the nodes scheduled for termination, the node tracker,
    the pending launches, the two switches or the events. *)
Theorem reset_keeps_provider (config_reader : result Config)
    (errors_fatal : bool) (s : Scaler) (p : Provider) :
  provider s = Some p ->
  let s' := (reset config_reader errors_fatal s).1 in
  (provider s' = Some p \/
   is_local_node_provider p = true /\
   provider s' = Some (record_local_head_state p)) /\
  reset_frame_view s' = reset_frame_view s.
Proof.
  intros Hp. cbv zeta. split.
  2:{ assert (Hf : always (unchanged reset_frame_view)
                     (reset config_reader errors_fatal)).
      { unfold reset, reset_assign, reset_apply.
        repeat always_step; reflexivity. }
      apply Hf. }
  remember (reset config_reader errors_fatal s) as out eqn:Hout.
  rewrite reset_unfold in Hout.
  assert (Hhandler : forall e,
    always (unchanged provider)
      (bind (metric inc_reset_exceptions) (fun _ =>
         if errors_fatal then raise e else log ERROR (ErrorParsingConfig e)))).
  { intros e. repeat always_step; reflexivity. }
  unfold try_except at 1 in Hout. unfold bind at 1 in Hout.
  unfold lift at 1 in Hout.
  destruct config_reader as [new_config|e].
  2:{ left. subst out. rewrite (Hhandler e s). done. }
  unfold bind at 1 in Hout.
  match type of Hout with
  | context [match ?v s with (_, _) => _ end] =>
      assert (Hv : always (unchanged provider) v)
        by (repeat always_step; reflexivity);
      specialize (Hv s); destruct (v s) as [s0 [[]|e]]
  end; unfold unchanged in Hv; cbn [fst] in Hv.
  2:{ left. subst out. rewrite (Hhandler e s0). congruence. }
  unfold bind at 1 in Hout.
  assert (Ha : always (unchanged provider)
                 (reset_assign new_config (sync_continuously_of s)))
    by (unfold reset_assign; repeat always_step; reflexivity).
  specialize (Ha s0).
  destruct (reset_assign _ _ s0) as [s2 [[]|e]];
    unfold unchanged in Ha; cbn [fst] in Ha.
  2:{ left. subst out. rewrite (Hhandler e s2). congruence. }
  assert (Hp2 : provider s2 = Some p) by congruence.
  pose proof (reset_apply_provider new_config s2 p Hp2) as Hap.
  destruct (reset_apply new_config s2) as [s3 [[]|e]]; cbn [fst] in Hap;
    subst out.
  - cbn [fst]. rewrite Hap. destruct (is_local_node_provider p); auto.
  - rewrite (Hhandler e s3), Hap.
    destruct (is_local_node_provider p); auto.
Qed.
End ResetProvider.

Lemma reset_keeps_provider_witness :
  let s := Sample.two_workers_scaler Sample.valid_config in
  provider s = Some Sample.two_workers /\
  provider (@reset Sample.collaborators (Ok Sample.invalid_config) false s).1
    = Some Sample.two_workers.
Proof.
  cbv zeta. split; [reflexivity|].
  destruct (@reset_keeps_provider Sample.collaborators
              (Ok Sample.invalid_config) false
              (Sample.two_workers_scaler Sample.valid_config)
              Sample.two_workers eq_refl) as [[Hp|[Hlocal _]] _].
  - exact Hp.
  - discriminate Hlocal.
Defined.

(** ** The node views *)

Lemma NonTerminatedNodes_init_loop (p : Provider) (l : list NodeID)
    (self : NonTerminatedNodes) :
  Forall (fun node => is_Some (node_tags p node !! CLOUDTIK_TAG_NODE_KIND)) l ->
  rfor_fold l self
    (fun self node =>
       (node_kind <- subscript CLOUDTIK_TAG_NODE_KIND
                       (node_tags p node !! CLOUDTIK_TAG_NODE_KIND) ;;
        if bool_decide (node_kind = NODE_KIND_WORKER) then
          Ok {| all_node_ids := all_node_ids self;
                worker_ids := worker_ids self ++ [node];
                head_id := head_id self |}
        else if bool_decide (node_kind = NODE_KIND_HEAD) then
          Ok {| all_node_ids := all_node_ids self;
                worker_ids := worker_ids self;
                head_id := Some node |}
        else Ok self)%res) =
  Ok {| all_node_ids := all_node_ids self;
        worker_ids := worker_ids self ++ nodes_of_kind p NODE_KIND_WORKER l;
        head_id := match last (nodes_of_kind p NODE_KIND_HEAD l) with
                   | Some h => Some h
                   | None => head_id self
                   end |}.
Proof.
  revert self. induction l as [|x l IH]; intros self Hall.
  - cbn. rewrite app_nil_r. by destruct self.
  - apply Forall_cons in Hall as [[kind Hx] Hall].
    cbn [rfor_fold]. rewrite Hx. cbn [subscript rbind].
    unfold nodes_of_kind in *. rewrite !filter_cons. rewrite Hx.
    destruct (decide (kind = NODE_KIND_WORKER)) as [->|Hw];
      [|destruct (decide (kind = NODE_KIND_HEAD)) as [->|Hh]].
    + rewrite bool_decide_eq_true_2 by done.
      rewrite decide_True by done. rewrite decide_False by done.
      cbn [rbind]. rewrite IH by done. cbn [all_node_ids worker_ids head_id].
      by rewrite <-app_assoc.
    + rewrite bool_decide_eq_false_2 by done.
      rewrite bool_decide_eq_true_2 by done.
      rewrite decide_False by congruence. rewrite decide_True by done.
      cbn [rbind]. rewrite IH by done. cbn [all_node_ids worker_ids head_id].
      rewrite last_cons. by destruct (last _).
    + rewrite !bool_decide_eq_false_2 by done.
      rewrite !decide_False by congruence.
      cbn [rbind]. by rewrite IH.
Qed.

(** When every node that the provider lists carries its kind tag, the node
    views are built: all listed ids; the workers are the listed nodes of kind
    "worker", in the order of the listing; nodes of other kinds, "unmanaged"
    or unknown, are in the full list only; and if several nodes are of kind
    "head", the last one listed is the head. *)
Theorem non_terminated_nodes_views (p : Provider) :
  Forall (fun node => is_Some (node_tags p node !! CLOUDTIK_TAG_NODE_KIND))
    (non_terminated_nodes p) ->
  NonTerminatedNodes_init p =
  Ok {| all_node_ids := non_terminated_nodes p;
        worker_ids :=
          nodes_of_kind p NODE_KIND_WORKER (non_terminated_nodes p);
        head_id := last (nodes_of_kind p NODE_KIND_HEAD (non_terminated_nodes p)) |}.
Proof.
  intros Hall. unfold NonTerminatedNodes_init.
  rewrite NonTerminatedNodes_init_loop by done. cbn.
  by destruct (last _).
Qed.

Lemma non_terminated_nodes_views_witness :
  let p := Sample.cloud [("head", Sample.head_tags);
                         ("w1", Sample.worker_tags STATUS_UP_TO_DATE);
                         ("h2", Sample.head_tags);
                         ("x", {[ CLOUDTIK_TAG_NODE_KIND := NODE_KIND_UNMANAGED ]})] in
  Forall (fun node => is_Some (node_tags p node !! CLOUDTIK_TAG_NODE_KIND))
    (non_terminated_nodes p) /\
  NonTerminatedNodes_init p =
  Ok {| all_node_ids := ["head"; "w1"; "h2"; "x"];
        worker_ids := ["w1"];
        head_id := Some "h2" |}.
Proof.
  cbv zeta.
  assert (Hall : Forall (fun node => is_Some
            (node_tags (Sample.cloud [("head", Sample.head_tags);
                         ("w1", Sample.worker_tags STATUS_UP_TO_DATE);
                         ("h2", Sample.head_tags);
                         ("x", {[ CLOUDTIK_TAG_NODE_KIND := NODE_KIND_UNMANAGED ]})])
               node !! CLOUDTIK_TAG_NODE_KIND))
          ["head"; "w1"; "h2"; "x"]).
  { repeat constructor; vm_compute; eauto. }
  split; [exact Hall|].
  rewrite (non_terminated_nodes_views _ Hall). vm_compute. reflexivity.
Defined.

(** ** [terminate_scheduled_nodes] and [remove_terminating_nodes] *)

Lemma stopped_all_count (nodes : list NodeID) (s : Scaler) :
  stopped_nodes (prometheus_metrics (stopped_all nodes s)) =
  stopped_nodes (prometheus_metrics s) + Z.of_nat (length nodes).
Proof.
  revert s. induction nodes as [|n nodes IH]; intros s; [cbn; lia|].
  change (stopped_all (n :: nodes) s) with
    (stopped_all nodes
       (set_prometheus_metrics (inc_stopped_nodes (prometheus_metrics s))
          (set_node_tracker (untrack n (node_tracker s)) s))).
  rewrite IH. cbn. lia.
Qed.

Lemma elem_of_List_filter {A} (f : A -> bool) (l : list A) (x : A) :
  x ∈ List.filter f l <-> x ∈ l /\ f x = true.
Proof. rewrite !list_elem_of_In. apply filter_In. Qed.

Lemma sublist_List_filter {A} (f : A -> bool) (l : list A) :
  List.filter f l `sublist_of` l.
Proof.
  induction l as [|x l IH]; cbn; [done|].
  destruct (f x); by constructor.
Qed.

(** [terminate_scheduled_nodes] on a scaler with a provider and node views
    returns normally and leaves nothing scheduled.  With nothing scheduled it
    changes nothing, and the provider is not called.  Otherwise the provider
    is asked once to terminate exactly the scheduled nodes, in the order they
    were scheduled; each is counted as stopped; and the views lose exactly
    these nodes, the others keeping their order.  [head_id] is not touched,
    also when the head is among the terminated nodes. *)
Theorem terminate_scheduled_nodes_batch (s : Scaler) (p : Provider)
    (ntn : NonTerminatedNodes) :
  provider s = Some p ->
  non_terminated s = Some ntn ->
  let nodes := nodes_to_terminate s in
  let s' := (terminate_scheduled_nodes s).1 in
  (terminate_scheduled_nodes s).2 = Ok tt /\
  nodes_to_terminate s' = [] /\
  (nodes = [] -> s' = s) /\
  (nodes <> [] ->
   exists p' ntn',
     provider s' = Some p' /\
     terminate_calls p' = terminate_calls p ++ [nodes] /\
     non_terminated s' = Some ntn' /\
     (forall n, n ∈ worker_ids ntn' <-> n ∈ worker_ids ntn /\ n ∉ nodes) /\
     (forall n, n ∈ all_node_ids ntn' <-> n ∈ all_node_ids ntn /\ n ∉ nodes) /\
     worker_ids ntn' `sublist_of` worker_ids ntn /\
     all_node_ids ntn' `sublist_of` all_node_ids ntn /\
     head_id ntn' = head_id ntn /\
     stopped_nodes (prometheus_metrics s') =
       stopped_nodes (prometheus_metrics s) + Z.of_nat (length nodes)).
Proof.
  intros Hp Hntn nodes s'. subst s' nodes.
  rewrite (terminate_scheduled_nodes_eval s p ntn Hp Hntn). cbn [fst snd].
  unfold terminated_state.
  destruct (nodes_to_terminate s) as [|n0 rest] eqn:Hnodes.
  - split_and!; try done.
  - split_and!; try done. intros _.
    set (l := n0 :: rest).
    set (s1 := set_provider (Some (provider_terminate_nodes l p)) s).
    destruct (stopped_all_fields l s1) as (Hprov & _).
    eexists _, _. cbn [provider set_nodes_to_terminate set_non_terminated
                       non_terminated prometheus_metrics].
    rewrite Hprov, stopped_all_count. cbn [provider s1 set_provider].
    split_and!; try reflexivity.
    + intros n. cbn. rewrite elem_of_List_filter, bool_decide_eq_true. done.
    + intros n. cbn. rewrite elem_of_List_filter, bool_decide_eq_true. done.
    + apply sublist_List_filter.
    + apply sublist_List_filter.
Qed.

(** The sample scaler after "w2" was scheduled, for any reason. *)
Lemma terminate_scheduled_nodes_batch_witness :
  let s := set_nodes_to_terminate ["w2"]
             (Sample.two_workers_scaler Sample.valid_config) in
  provider s = Some Sample.two_workers /\
  nodes_to_terminate (terminate_scheduled_nodes s).1 = [] /\
  (worker_ids <$> non_terminated (terminate_scheduled_nodes s).1) = Some ["w1"].
Proof.
  cbv zeta. split; [reflexivity|].
  destruct (terminate_scheduled_nodes_batch
              (set_nodes_to_terminate ["w2"]
                 (Sample.two_workers_scaler Sample.valid_config))
              Sample.two_workers _ eq_refl eq_refl)
    as (_ & Hnone & _ & _).
  split; [exact Hnone|]. vm_compute. reflexivity.
Defined.

(** ** [terminate_nodes_to_enforce_config_constraints]: the other verdicts *)

Section EnforceVerdicts.
Context `{Collaborators}.

(** An iteration of the loop for a worker with the verdict [terminate]
    schedules the worker with the reason of the verdict, whatever its use
    and its launch configuration, and whether or not [request_resources]
    needs it; the counts and the list of workers that could be terminated
    stay as they are. *)
Theorem enforce_body_terminate
    (last_used : gmap NodeIP Z) (horizon : Z) (protected : list NodeID)
    (s1 : Scaler) (p : Provider) (counts : gmap NodeType Z)
    (eligible : list NodeID) (node_id : NodeID) (reason : option string) :
  provider s1 = Some p ->
  _keep_worker_of_node_type s1 node_id counts = Ok (terminate, reason) ->
  exists r, reason = Some r /\
    enforce_body last_used horizon protected (counts, eligible) node_id s1 =
    (scheduled_state p node_id r INFO s1, Ok (counts, eligible)).
Proof.
  intros Hp Hkeep.
  assert (exists r, reason = Some r) as [r ->].
  { revert Hkeep. unfold _keep_worker_of_node_type, the_provider.
    rewrite Hp. cbn [attribute rbind].
    destruct (node_tags p node_id !! _); [|discriminate].
    destruct (the_available_node_types s1); [|discriminate]. cbn [rbind].
    repeat case_match; intros [= <-]; eauto. }
  exists r. split; [done|]. unfold enforce_body.
  unfold bind at 1. unfold lift at 1. rewrite Hkeep.
  rewrite bool_decide_eq_true_2 by done.
  erewrite bind_ok by (by apply schedule_node_termination_eval).
  reflexivity.
Qed.

(** An iteration for a worker that is to be kept (verdict [keep]) or that
    [request_resources] needs, the verdict not being [terminate]: if its
    launch configuration is in order the worker is counted and nothing is
    scheduled, and the worker is not put on the list of the workers that
    could be terminated.  If its launch configuration is not in order the
    worker is not protected: it is scheduled, as idle if its ip was last
    used before the horizon, and as outdated otherwise. *)
Theorem enforce_body_protected
    (last_used : gmap NodeIP Z) (horizon : Z) (protected : list NodeID)
    (s1 : Scaler) (p : Provider) (counts : gmap NodeType Z)
    (eligible : list NodeID) (node_id : NodeID)
    (verdict : KeepOrTerminate) (reason : option string) :
  provider s1 = Some p ->
  _keep_worker_of_node_type s1 node_id counts = Ok (verdict, reason) ->
  verdict <> terminate ->
  verdict = keep \/ node_id ∈ protected ->
  enforce_body last_used horizon protected (counts, eligible) node_id s1 =
  match launch_config_ok s1 node_id with
  | Ok true =>
      match keep_node s1 node_id counts with
      | Ok counts' => (s1, Ok (counts', eligible))
      | Raise e => (s1, Raise e)
      end
  | Ok false =>
      if idle_before last_used horizon (internal_ip p node_id) then
        (scheduled_state p node_id "idle" INFO s1, Ok (counts, eligible))
      else
        (scheduled_state p node_id "outdated" INFO s1, Ok (counts, eligible))
  | Raise e => (s1, Raise e)
  end.
Proof.
  intros Hp Hkeep Hterm Hprot. unfold enforce_body.
  unfold bind at 1. unfold lift at 1. rewrite Hkeep.
  rewrite bool_decide_eq_false_2 by done.
  assert (bool_decide (verdict = keep) || bool_decide (node_id ∈ protected)
          = true) as ->.
  { apply orb_true_iff. destruct Hprot; [left|right];
      by apply bool_decide_eq_true_2. }
  unfold bind at 1. unfold lift at 1.
  destruct (launch_config_ok s1 node_id) as [[]|e] eqn:Hok.
  - unfold bind, lift, ret. by destruct (keep_node s1 node_id counts).
  - unfold bind at 1. unfold lift at 1, the_provider at 1. rewrite Hp.
    cbn [attribute].
    destruct (idle_before last_used horizon (internal_ip p node_id)).
    + erewrite bind_ok by (by apply schedule_node_termination_eval).
      reflexivity.
    + unfold bind at 1. unfold lift at 1. rewrite Hok. cbn [negb].
      erewrite bind_ok by (by apply schedule_node_termination_eval).
      reflexivity.
  - reflexivity.
Qed.
End EnforceVerdicts.

Lemma enforce_body_terminate_witness :
  let s := Sample.two_workers_scaler Sample.valid_config in
  let last_used := last_used_time_by_ip (load_metrics s) in
  provider s = Some Sample.two_workers /\
  _keep_worker_of_node_type s "w1" {[ "w" := 2 ]}
    = Ok (terminate, Some "max_workers_per_type") /\
  exists r,
    @enforce_body Sample.collaborators last_used 700 ["w1"]
      ({[ "w" := 2 ]}, []) "w1" s =
    (scheduled_state Sample.two_workers "w1" r INFO s,
     Ok ({[ "w" := 2 ]}, [])).
Proof.
  cbv zeta.
  assert (Hkeep : _keep_worker_of_node_type
                    (Sample.two_workers_scaler Sample.valid_config) "w1"
                    {[ "w" := 2 ]}
                  = Ok (terminate, Some "max_workers_per_type"))
    by (vm_compute; reflexivity).
  split_and!; [reflexivity | exact Hkeep |].
  destruct (@enforce_body_terminate Sample.collaborators
              (last_used_time_by_ip
                 (load_metrics (Sample.two_workers_scaler Sample.valid_config)))
              700 ["w1"] (Sample.two_workers_scaler Sample.valid_config)
              Sample.two_workers {[ "w" := 2 ]} [] "w1" _
              eq_refl Hkeep) as (r & _ & Hbody).
  exists r. exact Hbody.
Defined.

Lemma enforce_body_protected_witness :
  let s := Sample.two_workers_scaler Sample.valid_config in
  let last_used := last_used_time_by_ip (load_metrics s) in
  provider s = Some Sample.two_workers /\
  _keep_worker_of_node_type s "w2" ∅ = Ok (keep, None) /\
  @launch_config_ok Sample.collaborators s "w2" = Ok true /\
  @enforce_body Sample.collaborators last_used 700 [] (∅, []) "w2" s =
    (s, Ok ({[ "w" := 1 ]}, [])).
Proof.
  cbv zeta.
  assert (Hkeep : _keep_worker_of_node_type
                    (Sample.two_workers_scaler Sample.valid_config) "w2" ∅
                  = Ok (keep, None))
    by (vm_compute; reflexivity).
  split_and!; [reflexivity | exact Hkeep | vm_compute; reflexivity |].
  rewrite (@enforce_body_protected Sample.collaborators
             (last_used_time_by_ip
                (load_metrics (Sample.two_workers_scaler Sample.valid_config)))
             700 [] (Sample.two_workers_scaler Sample.valid_config)
             Sample.two_workers ∅ [] "w2" keep None
             eq_refl Hkeep ltac:(discriminate) (or_introl eq_refl)).
  assert (Hok : @launch_config_ok Sample.collaborators
                  (Sample.two_workers_scaler Sample.valid_config) "w2"
                = Ok true) by (vm_compute; reflexivity).
  assert (Hcount : keep_node (Sample.two_workers_scaler Sample.valid_config)
                     "w2" ∅ = Ok {[ "w" := 1 ]})
    by (vm_compute; reflexivity).
  rewrite Hok, Hcount. reflexivity.
Defined.

(** ** [max_workers] after [terminate_nodes_to_enforce_config_constraints] *)

Lemma List_filter_none (X l : list NodeID) :
  (forall n, n ∈ l -> n ∈ X) ->
  List.filter (fun n => bool_decide (n ∉ X)) l = [].
Proof.
  induction l as [|x l IH]; cbn; [done|]. intros Hl.
  rewrite bool_decide_eq_false_2.
  - apply IH. intros n Hn. apply Hl. by right.
  - intros Hx. apply Hx, Hl. by left.
Qed.

Lemma List_filter_all (X l : list NodeID) :
  (forall n, n ∈ l -> n ∉ X) ->
  List.filter (fun n => bool_decide (n ∉ X)) l = l.
Proof.
  induction l as [|x l IH]; cbn; [done|]. intros Hl.
  rewrite bool_decide_eq_true_2 by (apply Hl; by left).
  f_equal. apply IH. intros n Hn. apply Hl. by right.
Qed.

Lemma List_filter_Permutation {A} (f : A -> bool) (l1 l2 : list A) :
  l1 ≡ₚ l2 -> List.filter f l1 ≡ₚ List.filter f l2.
Proof.
  induction 1; cbn; repeat case_match; try done; try by constructor.
  by etrans.
Qed.

(** Removing from a list without repetitions some of its elements, each
    named once, shortens the list by their number. *)
Lemma length_filter_not_in (W X : list NodeID) :
  NoDup W -> X ⊆+ W ->
  (length (List.filter (fun n => bool_decide (n ∉ X)) W) + length X
   = length W)%nat.
Proof.
  intros Hnd Hsub.
  apply submseteq_Permutation in Hsub as [K HK].
  assert (Hfilter : List.filter (fun n => bool_decide (n ∉ X)) W ≡ₚ K).
  { rewrite HK in Hnd. apply NoDup_app in Hnd as (_ & Hdisj & _).
    rewrite (List_filter_Permutation _ _ _ HK), List.filter_app.
    rewrite List_filter_none by done. cbn.
    rewrite List_filter_all; [done|].
    intros n Hn HnX. by eapply Hdisj. }
  rewrite Hfilter, HK, length_app. lia.
Qed.

Section EnforceMaxWorkers.
Context `{Collaborators}.

Lemma enforce_body_schedule (last_used : gmap NodeIP Z) (horizon : Z)
    (protected : list NodeID) (counts counts' : gmap NodeType Z)
    (eligible eligible' : list NodeID) (n : NodeID) (s s' : Scaler) :
  enforce_body last_used horizon protected (counts, eligible) n s
    = (s', Ok (counts', eligible')) ->
  nodes_to_terminate s' = nodes_to_terminate s ++ [n] /\ eligible' = eligible
  \/ nodes_to_terminate s' = nodes_to_terminate s /\
     (eligible' = eligible \/ eligible' = eligible ++ [n]).
Proof.
  unfold enforce_body.
  unfold bind at 1. unfold lift at 1.
  destruct (_keep_worker_of_node_type s n counts) as [[verdict reason]|e]
    eqn:Hk; [|by intros [= <- <-]].
  assert (Hp : exists p, provider s = Some p).
  { unfold _keep_worker_of_node_type, the_provider in Hk.
    destruct (provider s); [eauto | discriminate]. }
  destruct Hp as [p Hp].
  case_bool_decide as Hv.
  { subst verdict. destruct reason as [reason|].
    - erewrite bind_ok by (by apply schedule_node_termination_eval).
      intros [= <- <- <-]. by left.
    - by intros [= <- <-]. }
  unfold bind at 1.
  destruct (bool_decide (verdict = keep) || bool_decide (n ∈ protected)).
  { unfold lift at 1.
    destruct (launch_config_ok s n) as [[]|e0] eqn:Hok.
    - unfold bind, lift, ret. destruct (keep_node s n counts);
        intros [= <- <- <-]; auto.
    - unfold bind at 1. unfold lift at 1, the_provider at 1. rewrite Hp.
      cbn [attribute].
      destruct (idle_before last_used horizon (internal_ip p n)) eqn:Hidle.
      + erewrite bind_ok by (by apply schedule_node_termination_eval).
        intros [= <- <- <-]. by left.
      + unfold bind at 1. unfold lift at 1. rewrite Hok. cbn [negb].
        erewrite bind_ok by (by apply schedule_node_termination_eval).
        intros [= <- <- <-]. by left.
    - by intros [= <- <-]. }
  unfold ret at 1.
  unfold bind at 1. unfold lift at 1, the_provider at 1. rewrite Hp.
  cbn [attribute].
  destruct (idle_before last_used horizon (internal_ip p n)) eqn:Hidle.
  { erewrite bind_ok by (by apply schedule_node_termination_eval).
    intros [= <- <- <-]. by left. }
  unfold bind at 1. unfold lift at 1.
  destruct (launch_config_ok s n) as [[]|e1] eqn:Hok; cbn [negb].
  - unfold bind, lift, ret. destruct (keep_node s n counts);
      intros [= <- <- <-]; auto.
  - erewrite bind_ok by (by apply schedule_node_termination_eval).
    intros [= <- <- <-]. by left.
  - by intros [= <- <-].
Qed.

Lemma enforce_loop_schedule (last_used : gmap NodeIP Z) (horizon : Z)
    (protected : list NodeID) (l : list NodeID)
    (counts counts' : gmap NodeType Z) (eligible eligible' : list NodeID)
    (s s' : Scaler) :
  for_fold l (counts, eligible) (enforce_body last_used horizon protected) s
    = (s', Ok (counts', eligible')) ->
  exists T E,
    nodes_to_terminate s' = nodes_to_terminate s ++ T /\
    eligible' = eligible ++ E /\
    T ++ E ⊆+ l.
Proof.
  revert counts eligible s.
  induction l as [|n l IH]; intros counts eligible s; cbn [for_fold].
  - intros [= <- <- <-]. exists [], []. by rewrite !app_nil_r.
  - unfold bind.
    destruct (enforce_body _ _ _ _ n s) as [s1 [[counts1 eligible1]|e]]
      eqn:Hbody; [|done].
    intros Hrest. apply IH in Hrest as (T & E & HT & HE & Hsub).
    apply enforce_body_schedule in Hbody
      as [[Hn ->]|[Hn [->| ->]]]; rewrite Hn in HT.
    + exists (n :: T), E. rewrite <-app_assoc in HT.
      split_and!; [done..|]. cbn. by constructor.
    + exists T, E. split_and!; [done..|]. by apply submseteq_cons.
    + exists T, (n :: E). rewrite <-app_assoc in HE.
      split_and!; [done..|].
      rewrite <-Permutation_middle. by constructor.
Qed.

Lemma enforce_prologue_sorted (now : Z) (s : Scaler)
    (last_used : gmap NodeIP Z) (horizon : Z)
    (sorted_node_ids protected : list NodeID) :
  enforce_prologue now s =
    Ok (last_used, horizon, sorted_node_ids, protected) ->
  exists ntn p, non_terminated s = Some ntn /\ provider s = Some p /\
    sorted_node_ids ≡ₚ worker_ids ntn.
Proof.
  intros Hpro. unfold enforce_prologue in Hpro.
  destruct (the_config s) as [cfg|]; [|discriminate].
  cbn [rbind] in Hpro.
  destruct (subscript _ _) as [idle|]; [|discriminate].
  cbn [rbind] in Hpro. unfold the_non_terminated_nodes in Hpro.
  destruct (non_terminated s) as [ntn|]; [|discriminate].
  cbn [attribute rbind] in Hpro. unfold _sort_based_on_last_used in Hpro.
  unfold the_provider in Hpro.
  destruct (provider s) as [p|]; [|discriminate].
  cbn [attribute rbind] in Hpro.
  destruct (match resource_requests (load_metrics s) with
            | [] => _ | _ => _ end); [|discriminate].
  cbn [rbind] in Hpro. simplify_eq.
  exists ntn, p. split_and!; [done..|]. apply sorted_reverse_perm.
Qed.

(** After [terminate_nodes_to_enforce_config_constraints] has returned,
    at most [max_workers] workers are left in the view of the scaler,
    unless it has logged the warning that the configuration is
    inconsistent.  This holds for a tick that starts with no termination
    pending and with a worker list that names each worker once. *)
Theorem enforce_leaves_at_most_max_workers
    (now : Z) (s s' : Scaler) (ntn : NonTerminatedNodes) (cfg : Config)
    (max_workers : Z) :
  non_terminated s = Some ntn ->
  NoDup (worker_ids ntn) ->
  nodes_to_terminate s = [] ->
  config s = Some cfg ->
  cfg_max_workers cfg = Some max_workers ->
  terminate_nodes_to_enforce_config_constraints now s = (s', Ok tt) ->
  exists ntn',
    non_terminated s' = Some ntn' /\
    worker_ids ntn' `sublist_of` worker_ids ntn /\
    (Z.of_nat (length (worker_ids ntn')) <= max_workers \/
     exists wanted safe,
       (WARNING, InconsistentConfig wanted safe) ∈ logged_since s s').
Proof.
  intros Hntn Hnd Hnone Hcfg Hmax.
  unfold terminate_nodes_to_enforce_config_constraints.
  unfold bind at 1. unfold lift at 1.
  destruct (enforce_prologue now s)
    as [[[[last_used horizon] sorted_node_ids] protected]|e] eqn:Hpro;
    [|discriminate].
  apply enforce_prologue_sorted in Hpro as (ntn0 & p & Hntn0 & Hp & Hsorted).
  assert (ntn0 = ntn) as -> by congruence.
  unfold bind at 1.
  destruct (for_fold _ _ _ s) as [s1 [[counts1 eligible]|e]] eqn:Hloop;
    [|discriminate].
  pose proof Hloop as Hlog.
  apply enforce_loop_log in Hlog as (Hsame1 & lg1 & Hlg1 & _).
  apply enforce_loop_schedule in Hloop as (T & E & HT & HE & Hsub).
  rewrite Hnone in HT. cbn in HT, HE. subst eligible.
  apply same_but_scheduling_fields in Hsame1
    as (Hp1 & Hc1 & _ & Hn1 & _ & _).
  rewrite Hp in Hp1. rewrite Hcfg in Hc1. rewrite Hntn in Hn1.
  cbn [snd]. unfold bind at 1.
  rewrite (enforce_max_workers_eval s1 p ntn cfg max_workers E Hp1 Hn1 Hc1 Hmax).
  rewrite HT.
  set (surplus := Z.of_nat (length (worker_ids ntn)) - Z.of_nat (length T)
                  - max_workers).
  set (warned := Z.of_nat (length E) <? surplus).
  set (s1' := if warned then _ else s1).
  set (n := if warned then Z.of_nat (length E) else surplus).
  set (s2 := if 0 <? n then _ else s1').
  assert (Hs1' : provider s1' = Some p /\ non_terminated s1' = Some ntn /\
                 nodes_to_terminate s1' = T /\
                 exists lg, logger s1' = logger s1 ++ lg /\
                   (warned = true ->
                    (WARNING, InconsistentConfig surplus (length E)) ∈ lg)).
  { subst s1'. destruct warned.
    - split_and!; try done. eexists. split; [reflexivity|].
      intros _. set_solver.
    - split_and!; try done. exists []. rewrite app_nil_r. done. }
  destruct Hs1' as (Hp1' & Hn1' & HT1' & lg2 & Hlg2 & Hwarn).
  assert (Hs2 : provider s2 = Some p /\ non_terminated s2 = Some ntn /\
                logger s2 `prefix_of` logger s2 /\
                exists lg, logger s2 = logger s1' ++ lg /\
                nodes_to_terminate s2 =
                  T ++ (if 0 <? n then last_n n E else [])).
  { subst s2. destruct (0 <? n).
    - destruct (schedule_all_fields p "max workers" INFO (last_n n E) s1')
        as (-> & -> & _ & -> & ->).
      rewrite HT1'. split_and!; try done. eauto.
    - rewrite app_nil_r. split_and!; try done. exists [].
      by rewrite app_nil_r. }
  destruct Hs2 as (Hp2 & Hn2 & _ & lg3 & Hlg3 & HX).
  rewrite (terminate_scheduled_nodes_eval s2 p ntn Hp2 Hn2).
  intros [= <-].
  set (X := T ++ (if 0 <? n then last_n n E else [])) in *.
  assert (HXW : X ⊆+ worker_ids ntn).
  { rewrite <-Hsorted. etrans; [|exact Hsub]. subst X.
    apply submseteq_app; [done|]. destruct (0 <? n).
    - apply sublist_submseteq. unfold last_n. apply sublist_drop.
    - apply submseteq_nil_l. }
  assert (Hviews : exists ntn',
    non_terminated (terminated_state p ntn s2) = Some ntn' /\
    worker_ids ntn' =
      List.filter (fun n => bool_decide (n ∉ X)) (worker_ids ntn) /\
    logger (terminated_state p ntn s2) = logger s2).
  { destruct (terminated_state_fields p ntn s2) as (_ & _ & _ & _ & Hl & _).
    unfold terminated_state in *. rewrite HX in *.
    destruct X as [|x X'] eqn:HeqX.
    - exists ntn. split_and!; try done.
      by rewrite List_filter_all by (intros ? _; apply not_elem_of_nil).
    - eexists. split_and!; [reflexivity| |done]. reflexivity. }
  destruct Hviews as (ntn' & Hn' & Hw' & Hl').
  exists ntn'. split_and!; [done| |].
  { rewrite Hw'. apply sublist_List_filter. }
  pose proof (length_filter_not_in _ _ Hnd HXW) as Hlen.
  rewrite <-Hw' in Hlen.
  destruct warned eqn:Hwarned.
  - right. exists surplus, (length E).
    erewrite logged_since_app.
    2:{ rewrite Hl', Hlg3, Hlg2, Hlg1, <-!app_assoc. reflexivity. }
    specialize (Hwarn eq_refl). rewrite !elem_of_app. auto.
  - left. subst n. apply Z.ltb_ge in Hwarned.
    subst X. rewrite length_app in Hlen.
    destruct (Z.ltb_spec 0 surplus).
    + unfold last_n in Hlen. rewrite length_drop in Hlen. subst surplus. lia.
    + cbn in Hlen. subst surplus. lia.
Qed.
End EnforceMaxWorkers.

Lemma enforce_leaves_at_most_max_workers_witness :
  let s := Samples.three_workers_scaler in
  NoDup ["w1"; "w2"; "w3"] /\
  cfg_max_workers Sample.valid_config = Some 2 /\
  exists s' ntn',
    @terminate_nodes_to_enforce_config_constraints Sample.collaborators 1000 s
      = (s', Ok tt) /\
    non_terminated s' = Some ntn' /\
    (Z.of_nat (length (worker_ids ntn')) <= 2 \/
     exists wanted safe,
       (WARNING, InconsistentConfig wanted safe) ∈ logged_since s s').
Proof.
  cbv zeta.
  assert (Hnd : NoDup ["w1"; "w2"; "w3"]).
  { apply (bool_decide_unpack _). vm_compute. exact I. }
  split; [exact Hnd|]. split; [reflexivity|].
  eexists.
  assert (Hrun : @terminate_nodes_to_enforce_config_constraints
            Sample.collaborators 1000 Samples.three_workers_scaler
          = ((@terminate_nodes_to_enforce_config_constraints
                Sample.collaborators 1000 Samples.three_workers_scaler).1,
             Ok tt)).
  { assert (Hok : (@terminate_nodes_to_enforce_config_constraints
              Sample.collaborators 1000 Samples.three_workers_scaler).2
            = Ok tt) by (vm_compute; reflexivity).
    rewrite <-Hok. apply surjective_pairing. }
  destruct (@enforce_leaves_at_most_max_workers Sample.collaborators 1000
              Samples.three_workers_scaler _ Samples.three_workers_views
              Sample.valid_config 2 eq_refl Hnd eq_refl eq_refl eq_refl
              Hrun) as (ntn' & Hntn' & _ & Hbound).
  exists ntn'. split_and!; [exact Hrun | exact Hntn' | exact Hbound].
Defined.

(** ** Failed updates are not retried *)

#[global] Instance failed_updates_grow_preorder : PreOrder failed_updates_grow.
Proof.
  split.
  - intros s n. lia.
  - intros s1 s2 s3 H12 H23 n. specialize (H12 n). specialize (H23 n). lia.
Qed.

Lemma failed_updates_grow_unchanged (s s' : Scaler) :
  num_failed_updates s' = num_failed_updates s -> failed_updates_grow s s'.
Proof. intros Heq n. unfold failed_updates_of. rewrite Heq. lia. Qed.

Lemma failed_updates_grow_increment (s : Scaler) (node_id : NodeID) :
  failed_updates_grow s
    (set_num_failed_updates (increment node_id (num_failed_updates s)) s).
Proof.
  intros n. unfold failed_updates_of, increment. cbn.
  destruct (decide (node_id = n)) as [->|Hne].
  - rewrite lookup_insert_eq. cbn. lia.
  - rewrite lookup_insert_ne by done. lia.
Qed.

(** Settles what is left of a frame property for the counts of failed
    updates. *)
Ltac grow_step :=
  repeat always_step;
  first [ apply failed_updates_grow_increment
        | apply failed_updates_grow_unchanged; reflexivity ].

Section FailedUpdates.
Context `{Collaborators}.

Lemma can_update_failed (node_id : NodeID) (s : Scaler) :
  0 < failed_updates_of s node_id ->
  exists r, can_update node_id s = (s, r) /\ r <> Ok true.
Proof.
  unfold failed_updates_of. intros Hfailed. unfold can_update.
  unfold bind at 1. unfold gets at 1.
  destruct (disable_node_updaters s); [by eexists|].
  unfold bind at 1. unfold gets at 1.
  destruct (OD.mem node_id (updaters s)); [by eexists|].
  unfold bind at 1. unfold lift at 1.
  destruct (launch_config_ok s node_id) as [[]|e]; cbn [negb];
    [|by eexists..].
  unfold bind at 1. unfold gets at 1.
  rewrite (proj2 (Z.ltb_lt _ _) Hfailed). by eexists.
Qed.

(** A node whose update has failed is not updated again.  While the count
    of its failed updates is positive, [can_update] does not return True
    for it, [should_update] orders no update, and [recover_if_needed]
    starts no recovery: all three leave the scaler as it is. *)
Theorem failed_update_is_not_retried (node_id : NodeID) (now : Z)
    (s : Scaler) :
  0 < failed_updates_of s node_id ->
  (can_update node_id s).1 = s /\
  (can_update node_id s).2 <> Ok true /\
  (should_update node_id s).1 = s /\
  (forall ui, (should_update node_id s).2 <> Ok (Some ui)) /\
  (recover_if_needed node_id now s).1 = s.
Proof.
  intros Hfailed. unfold should_update, recover_if_needed. unfold bind.
  destruct (can_update_failed node_id s Hfailed) as (r & -> & Hr).
  destruct r as [[]|e]; cbn; split_and!; done.
Qed.

(** No method of the scaler lowers a count of failed updates: the counts
    are only incremented, by [process_completed_updates]. *)
Theorem failed_updates_are_not_forgotten (config_reader : result Config)
    (errors_fatal : bool) (now : Z) :
  always failed_updates_grow (reset config_reader errors_fatal) /\
  always failed_updates_grow
    (terminate_nodes_to_enforce_config_constraints now) /\
  always failed_updates_grow (terminate_unhealthy_nodes now) /\
  always failed_updates_grow process_completed_updates /\
  always failed_updates_grow update_nodes /\
  always failed_updates_grow (attempt_to_recover_unhealthy_nodes now).
Proof.
  split_and!.
  - unfold reset, reset_assign, reset_apply. grow_step.
  - unfold terminate_nodes_to_enforce_config_constraints, enforce_body,
      enforce_max_workers, terminate_scheduled_nodes,
      schedule_node_termination.
    grow_step.
  - unfold terminate_unhealthy_nodes, unhealthy_body,
      terminate_scheduled_nodes, load_metrics_mark_active,
      schedule_node_termination.
    grow_step.
  - unfold process_completed_updates, completed_body,
      terminate_scheduled_nodes, load_metrics_mark_active,
      schedule_node_termination.
    grow_step.
  - unfold update_nodes, update_threads, run_update_thread, spawn_updater,
      should_update, can_update, files_up_to_date, start_updater.
    grow_step.
  - unfold attempt_to_recover_unhealthy_nodes, recover_if_needed,
      can_update, start_updater.
    grow_step.
Qed.
End FailedUpdates.

Lemma failed_update_is_not_retried_witness :
  let s := set_num_failed_updates {[ "w1" := 1 ]}
             (Sample.two_workers_scaler Sample.valid_config) in
  0 < failed_updates_of s "w1" /\
  (@should_update Sample.collaborators "w1" s).1 = s /\
  (@recover_if_needed Sample.collaborators "w1" 2000 s).1 = s.
Proof.
  cbv zeta.
  assert (Hfailed : 0 < failed_updates_of
            (set_num_failed_updates {[ "w1" := 1 ]}
               (Sample.two_workers_scaler Sample.valid_config)) "w1")
    by (vm_compute; reflexivity).
  split; [exact Hfailed|].
  destruct (@failed_update_is_not_retried Sample.collaborators "w1" 2000 _
              Hfailed) as (_ & _ & Hshould & _ & Hrecover).
  split; [exact Hshould | exact Hrecover].
Defined.

(** ** [launch_new_node]: the launch requests *)

Lemma launch_batches_run (cfg : Config) (t : NodeType) (fuel : nat) :
  forall (count : Z) (x : StandardClusterScaler),
    0 < max_launch_batch x ->
    (Z.to_nat count <= fuel)%nat ->
    exists sizes,
      launch_batches fuel cfg t count x =
        Some (with_launch_queue
                (launch_queue x ++ launch_requests cfg t sizes) x,
              Ok tt) /\
      (if 0 <? count then
         exists (k : nat) (r : Z),
           sizes = replicate k (max_launch_batch x) ++ [r] /\
           0 < r <= max_launch_batch x /\
           count = Z.of_nat k * max_launch_batch x + r
       else sizes = []).
Proof.
  induction fuel as [|fuel IH]; intros count x Hbatch Hfuel.
  - exists []. assert ((0 <? count) = false) as Hc by lia.
    cbn. rewrite Hc. split; [|done]. rewrite app_nil_r. by destruct x.
  - cbn [launch_batches]. destruct (0 <? count) eqn:Hc.
    2:{ exists []. split; [|done]. cbn. rewrite app_nil_r. by destruct x. }
    apply Z.ltb_lt in Hc.
    unfold run_bind at 1. unfold run_gets at 1.
    unfold run_bind at 1. unfold run_modify at 1.
    set (b := max_launch_batch x) in *.
    set (x1 := with_launch_queue _ x).
    assert (Hb1 : 0 < max_launch_batch x1) by done.
    assert (Hf1 : (Z.to_nat (count - b) <= fuel)%nat) by lia.
    destruct (IH (count - b) x1 Hb1 Hf1) as (sizes & Hrun & Hshape).
    exists (Z.min count b :: sizes). split.
    + rewrite Hrun. unfold launch_requests. cbn. by rewrite <-app_assoc.
    + cbn [max_launch_batch x1 with_launch_queue] in Hshape. fold b in Hshape.
      destruct (0 <? count - b) eqn:Hrest.
      * destruct Hshape as (k & r & -> & Hr & Hcount).
        exists (S k), r. apply Z.ltb_lt in Hrest.
        rewrite Z.min_r by lia. split; [reflexivity|]. split; lia.
      * subst sizes. apply Z.ltb_ge in Hrest.
        exists 0%nat, count. rewrite Z.min_l by lia.
        split; [reflexivity|]. split; lia.
Qed.

Lemma launch_batches_diverges (cfg : Config) (t : NodeType) (fuel : nat) :
  forall (count : Z) (x : StandardClusterScaler),
    max_launch_batch x <= 0 -> 0 < count ->
    launch_batches fuel cfg t count x = None.
Proof.
  induction fuel as [|fuel IH]; intros count x Hbatch Hcount;
    cbn [launch_batches]; rewrite (proj2 (Z.ltb_lt _ _) Hcount); [done|].
  unfold run_bind at 1. unfold run_gets at 1.
  unfold run_bind at 1. unfold run_modify at 1.
  apply IH; cbn; lia.
Qed.

Section Launch.
Context `{LoopCollaborators}.

(** The state in which [launch_new_node] enters its loop. *)
Lemma launch_new_node_unfold (fuel : nat) (count : Z) (t : NodeType)
    (x : StandardClusterScaler) (cfg : Config) :
  config (self_scaler x) = Some cfg ->
  launch_new_node fuel count t x =
  launch_batches fuel cfg t count (launch_announced count t x).
Proof.
  intros Hcfg. unfold launch_new_node, launch_announced.
  unfold run_bind, loop_log, on_scaler, run_modify, run_gets.
  cbn. unfold the_config. cbn. rewrite Hcfg. cbn.
  reflexivity.
Qed.

(** With a positive [max_launch_batch], [launch_new_node] returns (a bound
    of [count] iterations suffices for its loop).  It puts on the queue,
    after the requests that are there, requests for the given node type
    with a copy of the configuration in force: each asks for at least one
    node and at most [max_launch_batch] nodes, all but the last for
    [max_launch_batch], and together they ask for [count] nodes.  For a
    count that is not positive no request is queued, though the launch is
    still logged, announced and counted as pending. *)
Theorem launch_new_node_batches (fuel : nat) (count : Z) (t : NodeType)
    (x : StandardClusterScaler) (cfg : Config) :
  config (self_scaler x) = Some cfg ->
  0 < max_launch_batch x ->
  (Z.to_nat count <= fuel)%nat ->
  exists sizes,
    launch_new_node fuel count t x =
      Some (with_launch_queue
              (launch_queue x ++ launch_requests cfg t sizes)
              (launch_announced count t x),
            Ok tt) /\
    Forall (fun n => 0 < n <= max_launch_batch x) sizes /\
    total sizes = Z.max 0 count /\
    (if 0 <? count then
       exists (k : nat) (r : Z),
         sizes = replicate k (max_launch_batch x) ++ [r]
     else sizes = []).
Proof.
  intros Hcfg Hbatch Hfuel.
  rewrite (launch_new_node_unfold fuel count t x cfg Hcfg).
  destruct (launch_batches_run cfg t fuel count (launch_announced count t x))
    as (sizes & Hrun & Hshape); [done..|].
  exists sizes. split; [exact Hrun|].
  change (max_launch_batch (launch_announced count t x))
    with (max_launch_batch x) in Hshape.
  destruct (0 <? count) eqn:Hc.
  - destruct Hshape as (k & r & -> & Hr & Hcount). apply Z.ltb_lt in Hc.
    split_and!; [| |by eauto].
    + apply Forall_app. split; [|by apply Forall_singleton].
      apply Forall_replicate. lia.
    + rewrite Z.max_r by lia. rewrite Hcount. clear.
      unfold total. induction k as [|k IH]; cbn; [lia|].
      rewrite IH. lia.
  - subst sizes. apply Z.ltb_ge in Hc. split_and!; [constructor| |done].
    cbn. lia.
Qed.

(** With a [max_launch_batch] that is not positive, [launch_new_node] does
    not return for a positive count: its loop has no end, whatever the
    bound. *)
Theorem launch_new_node_never_returns (fuel : nat) (count : Z)
    (t : NodeType) (x : StandardClusterScaler) (cfg : Config) :
  config (self_scaler x) = Some cfg ->
  max_launch_batch x <= 0 ->
  0 < count ->
  launch_new_node fuel count t x = None.
Proof.
  intros Hcfg Hbatch Hcount.
  rewrite (launch_new_node_unfold fuel count t x cfg Hcfg).
  by apply launch_batches_diverges.
Qed.
End Launch.


Lemma launch_new_node_batches_witness :
  let x := Samples.object (Sample.two_workers_scaler Sample.valid_config) 3 in
  config (self_scaler x) = Some Sample.valid_config /\
  0 < max_launch_batch x /\
  (Z.to_nat 7 <= 7)%nat /\
  exists sizes,
    @launch_new_node Samples.loop_collaborators 7 7 "w" x =
      Some (with_launch_queue
              (launch_queue x ++ launch_requests Sample.valid_config "w" sizes)
              (@launch_announced Samples.loop_collaborators 7 "w" x),
            Ok tt) /\
    total sizes = 7.
Proof.
  cbv zeta. split_and!; [reflexivity | reflexivity | lia |].
  destruct (@launch_new_node_batches Samples.loop_collaborators 7 7 "w"
              (Samples.object
                 (Sample.two_workers_scaler Sample.valid_config) 3)
              Sample.valid_config eq_refl eq_refl (le_n _))
    as (sizes & Hrun & _ & Htotal & _).
  exists sizes. split; [exact Hrun | exact Htotal].
Defined.

Lemma launch_new_node_never_returns_witness :
  let x := Samples.object (Sample.two_workers_scaler Sample.valid_config) 0 in
  config (self_scaler x) = Some Sample.valid_config /\
  max_launch_batch x <= 0 /\
  0 < 7 /\
  @launch_new_node Samples.loop_collaborators 1000 7 "w" x = None.
Proof.
  cbv zeta. split_and!; [reflexivity | done | done |].
  apply (@launch_new_node_never_returns Samples.loop_collaborators 1000 7 "w"
           (Samples.object
              (Sample.two_workers_scaler Sample.valid_config) 0)
           Sample.valid_config eq_refl); done.
Defined.

Section LaunchRequired.
Context `{LoopCollaborators}.

Lemma launch_each_requests (fuel : nat) (cfg : Config) (batch : Z)
    (to_launch : odict Z) :
  0 < batch ->
  Forall (fun item => (Z.to_nat item.2 <= fuel)%nat) to_launch ->
  forall x,
    config (self_scaler x) = Some cfg ->
    max_launch_batch x = batch ->
    exists x' groups,
      run_for_each to_launch (fun item =>
        let '(node_type, count) := item in
        launch_new_node fuel count node_type) x = Some (x', Ok tt) /\
      launch_queue x' =
        launch_queue x ++
        concat (zip_with (fun item sizes =>
                  launch_requests cfg item.1 sizes) to_launch groups) /\
      Forall2 (fun item sizes =>
                 total sizes = Z.max 0 item.2 /\
                 Forall (fun n => 0 < n <= batch) sizes)
        to_launch groups /\
      config (self_scaler x') = Some cfg /\
      max_launch_batch x' = batch.
Proof.
  intros Hbatch Hfuel.
  induction Hfuel as [|[t count] to_launch Hcount _ IH]; intros x Hcfg Hx.
  - exists x, []. cbn. rewrite app_nil_r. split_and!; try done.
  - cbn [run_for_each]. unfold run_bind at 1.
    destruct (launch_new_node_batches fuel count t x cfg Hcfg)
      as (sizes & -> & Hsizes & Htotal & _); [lia|done|].
    match goal with |- context [run_for_each _ _ ?x1] =>
      destruct (IH x1) as (x' & groups & Hrun & Hq & Hall & Hc' & Hb');
        [done|done|]
    end.
    exists x', (sizes :: groups). rewrite Hrun.
    split_and!; try done.
    + rewrite Hq. cbn. by rewrite <-app_assoc.
    + constructor; [|done]. rewrite Hx in Hsizes. done.
Qed.

(** With a positive [max_launch_batch], [launch_required_nodes] returns,
    and puts on the queue, for each node type of [to_launch] in the order
    of the dictionary, requests of at most [max_launch_batch] nodes that
    add up to the count wanted of that type; for a count that is not
    positive, none. *)
Theorem launch_required_nodes_requests (fuel : nat) (to_launch : odict Z)
    (x : StandardClusterScaler) (cfg : Config) :
  config (self_scaler x) = Some cfg ->
  0 < max_launch_batch x ->
  Forall (fun item => (Z.to_nat item.2 <= fuel)%nat) to_launch ->
  exists x' groups,
    launch_required_nodes fuel to_launch x = Some (x', Ok tt) /\
    launch_queue x' =
      launch_queue x ++
      concat (zip_with (fun item sizes =>
                launch_requests cfg item.1 sizes) to_launch groups) /\
    Forall2 (fun item sizes =>
               total sizes = Z.max 0 item.2 /\
               Forall (fun n => 0 < n <= max_launch_batch x) sizes)
      to_launch groups.
Proof.
  intros Hcfg Hbatch Hfuel.
  destruct (launch_each_requests fuel cfg (max_launch_batch x) to_launch
              Hbatch Hfuel x Hcfg eq_refl)
    as (x' & groups & Hrun & Hq & Hall & _).
  exists x', groups. split_and!; [|done..].
  rewrite <-Hrun. unfold launch_required_nodes. by destruct to_launch.
Qed.
End LaunchRequired.

Lemma launch_required_nodes_requests_witness :
  let x := Samples.object (Sample.two_workers_scaler Sample.valid_config) 3 in
  config (self_scaler x) = Some Sample.valid_config /\
  0 < max_launch_batch x /\
  Forall (fun item => (Z.to_nat item.2 <= 7)%nat) [("w", 7); ("head", 0)] /\
  exists x',
    @launch_required_nodes Samples.loop_collaborators 7 [("w", 7); ("head", 0)] x
      = Some (x', Ok tt) /\
    (launch_queue x').*1.*2 = [3; 3; 1].
Proof.
  cbv zeta.
  assert (Hfuel : Forall (fun item : string * Z => (Z.to_nat item.2 <= 7)%nat)
                    [("w", 7); ("head", 0)]).
  { repeat constructor; cbn; lia. }
  split_and!; [reflexivity | reflexivity | exact Hfuel |].
  destruct (@launch_required_nodes_requests Samples.loop_collaborators 7
              [("w", 7); ("head", 0)]
              (Samples.object
                 (Sample.two_workers_scaler Sample.valid_config) 3)
              Sample.valid_config eq_refl eq_refl Hfuel)
    as (x' & groups & Hrun & _).
  exists x'. split; [exact Hrun|].
  assert (Hcompute :
    (λ o, match o with Some (x, _) => (launch_queue x).*1.*2 | None => [] end)
      (@launch_required_nodes Samples.loop_collaborators 7
         [("w", 7); ("head", 0)]
         (Samples.object
            (Sample.two_workers_scaler Sample.valid_config) 3))
    = [3; 3; 1]) by (vm_compute; reflexivity).
  rewrite Hrun in Hcompute. exact Hcompute.
Defined.

(** ** [_report_pending_infeasible] *)

Lemma with_interval_events_same (x : StandardClusterScaler) :
  with_interval_events (interval_events x) x = x.
Proof. by destruct x. Qed.

Lemma add_each_once_per_interval {A} (f : A -> IntervalEvent) (l : list A)
    (x : StandardClusterScaler) :
  run_for_each l (fun a => add_once_per_interval (f a)) x =
  Some (with_interval_events (interval_events x ++ map f l) x, Ok tt).
Proof.
  revert x. induction l as [|a l IH]; intros x; cbn [run_for_each].
  - cbn. by rewrite app_nil_r, with_interval_events_same.
  - unfold run_bind at 1. unfold add_once_per_interval at 1, run_modify at 1.
    rewrite IH. cbn. by rewrite <-app_assoc.
Qed.

Section Report.
Context `{LoopCollaborators}.

Lemma sort_unfulfilled_loop (s : Scaler) (scheduler : ResourceDemandScheduler)
    (unfulfilled pending infeasible : list ResourceDict) :
  resource_demand_scheduler s = Some scheduler ->
  rfor_fold unfulfilled (pending, infeasible)
    (fun locals bundle =>
       let '(pending, infeasible) := locals in
       if placement_group bundle then Ok locals
       else
         (scheduler <- attribute "resource_demand_scheduler"
                         (resource_demand_scheduler s) ;;
          if is_feasible scheduler bundle
          then Ok (pending ++ [bundle], infeasible)
          else Ok (pending, infeasible ++ [bundle]))%res) =
  Ok (pending ++ reportable scheduler true unfulfilled,
      infeasible ++ reportable scheduler false unfulfilled).
Proof.
  intros Hs.
  match goal with |- rfor_fold _ _ ?f = _ => set (body := f) end.
  revert pending infeasible.
  induction unfulfilled as [|b l IH]; intros pending infeasible.
  - cbn. by rewrite !app_nil_r.
  - cbn [rfor_fold]. unfold body at 1.
    unfold reportable. rewrite (filter_cons _ b).
    destruct (placement_group b) eqn:Hpg; cbn [rbind].
    + rewrite decide_False by done. apply IH.
    + rewrite decide_True by done. rewrite Hs. cbn [attribute rbind].
      rewrite !filter_cons.
      destruct (is_feasible scheduler b) eqn:Hf; cbn [rbind]; rewrite IH.
      * rewrite decide_True by done. rewrite decide_False by done.
        unfold reportable. by rewrite <-app_assoc.
      * rewrite decide_False by done. rewrite decide_True by done.
        unfold reportable. by rewrite <-app_assoc.
Qed.

(** [_report_pending_infeasible] reports no bundle of a placement group
    (one with a key that contains "_group_" or is "bundle").  Of the other
    unfulfilled bundles, those the scheduler finds feasible are reported as
    pending, in their order, but only if the load metrics have detected a
    cluster full of actors; after them those it finds infeasible are
    reported, always.  Nothing else of the object changes. *)
Theorem report_pending_infeasible_events
    (unfulfilled : list ResourceDict) (x : StandardClusterScaler)
    (scheduler : ResourceDemandScheduler) :
  resource_demand_scheduler (self_scaler x) = Some scheduler ->
  _report_pending_infeasible unfulfilled x =
  Some (with_interval_events
          (interval_events x ++
           (if cluster_full_of_actors_detected x
            then map PendingRequest (reportable scheduler true unfulfilled)
            else []) ++
           map InfeasibleRequest (reportable scheduler false unfulfilled))
          x,
        Ok tt).
Proof.
  intros Hs. unfold _report_pending_infeasible.
  unfold run_bind at 1. unfold on_scaler at 1, lift at 1, sort_unfulfilled.
  rewrite (sort_unfulfilled_loop _ scheduler) by done. cbn [app].
  assert (with_scaler (self_scaler x) x = x) as -> by (by destruct x).
  set (pending := reportable scheduler true unfulfilled).
  set (infeasible := reportable scheduler false unfulfilled).
  unfold run_bind at 1.
  assert (Hpending :
    match pending with
    | [] => run_ret tt
    | _ :: _ =>
        (full <- run_gets cluster_full_of_actors_detected ;;
         if (full : bool) then
           run_for_each pending (fun request =>
             add_once_per_interval (PendingRequest request))
         else run_ret tt)%run
    end x =
    Some (with_interval_events
            (interval_events x ++
             (if cluster_full_of_actors_detected x
              then map PendingRequest pending else [])) x, Ok tt)).
  { destruct pending as [|b l] eqn:Hp.
    - cbn. destruct (cluster_full_of_actors_detected x);
        by rewrite app_nil_r, with_interval_events_same.
    - unfold run_bind, run_gets.
      destruct (cluster_full_of_actors_detected x).
      + apply add_each_once_per_interval.
      + cbn. by rewrite app_nil_r, with_interval_events_same. }
  rewrite Hpending.
  destruct infeasible as [|b l] eqn:Hi.
  - cbn. by rewrite !app_nil_r.
  - rewrite add_each_once_per_interval. cbn. by rewrite <-app_assoc.
Qed.
End Report.

Lemma report_pending_infeasible_events_witness :
  let x := Samples.object Samples.two_workers_scaler 3 in
  let unfulfilled :=
    [ {[ "CPU" := 1 ]}; {[ "CPU_group_0" := 1 ]}; {[ "GPU" := 8 ]} ] in
  resource_demand_scheduler (self_scaler x) = Some Samples.scheduler /\
  (interval_events <$>
     (fst <$> @_report_pending_infeasible Samples.loop_collaborators
                unfulfilled x))
    = Some [InfeasibleRequest {[ "GPU" := 8 ]}].
Proof.
  cbv zeta. split; [reflexivity|].
  rewrite (@report_pending_infeasible_events Samples.loop_collaborators
             [ {[ "CPU" := 1 ]}; {[ "CPU_group_0" := 1 ]}; {[ "GPU" := 8 ]} ]
             (Samples.object Samples.two_workers_scaler 3)
             Samples.scheduler eq_refl).
  vm_compute. reflexivity.
Defined.

(** ** What a computation on the whole object leaves in place *)

#[global] Instance run_unchanged_preorder {A}
    (f : StandardClusterScaler -> A) : PreOrder (run_unchanged f).
Proof.
  split.
  - intros x. reflexivity.
  - intros x1 x2 x3 H12 H23. unfold run_unchanged in *. congruence.
Qed.

Section RunAlways.
Context (R : relation StandardClusterScaler) `{!PreOrder R}.

Lemma run_always_ret {A} (a : A) : run_always R (run_ret a).
Proof. intros x x' r [= <- <-]. reflexivity. Qed.

Lemma run_always_raise {A} (e : exn) : run_always R (@run_raise A e).
Proof. intros x x' r [= <- <-]. reflexivity. Qed.

Lemma run_always_out_of_fuel {A} : run_always R (@out_of_fuel A).
Proof. intros x x' r [=]. Qed.

Lemma run_always_gets {A} (f : StandardClusterScaler -> A) :
  run_always R (run_gets f).
Proof. intros x x' r [= <- <-]. reflexivity. Qed.

Lemma run_always_modify (f : StandardClusterScaler -> StandardClusterScaler) :
  (forall x, R x (f x)) -> run_always R (run_modify f).
Proof. intros Hf x x' r [= <- <-]. apply Hf. Qed.

Lemma run_always_bind {A B} (m : Run A) (k : A -> Run B) :
  run_always R m -> (forall a, run_always R (k a)) ->
  run_always R (run_bind m k).
Proof.
  intros Hm Hk x x' r. unfold run_bind.
  destruct (m x) as [[x1 [a|e]]|] eqn:Hmx; [| |done].
  - intros Hrun. etrans; [by eapply Hm | by eapply Hk].
  - intros [= <- <-]. by eapply Hm.
Qed.

Lemma run_always_try_except {A} (m : Run A) (h : exn -> Run A) :
  run_always R m -> (forall e, run_always R (h e)) ->
  run_always R (run_try_except m h).
Proof.
  intros Hm Hh x x' r. unfold run_try_except.
  destruct (m x) as [[x1 [a|e]]|] eqn:Hmx; [| |done].
  - intros [= <- <-]. by eapply Hm.
  - intros Hrun. etrans; [by eapply Hm | by eapply Hh].
Qed.

Lemma run_always_for_each {A} (l : list A) (body : A -> Run unit) :
  (forall a, run_always R (body a)) -> run_always R (run_for_each l body).
Proof.
  intros Hb. induction l as [|a l IH]; cbn [run_for_each].
  - apply run_always_ret.
  - apply run_always_bind; auto.
Qed.
End RunAlways.

(** A method of the first part changes the object only through what it
    changes of the scaler. *)
Lemma run_always_on_scaler {A B} (g : Scaler -> B) (m : Py A) :
  always (unchanged g) m ->
  run_always (run_unchanged (fun x => g (self_scaler x))) (on_scaler m).
Proof.
  intros Hm x x' r. unfold on_scaler. specialize (Hm (self_scaler x)).
  destruct (m (self_scaler x)) as [s' r']. intros [= <- <-]. exact Hm.
Qed.

(** A method of the first part leaves the rest of the object alone. *)
Lemma run_always_on_scaler_rest {A B} (f : StandardClusterScaler -> B)
    (m : Py A) :
  (forall s x, f (with_scaler s x) = f x) ->
  run_always (run_unchanged f) (on_scaler m).
Proof.
  intros Hf x x' r. unfold on_scaler.
  destruct (m (self_scaler x)) as [s' r']. intros [= <- <-]. apply Hf.
Qed.

Section RunTotal.
Lemma run_total_ret {A} (a : A) : run_total (run_ret a).
Proof. intros x. by eexists. Qed.

Lemma run_total_raise {A} (e : exn) : run_total (@run_raise A e).
Proof. intros x. by eexists. Qed.

Lemma run_total_gets {A} (f : StandardClusterScaler -> A) :
  run_total (run_gets f).
Proof. intros x. by eexists. Qed.

Lemma run_total_modify (f : StandardClusterScaler -> StandardClusterScaler) :
  run_total (run_modify f).
Proof. intros x. by eexists. Qed.

Lemma run_total_on_scaler {A} (m : Py A) : run_total (on_scaler m).
Proof. intros x. unfold on_scaler. destruct (m _). by eexists. Qed.

Lemma run_total_bind {A B} (m : Run A) (k : A -> Run B) :
  run_total m -> (forall a, run_total (k a)) -> run_total (run_bind m k).
Proof.
  intros Hm Hk x. unfold run_bind. destruct (Hm x) as [[x1 [a|e]] ->].
  - apply Hk.
  - by eexists.
Qed.

Lemma run_total_try_except {A} (m : Run A) (h : exn -> Run A) :
  run_total m -> (forall e, run_total (h e)) ->
  run_total (run_try_except m h).
Proof.
  intros Hm Hh x. unfold run_try_except.
  destruct (Hm x) as [[x1 [a|e]] ->].
  - by eexists.
  - apply Hh.
Qed.

Lemma run_total_for_each {A} (l : list A) (body : A -> Run unit) :
  (forall a, run_total (body a)) -> run_total (run_for_each l body).
Proof.
  intros Hb. induction l as [|a l IH]; cbn [run_for_each].
  - apply run_total_ret.
  - apply run_total_bind; auto.
Qed.
End RunTotal.

(** Splits a computation on the whole object along its binds and branches. *)
Ltac run_step :=
  match goal with
  | |- run_always _ (run_bind _ _) =>
      apply run_always_bind; [apply _ | | intros ?]
  | |- run_always _ (run_try_except _ _) =>
      apply run_always_try_except; [apply _ | | intros ?]
  | |- run_always _ (run_ret _) => apply run_always_ret; apply _
  | |- run_always _ (run_raise _) => apply run_always_raise; apply _
  | |- run_always _ (run_gets _) => apply run_always_gets; apply _
  | |- run_always _ out_of_fuel => apply run_always_out_of_fuel
  | |- run_always _ (run_for_each _ _) =>
      apply run_always_for_each; [apply _ | intros ?]
  | |- run_always _ (run_modify _) => apply run_always_modify; intros ?
  | |- run_always _ (loop_log _ _) => apply run_always_modify; intros ?
  | |- run_always _ (add_once_per_interval _) =>
      apply run_always_modify; intros ?
  | |- run_always _ (if ?b then _ else _) => destruct b
  | |- run_always _ (match ?x with _ => _ end) => destruct x
  end.

Ltac total_step :=
  match goal with
  | |- run_total (run_bind _ _) => apply run_total_bind; [| intros ?]
  | |- run_total (run_try_except _ _) =>
      apply run_total_try_except; [| intros ?]
  | |- run_total (run_ret _) => apply run_total_ret
  | |- run_total (run_raise _) => apply run_total_raise
  | |- run_total (run_gets _) => apply run_total_gets
  | |- run_total (run_modify _) => apply run_total_modify
  | |- run_total (loop_log _ _) => apply run_total_modify
  | |- run_total (add_once_per_interval _) => apply run_total_modify
  | |- run_total (on_scaler _) => apply run_total_on_scaler
  | |- run_total (run_for_each _ _) => apply run_total_for_each; intros ?
  | |- run_total (if ?b then _ else _) => destruct b
  | |- run_total (match ?x with _ => _ end) => destruct x
  end.

(** ** [set_prometheus_updater_data] *)

Lemma count_recovering (s : Scaler) (refs : list nat) (n : Z) :
  Forall (fun ref => is_Some (threads s !! ref)) refs ->
  rfor_fold refs n
    (fun num_recovering ref =>
       (updater <- thread_object s ref ;;
        if u_for_recovery updater
        then Ok (num_recovering + 1)
        else Ok num_recovering)%res) =
  Ok (n + Z.of_nat (length
        (filter (fun ref =>
           (u_for_recovery <$> threads s !! ref) = Some true) refs))).
Proof.
  intros Hall. revert n. induction Hall as [|ref refs [u Hu] _ IH]; intros n.
  - cbn. f_equal. lia.
  - cbn [rfor_fold]. unfold thread_object, index. rewrite Hu. cbn [rbind].
    rewrite filter_cons, Hu. cbn [fmap option_fmap option_map].
    destruct (u_for_recovery u); cbn [rbind]; rewrite IH.
    + rewrite decide_True by done. cbn [length]. f_equal. lia.
    + rewrite decide_False by done. done.
Qed.

(** When every entry of [self.updaters] names a thread object,
    [set_prometheus_updater_data] sets the gauge of the updating nodes to
    the number of entries and the gauge of the recovering nodes to the number
    of entries whose thread was started for a recovery, which is at most the
    former; the scaler itself is left as it is. *)
Theorem updater_gauges (x : StandardClusterScaler) :
  let s := self_scaler x in
  Forall (fun entry => is_Some (threads s !! entry.2)) (updaters s) ->
  exists x',
    set_prometheus_updater_data x = Some (x', Ok tt) /\
    self_scaler x' = s /\
    gauge_updating_nodes x' = Z.of_nat (length (updaters s)) /\
    gauge_recovering_nodes x' = Z.of_nat (length (recovery_updaters s)) /\
    0 <= gauge_recovering_nodes x' <= gauge_updating_nodes x'.
Proof.
  intros s Hall. unfold set_prometheus_updater_data.
  unfold run_bind at 1. unfold run_gets at 1.
  unfold run_bind at 1. unfold run_modify at 1.
  unfold run_bind at 1. unfold on_scaler at 1, lift at 1.
  cbn [self_scaler with_gauge_updating_nodes]. fold s.
  rewrite count_recovering.
  2:{ unfold OD.values. by apply Forall_fmap. }
  unfold run_modify. eexists. split; [reflexivity|].
  cbn [self_scaler with_gauge_recovering_nodes with_scaler
       with_gauge_updating_nodes gauge_updating_nodes gauge_recovering_nodes].
  assert (Hlen : length (filter (fun ref =>
             (u_for_recovery <$> threads s !! ref) = Some true)
             (OD.values (updaters s))) = length (recovery_updaters s)).
  { unfold recovery_updaters, OD.values. clear Hall.
    induction (updaters s) as [|e l IHl]; [done|].
    cbn [fmap list_fmap]. rewrite !filter_cons. cbn [snd].
    destruct (decide _); cbn [length]; congruence. }
  rewrite Hlen. split_and!; [done..|lia|lia|].
  - pose proof (length_filter (fun entry : string * nat =>
      (u_for_recovery <$> threads s !! entry.2) = Some true) (updaters s)).
    unfold recovery_updaters. lia.
Qed.

(** "w1" is being set up, "w2" is being recovered. *)
Lemma updater_gauges_witness :
  let s := set_updaters [("w1", 0%nat); ("w2", 1%nat)]
             (set_threads [Samples.thread "w1" false;
                           Samples.thread "w2" true]
                Samples.two_workers_scaler) in
  let x := Samples.object s 3 in
  Forall (fun entry : string * nat => is_Some (threads s !! entry.2))
    (updaters s) /\
  exists x',
    set_prometheus_updater_data x = Some (x', Ok tt) /\
    gauge_updating_nodes x' = 2 /\
    gauge_recovering_nodes x' = 1.
Proof.
  cbv zeta.
  assert (Hall : Forall (fun entry : string * nat =>
            is_Some (threads (set_updaters [("w1", 0%nat); ("w2", 1%nat)]
                       (set_threads [Samples.thread "w1" false;
                                     Samples.thread "w2" true]
                          Samples.two_workers_scaler)) !! entry.2))
          [("w1", 0%nat); ("w2", 1%nat)]).
  { repeat constructor; by eexists. }
  split; [exact Hall|].
  destruct (updater_gauges
              (Samples.object
                 (set_updaters [("w1", 0%nat); ("w2", 1%nat)]
                    (set_threads [Samples.thread "w1" false;
                                  Samples.thread "w2" true]
                       Samples.two_workers_scaler)) 3) Hall)
    as (x' & Hrun & _ & Hupdating & Hrecovering & _).
  exists x'. split_and!; [exact Hrun | exact Hupdating | exact Hrecovering].
Defined.

(** ** [update]: the failures of the ticks *)

Lemma launch_batches_frame {B} (f : StandardClusterScaler -> B)
    (cfg : Config) (t : NodeType) (fuel : nat) :
  (forall q x, f (with_launch_queue q x) = f x) ->
  forall count, run_always (run_unchanged f) (launch_batches fuel cfg t count).
Proof.
  intros Hf. induction fuel as [|fuel IH]; intros count; cbn [launch_batches].
  - destruct (0 <? count); run_step.
  - destruct (0 <? count); [|run_step].
    repeat run_step; [apply Hf | apply IH].
Qed.

Section TickFrames.
Context `{Collaborators} `{LoopCollaborators}.

(** The methods of a tick leave the failures of the ticks and the
    throttle alone. *)
Lemma tick_methods_frame (now : Z) :
  let g := fun s => (failure_view s, update_interval_s s) in
  always (unchanged g) (terminate_nodes_to_enforce_config_constraints now) /\
  always (unchanged g) (terminate_unhealthy_nodes now) /\
  always (unchanged g) process_completed_updates /\
  always (unchanged g) update_nodes /\
  always (unchanged g) (attempt_to_recover_unhealthy_nodes now).
Proof.
  cbv zeta. split_and!.
  - unfold terminate_nodes_to_enforce_config_constraints, enforce_body,
      enforce_max_workers, terminate_scheduled_nodes,
      schedule_node_termination.
    repeat always_step; reflexivity.
  - unfold terminate_unhealthy_nodes, unhealthy_body,
      terminate_scheduled_nodes, load_metrics_mark_active,
      schedule_node_termination.
    repeat always_step; reflexivity.
  - unfold process_completed_updates, completed_body,
      terminate_scheduled_nodes, load_metrics_mark_active,
      schedule_node_termination.
    repeat always_step; reflexivity.
  - unfold update_nodes, update_threads, run_update_thread, spawn_updater,
      should_update, can_update, files_up_to_date, start_updater.
    repeat always_step; reflexivity.
  - unfold attempt_to_recover_unhealthy_nodes, recover_if_needed,
      can_update, start_updater.
    repeat always_step; reflexivity.
Qed.

Lemma reset_failure_frame (config_reader : result Config)
    (errors_fatal : bool) :
  always (unchanged (fun s => (failure_view s, throttle_view s)))
    (reset config_reader errors_fatal).
Proof.
  unfold reset, reset_assign, reset_apply. repeat always_step; reflexivity.
Qed.

Lemma _update_failure_frame (fuel : nat) (now later : Z) :
  run_always (run_unchanged (fun x => failure_view (self_scaler x)))
    (_update fuel now later).
Proof.
  destruct (tick_methods_frame now) as (He & Hu & Hp & Hn & Ha).
  assert (Hsub : forall A (m : Py A),
    always (unchanged (fun s => (failure_view s, update_interval_s s))) m ->
    always (unchanged failure_view) m).
  { intros A m Hm s. specialize (Hm s). unfold unchanged in *.
    congruence. }
  unfold _update, _report_pending_infeasible, launch_required_nodes,
    launch_new_node, set_prometheus_updater_data.
  repeat first
    [ run_step
    | apply (run_always_on_scaler failure_view)
    | apply launch_batches_frame; reflexivity ];
    try reflexivity.
  all: try (apply Hsub; assumption).
  all: try (repeat always_step; reflexivity).
Qed.

(** The failures of the ticks.  A call of [update] that returns or
    raises leaves [max_failures] as it is and raises the count of the
    failures by one at most; the count is never lowered.  The call raises
    only if the count then exceeds [max_failures], or if the type of the
    provider cannot be read from the configuration in force (the handler
    itself then raises).  A failure is counted only for a tick that raised,
    which is also counted in [update_loop_exceptions]; a tick that raised
    nothing leaves the count alone and [update] returns.  And when a tick
    has raised and the count exceeds [max_failures], [update] does
    raise. *)
Theorem update_failure_budget (fuel : nat) (config_reader : result Config)
    (now later : Z) (x x' : StandardClusterScaler) (r : result unit) :
  update fuel config_reader now later x = Some (x', r) ->
  let s := self_scaler x in
  let s' := self_scaler x' in
  let exceptions s := update_loop_exceptions (prometheus_metrics s) in
  max_failures s' = max_failures s /\
  num_failures s <= num_failures s' <= num_failures s + 1 /\
  (forall e, r = Raise e ->
     max_failures s < num_failures s' \/ provider_type_of s' = None) /\
  (exceptions s' = exceptions s \/ exceptions s' = exceptions s + 1) /\
  (exceptions s' = exceptions s ->
     r = Ok tt /\ num_failures s' = num_failures s) /\
  (exceptions s' = exceptions s + 1 ->
     max_failures s < num_failures s' ->
     exists e, r = Raise e).
Proof.
  unfold update. unfold run_try_except.
  match goal with |- context [match ?m x with _ => _ end] =>
    set (body := m) end.
  assert (Hframe : run_always
            (run_unchanged (fun x => failure_view (self_scaler x))) body).
  { subst body. apply run_always_bind; [apply _ | | intros _].
    - apply (run_always_on_scaler failure_view).
      intros s0. pose proof (reset_failure_frame config_reader false s0) as Hr.
      unfold unchanged in *. congruence.
    - apply _update_failure_frame. }
  destruct (body x) as [[x1 [[]|e]]|] eqn:Hbody; [| |done].
  - intros [= <- <-]. specialize (Hframe _ _ _ Hbody).
    unfold run_unchanged, failure_view in Hframe.
    injection Hframe as Hn Hm He. cbv zeta.
    rewrite Hn, Hm, He. split_and!; try done; try lia; auto.
  - specialize (Hframe _ _ _ Hbody).
    unfold run_unchanged, failure_view in Hframe.
    injection Hframe as Hn Hm He.
    unfold run_bind at 1. unfold on_scaler at 1, metric at 1, modify at 1.
    unfold run_bind at 1. unfold loop_log at 1, run_modify at 1.
    unfold run_bind at 1. unfold on_scaler at 1, lift at 1.
    cbn [self_scaler with_scaler with_loop_logger].
    unfold the_config. cbn [config set_prometheus_metrics].
    unfold provider_type_of.
    destruct (config (self_scaler x1)) as [cfg|] eqn:Hcfg;
      cbn [attribute rbind].
    2:{ intros [= <- <-]. cbv zeta. cbn. rewrite Hcfg, Hn, Hm, He. cbn.
        split_and!; try done; try lia; eauto. }
    destruct (cfg_provider cfg) as [pc|] eqn:Hpc; cbn [subscript rbind].
    2:{ intros [= <- <-]. cbv zeta. cbn. rewrite Hcfg, Hn, Hm, He. cbn.
        rewrite Hpc. split_and!; try done; try lia; eauto. }
    destruct (provider_type pc) as [ty|] eqn:Hty; cbn [subscript rbind].
    2:{ intros [= <- <-]. cbv zeta. cbn. rewrite Hcfg, Hn, Hm, He. cbn.
        rewrite Hpc. cbn. rewrite Hty.
        split_and!; try done; try lia; eauto. }
    unfold run_bind at 1.
    destruct (negb (bool_decide (ty = "kubernetes") && is_MaxRetryError e)).
    + unfold on_scaler at 1, modify at 1.
      unfold run_bind at 1. unfold run_gets at 1.
      unfold run_bind at 1. unfold run_gets at 1.
      cbn [self_scaler with_scaler num_failures max_failures
           set_num_failures set_prometheus_metrics].
      destruct (Z.ltb_spec (max_failures (self_scaler x1))
                  (num_failures (self_scaler x1) + 1)).
      * unfold run_bind, loop_log, run_modify, run_raise.
        intros [= <- <-]. cbv zeta. cbn. rewrite Hn, Hm, He.
        split_and!; try done; try lia; eauto.
      * unfold run_ret. intros [= <- <-]. cbv zeta. cbn.
        rewrite Hn, Hm, He.
        split_and!; try done; try lia; eauto.
    + unfold run_ret at 1.
      unfold run_bind at 1. unfold run_gets at 1.
      unfold run_bind at 1. unfold run_gets at 1.
      cbn [self_scaler with_scaler num_failures max_failures
           set_num_failures set_prometheus_metrics].
      destruct (Z.ltb_spec (max_failures (self_scaler x1))
                  (num_failures (self_scaler x1))).
      * unfold run_bind, loop_log, run_modify, run_raise.
        intros [= <- <-]. cbv zeta. cbn. rewrite Hn, Hm, He.
        split_and!; try done; try lia; eauto.
      * unfold run_ret. intros [= <- <-]. cbv zeta. cbn.
        rewrite Hn, Hm, He.
        split_and!; try done; try lia; eauto.
Qed.
End TickFrames.

(** The sample cluster at time 1000: the tick terminates the idle worker
    "w2" and queues the launch of seven workers. *)
Lemma update_failure_budget_witness :
  let x := Samples.object Samples.two_workers_scaler 3 in
  exists x' r,
    @update Sample.collaborators Samples.loop_collaborators 10
      (Ok Sample.valid_config) 1000 1001 x = Some (x', r) /\
    num_failures (self_scaler x) <= num_failures (self_scaler x')
      <= num_failures (self_scaler x) + 1.
Proof.
  cbv zeta.
  assert (Hsome :
    match @update Sample.collaborators Samples.loop_collaborators 10
            (Ok Sample.valid_config) 1000 1001
            (Samples.object Samples.two_workers_scaler 3)
    with Some _ => true | None => false end = true)
    by (vm_compute; reflexivity).
  destruct (@update Sample.collaborators Samples.loop_collaborators 10
              (Ok Sample.valid_config) 1000 1001
              (Samples.object Samples.two_workers_scaler 3))
    as [[x' r]|] eqn:Hrun; [|discriminate Hsome].
  exists x', r. split; [reflexivity|].
  destruct (@update_failure_budget Sample.collaborators
              Samples.loop_collaborators _ _ _ _ _ _ _ Hrun)
    as (_ & Hcount & _).
  exact Hcount.
Defined.

Section Throttle.
Context `{Collaborators} `{LoopCollaborators}.

Lemma reset_non_fatal_ok (config_reader : result Config) (s : Scaler) :
  (reset config_reader false s).2 = Ok tt.
Proof.
  rewrite reset_unfold. unfold try_except.
  match goal with |- context [match ?m s with _ => _ end] =>
    destruct (m s) as [s1 [[]|e]] end; reflexivity.
Qed.

(** A call of [update] less than [update_interval_s] after the time of the
    last tick reloads the configuration and does nothing else: the
    provider is not asked about its nodes, nothing is terminated, updated
    or launched, and the call returns. *)
Theorem throttled_update_only_reloads (fuel : nat)
    (config_reader : result Config) (now later : Z)
    (x : StandardClusterScaler) :
  now - last_update_time (self_scaler x) < update_interval_s (self_scaler x) ->
  update fuel config_reader now later x =
  Some (with_scaler (reset config_reader false (self_scaler x)).1 x, Ok tt).
Proof.
  intros Hthrottle. unfold update, run_try_except.
  unfold run_bind at 1. unfold on_scaler at 1.
  pose proof (reset_non_fatal_ok config_reader (self_scaler x)) as Hok.
  pose proof (reset_failure_frame config_reader false (self_scaler x))
    as Hframe.
  destruct (reset config_reader false (self_scaler x)) as [s1 r].
  cbn [fst snd] in *. subst r. unfold unchanged, throttle_view in Hframe.
  injection Hframe as _ _ _ Hlast Hinterval.
  unfold _update. unfold run_bind at 1. unfold run_gets at 1.
  unfold run_bind at 1. unfold run_gets at 1.
  cbn [self_scaler with_scaler]. rewrite Hlast, Hinterval.
  rewrite (proj2 (Z.ltb_lt _ _) Hthrottle). reflexivity.
Qed.

Lemma NonTerminatedNodes_init_untagged (p : Provider) (node : NodeID) :
  node ∈ non_terminated_nodes p ->
  node_tags p node !! CLOUDTIK_TAG_NODE_KIND = None ->
  NonTerminatedNodes_init p = Raise (KeyError CLOUDTIK_TAG_NODE_KIND).
Proof.
  unfold NonTerminatedNodes_init.
  generalize {| all_node_ids := non_terminated_nodes p;
                worker_ids := []; head_id := None |} as self.
  induction (non_terminated_nodes p) as [|n l IH]; intros self Hin Hkind.
  - by apply elem_of_nil in Hin.
  - cbn [rfor_fold].
    destruct (node_tags p n !! CLOUDTIK_TAG_NODE_KIND) as [kind|] eqn:Hn;
      [|reflexivity].
    cbn [subscript rbind].
    apply elem_of_cons in Hin as [->|Hin]; [congruence|].
    repeat case_bool_decide; cbn [rbind]; by apply IH.
Qed.

(** A tick that meets a node without its kind tag stops there.  When the
    provider lists such a node and the tick is not throttled, [_update]
    raises [KeyError] for the tag, having assigned nothing but
    [last_update_time]: the node views are those of the tick before, no
    node is terminated, updated or launched; and the ticks of the next
    [update_interval_s] seconds are throttled. *)
Theorem _update_stops_at_untagged_node (fuel : nat) (now later : Z)
    (x : StandardClusterScaler) (p : Provider) (node : NodeID) :
  provider (self_scaler x) = Some p ->
  node ∈ non_terminated_nodes p ->
  node_tags p node !! CLOUDTIK_TAG_NODE_KIND = None ->
  update_interval_s (self_scaler x) <= now - last_update_time (self_scaler x) ->
  _update fuel now later x =
  Some (with_scaler (set_last_update_time now (self_scaler x)) x,
        Raise (KeyError CLOUDTIK_TAG_NODE_KIND)).
Proof.
  intros Hp Hin Hkind Hdue. unfold _update.
  unfold run_bind at 1. unfold run_gets at 1.
  unfold run_bind at 1. unfold run_gets at 1.
  rewrite (proj2 (Z.ltb_ge _ _) Hdue).
  unfold run_bind at 1. unfold on_scaler at 1, modify at 1.
  unfold run_bind at 1. unfold on_scaler at 1, lift at 1, the_provider.
  cbn [self_scaler with_scaler provider set_last_update_time].
  rewrite Hp. cbn [attribute].
  unfold run_bind at 1. unfold on_scaler at 1, lift at 1.
  rewrite (NonTerminatedNodes_init_untagged p node Hin Hkind).
  reflexivity.
Qed.
End Throttle.

Lemma throttled_update_only_reloads_witness :
  let x := Samples.object Samples.two_workers_scaler 3 in
  3 - last_update_time (self_scaler x) < update_interval_s (self_scaler x) /\
  @update Sample.collaborators Samples.loop_collaborators 10
    (Ok Sample.valid_config) 3 4 x =
  Some (with_scaler
          (@reset Sample.collaborators (Ok Sample.valid_config) false
             (self_scaler x)).1 x, Ok tt).
Proof.
  cbv zeta. split; [reflexivity|].
  apply (@throttled_update_only_reloads Sample.collaborators
           Samples.loop_collaborators 10 (Ok Sample.valid_config) 3 4
           (Samples.object Samples.two_workers_scaler 3)).
  reflexivity.
Defined.

Lemma _update_stops_at_untagged_node_witness :
  let x := Samples.object Samples.untagged_scaler 3 in
  provider (self_scaler x) = Some Samples.untagged_cloud /\
  "new" ∈ non_terminated_nodes Samples.untagged_cloud /\
  node_tags Samples.untagged_cloud "new" !! CLOUDTIK_TAG_NODE_KIND = None /\
  update_interval_s (self_scaler x)
    <= 1000 - last_update_time (self_scaler x) /\
  @_update Sample.collaborators Samples.loop_collaborators 10 1000 1001 x =
  Some (with_scaler (set_last_update_time 1000 (self_scaler x)) x,
        Raise (KeyError CLOUDTIK_TAG_NODE_KIND)).
Proof.
  cbv zeta.
  assert (Hin : "new" ∈ non_terminated_nodes Samples.untagged_cloud).
  { cbn. set_solver. }
  assert (Hdue : update_interval_s Samples.untagged_scaler
                 <= 1000 - last_update_time Samples.untagged_scaler)
    by (cbn; lia).
  split_and!; [reflexivity | exact Hin | reflexivity | exact Hdue |].
  exact (@_update_stops_at_untagged_node Sample.collaborators
           Samples.loop_collaborators 10 1000 1001
           (Samples.object Samples.untagged_scaler 3)
           Samples.untagged_cloud "new" eq_refl Hin eq_refl Hdue).
Defined.

(** ** [update] returns *)

Lemma returns_eventually_total {A} (m : Run A) :
  run_total m -> returns_eventually (fun _ => m).
Proof. intros Hm x _. exists 0%nat. intros _ _. apply Hm. Qed.

Lemma returns_eventually_bind {A B} (m : Run A) (k : nat -> A -> Run B) :
  run_total m ->
  run_always (run_unchanged max_launch_batch) m ->
  (forall a, returns_eventually (fun fuel => k fuel a)) ->
  returns_eventually (fun fuel => run_bind m (k fuel)).
Proof.
  intros Hm Hframe Hk x Hx. unfold run_bind.
  destruct (Hm x) as [[x1 [a|e]] Hrun]; rewrite Hrun.
  - apply (Hk a). specialize (Hframe _ _ _ Hrun).
    unfold run_unchanged in Hframe. by rewrite Hframe.
  - exists 0%nat. intros _ _. by eexists.
Qed.

Lemma returns_eventually_then {A B} (m : nat -> Run A) (k : A -> Run B) :
  returns_eventually m ->
  (forall a, run_total (k a)) ->
  returns_eventually (fun fuel => run_bind (m fuel) k).
Proof.
  intros Hm Hk x Hx. destruct (Hm x Hx) as [fuel0 Hfuel0].
  exists fuel0. intros fuel Hfuel. unfold run_bind.
  destruct (Hfuel0 fuel Hfuel) as [[x1 [a|e]] ->].
  - apply Hk.
  - by eexists.
Qed.

Lemma returns_eventually_try_except {A} (m : nat -> Run A) (h : exn -> Run A) :
  returns_eventually m ->
  (forall e, run_total (h e)) ->
  returns_eventually (fun fuel => run_try_except (m fuel) h).
Proof.
  intros Hm Hh x Hx. destruct (Hm x Hx) as [fuel0 Hfuel0].
  exists fuel0. intros fuel Hfuel. unfold run_try_except.
  destruct (Hfuel0 fuel Hfuel) as [[x1 [a|e]] ->].
  - by eexists.
  - apply Hh.
Qed.

Section Returns.
Context `{Collaborators} `{LoopCollaborators}.

Lemma launch_new_node_frame {B} (f : StandardClusterScaler -> B)
    (fuel : nat) (count : Z) (t : NodeType) :
  (forall q x, f (with_launch_queue q x) = f x) ->
  (forall s x, f (with_scaler s x) = f x) ->
  (forall l x, f (with_loop_logger l x) = f x) ->
  (forall v x, f (with_gauge_pending_nodes v x) = f x) ->
  run_always (run_unchanged f) (launch_new_node fuel count t).
Proof.
  intros Hq Hs Hl Hg. unfold launch_new_node.
  repeat first
    [ run_step
    | apply run_always_on_scaler_rest; exact Hs
    | apply launch_batches_frame; exact Hq ];
    unfold run_unchanged; auto.
Qed.

Lemma launch_new_node_returns (fuel : nat) (count : Z) (t : NodeType)
    (x : StandardClusterScaler) :
  0 < max_launch_batch x ->
  (Z.to_nat count <= fuel)%nat ->
  is_Some (launch_new_node fuel count t x).
Proof.
  intros Hbatch Hfuel.
  destruct (config (self_scaler x)) as [cfg|] eqn:Hcfg.
  - destruct (launch_new_node_batches fuel count t x cfg Hcfg Hbatch Hfuel)
      as (sizes & -> & _). by eexists.
  - unfold launch_new_node.
    unfold run_bind, loop_log, on_scaler, run_modify, run_gets.
    cbn. unfold the_config. cbn. rewrite Hcfg. cbn. by eexists.
Qed.

Lemma launch_required_nodes_returns (to_launch : odict Z) :
  returns_eventually (fun fuel => launch_required_nodes fuel to_launch).
Proof.
  intros x Hx.
  exists (Z.to_nat (foldr Z.max 0 to_launch.*2)). intros fuel Hfuel.
  assert (Hall : Forall (fun item : string * Z =>
                           (Z.to_nat item.2 <= fuel)%nat) to_launch).
  { clear Hx. induction to_launch as [|[t c] l IH]; [constructor|].
    cbn in Hfuel. constructor; [cbn; lia|]. apply IH. lia. }
  unfold launch_required_nodes.
  assert (Hloop : is_Some
    (run_for_each to_launch (fun item =>
       let '(node_type, count) := item in
       launch_new_node fuel count node_type) x)).
  { clear Hfuel. revert x Hx.
    induction Hall as [|[t c] l Hc _ IH]; intros x Hx; cbn [run_for_each].
    - by eexists.
    - unfold run_bind.
      destruct (launch_new_node_returns fuel c t x Hx Hc)
        as [[x1 [[]|e]] Hrun]; rewrite Hrun; [|by eexists].
      apply IH.
      pose proof (launch_new_node_frame max_launch_batch fuel c t) as Hf.
      rewrite <-(Hf ltac:(done) ltac:(done) ltac:(done) ltac:(done)
                   _ _ _ Hrun) in Hx.
      exact Hx. }
  destruct to_launch; [by eexists | exact Hloop].
Qed.

(** Steps through a computation that has the launches at its end. *)
Ltac returns_step :=
  match goal with
  | |- returns_eventually (fun fuel => run_bind (launch_required_nodes _ _) _) =>
      apply (returns_eventually_then
               (fun fuel => launch_required_nodes fuel _));
        [apply launch_required_nodes_returns | intros ?]
  | |- returns_eventually (fun fuel => run_bind _ _) =>
      apply returns_eventually_bind; [ | | intros ?]
  | |- returns_eventually (fun fuel => if ?b then _ else _) => destruct b
  | |- returns_eventually (fun fuel => match ?v with _ => _ end) =>
      destruct v
  | |- returns_eventually (fun fuel => run_ret _) =>
      apply returns_eventually_total, run_total_ret
  end.

Lemma set_prometheus_updater_data_total :
  run_total set_prometheus_updater_data.
Proof. unfold set_prometheus_updater_data. repeat total_step. Qed.

Lemma _report_pending_infeasible_total (unfulfilled : list ResourceDict) :
  run_total (_report_pending_infeasible unfulfilled).
Proof. unfold _report_pending_infeasible. repeat total_step. Qed.

Lemma _update_returns (now later : Z) :
  returns_eventually (fun fuel => _update fuel now later).
Proof.
  unfold _update.
  repeat returns_step.
  all: try (repeat first
              [ total_step
              | apply set_prometheus_updater_data_total
              | apply _report_pending_infeasible_total ]; fail).
  all: try (unfold set_prometheus_updater_data, _report_pending_infeasible;
            repeat first
              [ run_step
              | apply run_always_on_scaler_rest; reflexivity ];
            reflexivity).
Qed.

(** [update] returns or raises, for every configuration read and at every
    time, on an object whose [max_launch_batch] is positive: some bound on
    the iterations of the loop of [launch_new_node] suffices, and so does
    every greater one. *)
Theorem update_returns (config_reader : result Config) (now later : Z)
    (x : StandardClusterScaler) :
  0 < max_launch_batch x ->
  exists fuel0, forall fuel,
    (fuel0 <= fuel)%nat ->
    is_Some (update fuel config_reader now later x).
Proof.
  revert x.
  change (returns_eventually
            (fun fuel => update fuel config_reader now later)).
  unfold update.
  apply (returns_eventually_try_except
           (fun fuel => run_bind (on_scaler (reset config_reader false))
                          (fun _ => _update fuel now later))).
  - apply returns_eventually_bind.
    + apply run_total_on_scaler.
    + apply run_always_on_scaler_rest. reflexivity.
    + intros _. apply _update_returns.
  - intros e. repeat total_step.
Qed.
End Returns.

Lemma update_returns_witness :
  let x := Samples.object Samples.two_workers_scaler 3 in
  0 < max_launch_batch x /\
  exists fuel0, forall fuel,
    (fuel0 <= fuel)%nat ->
    is_Some (@update Sample.collaborators Samples.loop_collaborators fuel
               (Ok Sample.valid_config) 1000 1001 x).
Proof.
  cbv zeta. split; [reflexivity|].
  apply (@update_returns Sample.collaborators Samples.loop_collaborators).
  reflexivity.
Defined.


(** ** Ticks with the node updaters disabled *)

#[global] Instance updaters_stay_disabled_preorder :
  PreOrder updaters_stay_disabled.
Proof.
  split.
  - intros x Hx. done.
  - intros x1 x2 x3 H12 H23 H1. destruct (H12 H1) as [H2 Hv12].
    destruct (H23 H2) as [H3 Hv23]. split; [done|congruence].
Qed.

Lemma updaters_stay_disabled_on_scaler {A} (m : Py A) :
  always (unchanged (fun s => (disable_node_updaters s, updater_view s))) m ->
  run_always updaters_stay_disabled (on_scaler m).
Proof.
  intros Hm x x' r. unfold on_scaler. specialize (Hm (self_scaler x)).
  destruct (m (self_scaler x)) as [s' r']. intros [= <- <-] Hx.
  unfold unchanged in Hm. cbn [fst] in Hm.
  pose proof (f_equal fst Hm) as Hd. pose proof (f_equal snd Hm) as Hv.
  cbn [fst snd] in Hd, Hv.
  cbn [self_scaler with_scaler]. split; [congruence | done].
Qed.

Lemma updaters_stay_disabled_rest (x x' : StandardClusterScaler) :
  self_scaler x' = self_scaler x -> updaters_stay_disabled x x'.
Proof. intros Heq Hx. by rewrite Heq. Qed.

(** The branch of [_update] on the switch, and what follows it. *)
Lemma updaters_stay_disabled_switch (A B rest : Run unit) :
  run_always updaters_stay_disabled A ->
  run_always updaters_stay_disabled rest ->
  run_always updaters_stay_disabled
    (run_bind (run_gets (fun x => disable_node_updaters (self_scaler x)))
       (fun disabled =>
          run_bind (if (disabled : bool) then A else B) (fun _ => rest))).
Proof.
  intros HA Hrest x x' r Hrun Hx.
  unfold run_bind at 1 in Hrun. unfold run_gets at 1 in Hrun.
  rewrite Hx in Hrun.
  by apply (run_always_bind _ A (fun _ => rest) HA (fun _ => Hrest)
              x x' r Hrun).
Qed.

Section Disabled.
Context `{Collaborators} `{LoopCollaborators}.

Lemma launch_batches_scaler (cfg : Config) (t : NodeType) (fuel : nat) :
  forall count,
    run_always (run_unchanged self_scaler)
      (launch_batches fuel cfg t count).
Proof. apply launch_batches_frame. reflexivity. Qed.

(** With [disable_node_updaters] switched on, a call of [update], whatever
    it meets, starts no updater thread and removes none: the updater map
    and the thread objects are left as they are, and so is the switch. *)
Theorem update_with_disabled_updaters (fuel : nat)
    (config_reader : result Config) (now later : Z)
    (x x' : StandardClusterScaler) (r : result unit) :
  disable_node_updaters (self_scaler x) = true ->
  update fuel config_reader now later x = Some (x', r) ->
  disable_node_updaters (self_scaler x') = true /\
  updaters (self_scaler x') = updaters (self_scaler x) /\
  threads (self_scaler x') = threads (self_scaler x).
Proof.
  intros Hx Hrun.
  assert (Hall : run_always updaters_stay_disabled
                   (update fuel config_reader now later)).
  2:{ destruct (Hall _ _ _ Hrun Hx) as [Hd Hv].
      unfold updater_view in Hv. injection Hv as Hu Ht. done. }
  clear. unfold update, _update, _report_pending_infeasible,
    launch_required_nodes, launch_new_node.
  repeat first
    [ apply updaters_stay_disabled_switch
    | run_step
    | apply updaters_stay_disabled_on_scaler ].
  all: try (apply updaters_stay_disabled_rest; reflexivity).
  all: try (unfold reset, reset_assign, reset_apply,
              terminate_nodes_to_enforce_config_constraints, enforce_body,
              enforce_max_workers, terminate_unhealthy_nodes, unhealthy_body,
              terminate_scheduled_nodes, load_metrics_mark_active,
              schedule_node_termination;
            repeat always_step; reflexivity).
  all: intros x0 x1 r0 Hb; apply updaters_stay_disabled_rest;
    exact (launch_batches_scaler _ _ _ _ _ _ _ Hb).
Qed.
End Disabled.

Lemma update_with_disabled_updaters_witness :
  let x := Samples.object Samples.disabled_scaler 3 in
  disable_node_updaters (self_scaler x) = true /\
  exists x' r,
    @update Sample.collaborators Samples.loop_collaborators 10
      (Ok Sample.valid_config) 1000 1001 x = Some (x', r) /\
    threads (self_scaler x') = [].
Proof.
  cbv zeta. split; [reflexivity|].
  assert (Hsome :
    match @update Sample.collaborators Samples.loop_collaborators 10
            (Ok Sample.valid_config) 1000 1001
            (Samples.object Samples.disabled_scaler 3)
    with Some _ => true | None => false end = true)
    by (vm_compute; reflexivity).
  destruct (@update Sample.collaborators Samples.loop_collaborators 10
              (Ok Sample.valid_config) 1000 1001
              (Samples.object Samples.disabled_scaler 3))
    as [[x' r]|] eqn:Hrun; [|discriminate Hsome].
  exists x', r. split; [reflexivity|].
  destruct (@update_with_disabled_updaters Sample.collaborators
              Samples.loop_collaborators 10 (Ok Sample.valid_config)
              1000 1001 (Samples.object Samples.disabled_scaler 3)
              x' r eq_refl Hrun)
    as (_ & _ & Hthreads).
  exact Hthreads.
Defined.

(** ** [_get_nodes_needed_for_request_resources] *)

Lemma rfor_fold_raises {A B} (body : B -> A -> result B) (l : list A) (a : A) :
  a ∈ l ->
  (forall acc, exists e, body acc a = Raise e) ->
  forall acc, exists e, rfor_fold l acc body = Raise e.
Proof.
  intros Hin Hraise. induction l as [|x l IH]; intros acc.
  - by apply elem_of_nil in Hin.
  - cbn [rfor_fold]. apply elem_of_cons in Hin as [<-|Hin].
    + destruct (Hraise acc) as [e ->]. by exists e.
    + destruct (body acc x) as [acc'|e]; cbn [rbind]; [by apply IH|].
      by exists e.
Qed.

Section RequestResources.
Context `{Collaborators}.

(** While resources are requested, a worker of a node type that is no
    longer in [available_node_types] stops the enforcement of the
    configuration: [terminate_nodes_to_enforce_config_constraints] raises
    before its loop, from [_get_nodes_needed_for_request_resources], and
    changes nothing; no worker is scheduled, not even that one, which
    without requested resources is terminated for its type. *)
Theorem deleted_node_type_stops_enforcement
    (now : Z) (s : Scaler) (p : Provider) (ntn : NonTerminatedNodes)
    (ant : odict NodeTypeConfig) (worker : NodeID) (node_type : NodeType) :
  provider s = Some p ->
  non_terminated s = Some ntn ->
  available_node_types s = Some ant ->
  resource_requests (load_metrics s) <> [] ->
  worker ∈ worker_ids ntn ->
  node_tags p worker !! CLOUDTIK_TAG_USER_NODE_TYPE = Some node_type ->
  OD.get node_type ant = None ->
  exists e,
    terminate_nodes_to_enforce_config_constraints now s = (s, Raise e).
Proof.
  intros Hp Hntn Hant Hreq Hin Htag Hmissing.
  unfold terminate_nodes_to_enforce_config_constraints.
  unfold bind at 1. unfold lift at 1.
  assert (exists e, enforce_prologue now s = Raise e) as [e ->];
    [|by exists e].
  unfold enforce_prologue.
  destruct (the_config s) as [cfg|e]; cbn [rbind]; [|by eauto].
  destruct (subscript _ _) as [idle|e]; cbn [rbind]; [|by eauto].
  unfold the_non_terminated_nodes. rewrite Hntn. cbn [attribute rbind].
  unfold _sort_based_on_last_used, the_provider at 1. rewrite Hp.
  cbn [attribute rbind].
  set (sorted := sorted_reverse _ _).
  assert (Hsorted : worker ∈ sorted).
  { subst sorted. by rewrite sorted_reverse_perm. }
  destruct (resource_requests (load_metrics s)) as [|req reqs]; [done|].
  assert (exists e, _get_nodes_needed_for_request_resources s sorted
                    = Raise e) as [e ->]; [|by eauto].
  unfold _get_nodes_needed_for_request_resources.
  destruct (the_config s) as [cfg'|e]; cbn [rbind]; [|by eauto].
  destruct (subscript "head_node_type" _) as [h|e]; cbn [rbind]; [|by eauto].
  unfold the_available_node_types at 1. rewrite Hant.
  cbn [attribute rbind].
  destruct (subscript h _) as [hc|e]; cbn [rbind]; [|by eauto].
  destruct (subscript "resources" _) as [hr|e]; cbn [rbind]; [|by eauto].
  match goal with |- context [rbind ?r _] =>
    destruct r as [head_resources|e]; cbn [rbind]; [|by eauto] end.
  match goal with |- context [rfor_fold sorted ?acc0 ?body] =>
    assert (Hbody : forall acc, exists e, body acc worker = Raise e);
      [|destruct (rfor_fold_raises body sorted worker Hsorted Hbody acc0)
          as [e ->]; by eauto]
  end.
  intros [mx ids]. unfold the_provider. rewrite Hp. cbn [attribute rbind].
  rewrite Htag. unfold the_available_node_types. rewrite Hant.
  cbn [attribute rbind]. rewrite Hmissing. cbn. by eauto.
Qed.
End RequestResources.

Lemma deleted_node_type_stops_enforcement_witness :
  let s := Samples.deleted_type_scaler in
  provider s = Some Samples.deleted_type_cloud /\
  resource_requests (load_metrics s) <> [] /\
  "old" ∈ worker_ids Samples.deleted_type_views /\
  node_tags Samples.deleted_type_cloud "old" !! CLOUDTIK_TAG_USER_NODE_TYPE
    = Some "gone" /\
  exists e,
    @terminate_nodes_to_enforce_config_constraints Sample.collaborators 1000 s
      = (s, Raise e).
Proof.
  cbv zeta.
  assert (Hin : "old" ∈ worker_ids Samples.deleted_type_views).
  { cbn. apply elem_of_cons. right. apply elem_of_cons. by left. }
  split_and!; [reflexivity | discriminate | exact Hin | reflexivity |].
  exact (@deleted_node_type_stops_enforcement Sample.collaborators 1000
           Samples.deleted_type_scaler Samples.deleted_type_cloud
           Samples.deleted_type_views
           [("head", Sample.head_type); ("w", Sample.worker_type)]
           "old" "gone" eq_refl eq_refl eq_refl
           ltac:(discriminate) Hin eq_refl eq_refl).
Defined.


Section NeededNodes.
Context `{Collaborators}.

End NeededNodes.


(** ** The settings of the updater of a node *)

(** The docker settings for a node.  Without a "docker" section in the
    configuration they are empty, whatever the node type says.  With one,
    the settings of the node's type are laid over those of the
    configuration: a key of the type's section has the type's value, any
    other key the value of the configuration; a worker whose type has no
    "docker" section, or that has no [user_node_type] tag, gets the
    settings of the configuration; and a [user_node_type] that is not in
    [available_node_types] is a [ValueError]. *)
Theorem docker_config_of_node (s : Scaler) (cfg : Config) (p : Provider)
    (ant : odict NodeTypeConfig) (node_id : NodeID) :
  config s = Some cfg ->
  provider s = Some p ->
  available_node_types s = Some ant ->
  match cfg_docker cfg with
  | None => _get_node_specific_docker_config s node_id = Ok ∅
  | Some docker =>
      match node_tags p node_id !! CLOUDTIK_TAG_USER_NODE_TYPE with
      | None => _get_node_specific_docker_config s node_id = Ok docker
      | Some node_type =>
          match OD.get node_type ant with
          | None =>
              _get_node_specific_docker_config s node_id =
              Raise (ValueError
                       ("Unknown node type tag: " +:+ node_type +:+ "."))
          | Some type_config =>
              exists settings,
                _get_node_specific_docker_config s node_id = Ok settings /\
                forall key,
                  settings !! key =
                  match nt_docker type_config ≫= (.!! key) with
                  | Some value => Some value
                  | None => docker !! key
                  end
          end
      end
  end.
Proof.
  intros Hcfg Hp Hant.
  unfold _get_node_specific_docker_config, _get_node_type_specific_fields.
  unfold the_config, the_provider, the_available_node_types.
  rewrite Hcfg, Hp, Hant. cbn [attribute rbind].
  destruct (cfg_docker cfg) as [docker|]; [|done].
  cbn [subscript rbind].
  destruct (node_tags p node_id !! CLOUDTIK_TAG_USER_NODE_TYPE) as [t|].
  - destruct (OD.get t ant) as [tc|]; [|done].
    destruct (nt_docker tc) as [own|]; cbn [rbind].
    + eexists. split; [reflexivity|]. intros key.
      rewrite lookup_union. cbn.
      destruct (own !! key), (docker !! key); done.
    + exists docker. split; [by rewrite map_union_idemp|done].
  - cbn [rbind]. by rewrite map_union_idemp.
Qed.

Lemma docker_config_of_node_witness :
  let s := Sample.two_workers_scaler Sample.valid_config in
  config s = Some Sample.valid_config /\
  provider s = Some Sample.two_workers /\
  available_node_types s
    = Some [("head", Sample.head_type); ("w", Sample.worker_type)] /\
  _get_node_specific_docker_config s "w1" = Ok ∅.
Proof.
  cbv zeta. split_and!; [reflexivity..|].
  exact (docker_config_of_node
           (Sample.two_workers_scaler Sample.valid_config)
           Sample.valid_config Sample.two_workers
           [("head", Sample.head_type); ("w", Sample.worker_type)] "w1"
           eq_refl eq_refl eq_refl).
Defined.

(** ** The commands of an update *)

Section UpdateCommands.
Context `{Collaborators}.

Lemma can_update_reads (node_id : NodeID) :
  always (unchanged commands_view) (can_update node_id).
Proof. unfold can_update. repeat always_step; reflexivity. Qed.

Lemma files_up_to_date_reads (node_id : NodeID) :
  always (unchanged commands_view) (files_up_to_date node_id).
Proof. unfold files_up_to_date. repeat always_step; reflexivity. Qed.

Lemma node_type_specific_fields_reads {A} (s s' : Scaler)
    (node_id : NodeID) (fields_key : string)
    (of_config : Config -> option A) (of_type : NodeTypeConfig -> option A) :
  commands_view s' = commands_view s ->
  _get_node_type_specific_fields s' node_id fields_key of_config of_type =
  _get_node_type_specific_fields s node_id fields_key of_config of_type.
Proof.
  intros [= Hcfg Hp Hant _].
  unfold _get_node_type_specific_fields, the_config, the_provider,
    the_available_node_types.
  by rewrite Hcfg, Hp, Hant.
Qed.

(** The commands [should_update] asks for.  [restart_only] and
    [no_restart] count only for a node that has been updated with
    success before: the first update of a node runs the setup commands
    of its type and the start commands of the configuration, whatever
    the two say.  After a successful update [restart_only] leaves the
    setup commands out, also when [no_restart] is set as well, and
    [no_restart] without [restart_only] leaves the start commands
    out. *)
Theorem should_update_commands (node_id : NodeID) (s : Scaler)
    (cfg : Config) (ui : UpdateInstructions) :
  config s = Some cfg ->
  (should_update node_id s).2 = Ok (Some ui) ->
  let updated_before :=
    0 <? default 0 (num_successful_updates s !! node_id) in
  let setup_of_type :=
    _get_node_type_specific_fields s node_id "worker_setup_commands"
      cfg_worker_setup_commands nt_worker_setup_commands in
  let start_of_config := cfg_worker_start_commands cfg in
  (updated_before = false ->
   setup_of_type = Ok (ui_setup_commands ui) /\
   start_of_config = Some (ui_start_commands ui)) /\
  (updated_before = true -> cfg_restart_only cfg = Some true ->
   ui_setup_commands ui = [] /\
   start_of_config = Some (ui_start_commands ui)) /\
  (updated_before = true -> default false (cfg_restart_only cfg) = false ->
   cfg_no_restart cfg = Some true ->
   setup_of_type = Ok (ui_setup_commands ui) /\
   ui_start_commands ui = []).
Proof.
  intros Hcfg. cbv zeta. unfold should_update. unfold bind at 1.
  pose proof (can_update_reads node_id s) as Hs1.
  destruct (can_update node_id s) as [s1 [[]|e]]; cbn [negb fst] in *;
    try done.
  unfold bind at 1. unfold lift at 1.
  destruct (the_provider s1) as [p|]; [|done].
  unfold bind at 1.
  match goal with
  | |- context [match ?m s1 with (_, _) => _ end] =>
      assert (Hs2 : always (unchanged commands_view) m)
        by (destruct (bool_decide _);
            [apply files_up_to_date_reads | always_step]);
      specialize (Hs2 s1); destruct (m s1) as [s2 [[]|e]]
  end; cbn [fst] in Hs2; try done.
  assert (Hview : commands_view s2 = commands_view s)
    by (unfold unchanged in *; congruence).
  pose proof Hview as [= Hcfg2 _ _ Hnum].
  unfold bind at 1. unfold lift at 1. unfold the_config at 1.
  rewrite Hcfg2, Hcfg. cbn [attribute].
  unfold bind at 1. unfold gets at 1. rewrite Hnum.
  unfold bind at 1. unfold lift at 1.
  rewrite (node_type_specific_fields_reads s s2) by exact Hview.
  destruct (0 <? default 0 (num_successful_updates s !! node_id));
    cbn [andb].
  - destruct (cfg_restart_only cfg) as [[]|]; cbn [default];
      [|destruct (cfg_no_restart cfg) as [[]|]; cbn [default]..].
    all: destruct (cfg_worker_start_commands cfg) as [start|];
      cbn [subscript rbind]; try done.
    all: destruct (_get_node_type_specific_fields s node_id _ _ _)
      as [setup|]; cbn [rbind]; try done.
    all: unfold bind at 1; unfold lift at 1.
    all: destruct (_get_node_specific_docker_config s2 node_id); [|done].
    all: cbn; intros [= <-]; cbn; split_and!; intros; try done.
  - destruct (_get_node_type_specific_fields s node_id _ _ _)
      as [setup|]; cbn [rbind]; [|done].
    destruct (cfg_worker_start_commands cfg) as [start|];
      cbn [subscript rbind]; [|done].
    unfold bind at 1. unfold lift at 1.
    destruct (_get_node_specific_docker_config s2 node_id); [|done].
    cbn. intros [= <-]. cbn. split_and!; intros; done.
Qed.
End UpdateCommands.

Lemma should_update_commands_witness :
  let s := Samples.restart_only_scaler in
  let again := {| ui_node_id := "w1"; ui_setup_commands := [];
                  ui_start_commands := ["start"]; ui_docker_config := ∅ |} in
  let first := {| ui_node_id := "w2"; ui_setup_commands := ["setup"];
                  ui_start_commands := ["start"]; ui_docker_config := ∅ |} in
  (@should_update Sample.collaborators "w1" s).2 = Ok (Some again) /\
  (@should_update Sample.collaborators "w2" s).2 = Ok (Some first) /\
  (ui_setup_commands again = [] /\
   cfg_worker_start_commands Samples.restart_only_config
     = Some (ui_start_commands again)) /\
  (_get_node_type_specific_fields s "w2" "worker_setup_commands"
     cfg_worker_setup_commands nt_worker_setup_commands
     = Ok (ui_setup_commands first) /\
   cfg_worker_start_commands Samples.restart_only_config
     = Some (ui_start_commands first)).
Proof.
  cbv zeta.
  assert (Hagain : (@should_update Sample.collaborators "w1"
                      Samples.restart_only_scaler).2 = Ok (Some _))
    by (vm_compute; reflexivity).
  assert (Hfirst : (@should_update Sample.collaborators "w2"
                      Samples.restart_only_scaler).2 = Ok (Some _))
    by (vm_compute; reflexivity).
  split; [exact Hagain|]. split; [exact Hfirst|]. split.
  - exact (proj1 (proj2 (@should_update_commands Sample.collaborators "w1"
                           Samples.restart_only_scaler
                           Samples.restart_only_config _ eq_refl Hagain))
             eq_refl eq_refl).
  - exact (proj1 (@should_update_commands Sample.collaborators "w2"
                    Samples.restart_only_scaler
                    Samples.restart_only_config _ eq_refl Hfirst)
             eq_refl).
Defined.

(** ** The summary *)

Lemma counted_set (node_type : string) (counter : odict Z) :
  counted (OD.set node_type (default 0 (OD.get node_type counter) + 1) counter)
  = counted counter + 1.
Proof.
  unfold counted, OD.values.
  induction counter as [|[k v] counter IH]; cbn; [lia|].
  destruct (decide (node_type = k)); cbn; [lia|].
  unfold OD.values in IH. lia.
Qed.

Lemma summary_body_counts (s : Scaler) (p : Provider) (ntn : NonTerminatedNodes)
    (nodes : list NodeID)
    (locals : odict Z * list (NodeIP * NodeType * string) * list NodeID) :
  nodes ⊆ all_node_ids ntn ->
  Forall (pending_entry p ntn) locals.1.2 ->
  let out := fold_left (summary_body s p) nodes locals in
  counted out.1.1 + Z.of_nat (length out.1.2)
    <= counted locals.1.1 + Z.of_nat (length locals.1.2) + Z.of_nat (length nodes) /\
  Forall (pending_entry p ntn) out.1.2.
Proof.
  cbv zeta. revert locals.
  induction nodes as [|node_id nodes IH]; intros locals Hin Hpending.
  { cbn. split; [lia|done]. }
  cbn [fold_left].
  assert (Hnode : node_id ∈ all_node_ids ntn) by (apply Hin; left).
  assert (Hrest : nodes ⊆ all_node_ids ntn)
    by (intros x Hx; apply Hin; by right).
  destruct locals as [[active pending] non_failed]. cbn [fst snd] in *.
  assert (Hstep :
    counted (summary_body s p (active, pending, non_failed) node_id).1.1 +
    Z.of_nat (length (summary_body s p (active, pending, non_failed) node_id).1.2)
      <= counted active + Z.of_nat (length pending) + 1 /\
    Forall (pending_entry p ntn)
      (summary_body s p (active, pending, non_failed) node_id).1.2).
  { unfold summary_body.
    destruct (node_tags p node_id !! CLOUDTIK_TAG_NODE_KIND) as [kind|] eqn:Hkind;
      [|cbn [fst snd]; split; [lia|done]].
    destruct (node_tags p node_id !! CLOUDTIK_TAG_USER_NODE_TYPE)
      as [node_type|] eqn:Htype; [|cbn [fst snd]; split; [lia|done]].
    destruct (node_tags p node_id !! CLOUDTIK_TAG_NODE_STATUS)
      as [status|] eqn:Hstatus; [|cbn [fst snd]; split; [lia|done]].
    destruct (bool_decide_reflect (kind = NODE_KIND_UNMANAGED)) as [|Hkind'];
      [cbn [fst snd]; split; [lia|done]|].
    destruct (is_active _ _).
    { cbn [fst snd]. rewrite counted_set. split; [lia|done]. }
    destruct (bool_decide_reflect
                (status ∉ [STATUS_UP_TO_DATE; STATUS_UPDATE_FAILED]))
      as [Hstatus'|]; [|cbn [fst snd]; split; [lia|done]].
    cbn [fst snd]. rewrite length_app. cbn [length]. split; [lia|].
    apply Forall_app. split; [done|]. apply Forall_singleton.
    exists node_id. cbn [fst snd]. split_and!; try done.
    - rewrite Hkind. congruence.
    - intros ->. apply Hstatus'. left.
    - intros ->. apply Hstatus'. right. left. }
  destruct Hstep as [Hcount Hentries].
  destruct (IH _ Hrest Hentries) as [Hcount' Hentries'].
  split; [|done]. cbn [length]. lia.
Qed.

(** What [summary] reports.  The nodes it counts as active and the nodes it
    lists as pending are together no more than the nodes the scaler has
    listed.  A pending entry is the ip, type and status of a listed node
    that has its three tags, is not unmanaged, and whose status is neither
    "up-to-date" nor "update-failed".  And no pending launch is reported
    with a count of zero. *)
Theorem summary_accounts_for_listed_nodes (s : Scaler) (p : Provider)
    (ntn : NonTerminatedNodes) (report : ClusterScalerSummary) :
  provider s = Some p ->
  non_terminated s = Some ntn ->
  summary s = Ok report ->
  counted (active_nodes report) + Z.of_nat (length (pending_nodes report))
    <= Z.of_nat (length (all_node_ids ntn)) /\
  Forall (pending_entry p ntn) (pending_nodes report) /\
  Forall (fun launch => launch.2 ≠ 0) (summary_pending_launches report).
Proof.
  intros Hp Hntn. unfold summary, the_non_terminated_nodes, the_provider.
  rewrite Hp, Hntn. cbn [attribute rbind].
  pose proof (summary_body_counts s p ntn (all_node_ids ntn) ([], [], [])) as H.
  cbv zeta in H. cbn [fst snd] in H.
  destruct (fold_left _ _ _) as [[active pending] non_failed].
  intros [= <-]. cbn [active_nodes pending_nodes summary_pending_launches].
  destruct H as [Hcount Hentries]; [done|done|].
  cbn [fst snd] in *. split_and!.
  - unfold counted in Hcount at 2. cbn in Hcount. lia.
  - done.
  - apply Forall_forall. intros launch Hin.
    by apply list_elem_of_filter in Hin as [? _].
Qed.

Lemma summary_accounts_for_listed_nodes_witness :
  exists report,
    summary Samples.restart_only_scaler = Ok report /\
    counted (active_nodes report) + Z.of_nat (length (pending_nodes report))
      <= Z.of_nat (length (all_node_ids Samples.setting_up_views)) /\
    Forall (pending_entry Samples.setting_up_cloud Samples.setting_up_views)
      (pending_nodes report) /\
    Forall (fun launch => launch.2 ≠ 0) (summary_pending_launches report).
Proof.
  destruct (summary Samples.restart_only_scaler) as [report|e] eqn:Hsummary.
  - exists report. split; [reflexivity|].
    exact (summary_accounts_for_listed_nodes Samples.restart_only_scaler
             Samples.setting_up_cloud Samples.setting_up_views report
             eq_refl eq_refl Hsummary).
  - exfalso. vm_compute in Hsummary. discriminate Hsummary.
Defined.

(** * The registry of node providers *)

Section ProviderRegistry.
Import Providers.
Import Stdlib.Strings.Ascii.
Context `{Imports}.

(** ** Splitting a path *)

Lemma split_nonempty (sep : ascii) (s : string) : split sep s ≠ [].
Proof.
  induction s as [|c rest IH]; cbn; [done|].
  destruct (Ascii.eqb c sep); [done|].
  by destruct (split sep rest).
Qed.

Lemma join_cons (part : string) (parts : list string) :
  parts ≠ [] ->
  join "." (part :: parts) = part +:+ "." +:+ join "." parts.
Proof. by destruct parts. Qed.

Lemma join_split (s : string) : join "." (split "." s) = s.
Proof.
  induction s as [|c rest IH]; [done|]. cbn [split].
  destruct (Ascii.eqb_spec c ".") as [->|Hc].
  - rewrite join_cons by apply split_nonempty. by rewrite IH.
  - pose proof (split_nonempty "." rest) as Hne.
    destruct (split "." rest) as [|part parts]; [done|].
    rewrite <- IH. destruct parts as [|part' parts]; [reflexivity|].
    rewrite !join_cons by done. reflexivity.
Qed.

Lemma split_dotless (s : string) : dotless s -> split "." s = [s].
Proof.
  unfold dotless. induction s as [|c rest IH]; [done|].
  cbn [split list_ascii_of_string]. intros Hdot.
  apply not_elem_of_cons in Hdot as [Hc Hrest].
  destruct (Ascii.eqb_spec c ".") as [->|_]; [done|].
  by rewrite IH.
Qed.

Lemma split_app (module_path class_str : string) :
  dotless class_str ->
  split "." (module_path +:+ "." +:+ class_str)
  = split "." module_path ++ [class_str].
Proof.
  intros Hdot.
  induction module_path as [|c rest IH].
  - change (split "." (String "." class_str)
            = [EmptyString] ++ [class_str]).
    cbn [split]. rewrite Ascii.eqb_refl, split_dotless by done.
    reflexivity.
  - change (String c rest +:+ "." +:+ class_str)
      with (String c (rest +:+ "." +:+ class_str)).
    cbn [split]. rewrite IH.
    destruct (Ascii.eqb c "."); [done|].
    pose proof (split_nonempty "." rest) as Hne.
    by destruct (split "." rest).
Qed.

Lemma dotless_or_split (path : string) :
  dotless path \/
  exists module_path class_str,
    path = module_path +:+ "." +:+ class_str /\ dotless class_str.
Proof.
  induction path as [|c rest IH].
  - left. unfold dotless. cbn. apply not_elem_of_nil.
  - destruct IH as [Hrest|(m & cl & -> & Hcl)].
    + destruct (Ascii.eqb_spec c ".") as [->|Hc].
      * right. exists EmptyString, rest. done.
      * left. unfold dotless in *. cbn.
        apply not_elem_of_cons. done.
    + right. exists (String c m), cl. done.
Qed.

(** [_load_class] splits a path at its last dot.  A path without a dot
    is a [ValueError], and nothing is imported.  For a path
    [module_path.class_str], where [class_str] has no dot, the module
    [module_path] is imported and its attribute [class_str] is the
    result.  Every path is of one of the two kinds. *)
Theorem load_class_splits_at_last_dot (path : string) :
  (dotless path ->
   _load_class path =
   Throw (Builtin (ValueError
     "You need to pass a valid path like mymodule.provider_class"))) /\
  (forall module_path class_str,
     path = module_path +:+ "." +:+ class_str ->
     dotless class_str ->
     _load_class path =
     (module <- import_module module_path ;;
      getattr module class_str)%out) /\
  (dotless path \/
   exists module_path class_str,
     path = module_path +:+ "." +:+ class_str /\ dotless class_str).
Proof.
  split_and!.
  - intros Hdot. unfold _load_class. by rewrite split_dotless.
  - intros module_path class_str -> Hdot. unfold _load_class.
    rewrite split_app by done.
    pose proof (split_nonempty "." module_path) as Hne.
    rewrite length_app. cbn [length].
    destruct (Nat.ltb_spec (length (split "." module_path) + 1) 2)
      as [Hshort|_].
    { destruct (split "." module_path); [done|]. cbn in Hshort. lia. }
    replace (length (split "." module_path) + 1 - 1)%nat
      with (length (split "." module_path)) by lia.
    rewrite take_app_length, last_snoc, join_split. done.
  - apply dotless_or_split.
Qed.

(** ** The cache *)

Lemma get_node_provider_keeps (provider_config : ProviderSection)
    (cluster_name : string) (use_cache : bool) (st : Registry)
    (key : string * string) (ref : nat) :
  _provider_instances st !! key = Some ref ->
  _provider_instances
    (_get_node_provider provider_config cluster_name use_cache st).1 !! key
  = Some ref.
Proof.
  intros Hkey. unfold _get_node_provider.
  destruct (if use_cache then _ else None) as [cached|] eqn:Hcached;
    [done|].
  destruct (_get_node_provider_cls provider_config) as [cls|e]; [|done].
  destruct (construct cls provider_config cluster_name) as [object|e];
    [|done].
  cbn. destruct use_cache; [|done].
  rewrite lookup_insert_ne; [done|]. intros <-. congruence.
Qed.

Lemma registry_steps_keep (st st' : Registry) (key : string * string)
    (ref : nat) :
  rtc registry_step st st' ->
  _provider_instances st !! key = Some ref ->
  _provider_instances st' !! key = Some ref.
Proof.
  induction 1 as [|st st1 st' Hstep _ IH]; [done|].
  intros Hkey. apply IH. destruct Hstep.
  by apply get_node_provider_keeps.
Qed.

(** A provider that [_get_node_provider] has returned with the cache in
    use is the one every later call with the cache returns for the same
    cluster name and a provider section with the same JSON text, whatever
    calls of [_get_node_provider] are made in between; such a call
    constructs nothing and leaves the cache as it is. *)
Theorem cached_provider_is_reused (provider_config : ProviderSection)
    (cluster_name : string) (st st' st'' : Registry) (provider : nat)
    (provider_config' : ProviderSection) :
  _get_node_provider provider_config cluster_name true st
    = (st', Return provider) ->
  rtc registry_step st' st'' ->
  json_dumps provider_config' = json_dumps provider_config ->
  _get_node_provider provider_config' cluster_name true st''
    = (st'', Return provider).
Proof.
  intros Hget Hsteps Hdumps.
  assert (Hcached : _provider_instances st'
                      !! (json_dumps provider_config, cluster_name)
                    = Some provider).
  { revert Hget. unfold _get_node_provider.
    destruct (_provider_instances st !! _) as [cached|] eqn:Hcached.
    { intros [= <- <-]. done. }
    destruct (_get_node_provider_cls provider_config) as [cls|e]; [|done].
    destruct (construct cls provider_config cluster_name) as [object|e];
      [|done].
    intros [= <- <-]. cbn. apply lookup_insert_eq. }
  eapply registry_steps_keep in Hcached; [|exact Hsteps].
  unfold _get_node_provider. by rewrite Hdumps, Hcached.
Qed.

(** A call without the cache leaves the cache as it is.  When it returns
    a provider, that is a newly constructed object, none of those the
    cache holds.  The same goes, apart from the cache, for a call with
    the cache after [_clear_provider_cache]: the provider is constructed
    anew, and the cache then holds this provider alone. *)
Theorem uncached_provider_is_new (provider_config : ProviderSection)
    (cluster_name : string) (st st' : Registry) (provider : nat) :
  registry_ok st ->
  (_get_node_provider provider_config cluster_name false st
     = (st', Return provider) ->
   _provider_instances st' = _provider_instances st /\
   provider = length (objects st) /\
   (exists object, objects st' = objects st ++ [object]) /\
   (forall key, _provider_instances st !! key ≠ Some provider) /\
   registry_ok st') /\
  (_get_node_provider provider_config cluster_name true
     (_clear_provider_cache st) = (st', Return provider) ->
   _provider_instances st'
     = {[ (json_dumps provider_config, cluster_name) := provider ]} /\
   provider = length (objects st) /\
   (exists object, objects st' = objects st ++ [object]) /\
   (forall key, _provider_instances st !! key ≠ Some provider) /\
   registry_ok st').
Proof.
  intros Hok.
  assert (Hnew : forall key,
            _provider_instances st !! key ≠ Some (length (objects st))).
  { intros key Hkey. apply Hok in Hkey. lia. }
  split.
  - unfold _get_node_provider.
    destruct (_get_node_provider_cls provider_config) as [cls|e]; [|done].
    destruct (construct cls provider_config cluster_name) as [object|e];
      [|done].
    intros [= <- <-]. cbn. split_and!; eauto.
    intros key ref Hkey. cbn in *. rewrite length_app. cbn.
    apply Hok in Hkey. lia.
  - unfold _get_node_provider, _clear_provider_cache. cbn.
    rewrite lookup_empty.
    destruct (_get_node_provider_cls provider_config) as [cls|e]; [|done].
    destruct (construct cls provider_config cluster_name) as [object|e];
      [|done].
    intros [= <- <-]. cbn. split_and!; eauto.
    intros key ref. cbn. rewrite length_app. cbn.
    intros [[_ <-] | [_ Hempty]]%lookup_insert_Some; [lia|].
    by rewrite lookup_empty in Hempty.
Qed.

(** A call that raises changes nothing: no provider is cached and none
    is constructed.  When the call is not answered from the cache, a
    provider section without "type" is a [KeyError], and one whose type
    is none of "local", "aws", "gcp", "azure", "kubernetes" and
    "external" is a [NotImplementedError] that names the type. *)
Theorem failed_request_changes_nothing (provider_config : ProviderSection)
    (cluster_name : string) (use_cache : bool) (st : Registry) :
  (forall st' e,
     _get_node_provider provider_config cluster_name use_cache st
       = (st', Throw e) -> st' = st) /\
  ((if use_cache
    then _provider_instances st
           !! (json_dumps provider_config, cluster_name)
    else None) = None ->
   match provider_config !! "type" with
   | None =>
       _get_node_provider provider_config cluster_name use_cache st
       = (st, Throw (Builtin (KeyError "type")))
   | Some type =>
       type ∉ ["local"; "aws"; "gcp"; "azure"; "kubernetes"; "external"] ->
       _get_node_provider provider_config cluster_name use_cache st
       = (st, Throw (NotImplementedError
                       ("Unsupported node provider: " +:+ type)))
   end).
Proof.
  split.
  - intros st' e. unfold _get_node_provider.
    destruct (if use_cache then _ else None) as [cached|]; [done|].
    destruct (_get_node_provider_cls provider_config) as [cls|e'];
      [|by intros [= <- _]].
    destruct (construct cls provider_config cluster_name) as [object|e'];
      [done|by intros [= <- _]].
  - intros Hmiss. unfold _get_node_provider. rewrite Hmiss.
    unfold _get_node_provider_cls, item.
    destruct (provider_config !! "type") as [type|]; [|done].
    intros Hnot. cbn [obind].
    assert (Hget : OD.get type _NODE_PROVIDERS = None).
    { unfold _NODE_PROVIDERS. cbn [OD.get].
      repeat (destruct (decide _) as [->|_];
              [exfalso; apply Hnot; repeat constructor|]).
      done. }
    by rewrite Hget.
Qed.
End ProviderRegistry.

Lemma load_class_splits_at_last_dot_witness :
  Providers.dotless "myclass" /\
  @Providers._load_class Samples.imports "mypkg.mysubpkg.myclass"
    = Providers.Return ("mypkg.mysubpkg", "myclass") /\
  @Providers._load_class Samples.imports "myclass"
    = Providers.Throw (Providers.Builtin (ValueError
        "You need to pass a valid path like mymodule.provider_class")).
Proof.
  assert (Hdot : Providers.dotless "myclass").
  { unfold Providers.dotless. apply (bool_decide_unpack _).
    vm_compute. exact I. }
  split; [exact Hdot|]. split.
  - exact (proj1 (proj2 (@load_class_splits_at_last_dot Samples.imports
                           "mypkg.mysubpkg.myclass"))
             "mypkg.mysubpkg" "myclass" eq_refl Hdot).
  - exact (proj1 (@load_class_splits_at_last_dot Samples.imports "myclass")
             Hdot).
Defined.

Lemma cached_provider_is_reused_witness :
  let st' := (Providers._get_node_provider Samples.aws_section "sample" true
                Samples.empty_registry).1 in
  let st'' := (Providers._get_node_provider Samples.external_section "other"
                 true st').1 in
  Providers._get_node_provider Samples.aws_section "sample" true
    Samples.empty_registry = (st', Providers.Return 0%nat) /\
  rtc Providers.registry_step st' st'' /\
  Providers._get_node_provider Samples.aws_section "sample" true st''
    = (st'', Providers.Return 0%nat).
Proof.
  cbv zeta.
  assert (Hfirst :
    Providers._get_node_provider Samples.aws_section "sample" true
      Samples.empty_registry
    = ((Providers._get_node_provider Samples.aws_section "sample" true
          Samples.empty_registry).1, Providers.Return 0%nat))
    by reflexivity.
  assert (Hsteps :
    rtc Providers.registry_step
      (Providers._get_node_provider Samples.aws_section "sample" true
         Samples.empty_registry).1
      (Providers._get_node_provider Samples.external_section "other" true
         (Providers._get_node_provider Samples.aws_section "sample" true
            Samples.empty_registry).1).1).
  { eapply rtc_l; [apply Providers.step_get_node_provider | apply rtc_refl]. }
  split; [exact Hfirst|]. split; [exact Hsteps|].
  exact (@cached_provider_is_reused Samples.imports Samples.aws_section
           "sample" Samples.empty_registry _ _ 0%nat Samples.aws_section
           Hfirst Hsteps eq_refl).
Defined.

Lemma uncached_provider_is_new_witness :
  let st' := (Providers._get_node_provider Samples.aws_section "sample" false
                Samples.empty_registry).1 in
  Providers.registry_ok Samples.empty_registry /\
  Providers._provider_instances st' = ∅ /\
  Providers.registry_ok st'.
Proof.
  cbv zeta.
  assert (Hok : Providers.registry_ok Samples.empty_registry).
  { intros key ref Hkey. cbn in Hkey. by rewrite lookup_empty in Hkey. }
  destruct (proj1 (@uncached_provider_is_new Samples.imports
                     Samples.aws_section "sample" Samples.empty_registry
                     (Providers._get_node_provider Samples.aws_section
                        "sample" false Samples.empty_registry).1
                     0%nat Hok) eq_refl)
    as (Hcache & _ & _ & _ & Hok').
  split; [exact Hok|]. split; [exact Hcache | exact Hok'].
Defined.

Lemma failed_request_changes_nothing_witness :
  Providers._get_node_provider Samples.unsupported_section "sample" true
    Samples.empty_registry
  = (Samples.empty_registry,
     Providers.Throw (Providers.NotImplementedError
                        "Unsupported node provider: openstack")).
Proof.
  pose proof (proj2 (@failed_request_changes_nothing Samples.imports
                       Samples.unsupported_section "sample" true
                       Samples.empty_registry) eq_refl) as Hraise.
  assert (Htype : Samples.unsupported_section !! "type" = Some "openstack")
    by reflexivity.
  rewrite Htype in Hraise. apply Hraise.
  apply (bool_decide_unpack _). vm_compute. exact I.
Defined.
